(* ===== verification/_CoqProject ===== *)
-Q . S2P
Agent.v
Prelude.v
GoStrings.v
GoNet.v
GoJson.v
Paths.v
Monitor.v
Observer.v
Reasons.v
Renotify.v
Registry.v
Examples.v
Exporter.v
ExporterSpec.v
Manager.v
Probe.v
ProbeSpec.v
Classify.v
Codegen.v
Nvml.v
NvmlPolicy.v
NvmlHealth.v
Inflight.v
NvmlReader.v
NvmlDevices.v
NvmlSetup.v
Config.v
ContextLock.v
NodeDiag.v
DeepCopy.v
Controller.v
GoFloat.v
GoRegexp.v
Osext.v
IPRoutes.v
Iptables.v
Storage.v
Nvme.v
Networking.v
NetHost.v
Kernel.v
Runtime.v
PacketCapture.v
CaptureRun.v
ExecPath.v
HostLinks.v
ObserverLoop.v
Subscription.v
Neuron.v
Dcgm.v
Forward.v
InstanceInfo.v
InstanceTable.v
DcgmSystem.v
NvidiaMonitor.v
Top.v
Accessor.v
HostCollectors.v
Web.v
NetCollectors.v
HostDocs.v
NetMonitor.v
Startup.v
Plugins.v
Wiring.v
System.v
LogCollection.v
Console.v
Process.v
