(* ===== verification/Agent.v ===== *)
(** * The EKS node monitoring agent: a verification development

    ** The program

    The agent runs on every node of a cluster.  Monitors (kernel, networking,
    storage, container runtime, NVIDIA, Neuron) look for faults and hand
    [Condition]s to the manager; observers feed them lines of logs; probes poll local
    services on their behalf.  The manager counts occurrences, keeps metrics, and
    passes conditions to the exporter, which turns fatal ones into conditions of the
    Kubernetes node and others into events.  A separate controller serves
    NodeDiagnostic resources: log and packet captures on demand.

    ** The files

    - [Prelude]: results with errors, machine integers, times and durations, tactics
      and list lemmas.  [GoStrings]: the functions of [strings], [strconv] and [fmt]
      the code calls, as executable functions on bytes.  [GoNet]: addresses.  [GoJson]:
      UTF-8, JSON texts, their parser and the decoding into structs, with the round trips
      of strings.  [GoFloat]:
      float64 and its printing.  [GoRegexp]: a backtracking matcher for the regular
      expressions of the monitors, sound and complete for what they denote.  [Osext]:
      numbers in the files of the kernel ([pkg/osext]).
    - [Paths]: host paths ([pkg/config/hostpath.go], [pkg/pathlib]).
    - [Monitor], [Reasons], [Renotify]: conditions and their types
      ([api/monitor], [pkg/conditions]), the table of reasons and the condition
      builder ([pkg/reasons]), the re-notification tracker ([pkg/util/renotify]).
    - [Observer], [ObserverLoop]: subscriptions, broadcast and the file reader
      ([pkg/observer]); the watch of a file that is created again, and the journal with
      the handles it opens and closes.
    - [Registry]: plugins, their registration and validation
      ([pkg/monitor/registry], [pkg/monitor/framework]).  [Plugins]: the plugins of the
      agent and the initialisations that register them; [Examples]: those of [examples].
    - [Exporter], [ExporterSpec]: [pkg/manager/node_exporter.go]; the state, its
      operations, the report to the API server, and the abstract specification of a
      node condition, which the exporter refines.
    - [Manager]: [pkg/manager/manager.go]; the loop, the occurrence counters, the
      gauges and the subscriptions, against a class of exporters ([ExporterOps]) that
      the node exporter instantiates.
    - [Probe], [ProbeSpec]: [api/probe] and [pkg/probe]; specs and their validation,
      the transports, the runner; and what its notifications do to the exporter.
    - [Classify]: [monitors/nvidia/classify]; GPU signals to conditions.  [Codegen]:
      [tools]; the generators of the table of reasons and of its documentation.
    - [Nvml], [NvmlPolicy], [NvmlHealth], [NvmlDevices]: [monitors/nvidia/nvml];
      return codes and readings, the policy counters and levels, the health codes,
      the GPU count, the fabric, XID events ([devicefiles] too).
    - [Inflight], [NvmlReader], [NvmlSetup]: bounded calls into the driver as a transition
      system of goroutines; loading the library, stalls and their escalation; the set-up of
      the reader and the probe of the driver.
    - [Config], [ContextLock]: [pkg/config]; the monitor configuration and the runtime
      context; the context that the goroutines share under its lock, as a transition
      system whose steps read and write one cell of an array.
    - [NodeDiag], [DeepCopy], [Controller]: [pkg/controllers/nodediagnostic.go] and
      [api/v1alpha1]; the captures; the resource on a memory of objects, with the generated
      deep copies and the statuses that are appended to a slice with spare capacity; the
      set-up of the controller and the archives it leaves on the node.
    - [Iptables], [IPRoutes], [Networking]: [monitors/networking]; the parser of iptables
      rules and their checks; the rules and routes of pod addresses; log lines, IPAMD,
      interfaces, ethtool and EFA counters, the network policy and Corefile agents.
      [NetHost] is what these read from the host: excluded interfaces, runs of ethtool,
      sysfs, properties of units, the introspection of the CNI.  [HostDocs] decodes the
      documents of networkctl and of the Corefile agent from their bytes, [NetMonitor]
      builds the monitor and runs the ticks of ethtool.
    - [Storage]: [monitors/storage]; log lines, XFS, I/O delays, EBS throttles.  [Nvme]:
      the layout of the pages of an NVMe device as Go lays out its structs, the commands
      that fetch them, and what is decoded from them.
    - [Kernel]: [monitors/kernel]; kernel messages, cron, limits, zram, clock.
    - [Runtime]: [monitors/runtime]; log lines, restarts of services, deprecations.
    - [Neuron]: [monitors/neuron] and [monitors/nvidia/nccl].
    - [PacketCapture], [CaptureRun]: [pkg/packet_capture] and the compression of
      [pkg/util/file]; the arguments of a capture, its files and uploads, and the
      goroutines of a run as a transition system.
    - [ExecPath], [HostLinks]: [pkg/osext]; the lookup of a command below the root of the
      host and the bound of its run; what the lookup finds on a host with links.
    - [Subscription]: [pkg/util]; channel handlers as a transition system.
    - [Dcgm], [Forward], [InstanceInfo], [InstanceTable], [DcgmSystem], [NvidiaMonitor]:
      [monitors/nvidia] and [pkg/util] of instances; the DCGM client as a state machine with
      the trace of the calls it makes, the goroutines that forward its events, the table of
      instance types from its generator ([hack/generate-instance-info]) to its loader, the
      checks over its answers, the monitor over its readers.
    - [Top]: [pkg/log_collector/system]; processes, memory and load.
    - [Accessor], [HostCollectors], [Web], [NetCollectors], [LogCollection]:
      [pkg/log_collector]; the accessor of a collector and the collectors as tasks over
      the bundle, the URLs and requests, the choice of collectors and the archive.
    - [Startup]: [cmd] and [pkg/config]; the choice of a client configuration, the
      bootstrap, the registration of the monitors, the chroot wrapper.
    - [Wiring]: the [Register] methods of the monitors as computations on the manager and
      the goroutines they start, with the rules of total triples.
    - [System]: the running agent.  Its state is the manager with the exporter, the
      goroutines that [Wiring] started, each with the findings it has still to notify,
      and the node of the API server; a step is a broadcast, a handler on a line or a
      tick, a notification, a turn of the manager's loop, a heartbeat, a report, or
      another client's change of the node.  The theorems are about every sequence of
      steps, for any handlers; a handler may panic ([None]), which ends the process.
    - [Console]: [pkg/diagnostic]; the diagnostics written to the serial console.
    - [Process]: [main], [run], the flags and the logger, as a computation with a trace of
      its effects that returns, panics, exits or is killed; at every call a signal may
      arrive, and the device of the console takes what it takes of each write.

    ** How the code is modelled

    State is a record, an operation a function on it; a method that mutates its
    receiver returns the new state.  Errors are values of [result].  What a handler
    meets outside the repository (the API server, the driver's library, the file
    system, the clock) is an argument: a function or a record of answers.  Where the
    order of goroutines matters ([Inflight], [ContextLock], [Forward], [Dcgm], the slot of
    [NodeDiag]) a step relation
    interleaves their atomic operations, and the theorems are about every reachable
    state.  Where Go ranges over a map the order is an argument too.  Integers are
    [Z] with the wrap-around of their width written out where the code can reach it
    ([u64], [u32], [i64]); times are nanoseconds, 0 is Go's zero time.  All functions
    are total; recursion is structural, or has a fuel: the length of its input
    ([trim_left], [fields_from], [replace_from]), enough because each step consumes a
    byte; the bytes left to write for the paced writer, each round writing one at least
    ([paced_complete]); the depth of the walk of symbolic links, enough exactly when the
    links do not loop ([walk_terminates_iff]).  A run-time panic is [None] where the code
    can reach one.  The handlers of the log and host monitors return the conditions
    they notify; whether a notification succeeds is an argument where the code looks at
    it to change its state ([checkEthtool], [HandleCorefileState], [handleNeuron]).

    A collector of logs is a [task]: it reads the host through the classes of answers
    [Host], [Services] and [NetServices], appends to the bundle (the files of its
    directory and what they hold) and returns an error; trees of the host are finite
    [node]s, and [patience] says how many files a context lets a copy reach.  A command
    writes the files that the host says, anywhere, and the bundle remembers which were
    run.  The DCGM client returns the list of the calls it made to the library and of its
    writes to the helper that the goroutines share, so that their order is a claim about
    it; its goroutine and those of the checks are then interleaved move by move.  A packet
    capture gets the events of the informer that arrive before the cancel function is
    stored, while it is, and after.

    ** What is shown

    - The agent as a whole ([System]): nothing panics but a handler on what it was given
      ([ex_io_delays_panic] is one that does), and until then after any run its node
      conditions are those the specification gives for the findings exported so far; a
      goroutine's findings are those of its handler on the lines of its stream, in
      order, each exported, queued or still to be notified; a condition that is False
      has a finding as its cause; nothing found gets stuck on its way to the exporter.
    - The exporter shows, for every type, the latest unresolved reason and the
      distinct messages in order, or the ready configuration, after any sequence of
      reports and resolutions; a clean exporter agrees with the API server; the
      report is an upsert that leaves other conditions alone.
    - The manager's gauges follow the health of the exporter, for any exporter with
      the interface's laws, and with the node exporter the reasons that were exported and
      not resolved ([gauge_mirrors_condition]); occurrences are exported once per period;
      subscriptions reach the resource they name.
    - What a check of a probe notifies is a function of its history, and through the
      manager it drives the condition of the node exporter, among any other conditions; a
      validated spec only reports valid conditions.
    - Observers deliver in order, and completely while the channel has room: the lines of a
      file that grows reach its subscribers ([file_lines_delivered]); the journal observer
      has one handle open between the turns of its loop and none at its end.
    - The pages of an NVMe device have the sizes the driver writes, and decode to what
      was written ([page_sizes], [identity_roundtrip], [stats_roundtrip]).
    - The NVIDIA readers report counters that grow, levels that are due, health codes
      whose row of the table holds, a lost GPU exactly once, and nothing for a read
      that fails; XID events respect their repeat floor.
    - A check has at most one call in the driver; a stall is detected exactly; it
      becomes fatal only after the whole escalation window.
    - The controller's captures conclude, once per generation as far as the API server
      takes their statuses, and are cancelled by exactly the events that concern them and
      arrive while their cancel function is stored; one log collection runs at a time.
    - Of the host: missing rules and routes of pods are reported exactly, for every
      listing that [ip] prints (in IPv6 mode every table of a secondary interface too); an
      iptables rule parses to what its options say but for the sets of its matches; the
      network policy agent is reported down exactly after a window without a poll that
      saw it up; EBS throttles follow the counters; a crash names the last word of its
      process; the schema 1 annotation follows the pulls of the last hour.
    - The goroutine that reconciles the DCGM client calls the library in the order its
      protocol asks for, whatever the library answers; a request of a check calls it out
      of connection only when a shutdown overlaps it; the nvidia monitor reports a fatal
      condition exactly when one of its readers does.
    - A packet capture ends, whatever the order of its goroutines, and reports no error
      only when every file was uploaded; a command of the host is found where the host's
      own links lead ([host_command_found]), and its lookup ends exactly when the links do
      not loop; a subscriber of a group gets each event at most once and in order.
    - The methods of the runtime context are atomic however goroutines interleave, and a
      snapshot of the tags belongs to its holder ([context_linearizable]).
    - A deep copy shares nothing with its resource, and on the memory the controller's
      update of a status does what its functional model says ([deep_copy_isolated],
      [stored_then_set_refines]).
    - The startup has one order, whatever fails and whichever signals arrive
      ([startup_in_order]); an agent that stops
      by itself leaves its diagnostics and the reason on the console ([crash_on_console]);
      the initialisations register the six plugins in any order ([plugins_register]).
    - The table of instance types that the generator writes is what the agent loads
      ([generated_table_loads]); the events of DCGM reach the monitor, in order, across
      shutdowns ([forwarding_complete]).
    - Outside its bundle a collection leaves every file as it was but those that the
      commands it runs write themselves; a copied directory is complete; the
      archive holds the bundle; reports of throttling name every interface.
    - The agent starts, with a coherent state ([agent_starts]): every managed condition
      has a monitor, and every channel an observer writes to is read by one goroutine,
      whose handler is written for that stream.  The console shows the last bytes of a source and no more,
      a paced write ends having written everything, and one section at most is
      collected at a time.
    - Registration, configuration and paths: validation accepts exactly the valid
      values, and host paths stay inside the host root.
    - Where the code does not do what it means to, a theorem or an example shows it:
      [torn_line], [malformed_subscription_accepted], [match_sets_lost],
      [failed_listing_reports_all], [io_delay_panics_iff], [npa_counter_reset_reported],
      [cron_user_not_job], [cron_new_year], [first_restart_hides_rest],
      [failed_setup_sticks], [gzip_failure_unreported], [lookup_diverges],
      [diag_level_out_of_range], [hybrid_not_skipped], [throttled_reports_all],
      [selinuxfs_disabled], [guest_twice], [swap_in_bytes], [Top_panics], [pkgs_errors],
      [userProcStat_silent], [sibling_accepted], [io_space_in_name],
      [cluster_errors_lost], [CommandOutput_ignored], [cycle_over_buffer],
      [truncation_stalls], [reopening_skips], [endpoint_status_ignored],
      [long_report_silent], [archive_deleted_early], [partial_stays], [verbosity_bounds],
      [terminated_silent], [config_exit_silent], [examples_refused],
      [early_event_missed], [call_after_shutdown], [ipv6_default_unread],
      [segfault_last_word], [flag_negation_lost], [similar_prefix], [climbs_out].

    ** What is not modelled

    The contents of the files of a packet capture: a [.gz] that is still being compressed
    when a poll finds it is a name like any other, and [uploads] are of names.  What a
    collector reads of the host is one answer per path, the same before and after the
    commands it runs.  The loop that writes diagnostics to the console while the agent runs
    is in [Console], and does not interleave with the writes of a process that ends in
    [Process].  A refresh of the journal is one turn; [refresh_two_handles] is about the
    moment inside it.

    The libraries themselves: file notification, the journal, the driver of the NVMe
    devices, DCGM and NVML, pflag, zap, the YAML decoder, the template engine and the
    manager of controllers are the answers they give.  Prometheus metrics other than the
    gauges of the manager and of the NVML reader, log lines and the registration of types
    with the scheme are left out: nothing the agent does depends on them.  The end-to-end
    tests drive a cluster and are no part of the agent; the scripts and charts are not Go. *)

From stdpp Require Import base.
