(* ===== verification/Prelude.v ===== *)
(** * Prelude: what every component of the development shares.

    The Go values the agent computes with and the part of Go's standard library
    its code calls: results with errors, machine-width integers with their
    wrap-around, [time.Time] and [time.Duration], and the functions of [strings]
    and [fmt] that build condition reasons and messages.  Also the tactics, the
    hint databases and the list lemmas the component files use. *)

From stdpp Require Export base gmap strings list fin_maps pretty.
From Stdlib Require Export ZArith Lia.

#[global] Open Scope string_scope.
#[global] Open Scope list_scope.
#[global] Open Scope Z_scope.

(** String append computes by [simpl] on constructors, as the other functions of
    the code do. *)
#[global] Arguments String.append !_ _ / : simpl nomatch.

(** ** Notations and tactics *)

Declare Scope go_scope.
Delimit Scope go_scope with go.

(** The result of a Go call that returns [(T, error)] or [error]. *)
Inductive result (E A : Type) : Type :=
| Ok (a : A)
| Err (e : E).
Arguments Ok {E A} a.
Arguments Err {E A} e.

Definition rbind {E A B} (r : result E A) (k : A → result E B) : result E B :=
  match r with Ok a => k a | Err e => Err e end.

Notation "x '<-?' r ';;' k" := (rbind r (λ x, k))
  (at level 100, r at next level, right associativity) : go_scope.
Notation "r ';;?' k" := (rbind r (λ _, k))
  (at level 100, right associativity) : go_scope.
#[global] Open Scope go_scope.

Lemma rbind_ok {E A B} (r : result E A) (k : A → result E B) b :
  rbind r k = Ok b ↔ ∃ a, r = Ok a ∧ k a = Ok b.
Proof. destruct r; simpl; naive_solver. Qed.

Definition is_ok {E A} (r : result E A) : bool :=
  match r with Ok _ => true | Err _ => false end.

(** Split every [if] and [match] of the goal and of the hypotheses on a
    variable-free discriminee, clearing what becomes contradictory. *)
Ltac break_goal :=
  repeat match goal with
  | |- context [match ?x with _ => _ end] => destruct x eqn:?
  end.
Ltac break_hyp H :=
  repeat match type of H with
  | context [match ?x with _ => _ end] => destruct x eqn:?; try discriminate H
  end.

(** Turn boolean tests of the code into the propositions they decide. *)
Ltac bool_to_prop :=
  repeat match goal with
  | H : _ && _ = true |- _ => apply andb_true_iff in H; destruct H
  | H : _ || _ = false |- _ => apply orb_false_iff in H; destruct H
  | H : negb _ = true |- _ => apply negb_true_iff in H
  | H : negb _ = false |- _ => apply negb_false_iff in H
  | H : (_ <? _) = true |- _ => apply Z.ltb_lt in H
  | H : (_ <? _) = false |- _ => apply Z.ltb_ge in H
  | H : (_ <=? _) = true |- _ => apply Z.leb_le in H
  | H : (_ <=? _) = false |- _ => apply Z.leb_gt in H
  | H : (_ =? _) = true |- _ => apply Z.eqb_eq in H
  | H : (_ =? _) = false |- _ => apply Z.eqb_neq in H
  | H : bool_decide _ = true |- _ => apply bool_decide_eq_true in H
  | H : bool_decide _ = false |- _ => apply bool_decide_eq_false in H
  end.

Create HintDb agent discriminated.
Create HintDb go_arith discriminated.
Create Rewrite HintDb go_arith_rw.

(** ** Machine integers

    Go's [uint32], [uint64] and [int64] as [Z], with the wrap-around of every
    operation written out. *)

Definition max_uint32 : Z := 2 ^ 32 - 1.
Definition max_int64 : Z := 2 ^ 63 - 1.
Definition min_int64 : Z := - 2 ^ 63.

Definition u32 (z : Z) : Z := z mod 2 ^ 32.
Definition u64 (z : Z) : Z := z mod 2 ^ 64.
Definition i64 (z : Z) : Z := (z + 2 ^ 63) mod 2 ^ 64 - 2 ^ 63.

Definition is_u32 (z : Z) : Prop := 0 ≤ z < 2 ^ 32.
Definition is_u64 (z : Z) : Prop := 0 ≤ z < 2 ^ 64.
Definition is_i64 (z : Z) : Prop := - 2 ^ 63 ≤ z < 2 ^ 63.

Lemma u64_small z : is_u64 z → u64 z = z.
Proof. intros ?. apply Z.mod_small. done. Qed.

Lemma u32_small z : is_u32 z → u32 z = z.
Proof. intros ?. apply Z.mod_small. done. Qed.

Lemma i64_small z : is_i64 z → i64 z = z.
Proof. unfold is_i64, i64. intros ?. rewrite Z.mod_small by lia. lia. Qed.

Lemma u64_range z : is_u64 (u64 z).
Proof. apply Z.mod_pos_bound. lia. Qed.

Lemma u32_range z : is_u32 (u32 z).
Proof. apply Z.mod_pos_bound. lia. Qed.

Lemma u64_sub_ge a b : is_u64 a → is_u64 b → b ≤ a → u64 (a - b) = a - b.
Proof. unfold is_u64. intros. apply u64_small. unfold is_u64. lia. Qed.

Lemma u64_sub_lt a b : is_u64 a → is_u64 b → a < b → u64 (a - b) = a - b + 2 ^ 64.
Proof.
  unfold is_u64, u64. intros.
  rewrite <- (Z.mod_add _ 1) by lia. rewrite Z.mod_small; lia.
Qed.

Lemma u32_sub_lt a b : is_u32 a → is_u32 b → a < b → u32 (a - b) = a - b + 2 ^ 32.
Proof.
  unfold is_u32, u32. intros.
  rewrite <- (Z.mod_add _ 1) by lia. rewrite Z.mod_small; lia.
Qed.

#[export] Hint Resolve u64_range u32_range : go_arith.
#[export] Hint Rewrite u64_small u32_small i64_small using (unfold is_u64, is_u32, is_i64 in *; lia) : go_arith_rw.

(** ** Time

    A [time.Time] is the number of nanoseconds since Go's zero time (January 1,
    year 1), so the zero value is [0]; a [time.Duration] is an [int64] of
    nanoseconds. [Time.Sub] saturates at the ends of the [int64] range. *)

Abbreviation Time := Z.
Abbreviation Duration := Z.

Definition Nanosecond : Duration := 1.
Definition Microsecond : Duration := 1000 * Nanosecond.
Definition Millisecond : Duration := 1000 * Microsecond.
Definition Second : Duration := 1000 * Millisecond.
Definition Minute : Duration := 60 * Second.
Definition Hour : Duration := 60 * Minute.

Definition zero_time : Time := 0.
Definition IsZero (t : Time) : bool := t =? zero_time.

Definition Sub (t u : Time) : Duration := Z.max min_int64 (Z.min max_int64 (t - u)).

Definition Before (t u : Time) : bool := t <? u.
Definition TimeAdd (t : Time) (d : Duration) : Time := t + d.

Lemma Sub_le_iff t u d : 0 < d ≤ max_int64 → d ≤ Sub t u ↔ d ≤ t - u.
Proof. unfold Sub, min_int64, max_int64. lia. Qed.

Lemma Sub_lt_iff t u d : 0 < d ≤ max_int64 → Sub t u < d ↔ t - u < d.
Proof. unfold Sub, min_int64, max_int64. lia. Qed.

(** ** Lists *)

Lemma fmap_filter {A B} (f : A → B) (P : B → Prop) (Q : A → Prop)
    `{∀ x, Decision (P x)} `{∀ x, Decision (Q x)} (l : list A) :
  (∀ x, Q x ↔ P (f x)) → f <$> filter Q l = filter P (f <$> l).
Proof.
  intros HPQ. induction l as [|x l IH]; [done|]. rewrite fmap_cons, !filter_cons.
  destruct (decide (Q x)) as [Hq|Hq], (decide (P (f x))) as [Hp|Hp];
    rewrite ?fmap_cons, ?IH; try done; exfalso; naive_solver.
Qed.
