(* ===== verification/GoStrings.v ===== *)
(** * GoStrings: the part of Go's [strings], [strconv] and [fmt] the agent uses.

    A Go string is a sequence of bytes, as a Rocq [string] is.  The functions
    are executable; each has the lemma that states what it computes. *)

From S2P Require Import Prelude.


(** The double quote, which is written by its code so that no literal of the
    development holds one. *)
Definition dquote : Ascii.ascii := Ascii.ascii_of_nat 34.

(** ** package strings *)

Fixpoint HasPrefix (s p : string) {struct p} : bool :=
  match p, s with
  | EmptyString, _ => true
  | String _ _, EmptyString => false
  | String c p', String d s' => Ascii.eqb c d && HasPrefix s' p'
  end.

(** [s] without its first [n] bytes. *)
Fixpoint drop_bytes (n : nat) (s : string) : string :=
  match n, s with
  | O, _ => s
  | S n', String _ s' => drop_bytes n' s'
  | S _, EmptyString => EmptyString
  end.

(** The first [n] bytes of [s]. *)
Fixpoint take_bytes (n : nat) (s : string) : string :=
  match n, s with
  | S n', String c s' => String c (take_bytes n' s')
  | _, _ => EmptyString
  end.

Definition CutPrefix (s p : string) : option string :=
  if HasPrefix s p then Some (drop_bytes (String.length p) s) else None.

Definition HasSuffix (s p : string) : bool :=
  (String.length p <=? String.length s)%nat &&
  String.eqb (drop_bytes (String.length s - String.length p) s) p.

Definition CutSuffix (s p : string) : option string :=
  if HasSuffix s p then Some (take_bytes (String.length s - String.length p) s) else None.

Fixpoint Contains (s sub : string) : bool :=
  HasPrefix s sub ||
  match s with EmptyString => false | String _ s' => Contains s' sub end.

(** [strings.Join]. *)
Fixpoint Join (elems : list string) (sep : string) : string :=
  match elems with
  | [] => EmptyString
  | [e] => e
  | e :: es => e +:+ sep +:+ Join es sep
  end.

(** [strings.Cut] and [strings.Split] with a separator of one byte. *)
Fixpoint Cut (s : string) (sep : Ascii.ascii) : option (string * string) :=
  match s with
  | EmptyString => None
  | String c s' =>
      if Ascii.eqb c sep then Some (EmptyString, s')
      else match Cut s' sep with
           | Some (before, after) => Some (String c before, after)
           | None => None
           end
  end.

Fixpoint Split (s : string) (sep : Ascii.ascii) : list string :=
  match s with
  | EmptyString => [EmptyString]
  | String c s' =>
      if Ascii.eqb c sep then EmptyString :: Split s' sep
      else match Split s' sep with
           | [] => [String c EmptyString]
           | e :: es => String c e :: es
           end
  end.

(** The byte with code [n], for the separators of the code. *)
Abbreviation byte_of n := (Ascii.ascii_of_nat n).

Definition string_of_codes (l : list nat) : string :=
  foldr (λ n s, String (byte_of n) s) EmptyString l.

(** The lines a [bufio.Scanner] gives: without their end, and none from one on that
    does not fit its buffer. *)
Definition MaxScanTokenSize : Z := 65536.

Definition drop_cr (l : string) : string :=
  if String.eqb (drop_bytes (String.length l - 1) l) (String (byte_of 13) EmptyString)
  then take_bytes (String.length l - 1) l else l.

Fixpoint scan_lines (lines : list string) : list string :=
  match lines with
  | [] => []
  | l :: rest =>
      if match rest with [] => String.eqb l EmptyString | _ => false end then []
      else if Z.of_nat (String.length l) <? MaxScanTokenSize then drop_cr l :: scan_lines rest else []
  end.

Example scan_ex :
  scan_lines (Split (string_of_codes [97; 13; 10; 10; 98; 10]%nat) (byte_of 10)) = ["a"; EmptyString; "b"].
Proof. reflexivity. Qed.

Definition ScanLines (s : string) : list string := scan_lines (Split s (byte_of 10)).

(** [strings.Count] of a separator of one byte. *)
Fixpoint CountByte (s : string) (sep : Ascii.ascii) : nat :=
  match s with
  | EmptyString => 0
  | String c s' => ((if Ascii.eqb c sep then 1 else 0) + CountByte s' sep)%nat
  end.

(** [strings.IndexByte]. *)
Fixpoint IndexByte (s : string) (b : Ascii.ascii) : option nat :=
  match s with
  | EmptyString => None
  | String c s' => if Ascii.eqb c b then Some 0%nat else S <$> IndexByte s' b
  end.

(** The UTF-8 encodings of the runes [unicode.IsSpace] accepts: the six ASCII
    ones, U+0085, U+00A0, U+1680, U+2000 to U+200A, U+2028, U+2029, U+202F,
    U+205F and U+3000.  No lead byte of these encodings is a continuation byte,
    so a match is always at a rune boundary, also in invalid UTF-8. *)
Definition space_runes : list string :=
  string_of_codes <$>
    ([[9]; [10]; [11]; [12]; [13]; [32]; [194; 133]; [194; 160]; [225; 154; 128]] ++
     ((λ n, [226; 128; n]) <$> seq 128 11) ++
     [[226; 128; 168]; [226; 128; 169]; [226; 128; 175]; [226; 129; 159]; [227; 128; 128]])%nat.

(** The length of the space rune [s] starts with, if any. *)
Definition space_at (s : string) : option nat :=
  String.length <$> head (filter (λ r, HasPrefix s r = true) space_runes).

Fixpoint trim_left (fuel : nat) (s : string) : string :=
  match fuel with
  | O => s
  | S fuel' => match space_at s with
               | Some n => trim_left fuel' (drop_bytes n s)
               | None => s
               end
  end.

(** The length of the space rune [s] ends with, if any. *)
Definition space_end (s : string) : option nat :=
  String.length <$> head (filter (λ r, HasSuffix s r = true) space_runes).

Fixpoint trim_right (fuel : nat) (s : string) : string :=
  match fuel with
  | O => s
  | S fuel' => match space_end s with
               | Some n => trim_right fuel' (take_bytes (String.length s - n) s)
               | None => s
               end
  end.

(** [strings.TrimSpace]; each step removes at least one byte, so the length of
    the string is enough fuel. *)
Definition TrimSpace (s : string) : string :=
  let s' := trim_left (String.length s) s in trim_right (String.length s') s'.

(** [strings.Fields]: [cur] is the field being read. *)
Definition flush (cur : string) (fields : list string) : list string :=
  if String.eqb cur EmptyString then fields else cur :: fields.

Fixpoint fields_from (fuel : nat) (s cur : string) : list string :=
  match fuel with
  | O => flush cur []
  | S fuel' =>
      match s with
      | EmptyString => flush cur []
      | String c s' =>
          match space_at s with
          | Some n => flush cur (fields_from fuel' (drop_bytes n s) EmptyString)
          | None => fields_from fuel' s' (cur +:+ String c EmptyString)
          end
      end
  end.

Definition Fields (s : string) : list string :=
  fields_from (S (String.length s)) s EmptyString.

(** ** package strconv: integers *)

(** The value of a string of decimal digits, read from the left. *)
Fixpoint digits_from (s : string) (acc : Z) : option Z :=
  match s with
  | EmptyString => Some acc
  | String c s' =>
      let d := Z.of_nat (Ascii.nat_of_ascii c) - 48 in
      if (0 <=? d) && (d <=? 9) then digits_from s' (10 * acc + d) else None
  end.

Definition digits (s : string) : option Z :=
  match s with EmptyString => None | _ => digits_from s 0 end.

(** [strconv.Atoi] on 64 bits: an optional sign, then digits; [None] for its errors. *)
Definition Atoi (s : string) : option Z :=
  z ← match s with
      | String c s' =>
          if Ascii.eqb c (byte_of 45) then Z.opp <$> digits s'
          else if Ascii.eqb c (byte_of 43) then digits s'
          else digits s
      | EmptyString => None
      end;
  if (min_int64 <=? z) && (z <=? max_int64) then Some z else None.

Definition Itoa (z : Z) : string := pretty z.

Definition hex_digit (d : Z) : Ascii.ascii :=
  byte_of (if d <? 10 then Z.to_nat (48 + d) else Z.to_nat (87 + d)).

Fixpoint hex_from (fuel : nat) (z : Z) (acc : string) : string :=
  match fuel with
  | O => acc
  | S fuel' =>
      let acc' := String (hex_digit (z mod 16)) acc in
      if z <? 16 then acc' else hex_from fuel' (z / 16) acc'
  end.

(** [%x] of a [uint64]: at most 16 digits. *)
Definition Hex (z : Z) : string := hex_from 16 z EmptyString.

(** [strconv.Quote], the [%q] of a string: bytes of 128 and more are those of
    printable characters and stand for themselves. *)
Definition quote_byte (c : Ascii.ascii) : string :=
  let n := Z.of_nat (Ascii.nat_of_ascii c) in
  let esc e := String (Ascii.ascii_of_nat 92) (String e EmptyString) in
  if (n =? 34) || (n =? 92) then esc c
  else if n =? 7 then esc (Ascii.ascii_of_nat 97)
  else if n =? 8 then esc (Ascii.ascii_of_nat 98)
  else if n =? 12 then esc (Ascii.ascii_of_nat 102)
  else if n =? 10 then esc (Ascii.ascii_of_nat 110)
  else if n =? 13 then esc (Ascii.ascii_of_nat 114)
  else if n =? 9 then esc (Ascii.ascii_of_nat 116)
  else if n =? 11 then esc (Ascii.ascii_of_nat 118)
  else if (n <? 32) || (n =? 127) then
    esc (Ascii.ascii_of_nat 120) +:+ String (hex_digit (n / 16)) (String (hex_digit (n mod 16)) EmptyString)
  else String c EmptyString.

Fixpoint quote_body (s : string) : string :=
  match s with EmptyString => EmptyString | String c s' => quote_byte c +:+ quote_body s' end.

Definition Quote (s : string) : string := String dquote (quote_body s +:+ String dquote EmptyString).

(** The text of [fmt.Errorf] with the format [p: %w] and the error [e]. *)
Definition prefixed (p e : string) : string := p +:+ ": " +:+ e.

(** ** package fmt *)

(** An argument of [fmt.Sprintf]: an integer with the name of its Go type, or a
    string. *)
Inductive arg :=
| AInt (ty : string) (z : Z)
| AStr (s : string).

(** [type=value], as [fmt] prints an argument it has no use for. *)
Definition describe_arg (a : arg) : string :=
  match a with
  | AInt ty z => ty +:+ "=" +:+ Itoa z
  | AStr s => "string=" +:+ s
  end.

Definition percent : Ascii.ascii := byte_of 37.

(** One verb applied to an argument: [%d] renders an integer and [%s] a string;
    any other combination is rendered as [fmt] renders a bad verb. *)
Definition render_verb (verb : Ascii.ascii) (a : arg) : string :=
  match a with
  | AInt _ z => if Ascii.eqb verb (byte_of 100) then Itoa z
                else "%!" +:+ String verb ("(" +:+ describe_arg a +:+ ")")
  | AStr s => if Ascii.eqb verb (byte_of 115) then s
              else "%!" +:+ String verb ("(" +:+ describe_arg a +:+ ")")
  end.

(** [fmt.Sprintf] for formats whose verbs carry no flag, width or precision. *)
Fixpoint Sprintf (format : string) (args : list arg) : string :=
  match format with
  | EmptyString =>
      match args with
      | [] => EmptyString
      | _ => "%!(EXTRA " +:+ Join (describe_arg <$> args) ", " +:+ ")"
      end
  | String c f =>
      if Ascii.eqb c percent then
        match f with
        | EmptyString =>
            "%!(NOVERB)" +:+
            match args with
            | [] => EmptyString
            | _ => "%!(EXTRA " +:+ Join (describe_arg <$> args) ", " +:+ ")"
            end
        | String v f' =>
            if Ascii.eqb v percent then String percent (Sprintf f' args)
            else match args with
                 | [] => "%!" +:+ String v ("(MISSING)" +:+ Sprintf f' [])
                 | a :: args' => render_verb v a +:+ Sprintf f' args'
                 end
        end
      else String c (Sprintf f args)
  end.

(** [time.Duration.String]. *)
Fixpoint fmt_frac (prec : nat) (v : Z) (print : bool) (acc : string) : string :=
  match prec with
  | O => if print then String (byte_of 46) acc else acc
  | S prec' =>
      let print' := print || negb (v mod 10 =? 0) in
      let acc' := if print' then String (byte_of (Z.to_nat (48 + v mod 10))) acc else acc in
      fmt_frac prec' (v / 10) print' acc'
  end.

Definition DurationString (d : Duration) : string :=
  let u := Z.abs d in
  (if d <? 0 then "-" else EmptyString) +:+
  if u =? 0 then "0s"
  else if u <? Microsecond then Itoa u +:+ "ns"
  else if u <? Millisecond then
    Itoa (u / 1000) +:+ fmt_frac 3 u false (string_of_codes [194; 181; 115]%nat)
  else if u <? Second then
    Itoa (u / 1000000) +:+ fmt_frac 6 u false "ms"
  else
    let secs := u / Second in
    let mins := secs / 60 in
    let hours := mins / 60 in
    (if 0 <? hours then Itoa hours +:+ "h" else EmptyString) +:+
    (if 0 <? mins then Itoa (mins mod 60) +:+ "m" else EmptyString) +:+
    Itoa (secs mod 60) +:+ fmt_frac 9 u false "s".

Example duration_15m : DurationString (15 * Minute) = "15m0s".
Proof. reflexivity. Qed.
Example duration_frac : DurationString (1 * Hour + 1500 * Millisecond) = "1h0m1.5s".
Proof. reflexivity. Qed.
Example duration_ms : DurationString (1200 * Microsecond) = "1.2ms".
Proof. reflexivity. Qed.
Example sprintf_missing : Sprintf "Code%d" [] = "Code%!d(MISSING)".
Proof. reflexivity. Qed.
Example trim_example : TrimSpace "  a b	 " = "a b".
Proof. reflexivity. Qed.
Example fields_example : Fields "  a  b c " = ["a"; "b"; "c"].
Proof. reflexivity. Qed.
Example hex_example : Hex 128 = "80".
Proof. reflexivity. Qed.

Example atoi_ex : (Atoi "-42", Atoi "+7", Atoi "9223372036854775808", Atoi "4a", Atoi "-") =
  (Some (-42), Some 7, None, None, None).
Proof. reflexivity. Qed.

(** ** What these functions compute *)

Lemma sapp_nil_r (s : string) : s +:+ EmptyString = s.
Proof. induction s; simpl; congruence. Qed.

Lemma sapp_assoc (a b c : string) : a +:+ b +:+ c = (a +:+ b) +:+ c.
Proof. induction a; simpl; congruence. Qed.

Lemma sapp_inj_l (a b c : string) : a +:+ b = a +:+ c → b = c.
Proof. induction a; simpl; [done|]. intros [= ?]. auto. Qed.

Lemma slength_app (a b : string) :
  String.length (a +:+ b) = (String.length a + String.length b)%nat.
Proof. induction a; simpl; congruence. Qed.

Lemma HasPrefix_spec s p : HasPrefix s p = true ↔ ∃ t, s = p +:+ t.
Proof.
  revert s. induction p as [|c p IH]; intros s; simpl.
  - split; [by exists s|done].
  - destruct s as [|d s]; [split; [done|by intros [? [=]]]|].
    rewrite andb_true_iff, Ascii.eqb_eq, IH. split.
    + intros [-> [t ->]]. by exists t.
    + intros [t [= -> ->]]. eauto.
Qed.

Lemma HasPrefix_app p t : HasPrefix (p +:+ t) p = true.
Proof. apply HasPrefix_spec. eauto. Qed.

Lemma Contains_spec s sub : Contains s sub = true ↔ ∃ a b, s = a +:+ sub +:+ b.
Proof.
  induction s as [|c s IH]; simpl.
  - rewrite orb_false_r, HasPrefix_spec. split.
    + intros [t Ht]. by exists EmptyString, t.
    + intros (a & b & Hab). destruct a; [|discriminate]. by exists b.
  - rewrite orb_true_iff, HasPrefix_spec, IH. split.
    + intros [[t ->]|(a & b & ->)]; [by exists EmptyString, t|].
      by exists (String c a), b.
    + intros ([|d a] & b & Hab); simpl in Hab; [left; eauto|].
      injection Hab as -> ->. eauto.
Qed.

Lemma drop_bytes_app p t : drop_bytes (String.length p) (p +:+ t) = t.
Proof. induction p; simpl; [by destruct t|done]. Qed.

Lemma take_bytes_app p t : take_bytes (String.length p) (p +:+ t) = p.
Proof. induction p; simpl; [by destruct t|]. by f_equal. Qed.

Lemma CutPrefix_spec s p t : CutPrefix s p = Some t ↔ s = p +:+ t.
Proof.
  unfold CutPrefix. destruct (HasPrefix s p) eqn:E.
  - apply HasPrefix_spec in E as [u ->]. rewrite drop_bytes_app. split.
    + by intros [= ->].
    + by intros ->%sapp_inj_l.
  - split; [done|]. intros ->. by rewrite HasPrefix_app in E.
Qed.

Lemma Cut_spec s sep a b :
  Cut s sep = Some (a, b) → s = a +:+ String sep b ∧ IndexByte a sep = None.
Proof.
  revert a b. induction s as [|c s IH]; intros a b; simpl; [done|].
  destruct (Ascii.eqb_spec c sep) as [->|Hne].
  - by intros [= <- <-].
  - destruct (Cut s sep) as [[a' b']|] eqn:E; [|done].
    intros [= <- <-]. destruct (IH a' b' eq_refl) as [-> Hi]. split; [done|].
    simpl. apply Ascii.eqb_neq in Hne. by rewrite Hne, Hi.
Qed.

(** *** Split *)

Lemma Split_not_nil s sep : Split s sep ≠ [].
Proof. destruct s as [|c s]; simpl; [done|]. break_goal; done. Qed.

Lemma Split_app a b sep : Split (a +:+ String sep b) sep = Split a sep ++ Split b sep.
Proof.
  induction a as [|c a IH]; simpl.
  - by rewrite Ascii.eqb_refl.
  - rewrite IH. destruct (Ascii.eqb c sep); [done|].
    destruct (Split a sep) as [|e es] eqn:E; [by apply Split_not_nil in E|done].
Qed.

Lemma Split_elem e sep : IndexByte e sep = None → Split e sep = [e].
Proof.
  induction e as [|c e IH]; simpl; [done|].
  destruct (Ascii.eqb c sep); [done|]. intros H%fmap_None. by rewrite IH.
Qed.

(** A word between two separators is one of the parts after the first. *)
Lemma Contains_between s sep w :
  IndexByte w sep = None → Contains s (String sep (w +:+ String sep EmptyString)) = true →
  w ∈ tail (Split s sep).
Proof.
  intros Hw (a & b & ->)%Contains_spec. cbn [String.append].
  rewrite <- sapp_assoc, Split_app. cbn [String.append]. rewrite Split_app, (Split_elem w) by done.
  destruct (Split a sep) as [|e es] eqn:E; [by apply Split_not_nil in E|].
  simpl. set_solver.
Qed.

(** *** TrimSpace leaves a string of visible ends alone *)

(** A visible ASCII byte. *)
Definition graphic (c : Ascii.ascii) : bool :=
  let n := Ascii.nat_of_ascii c in (32 <? n)%nat && (n <? 127)%nat.

Fixpoint last_byte (s : string) : option Ascii.ascii :=
  match s with
  | EmptyString => None
  | String c EmptyString => Some c
  | String _ s' => last_byte s'
  end.

Definition graphic_first (s : string) : bool := match s with String c _ => graphic c | _ => false end.
Definition graphic_last (s : string) : bool := match last_byte s with Some c => graphic c | _ => false end.

Lemma last_byte_app a c b : last_byte (a +:+ String c b) = last_byte (String c b).
Proof. induction a as [|x a IH]; [done|]. simpl. rewrite IH. by destruct a. Qed.

Lemma spaces_not_graphic :
  forallb (λ r, negb (graphic_first r) && negb (graphic_last r) && negb (String.eqb r EmptyString))
    space_runes = true.
Proof. vm_compute. reflexivity. Qed.

Lemma space_rune_ends r :
  r ∈ space_runes → graphic_first r = false ∧ graphic_last r = false ∧ r ≠ EmptyString.
Proof.
  intros Hr. pose proof spaces_not_graphic as H. rewrite forallb_forall in H.
  specialize (H r (proj1 (list_elem_of_In _ _) Hr)).
  rewrite !andb_true_iff, !negb_true_iff, String.eqb_neq in H. tauto.
Qed.

Lemma take_drop_bytes n s : s = take_bytes n s +:+ drop_bytes n s.
Proof. revert s. induction n as [|n IH]; intros [|c s]; simpl; [done..|]. by rewrite <- IH. Qed.

Lemma HasSuffix_app s p : HasSuffix s p = true → ∃ t, s = t +:+ p.
Proof.
  unfold HasSuffix. intros [_ H%String.eqb_eq]%andb_true_iff.
  exists (take_bytes (String.length s - String.length p) s).
  rewrite (take_drop_bytes (String.length s - String.length p) s) at 1. by rewrite H.
Qed.

Lemma space_at_graphic s : graphic_first s = true → space_at s = None.
Proof.
  intros Hs. unfold space_at. destruct (filter _ space_runes) as [|r rs] eqn:Hf; [done|].
  assert (Hr : r ∈ filter (λ r, HasPrefix s r = true) space_runes) by (rewrite Hf; left).
  apply list_elem_of_filter in Hr as [[t Ht]%HasPrefix_spec Hr].
  destruct (space_rune_ends r Hr) as (H1 & _ & H3). subst s. by destruct r; simpl in *; congruence.
Qed.

Lemma space_end_graphic s : graphic_last s = true → space_end s = None.
Proof.
  intros Hs. unfold space_end. destruct (filter _ space_runes) as [|r rs] eqn:Hf; [done|].
  assert (Hr : r ∈ filter (λ r, HasSuffix s r = true) space_runes) by (rewrite Hf; left).
  apply list_elem_of_filter in Hr as [[t Ht]%HasSuffix_app Hr].
  destruct (space_rune_ends r Hr) as (_ & H2 & H3). subst s.
  unfold graphic_last in *. destruct r as [|c r]; [done|]. rewrite last_byte_app in Hs. congruence.
Qed.

(** [TrimSpace] does nothing to a string that starts and ends with visible bytes. *)
Lemma TrimSpace_graphic s : graphic_first s = true → graphic_last s = true → TrimSpace s = s.
Proof.
  intros H1 H2. unfold TrimSpace.
  assert (Hl : ∀ n, trim_left n s = s) by (intros [|n]; simpl; [done|by rewrite space_at_graphic]).
  assert (Hr : ∀ n, trim_right n s = s) by (intros [|n]; simpl; [done|by rewrite space_end_graphic]).
  by rewrite Hl, Hr.
Qed.
