(* ===== verification/GoNet.v ===== *)
(** * GoNet: the part of Go's [net] and [strconv] the agent uses to check addresses.

    [net.SplitHostPort], [net.ParseIP] with [IP.IsLoopback], and
    [strconv.ParseUint] in base 10.  Errors carry no text here: the code only
    tests whether there is one, or prints it. *)

From S2P Require Import Prelude GoStrings.

Definition digit_of (c : Ascii.ascii) : option Z :=
  let n := Z.of_nat (Ascii.nat_of_ascii c) in
  if (48 <=? n) && (n <=? 57) then Some (n - 48) else None.

Definition hex_digit_of (c : Ascii.ascii) : option Z :=
  let n := Z.of_nat (Ascii.nat_of_ascii c) in
  if (48 <=? n) && (n <=? 57) then Some (n - 48)
  else if (97 <=? n) && (n <=? 102) then Some (n - 87)
  else if (65 <=? n) && (n <=? 70) then Some (n - 55)
  else None.

(** ** strconv.ParseUint(s, 10, bits) *)

Fixpoint decimal_from (acc : Z) (s : string) : option Z :=
  match s with
  | EmptyString => Some acc
  | String c s' => d ← digit_of c; decimal_from (acc * 10 + d) s'
  end.

Definition ParseUint (bits : Z) (s : string) : option Z :=
  if String.eqb s EmptyString then None
  else n ← decimal_from 0 s; if n <? 2 ^ bits then Some n else None.

(** ** net.SplitHostPort *)

Definition LastIndexByte (s : string) (b : Ascii.ascii) : option nat :=
  (fix go (i : nat) (s : string) (found : option nat) : option nat :=
     match s with
     | EmptyString => found
     | String c s' => go (S i) s' (if Ascii.eqb c b then Some i else found)
     end) 0%nat s None.

Definition colon : Ascii.ascii := byte_of 58.
Definition lbracket : Ascii.ascii := byte_of 91.
Definition rbracket : Ascii.ascii := byte_of 93.

Definition has_byte (s : string) (b : Ascii.ascii) : bool := bool_decide (is_Some (IndexByte s b)).

(** The host and the port, or [None] for any of the address errors. *)
Definition SplitHostPort (hostport : string) : option (string * string) :=
  i ← LastIndexByte hostport colon;
  let port := drop_bytes (S i) hostport in
  match hostport with
  | String c rest =>
      if Ascii.eqb c lbracket then
        e ← IndexByte hostport rbracket;
        if negb (S e =? i)%nat then None
        else
          let host := take_bytes (e - 1) rest in
          if has_byte rest lbracket || has_byte (drop_bytes (S e) hostport) rbracket then None
          else Some (host, port)
      else
        let host := take_bytes i hostport in
        if has_byte host colon || has_byte hostport lbracket || has_byte hostport rbracket then None
        else Some (host, port)
  | EmptyString => None
  end.

(** ** net.ParseIP *)

(** The bytes of an address: 4 or 16 of them. *)
Inductive IP := IPv4 (bytes : list Z) | IPv6 (bytes : list Z).

(** One field of a dotted address: digits, no leading zero, at most 255. *)
Definition ipv4_field (s : string) : option Z :=
  match s with
  | EmptyString => None
  | String c s' =>
      if Ascii.eqb c (byte_of 48) && negb (String.eqb s' EmptyString) then None
      else n ← decimal_from 0 s; if n <=? 255 then Some n else None
  end.

Definition parse_ipv4_fields (s : string) : option (list Z) :=
  let fields := Split s (byte_of 46) in
  if (length fields =? 4)%nat then mapM ipv4_field fields else None.

(** The longest prefix of hexadecimal digits: its digits' values and the rest. *)
Fixpoint hex_run (s : string) : list Z * string :=
  match s with
  | EmptyString => ([], EmptyString)
  | String c s' =>
      match hex_digit_of c with
      | Some d => let '(ds, rest) := hex_run s' in (d :: ds, rest)
      | None => ([], s)
      end
  end.

Definition hex_value (ds : list Z) : Z := foldl (λ acc d, acc * 16 + d) 0 ds.

(** The loop over the groups.  [ip] holds the bytes so far and [ellipsis] the
    position of "::"; each round adds at least two bytes, so 8 rounds are enough. *)
Fixpoint ipv6_groups (fuel : nat) (s : string) (ip : list Z) (ellipsis : option nat)
    : option (string * list Z * option nat) :=
  match fuel with
  | O => Some (s, ip, ellipsis)
  | S fuel' =>
      let '(ds, rest) := hex_run s in
      if (length ds =? 0)%nat || (4 <? length ds)%nat then None
      else match rest with
           | String c rest' =>
               if Ascii.eqb c (byte_of 46) then
                 if bool_decide (ellipsis = None) && negb (length ip =? 12)%nat then None
                 else if (16 <? length ip + 4)%nat then None
                 else v4 ← parse_ipv4_fields s; Some (EmptyString, ip ++ v4, ellipsis)
               else
                 let ip' := ip ++ [hex_value ds / 256; hex_value ds mod 256] in
                 if negb (Ascii.eqb c colon) then None
                 else match rest' with
                      | EmptyString => None
                      | String c' rest'' =>
                          if Ascii.eqb c' colon then
                            match ellipsis with
                            | Some _ => None
                            | None =>
                                if String.eqb rest'' EmptyString
                                then Some (EmptyString, ip', Some (length ip'))
                                else ipv6_groups fuel' rest'' ip' (Some (length ip'))
                            end
                          else ipv6_groups fuel' rest' ip' ellipsis
                      end
           | EmptyString =>
               Some (EmptyString, ip ++ [hex_value ds / 256; hex_value ds mod 256], ellipsis)
           end
  end.

Definition parse_ipv6 (s : string) : option (list Z) :=
  '(rest, ip, ellipsis) ←
    match s with
    | String a (String b s') =>
        if Ascii.eqb a colon && Ascii.eqb b colon then
          if String.eqb s' EmptyString then Some (EmptyString, [], Some 0%nat)
          else ipv6_groups 8 s' [] (Some 0%nat)
        else ipv6_groups 8 s [] None
    | _ => ipv6_groups 8 s [] None
    end;
  if negb (String.eqb rest EmptyString) then None
  else if (length ip <? 16)%nat then
    k ← (ellipsis : option nat);
    Some (take k ip ++ replicate (16 - length ip) 0 ++ drop k ip)
  else if bool_decide (ellipsis = None) then Some ip else None.

(** The first of '.', ':' and '%' decides the kind; a zone is refused. *)
Fixpoint ip_kind (s : string) : option Ascii.ascii :=
  match s with
  | EmptyString => None
  | String c s' =>
      if Ascii.eqb c (byte_of 46) || Ascii.eqb c colon || Ascii.eqb c percent then Some c
      else ip_kind s'
  end.

Definition ParseIP (s : string) : option IP :=
  c ← ip_kind s;
  if Ascii.eqb c (byte_of 46) then IPv4 <$> parse_ipv4_fields s
  else if Ascii.eqb c colon then
    if has_byte s percent then None else IPv6 <$> parse_ipv6 s
  else None.

(** [IP.IsLoopback], which looks at the IPv4 address of a mapped one. *)
Definition IsLoopback (ip : IP) : bool :=
  match ip with
  | IPv4 (b :: _) => b =? 127
  | IPv4 [] => false
  | IPv6 bs =>
      if bool_decide (take 12 bs = replicate 10 0 ++ [255; 255])
      then default 0 (bs !! 12%nat) =? 127
      else bool_decide (bs = replicate 15 0 ++ [1])
  end.

Example split_v4 : SplitHostPort "127.0.0.1:8173" = Some ("127.0.0.1", "8173").
Proof. reflexivity. Qed.
Example split_v6 : SplitHostPort "[::1]:80" = Some ("::1", "80").
Proof. reflexivity. Qed.
Example split_colons : SplitHostPort "::1:80" = None.
Proof. reflexivity. Qed.
Example split_none : SplitHostPort "localhost" = None.
Proof. reflexivity. Qed.
Example ip_loop : (IsLoopback <$> ParseIP "127.1.2.3") = Some true.
Proof. reflexivity. Qed.
Example ip6_loop : (IsLoopback <$> ParseIP "::1") = Some true.
Proof. reflexivity. Qed.
Example ip6_mapped : (IsLoopback <$> ParseIP "::ffff:127.0.0.1") = Some true.
Proof. reflexivity. Qed.
Example ip6_long : (IsLoopback <$> ParseIP "0:0:0:0:0:0:0:1") = Some true.
Proof. reflexivity. Qed.
Example ip6_other : (IsLoopback <$> ParseIP "fe80::1") = Some false.
Proof. reflexivity. Qed.
Example ip_zero : ParseIP "127.0.0.01" = None.
Proof. reflexivity. Qed.
Example ip6_double : ParseIP "1::2::3" = None.
Proof. reflexivity. Qed.
Example ip6_nine : ParseIP "1:2:3:4:5:6:7:8:9" = None.
Proof. reflexivity. Qed.
Example ip6_full_ellipsis : ParseIP "1:2:3:4:5:6:7::8" = None.
Proof. reflexivity. Qed.
