(* ===== verification/GoJson.v ===== *)
(** * GoJson: what the program uses of [encoding/json].

    [parse] is the scanner and the syntax of values: it accepts what [json.Valid] accepts,
    with strings unquoted as [json.Unmarshal] unquotes them.  [encode_string] is how an
    encoder that does not escape HTML writes a string.  Structs are decoded from a parsed
    value by the functions of the last part, field by field. *)

From S2P Require Import Prelude GoStrings GoNet.

(** ** UTF-8 *)

Abbreviation code c := (Ascii.nat_of_ascii c).
Definition between (lo hi : nat) (c : Ascii.ascii) : bool := (lo <=? code c)%nat && (code c <=? hi)%nat.
Definition tail_byte : Ascii.ascii → bool := between 128 191.

(** The range of the second byte, and how many follow it, by the first byte of a rune. *)
Definition rune_head (c : Ascii.ascii) : option ((Ascii.ascii → bool) * nat) :=
  if between 194 223 c then Some (tail_byte, 0%nat)
  else if between 224 224 c then Some (between 160 191, 1%nat)
  else if between 237 237 c then Some (between 128 159, 1%nat)
  else if between 225 239 c then Some (tail_byte, 1%nat)
  else if between 240 240 c then Some (between 144 191, 2%nat)
  else if between 241 243 c then Some (tail_byte, 2%nat)
  else if between 244 244 c then Some (between 128 143, 2%nat)
  else None.

Fixpoint tails (n : nat) (s : string) : bool :=
  match n, s with
  | O, _ => true
  | S n', String c s' => tail_byte c && tails n' s'
  | _, EmptyString => false
  end.

(** The length of the rune at the start of [s], 0 when the first byte starts none. *)
Definition rune_len (s : string) : nat :=
  match s with
  | EmptyString => 0
  | String c s' =>
      if (code c <? 128)%nat then 1
      else match rune_head c, s' with
           | Some (second, more), String d s'' => if second d && tails more s'' then S (S more) else 0
           | _, _ => 0
           end
  end%nat.

(** U+FFFD. *)
Definition replacement : string := string_of_codes [239; 191; 189]%nat.

(** [utf8.AppendRune]. *)
Definition utf8 (r : Z) : string :=
  let b z := byte_of (Z.to_nat z) in
  let tail k := b (128 + r / 64 ^ k mod 64) in
  if r <? 128 then String (b r) EmptyString
  else if r <? 2048 then String (b (192 + r / 64)) (String (tail 0) EmptyString)
  else if (55296 <=? r) && (r <? 57344) || (1114112 <=? r) then replacement
  else if r <? 65536 then String (b (224 + r / 4096)) (String (tail 1) (String (tail 0) EmptyString))
  else String (b (240 + r / 262144)) (String (tail 2) (String (tail 1) (String (tail 0) EmptyString))).

(** ** Strings *)

Definition backslash : Ascii.ascii := byte_of 92.
Definition is_byte (n : nat) (c : Ascii.ascii) : bool := (code c =? n)%nat.

(** Where the scanner is in a string: in it, after a backslash, or in the digits of [\u]. *)
Inductive str_state := InString | InEsc | InEscU (more : nat).

(** The bytes up to the closing quote, and what follows it. *)
Fixpoint raw_string (st : str_state) (s : string) : option (string * string) :=
  match s with
  | EmptyString => None
  | String c s' =>
      let next st := '(r, rest) ← raw_string st s'; Some (String c r, rest) in
      match st with
      | InString =>
          if is_byte 34 c then Some (EmptyString, s')
          else if is_byte 92 c then next InEsc
          else if (code c <? 32)%nat then None
          else next InString
      | InEsc =>
          if existsb (λ n, is_byte n c) [98; 102; 110; 114; 116; 92; 47; 34]%nat then next InString
          else if is_byte 117 c then next (InEscU 3)
          else None
      | InEscU more =>
          if bool_decide (is_Some (hex_digit_of c)) then next (match more with O => InString | S l => InEscU l end)
          else None
      end
  end.

(** [getu4]: the number of an escape [\uXXXX] at the start. *)
Definition getu4 (s : string) : option Z :=
  match s with
  | String b (String u (String h1 (String h2 (String h3 (String h4 _))))) =>
      if is_byte 92 b && is_byte 117 u then
        a ← hex_digit_of h1; b ← hex_digit_of h2; c ← hex_digit_of h3; d ← hex_digit_of h4;
        Some (4096 * a + 256 * b + 16 * c + d)
      else None
  | _ => None
  end.

Definition is_surrogate (r : Z) : bool := (55296 <=? r) && (r <? 57344).

(** [utf16.DecodeRune] of two surrogates. *)
Definition pair_rune (r1 r2 : Z) : option Z :=
  if (55296 <=? r1) && (r1 <? 56320) && (56320 <=? r2) && (r2 <? 57344)
  then Some ((r1 - 55296) * 1024 + (r2 - 56320) + 65536) else None.

Definition unescape (c : Ascii.ascii) : option Ascii.ascii :=
  if existsb (λ n, is_byte n c) [34; 92; 47; 39]%nat then Some c
  else if is_byte 98 c then Some (byte_of 8)
  else if is_byte 102 c then Some (byte_of 12)
  else if is_byte 110 c then Some (byte_of 10)
  else if is_byte 114 c then Some (byte_of 13)
  else if is_byte 116 c then Some (byte_of 9)
  else None.

(** [unquote] of the bytes between the quotes; each round takes one byte at least. *)
Fixpoint unquote (fuel : nat) (s : string) : string :=
  match fuel, s with
  | S fuel', String c s' =>
      if is_byte 92 c then
        match s' with
        | EmptyString => EmptyString
        | String e s'' =>
            match unescape e with
            | Some b => String b (unquote fuel' s'')
            | None =>
                match getu4 s with
                | None => EmptyString
                | Some r =>
                    if is_surrogate r then
                      match getu4 (drop_bytes 6 s) ≫= pair_rune r with
                      | Some r' => utf8 r' +:+ unquote fuel' (drop_bytes 12 s)
                      | None => replacement +:+ unquote fuel' (drop_bytes 6 s)
                      end
                    else utf8 r +:+ unquote fuel' (drop_bytes 6 s)
                end
            end
        end
      else
        match rune_len s with
        | O => replacement +:+ unquote fuel' s'
        | n => take_bytes n s +:+ unquote fuel' (drop_bytes n s)
        end
  | _, _ => EmptyString
  end.

Definition Unquote (s : string) : string := unquote (String.length s) s.

(** [appendString] without the escapes of HTML. *)
Definition escape_byte (c : Ascii.ascii) : string :=
  let esc e := String backslash (String (byte_of e) EmptyString) in
  if is_byte 34 c || is_byte 92 c then String backslash (String c EmptyString)
  else if is_byte 8 c then esc 98%nat
  else if is_byte 12 c then esc 102%nat
  else if is_byte 10 c then esc 110%nat
  else if is_byte 13 c then esc 114%nat
  else if is_byte 9 c then esc 116%nat
  else if (code c <? 32)%nat then
    String backslash ("u00" +:+ String (hex_digit (Z.of_nat (code c) / 16)) (String (hex_digit (Z.of_nat (code c) mod 16)) EmptyString))
  else String c EmptyString.

Definition line_separators : list string := [string_of_codes [226; 128; 168]%nat; string_of_codes [226; 128; 169]%nat].

Fixpoint escape (fuel : nat) (s : string) : string :=
  match fuel, s with
  | S fuel', String c s' =>
      match rune_len s with
      | O => String backslash ("ufffd" +:+ escape fuel' s')
      | S O => escape_byte c +:+ escape fuel' s'
      | n =>
          let r := take_bytes n s in
          (if String.eqb r (string_of_codes [226; 128; 168]%nat) then String backslash "u2028"
           else if String.eqb r (string_of_codes [226; 128; 169]%nat) then String backslash "u2029"
           else r) +:+ escape fuel' (drop_bytes n s)
      end
  | _, _ => EmptyString
  end.

Definition encode_string (s : string) : string :=
  String dquote (escape (String.length s) s +:+ String dquote EmptyString).

(** A string with its invalid bytes replaced: what is left of it after it was encoded. *)
Fixpoint to_valid (fuel : nat) (s : string) : string :=
  match fuel, s with
  | S fuel', String c s' =>
      match rune_len s with
      | O => replacement +:+ to_valid fuel' s'
      | n => take_bytes n s +:+ to_valid fuel' (drop_bytes n s)
      end
  | _, _ => EmptyString
  end.

Definition ToValidUTF8 (s : string) : string := to_valid (String.length s) s.

Example unquote_ex :
  Unquote (String backslash ("u00e9" +:+ String backslash "n")) = string_of_codes [195; 169; 10]%nat.
Proof. reflexivity. Qed.
Example unquote_pair :
  Unquote (String backslash ("ud83d" +:+ String backslash "ude00")) = string_of_codes [240; 159; 152; 128]%nat.
Proof. reflexivity. Qed.
Example escape_ex : encode_string (string_of_codes [97; 34; 1; 255]%nat) =
  String dquote ("a" +:+ String backslash (String dquote (String backslash ("u0001" +:+ String backslash ("ufffd" +:+ String dquote EmptyString))))).
Proof. reflexivity. Qed.

(** ** Values *)

(** A number is its literal, an object the members in their order. *)
Inductive json :=
| JNull
| JBool (b : bool)
| JNumber (literal : string)
| JString (s : string)
| JArray (items : list json)
| JObject (members : list (string * json)).

Fixpoint skip_space (s : string) : string :=
  match s with
  | String c s' => if existsb (λ n, is_byte n c) [32; 9; 13; 10]%nat then skip_space s' else s
  | EmptyString => EmptyString
  end.

(** The longest prefix of bytes that are [p], and the rest. *)
Fixpoint span (p : Ascii.ascii → bool) (s : string) : string * string :=
  match s with
  | EmptyString => (EmptyString, EmptyString)
  | String c s' => if p c then let '(a, b) := span p s' in (String c a, b) else (EmptyString, s)
  end.

Definition digitb : Ascii.ascii → bool := between 48 57.
Definition number_byte (c : Ascii.ascii) : bool := digitb c || existsb (λ n, is_byte n c) [43; 45; 46; 101; 69]%nat.

Definition cut_byte (n : list nat) (s : string) : option string :=
  match s with String c s' => if existsb (λ k, is_byte k c) n then Some s' else None | EmptyString => None end.

(** An optional minus sign, digits without a leading zero, and optionally a fraction and an
    exponent. *)
Definition valid_number (s : string) : bool :=
  let s := default s (cut_byte [45%nat] s) in
  let '(int, rest) := span digitb s in
  let int_ok := match int with
                | EmptyString => false
                | String c EmptyString => true
                | String c _ => negb (is_byte 48 c)
                end in
  let '(frac_ok, rest) := match cut_byte [46%nat] rest with
                          | Some rest => let '(f, rest) := span digitb rest in (negb (String.eqb f EmptyString), rest)
                          | None => (true, rest)
                          end in
  let '(exp_ok, rest) := match cut_byte [101; 69]%nat rest with
                         | Some rest => let '(e, rest) := span digitb (default rest (cut_byte [43; 45]%nat rest)) in
                                        (negb (String.eqb e EmptyString), rest)
                         | None => (true, rest)
                         end in
  int_ok && frac_ok && exp_ok && String.eqb rest EmptyString.

Section Items.
Variable value : string → option (json * string).

(** After the bracket, when it is not closed at once; [fuel] bounds the items, each of which
    takes a byte. *)
Fixpoint elements (fuel : nat) (s : string) : option (list json * string) :=
  match fuel with
  | O => None
  | S fuel' =>
      '(v, rest) ← value (skip_space s);
      match skip_space rest with
      | String c rest' =>
          if is_byte 44 c then '(vs, rest'') ← elements fuel' rest'; Some (v :: vs, rest'')
          else if is_byte 93 c then Some ([v], rest')
          else None
      | EmptyString => None
      end
  end.

Fixpoint members (fuel : nat) (s : string) : option (list (string * json) * string) :=
  match fuel with
  | O => None
  | S fuel' =>
      s ← cut_byte [34%nat] (skip_space s);
      '(key, rest) ← raw_string InString s;
      rest ← cut_byte [58%nat] (skip_space rest);
      '(v, rest) ← value (skip_space rest);
      match skip_space rest with
      | String c rest' =>
          if is_byte 44 c then '(ms, rest'') ← members fuel' rest'; Some ((Unquote key, v) :: ms, rest'')
          else if is_byte 125 c then Some ([(Unquote key, v)], rest')
          else None
      | EmptyString => None
      end
  end.
End Items.

(** [depth] is how many more levels of nesting the scanner takes. *)
Fixpoint parse_value (depth : nat) (s : string) : option (json * string) :=
  match s with
  | EmptyString => None
  | String c s' =>
      if is_byte 34 c then '(r, rest) ← raw_string InString s'; Some (JString (Unquote r), rest)
      else if is_byte 91 c then
        match depth with
        | O => None
        | S depth' =>
            match cut_byte [93%nat] (skip_space s') with
            | Some rest => Some (JArray [], rest)
            | None => '(vs, rest) ← elements (parse_value depth') (String.length s) s'; Some (JArray vs, rest)
            end
        end
      else if is_byte 123 c then
        match depth with
        | O => None
        | S depth' =>
            match cut_byte [125%nat] (skip_space s') with
            | Some rest => Some (JObject [], rest)
            | None => '(ms, rest) ← members (parse_value depth') (String.length s) s'; Some (JObject ms, rest)
            end
        end
      else match CutPrefix s "true", CutPrefix s "false", CutPrefix s "null" with
           | Some rest, _, _ => Some (JBool true, rest)
           | _, Some rest, _ => Some (JBool false, rest)
           | _, _, Some rest => Some (JNull, rest)
           | _, _, _ =>
               let '(n, rest) := span number_byte s in
               if valid_number n then Some (JNumber n, rest) else None
           end
  end.

Definition maxNestingDepth : nat := 10000.

Definition parse (s : string) : option json :=
  '(v, rest) ← parse_value maxNestingDepth (skip_space s);
  if String.eqb (skip_space rest) EmptyString then Some v else None.

(** ** Structs

    A field has a name and a setter, [None] for a value that is no value of its type; [null]
    leaves a field as it is.  A key that is no name of a field is that of the first field
    whose name differs from it in case only, where the long s and the Kelvin sign are cases
    of [s] and [k]; other keys are ignored. *)

Definition setter (A : Type) : Type := json → A → option A.

Fixpoint fold_name (s : string) : string :=
  match s with
  | EmptyString => EmptyString
  | String a s1 =>
      let one := String (if between 97 122 a then byte_of (code a - 32)%nat else a) (fold_name s1) in
      match s1 with
      | String b s2 =>
          if is_byte 197 a && is_byte 191 b then String (byte_of 83) (fold_name s2)
          else match s2 with
               | String c s3 =>
                   if is_byte 226 a && is_byte 132 b && is_byte 170 c then String (byte_of 75) (fold_name s3) else one
               | EmptyString => one
               end
      | EmptyString => one
      end
  end.

Definition find_field {A} (fields : list (string * setter A)) (key : string) : option (setter A) :=
  match list_find (λ f, f.1 = key) fields with
  | Some (_, f) => Some f.2
  | None => (λ f, f.2.2) <$> list_find (λ f, fold_name f.1 = fold_name key) fields
  end.

Definition decode_struct {A} (fields : list (string * setter A)) (v : json) (a : A) : option A :=
  match v with
  | JNull => Some a
  | JObject ms =>
      foldl (λ acc m, a ← acc; match find_field fields m.1 with Some set => set m.2 a | None => Some a end) (Some a) ms
  | _ => None
  end.

Definition set_string {A} (put : string → A → A) : setter A :=
  λ v a, match v with JNull => Some a | JString s => Some (put s a) | _ => None end.

Definition set_uint {A} (put : Z → A → A) : setter A :=
  λ v a, match v with
         | JNull => Some a
         | JNumber lit => (λ n, put n a) <$> ParseUint 64 lit
         | _ => None
         end.

(** A slice of structs: the items are decoded into those that are there, then into new ones. *)
Definition set_structs {A B} (item : setter B) (zero : B) (get : A → list B) (put : list B → A → A) : setter A :=
  λ v a, match v with
         | JNull => Some (put [] a)
         | JArray vs => (λ l, put l a) <$> mapM (λ iv, item iv.2 (default zero (get a !! iv.1))) (imap pair vs)
         | _ => None
         end.

(** Text with single quotes for double ones, for the examples. *)
Fixpoint text (s : string) : string :=
  match s with
  | EmptyString => EmptyString
  | String c s' => String (if is_byte 39 c then dquote else c) (text s')
  end.

Example json_parse_ex :
  parse (text " {'a' : [1, -2.5e3, true ], 'b':null}") =
  Some (JObject [("a", JArray [JNumber "1"; JNumber "-2.5e3"; JBool true]); ("b", JNull)]).
Proof. vm_compute. reflexivity. Qed.
Example parse_bad :
  existsb (λ s, bool_decide (is_Some (parse (text s))))
    ["01"; "1."; "-"; "[1,]"; "{'a':1,}"; "{a:1}"; "'a"; "nulls"; "[1 2]"; "{} {}"; EmptyString; "'\x'"; "1-2"] = false.
Proof. vm_compute. reflexivity. Qed.

(** ** What is encoded is decoded *)

Lemma raw_escape_byte c rest :
  (code c < 128)%nat → raw_string InString (escape_byte c +:+ rest) = ('(a, b) ← raw_string InString rest; Some (escape_byte c +:+ a, b)).
Proof.
  destruct c as [[] [] [] [] [] [] [] []]; try (intros H; exfalso; vm_compute in H; lia); intros _;
    match goal with |- context [escape_byte ?c] => let e := eval vm_compute in (escape_byte c) in change (escape_byte c) with e end;
    cbn [String.append]; simpl; by destruct (raw_string InString rest) as [[]|].
Qed.

Lemma unquote_escape_byte c fuel rest :
  (code c < 128)%nat → unquote (S fuel) (escape_byte c +:+ rest) = String c (unquote fuel rest).
Proof.
  destruct c as [[] [] [] [] [] [] [] []]; try (intros H; exfalso; vm_compute in H; lia); intros _; reflexivity.
Qed.

#[local] Arguments Nat.leb : simpl never.
#[local] Arguments Nat.ltb : simpl never.
#[local] Arguments Ascii.nat_of_ascii : simpl never.

Fixpoint high (s : string) : bool :=
  match s with EmptyString => true | String c s' => (128 <=? code c)%nat && high s' end.

Lemma tails_spec n s : tails n s = true →
  ∃ r t, s = r +:+ t ∧ String.length r = n ∧ high r = true ∧ ∀ u, tails n (r +:+ u) = true.
Proof.
  revert s. induction n as [|n IH]; intros s; simpl; [by exists EmptyString, s|].
  destruct s as [|c s]; [done|]. intros [Hc Hs]%andb_true_iff. destruct (IH s Hs) as (r & t & -> & Hl & Hh & Hu).
  exists (String c r), t. simpl. rewrite Hl, Hh. repeat split.
  - unfold tail_byte, between in Hc. apply andb_true_iff in Hc as [-> _]. done.
  - intros u. simpl. rewrite Hc. apply Hu.
Qed.

Lemma rune_head_high c second more d :
  rune_head c = Some (second, more) → second d = true → (128 <= code c)%nat ∧ (128 <= code d)%nat.
Proof.
  unfold rune_head, tail_byte, between. intros H Hd.
  repeat (case_match; [simplify_eq; rewrite !andb_true_iff, !Nat.leb_le in *; lia|]). done.
Qed.

(** A rune of more than one byte is in front of whatever follows it. *)
Lemma rune_split s m : rune_len s = S (S m) →
  ∃ r t, s = r +:+ t ∧ String.length r = S (S m) ∧ high r = true ∧ ∀ u, rune_len (r +:+ u) = S (S m).
Proof.
  destruct s as [|c s]; [done|]. simpl. destruct (Nat.ltb_spec (code c) 128); [done|].
  destruct (rune_head c) as [[second more]|] eqn:Eh; [|done]. destruct s as [|d s]; [done|].
  destruct (second d && tails more s) eqn:Et; [|done]. intros [= <-]. apply andb_true_iff in Et as [Hd Ht].
  destruct (tails_spec more s Ht) as (r & t & -> & Hl & Hh & Hu).
  pose proof (rune_head_high c second more d Eh Hd) as [H1 H2].
  exists (String c (String d r)), t. simpl. rewrite Hl, Hh, (proj2 (Nat.leb_le 128 (code c))), (proj2 (Nat.leb_le 128 (code d))) by done.
  repeat split. intros u. rewrite (proj2 (Nat.ltb_ge _ _)), Eh, Hd, Hu by done. done.
Qed.

Lemma raw_high r rest :
  high r = true → raw_string InString (r +:+ rest) = ('(a, b) ← raw_string InString rest; Some (r +:+ a, b)).
Proof.
  induction r as [|c r IH]; simpl; [by destruct (raw_string InString rest) as [[]|]|].
  intros [Hc%Nat.leb_le Hh]%andb_true_iff. unfold is_byte.
  rewrite !(proj2 (Nat.eqb_neq _ _)), (proj2 (Nat.ltb_ge _ _)), IH by (done || lia).
  by destruct (raw_string InString rest) as [[]|].
Qed.

(** One round of the loops over a string. *)
Lemma rune_cases c s :
  (rune_len (String c s) = 0%nat) ∨ (rune_len (String c s) = 1%nat ∧ (code c < 128)%nat) ∨
  ∃ m r t, rune_len (String c s) = S (S m) ∧ String c s = r +:+ t ∧ String.length r = S (S m) ∧ high r = true ∧
    ∀ u, rune_len (r +:+ u) = S (S m).
Proof.
  destruct (rune_len (String c s)) as [|[|m]] eqn:E; [auto| |].
  - right. left. split; [done|]. simpl in E. destruct (Nat.ltb_spec (code c) 128); [done|].
    destruct (rune_head c) as [[]|]; [|done]. destruct s; [done|]. by destruct (_ && _).
  - right. right. destruct (rune_split _ m E) as (r & t & ? & ? & ? & ?). by exists m, r, t.
Qed.

Lemma escape_round n c s m r t :
  rune_len (String c s) = S (S m) → String c s = r +:+ t → String.length r = S (S m) →
  escape (S n) (String c s) =
    (if String.eqb r (string_of_codes [226; 128; 168]%nat) then String backslash "u2028"
     else if String.eqb r (string_of_codes [226; 128; 169]%nat) then String backslash "u2029" else r) +:+ escape n t.
Proof.
  intros E Es Hl. cbn [escape]. rewrite E, Es, <- Hl, take_bytes_app, drop_bytes_app. done.
Qed.

(** The scanner finds the end of an encoded string. *)
Lemma raw_escape n s rest : raw_string InString (escape n s +:+ String dquote rest) = Some (escape n s, rest).
Proof.
  revert s. induction n as [|n IH]; intros s; [done|]. destruct s as [|c s]; [done|].
  destruct (rune_cases c s) as [E|[[E Hc]|(m & r & t & E & Es & Hl & Hh & _)]].
  - cbn [escape]. rewrite E. simpl. by rewrite IH.
  - cbn [escape]. rewrite E, <- sapp_assoc, raw_escape_byte, IH by done. done.
  - rewrite (escape_round n c s m r t E Es Hl), <- sapp_assoc.
    destruct (String.eqb_spec r (string_of_codes [226; 128; 168]%nat)); [simpl; by rewrite IH|].
    destruct (String.eqb_spec r (string_of_codes [226; 128; 169]%nat)); [simpl; by rewrite IH|].
    by rewrite raw_high, IH.
Qed.

Lemma unquote_rune fuel c r u m :
  (forall u, rune_len (r +:+ u) = S (S m)) → String.length r = S (S m) → high r = true → (∃ r', r = String c r') →
  unquote (S fuel) (r +:+ u) = r +:+ unquote fuel u.
Proof.
  intros Hr Hl Hh (r' & ->). specialize (Hr u). cbn [String.append] in Hr |- *. cbn [unquote].
  simpl in Hh. apply andb_true_iff in Hh as [Hc%Nat.leb_le _]. unfold is_byte.
  rewrite (proj2 (Nat.eqb_neq _ _)), Hr by lia. rewrite <- Hl.
  change (String c (r' +:+ u)) with (String c r' +:+ u). by rewrite take_bytes_app, drop_bytes_app.
Qed.

Lemma unquote_escape n s fuel : (n <= fuel)%nat → unquote fuel (escape n s) = to_valid n s.
Proof.
  revert s fuel. induction n as [|n IH]; intros s fuel Hf; [by destruct fuel|].
  destruct fuel as [|fuel]; [lia|]. destruct s as [|c s]; [done|].
  destruct (rune_cases c s) as [E|[[E Hc]|(m & r & t & E & Es & Hl & Hh & Hr)]].
  - cbn [escape to_valid]. rewrite E. simpl. by rewrite IH by lia.
  - cbn [escape to_valid]. rewrite E, unquote_escape_byte, IH by (done || lia). cbn [take_bytes drop_bytes]. done.
  - rewrite (escape_round n c s m r t E Es Hl).
    assert (Ev : to_valid (S n) (String c s) = r +:+ to_valid n t).
    { cbn [to_valid]. rewrite E, Es, <- Hl, take_bytes_app, drop_bytes_app. done. }
    rewrite Ev. destruct (String.eqb_spec r (string_of_codes [226; 128; 168]%nat)) as [->|]; [simpl; by rewrite IH by lia|].
    destruct (String.eqb_spec r (string_of_codes [226; 128; 169]%nat)) as [->|]; [simpl; by rewrite IH by lia|].
    rewrite (unquote_rune fuel c r _ m), IH by (done || lia || (destruct r; [done|]; simpl in Es; simplify_eq; eauto)). done.
Qed.

Lemma escape_byte_length c : (1 <= String.length (escape_byte c))%nat.
Proof. unfold escape_byte. by repeat case_match; simpl; lia. Qed.

(** An encoded string has at least as many bytes, and at most six times as many. *)
Lemma escape_length n s : (String.length s <= n → String.length s <= String.length (escape n s) <= 6 * String.length s)%nat.
Proof.
  revert s. induction n as [|n IH]; intros s Hn; [by destruct s; simpl in *; lia|]. destruct s as [|c s]; [simpl; lia|].
  destruct (rune_cases c s) as [E|[[E Hc]|(m & r & t & E & Es & Hl & Hh & _)]].
  - cbn [escape]. rewrite E. cbn [String.length String.append] in Hn |- *. specialize (IH s ltac:(lia)). lia.
  - cbn [escape]. rewrite E, slength_app. cbn [String.length] in Hn |- *. specialize (IH s ltac:(lia)).
    pose proof (escape_byte_length c). assert (String.length (escape_byte c) <= 6)%nat; [|lia].
    unfold escape_byte. by repeat case_match; simpl; lia.
  - rewrite (escape_round n c s m r t E Es Hl), Es in *. rewrite !slength_app, Hl in *.
    specialize (IH t ltac:(lia)). set (x := if String.eqb r _ then _ else _).
    assert (Hx : (String.length r <= String.length x <= 6 * String.length r)%nat).
    { unfold x. destruct (String.eqb_spec r (string_of_codes [226; 128; 168]%nat)) as [->|]; [simpl; lia|].
      destruct (String.eqb_spec r (string_of_codes [226; 128; 169]%nat)) as [->|]; simpl; lia. }
    lia.
Qed.

(** A string is read back as it was written, with its invalid bytes replaced. *)
Lemma parse_encoded depth s rest :
  parse_value depth (encode_string s +:+ rest) = Some (JString (ToValidUTF8 s), rest).
Proof.
  unfold encode_string. cbn [String.append]. rewrite <- sapp_assoc. cbn [String.append].
  assert (E : parse_value depth (String dquote (escape (String.length s) s +:+ String dquote rest)) =
    ('(r, rest) ← raw_string InString (escape (String.length s) s +:+ String dquote rest); Some (JString (Unquote r), rest))).
  { by destruct depth. }
  rewrite E, raw_escape. cbn. unfold Unquote, ToValidUTF8.
  rewrite unquote_escape; [done|]. by apply escape_length.
Qed.

(** A member of an object as the encoder writes it. *)
Definition solid (s : string) : bool :=
  match s with String c _ => negb (existsb (λ n, is_byte n c) [32; 9; 13; 10]%nat) | EmptyString => false end.

Lemma skip_solid s : solid s = true → skip_space s = s.
Proof. destruct s as [|c s]; [done|]. cbn [solid skip_space]. by destruct (existsb _ _). Qed.

Lemma solid_encode s rest : solid (encode_string s +:+ rest) = true.
Proof. done. Qed.

Lemma members_encoded value fuel key s v rest :
  solid s = true → value s = Some (v, rest) →
  members value (S fuel) (encode_string key +:+ String colon s) =
  match skip_space rest with
  | String c rest' =>
      if is_byte 44 c then '(ms, rest'') ← members value fuel rest'; Some ((ToValidUTF8 key, v) :: ms, rest'')
      else if is_byte 125 c then Some ([(ToValidUTF8 key, v)], rest')
      else None
  | EmptyString => None
  end.
Proof.
  intros Hs Hv. cbn [members]. rewrite skip_solid by apply solid_encode.
  unfold encode_string. cbn [String.append]. rewrite <- sapp_assoc. cbn [String.append].
  assert (Hc : ∀ s, cut_byte [34%nat] (String dquote s) = Some s) by done. rewrite Hc. cbn [mbind option_bind].
  rewrite raw_escape. cbn [mbind option_bind].
  assert (Hk : cut_byte [58%nat] (skip_space (String colon s)) = Some s) by done. rewrite Hk. cbn [mbind option_bind].
  rewrite (skip_solid s), Hv by done. cbn [mbind option_bind].
  assert (Eu : Unquote (escape (String.length key) key) = ToValidUTF8 key).
  { unfold Unquote, ToValidUTF8. apply unquote_escape. by apply escape_length. }
  by rewrite Eu.
Qed.

(** No line feed is left in an encoded string. *)
Lemma IndexByte_app a b n :
  IndexByte (a +:+ b) n = None ↔ IndexByte a n = None ∧ IndexByte b n = None.
Proof.
  induction a as [|c a IH]; simpl; [by split; [|intros []]|]. destruct (Ascii.eqb c n); [by split; [|intros []]|].
  rewrite !fmap_None. exact IH.
Qed.

Lemma high_no_feed r : high r = true → IndexByte r (byte_of 10) = None.
Proof.
  induction r as [|c r IH]; [done|]. cbn [high IndexByte]. intros [Hc%Nat.leb_le Hr]%andb_true_iff.
  destruct (Ascii.eqb_spec c (byte_of 10)) as [->|]; [vm_compute in Hc; lia|]. by rewrite IH.
Qed.

Lemma escape_byte_no_feed c : (code c < 128)%nat → IndexByte (escape_byte c) (byte_of 10) = None.
Proof.
  destruct c as [[] [] [] [] [] [] [] []]; try (intros H; exfalso; vm_compute in H; lia); reflexivity.
Qed.

Lemma escape_no_feed n s : IndexByte (escape n s) (byte_of 10) = None.
Proof.
  revert s. induction n as [|n IH]; intros s; [done|]. destruct s as [|c s]; [done|].
  destruct (rune_cases c s) as [E|[[E Hc]|(m & r & t & E & Es & Hl & Hh & _)]].
  - cbn [escape]. rewrite E. cbn. by rewrite IH.
  - cbn [escape]. rewrite E. apply IndexByte_app. split; [by apply escape_byte_no_feed|done].
  - rewrite (escape_round n c s m r t E Es Hl). apply IndexByte_app. split; [|done].
    destruct (String.eqb _ _); [done|]. destruct (String.eqb _ _); [done|]. by apply high_no_feed.
Qed.

Lemma encode_no_feed s : IndexByte (encode_string s) (byte_of 10) = None.
Proof.
  unfold encode_string. cbn [IndexByte]. change (Ascii.eqb dquote (byte_of 10)) with false. cbv iota.
  apply fmap_None, IndexByte_app. split; [apply escape_no_feed|done].
Qed.
