(* ===== verification/Paths.v ===== *)
(** * Paths: host paths ([path/filepath] as the agent uses it, [pkg/config/hostpath.go],
    [pkg/pathlib/kubelet.go]).

    The agent sees the host's files under a mount whose path is the [HOST_ROOT]
    variable of its environment; here the variable is an argument. *)

From S2P Require Import Prelude GoStrings.

Definition slash : Ascii.ascii := byte_of 47.

(** ** filepath.Clean and filepath.Join, on Unix *)

(** One path element: [out] holds the elements kept so far, the last one first. *)
Definition clean_step (rooted : bool) (out : list string) (e : string) : list string :=
  if String.eqb e EmptyString || String.eqb e "." then out
  else if String.eqb e ".." then
    match out with
    | x :: out' => if String.eqb x ".." then e :: out else out'
    | [] => if rooted then [] else [e]
    end
  else e :: out.

Definition clean_elems (rooted : bool) (es : list string) : list string :=
  foldl (clean_step rooted) [] es.

Definition is_rooted (p : string) : bool := HasPrefix p "/".

Definition render_path (rooted : bool) (out : list string) : string :=
  match rooted, out with
  | false, [] => "."
  | false, _ => Join (rev out) "/"
  | true, _ => "/" +:+ Join (rev out) "/"
  end.

Definition Clean (p : string) : string :=
  render_path (is_rooted p) (clean_elems (is_rooted p) (Split p slash)).

(** The first non-empty element and all those after it, joined and cleaned. *)
Fixpoint PathJoin (elems : list string) : string :=
  match elems with
  | [] => EmptyString
  | e :: es => if String.eqb e EmptyString then PathJoin es else Clean (Join elems "/")
  end.

Example clean_ex : Clean "/a//b/./../c/" = "/a/c". Proof. reflexivity. Qed.
Example clean_up : Clean "../a/../../b" = "../../b". Proof. reflexivity. Qed.
Example join_ex : PathJoin [EmptyString; "/host/"; "/dev/kmsg"] = "/host/dev/kmsg".
Proof. reflexivity. Qed.

(** ** pkg/config/hostpath.go *)

(** [env] is the environment: [Some] when the variable exists. *)
Definition HostRoot (env : string → option string) : string :=
  match env "HOST_ROOT" with Some root => root | None => "/" end.

Definition ToHostPath (env : string → option string) (path : string) : string :=
  PathJoin [HostRoot env; path].

Definition NvidiaDriverRoot (env : string → option string) : string :=
  match env "NVIDIA_DRIVER_ROOT" with Some root => root | None => EmptyString end.

(** ** pkg/pathlib/kubelet.go *)

(** What [os.Stat] says of a path: absent (or an error), or whether it is a directory. *)
Abbreviation Stat := (string → option bool).

Fixpoint ResolvePathOption (stat : Stat) (options : list string) : string :=
  match options with
  | [] => EmptyString
  | path :: options' =>
      match stat path with
      | Some false => path
      | _ => ResolvePathOption stat options'
      end
  end.

Fixpoint ResolveDirPathOption (stat : Stat) (options : list string) : string :=
  match options with
  | [] => EmptyString
  | path :: options' =>
      match stat path with
      | Some true => path
      | _ => ResolveDirPathOption stat options'
      end
  end.

Definition DefaultCACertPath : string := "/etc/kubernetes/pki/ca.crt".

Definition ResolveCACertPath (stat : Stat) (hostRoot : string) : string :=
  ResolvePathOption stat [PathJoin [hostRoot; DefaultCACertPath]].

Definition HostPath (hostRoot path : string) : string :=
  let hostRoot := Clean hostRoot in
  let insideHostRoot := String.eqb path hostRoot || HasPrefix path (hostRoot +:+ "/") in
  if String.eqb path EmptyString || String.eqb hostRoot "/" || insideHostRoot then path
  else PathJoin [hostRoot; path].

(** The fields of a kubeconfig cluster that matter: embedded authority data, and
    the path of an authority file. *)
Record Cluster := mkCluster {
  CertificateAuthorityData : string;
  CertificateAuthority : string
}.

Definition ResolveClusterCACert (stat : Stat) (hostRoot : string) (cluster : option Cluster)
    : result string string :=
  let fallback :=
    let caCertPath := ResolveCACertPath stat hostRoot in
    if negb (String.eqb caCertPath EmptyString) then Ok caCertPath
    else Err "could not locate host CA Certificates in expected paths" in
  match cluster with
  | None => fallback
  | Some c =>
      if (0 <? String.length (CertificateAuthorityData c))%nat then Ok EmptyString
      else if negb (String.eqb (CertificateAuthority c) EmptyString)
      then Ok (HostPath hostRoot (CertificateAuthority c))
      else fallback
  end.

(** A kubeconfig: its current context and the user and cluster of each context. *)
Section Kubeconfig.
Context {AuthInfo : Type}.
Record Config := mkConfig {
  CurrentContext : string;
  Contexts : gmap string (string * string);
  AuthInfos : gmap string AuthInfo;
  Clusters : gmap string Cluster
}.

(** The entry of the current context, or the only entry. *)
Definition sole {A} (m : gmap string A) : option A :=
  match map_to_list m with [(_, a)] => Some a | _ => None end.

Definition AuthInfoForCurrentContext (kubeconfig : Config) : option AuthInfo :=
  match (ctx ← Contexts kubeconfig !! CurrentContext kubeconfig;
         AuthInfos kubeconfig !! ctx.1) with
  | Some authInfo => Some authInfo
  | None => sole (AuthInfos kubeconfig)
  end.

Definition ClusterForCurrentContext (kubeconfig : Config) : option Cluster :=
  match (ctx ← Contexts kubeconfig !! CurrentContext kubeconfig;
         Clusters kubeconfig !! ctx.2) with
  | Some cluster => Some cluster
  | None => sole (Clusters kubeconfig)
  end.
End Kubeconfig.

(** [kubeconfigEnv] is the expansion of [${KUBECONFIG}]. *)
Definition ResolveKubeconfig (stat : Stat) (kubeconfigEnv hostRoot : string) : string :=
  ResolvePathOption stat
    [PathJoin [hostRoot; kubeconfigEnv];
     PathJoin [hostRoot; "/var/lib/kubelet/kubeconfig"];
     PathJoin [hostRoot; "/etc/kubernetes/kubelet/kubeconfig"];
     PathJoin [hostRoot; "/etc/eksctl/kubeconfig.yaml"]].

Definition ResolveKubeletConfig (stat : Stat) (hostRoot : string) : string :=
  ResolvePathOption stat
    [PathJoin [hostRoot; "/etc/kubernetes/kubelet/config"];
     PathJoin [hostRoot; "/etc/kubernetes/kubelet/config.json"];
     PathJoin [hostRoot; "/etc/kubernetes/kubelet/config.yaml"];
     PathJoin [hostRoot; "/etc/kubernetes/kubelet/kubelet-config.json"]].

Definition ResolveKubeletConfigDropIn (stat : Stat) (hostRoot : string) : string :=
  ResolveDirPathOption stat [PathJoin [hostRoot; "/etc/kubernetes/kubelet/config.json.d"]].

(** ** Lemmas *)

(** A path element: not empty and without a slash. *)
Definition elem_ok (e : string) : Prop := e ≠ EmptyString ∧ IndexByte e slash = None.

Lemma Split_Join es : es ≠ [] → Forall elem_ok es → Split (Join es "/") slash = es.
Proof.
  induction es as [|e es IH]; intros Hne Hes; [done|].
  inversion_clear Hes as [|?? [_ He] Hes']. destruct es as [|e' es].
  - by apply Split_elem.
  - change (Join (e :: e' :: es) "/") with (e +:+ String slash (Join (e' :: es) "/")).
    rewrite Split_app, IH, Split_elem by done. done.
Qed.

Lemma Split_elems p : Forall (λ e, IndexByte e slash = None) (Split p slash).
Proof.
  induction p as [|c p IH]; simpl; [by repeat constructor|].
  destruct (Ascii.eqb c slash) eqn:Hc; [by constructor|].
  destruct (Split p slash) as [|e es] eqn:E; [by apply Split_not_nil in E|].
  inversion_clear IH. constructor; [|done]. simpl. by rewrite Hc, H.
Qed.

Definition plain (e : string) : bool :=
  negb (String.eqb e EmptyString || String.eqb e "." || String.eqb e "..").

Lemma clean_step_plain rooted out e : plain e = true → clean_step rooted out e = e :: out.
Proof.
  unfold plain, clean_step. intros H. bool_to_prop.
  by repeat match goal with H : _ = false |- _ => rewrite H; clear H end.
Qed.

Lemma clean_step_empty rooted out : clean_step rooted out EmptyString = out.
Proof. done. Qed.

(** Elements other than the dot ones are kept, after those before. *)
Lemma clean_plain rooted out es :
  Forall (λ e, e = EmptyString ∨ plain e = true) es →
  foldl (clean_step rooted) out es = rev (filter (λ e, e ≠ EmptyString) es) ++ out.
Proof.
  revert out. induction es as [|e es IH]; intros out H; simpl; [done|].
  apply Forall_cons in H as [[->|He] Hes]; rewrite IH by done.
  - by rewrite filter_cons_False by (intros Hn; by apply Hn).
  - rewrite clean_step_plain by done.
    rewrite filter_cons_True by (intros ->; discriminate He). simpl.
    by rewrite <- app_assoc.
Qed.

(** The elements kept under a root: none is a dot one, and none has a slash. *)
Definition kept (e : string) : Prop := plain e = true ∧ IndexByte e slash = None.

Lemma clean_elems_kept es out :
  Forall (λ e, IndexByte e slash = None) es → Forall kept out →
  Forall kept (foldl (clean_step true) out es).
Proof.
  revert out. induction es as [|e es IH]; intros out Hes Hout; simpl; [done|].
  apply Forall_cons in Hes as [He Hes]. apply IH; [done|].
  unfold clean_step. destruct (String.eqb e EmptyString || String.eqb e ".") eqn:E1; [done|].
  destruct (String.eqb e "..") eqn:E2.
  - destruct out as [|x out]; [done|]. apply Forall_cons in Hout as [[Hx _] Hout].
    destruct (String.eqb_spec x "..") as [->|]; [discriminate Hx|done].
  - constructor; [|done]. split; [|done]. unfold plain. by rewrite E1, E2.
Qed.

Lemma kept_elem_ok es : Forall kept es → Forall elem_ok es.
Proof.
  intros H. eapply Forall_impl; [exact H|]. intros e [Hp Hi]. split; [|done].
  intros ->. discriminate Hp.
Qed.

Lemma kept_plain es : Forall kept es → Forall (λ e, e = EmptyString ∨ plain e = true) es.
Proof. intros H. eapply Forall_impl; [exact H|]. intros e [Hp _]. by right. Qed.

Lemma filter_kept es : Forall kept es → filter (λ e, e ≠ EmptyString) es = es.
Proof.
  induction 1 as [|e es [Hp _] _ IH]; [done|].
  rewrite filter_cons_True, IH by (intros ->; discriminate Hp). done.
Qed.

(** The elements of a cleaned absolute path, in order. *)
Definition path_elems (p : string) : list string := rev (clean_elems true (Split p slash)).

Definition abs_path (es : list string) : string := "/" +:+ Join es "/".

Lemma path_elems_kept p : Forall kept (path_elems p).
Proof. apply Forall_rev, clean_elems_kept; [apply Split_elems|constructor]. Qed.

Lemma Clean_rooted p : is_rooted p = true → Clean p = abs_path (path_elems p).
Proof. intros Hp. unfold Clean. by rewrite Hp. Qed.

Lemma abs_path_rooted es : is_rooted (abs_path es) = true.
Proof. done. Qed.

Lemma Split_abs es : Forall kept es → es ≠ [] → Split (abs_path es) slash = EmptyString :: es.
Proof.
  intros Hes Hne. unfold abs_path. simpl. by rewrite Split_Join by auto using kept_elem_ok.
Qed.

Lemma path_elems_abs es : Forall kept es → path_elems (abs_path es) = es.
Proof.
  intros Hes. destruct es as [|e es]; [done|].
  unfold path_elems, clean_elems. rewrite Split_abs by done.
  rewrite clean_plain by (constructor; [by left|by apply kept_plain]).
  rewrite filter_cons_False by (intros H; by apply H).
  by rewrite filter_kept, app_nil_r, rev_involutive.
Qed.

Lemma abs_path_inj p q : Forall kept p → Forall kept q → abs_path p = abs_path q → p = q.
Proof. intros Hp Hq E. by rewrite <- (path_elems_abs p Hp), <- (path_elems_abs q Hq), E. Qed.

Lemma Clean_abs es : Forall kept es → Clean (abs_path es) = abs_path es.
Proof. intros Hes. rewrite Clean_rooted by done. by rewrite path_elems_abs. Qed.

(** [filepath.Clean] returns a path it leaves alone. *)
Lemma Clean_idem p : is_rooted p = true → Clean (Clean p) = Clean p.
Proof. intros Hp. rewrite (Clean_rooted p Hp). apply Clean_abs, path_elems_kept. Qed.

Lemma Join_app es fs :
  es ≠ [] → fs ≠ [] → Join (es ++ fs) "/" = Join es "/" +:+ "/" +:+ Join fs "/".
Proof.
  intros Hes Hfs. induction es as [|e es IH]; [done|].
  destruct es as [|e' es]; simpl app.
  - by destruct fs.
  - change (Join (e :: e' :: es ++ fs) "/") with (e +:+ "/" +:+ Join ((e' :: es) ++ fs) "/").
    rewrite IH by done. change (Join (e :: e' :: es) "/") with (e +:+ "/" +:+ Join (e' :: es) "/").
    by rewrite !sapp_assoc.
Qed.

(** Below a mount: the path of the elements of both. *)
Lemma PathJoin_abs hs p :
  Forall kept hs → hs ≠ [] → is_rooted p = true →
  Forall (λ e, e = EmptyString ∨ plain e = true) (Split p slash) →
  PathJoin [abs_path hs; p] = abs_path (hs ++ filter (λ e, e ≠ EmptyString) (Split p slash)).
Proof.
  intros Hhs Hne Hp Hes.
  change (PathJoin [abs_path hs; p]) with (Clean (abs_path hs +:+ String slash p)).
  rewrite Clean_rooted by done. unfold path_elems, clean_elems. f_equal.
  rewrite Split_app, Split_abs by done. simpl.
  rewrite foldl_app, (clean_plain _ _ (Split p slash)) by done.
  rewrite clean_step_empty, (clean_plain _ _ hs) by (by apply kept_plain).
  by rewrite (filter_kept hs), app_nil_r, rev_app_distr, !rev_involutive.
Qed.

Lemma PathJoin_two hs p :
  Forall kept hs →
  PathJoin [abs_path hs; p] = abs_path (rev (foldl (clean_step true) (rev hs) (Split p slash))).
Proof.
  intros Hhs. change (PathJoin [abs_path hs; p]) with (Clean (abs_path hs +:+ String slash p)).
  rewrite Clean_rooted by done. unfold path_elems, clean_elems. do 2 f_equal.
  rewrite Split_app, foldl_app. f_equal.
  rewrite <- (path_elems_abs hs Hhs) at 2. unfold path_elems, clean_elems. by rewrite rev_involutive.
Qed.

Lemma PathJoin_elems hs es :
  Forall kept hs → Forall kept es → PathJoin [abs_path hs; Join es "/"] = abs_path (hs ++ es).
Proof.
  intros Hhs Hes. rewrite PathJoin_two by done. f_equal. destruct es as [|e es].
  - rewrite app_nil_r. apply rev_involutive.
  - rewrite Split_Join by (done || by apply kept_elem_ok).
    rewrite clean_plain by (by apply kept_plain). rewrite filter_kept by done.
    by rewrite rev_app_distr, !rev_involutive.
Qed.

Lemma PathJoin_elem hs e : Forall kept hs → kept e → PathJoin [abs_path hs; e] = abs_path (hs ++ [e]).
Proof. intros Hhs He. apply (PathJoin_elems hs [e]); auto. Qed.

Lemma abs_path_app_inside hs es :
  hs ≠ [] →
  abs_path (hs ++ es) = abs_path hs ∨ HasPrefix (abs_path (hs ++ es)) (abs_path hs +:+ "/") = true.
Proof.
  intros Hhs. destruct es as [|e es]; [left; by rewrite app_nil_r|]. right.
  unfold abs_path. rewrite Join_app by done. rewrite !sapp_assoc.
  rewrite <- (sapp_assoc _ "/" (Join _ _)) at 1. rewrite sapp_assoc. apply HasPrefix_app.
Qed.

(** A host path is inside the mount: for an absolute root other than "/" and an
    absolute path without dot elements, the result is the root or lies below it, the
    elements below are those of the path when it was not inside already, and
    prefixing twice is prefixing once. *)
Theorem HostPath_inside hostRoot path :
  is_rooted hostRoot = true → Clean hostRoot ≠ "/" → is_rooted path = true →
  Forall (λ e, e = EmptyString ∨ plain e = true) (Split path slash) →
  let q := HostPath hostRoot path in
  (q = Clean hostRoot ∨ HasPrefix q (Clean hostRoot +:+ "/") = true) ∧
  (q = path ∨ q = abs_path (path_elems hostRoot ++
                              filter (λ e, e ≠ EmptyString) (Split path slash))) ∧
  HostPath hostRoot q = q.
Proof.
  intros Hr Hne Hp Hes q. set (hs := path_elems hostRoot).
  assert (Hhs : hs ≠ []).
  { intros E. apply Hne. rewrite Clean_rooted by done. fold hs. by rewrite E. }
  assert (Hin : ∀ p, (p = Clean hostRoot ∨ HasPrefix p (Clean hostRoot +:+ "/") = true) →
    HostPath hostRoot p = p).
  { intros p Hpp. unfold HostPath.
    replace (String.eqb p _ || HasPrefix p _) with true; [by rewrite orb_true_r|].
    symmetry. apply orb_true_iff. by rewrite String.eqb_eq. }
  assert (Hq : q = path ∧ (q = Clean hostRoot ∨ HasPrefix q (Clean hostRoot +:+ "/") = true) ∨
    q = abs_path (hs ++ filter (λ e, e ≠ EmptyString) (Split path slash))).
  { subst q. unfold HostPath. destruct (String.eqb_spec path EmptyString) as [->|_]; [done|].
    destruct (String.eqb_spec (Clean hostRoot) "/"); [done|].
    change (false || false || ?b) with b.
    destruct (String.eqb path (Clean hostRoot) || _) eqn:E.
    - left. split; [done|]. apply orb_true_iff in E. by rewrite String.eqb_eq in E.
    - right. rewrite Clean_rooted by done. fold hs.
      apply PathJoin_abs; auto. apply path_elems_kept. }
  destruct Hq as [[-> Hq]| Hq]; [by auto|].
  assert (Hi : q = Clean hostRoot ∨ HasPrefix q (Clean hostRoot +:+ "/") = true).
  { rewrite Hq, Clean_rooted by done. by apply abs_path_app_inside. }
  auto.
Qed.

Lemma HostPath_inside_witness :
  is_rooted "/host/" = true ∧
  HostPath "/host/" (HostPath "/host/" "/var//lib/kubelet") = HostPath "/host/" "/var//lib/kubelet" ∧
  HostPath "/host/" "/var//lib/kubelet" = "/host/var/lib/kubelet".
Proof.
  split; [reflexivity|]. split; [|reflexivity].
  apply (HostPath_inside "/host/" "/var//lib/kubelet"); [reflexivity|discriminate|reflexivity|].
  by repeat constructor; first [left; reflexivity|right; reflexivity].
Defined.

(** The path options resolve to the first that exists with the right kind. *)
Lemma ResolvePathOption_spec stat options :
  ResolvePathOption stat options = EmptyString ∧ (∀ p, p ∈ options → stat p ≠ Some false) ∨
  ∃ pre post, options = pre ++ ResolvePathOption stat options :: post ∧
    stat (ResolvePathOption stat options) = Some false ∧
    ∀ p, p ∈ pre → stat p ≠ Some false.
Proof.
  induction options as [|p options IH]; simpl.
  { left. split; [done|]. intros p Hp. by apply elem_of_nil in Hp. }
  destruct (stat p) as [[]|] eqn:E;
    [|right; exists [], options; split_and!; try done; intros q Hq; by apply elem_of_nil in Hq|].
  all: destruct IH as [[IH1 IH2]|(pre & post & IH1 & IH2 & IH3)];
    [left; split; [done|]; intros q [->|Hq]%elem_of_cons; [congruence|auto]|].
  all: right; exists (p :: pre), post; split; [simpl; congruence|]; split; [done|].
  all: intros q [->|Hq]%elem_of_cons; [congruence|auto].
Qed.
