(* ===== verification/Monitor.v ===== *)
(** * Monitor: the data every monitor produces ([api/monitor], [pkg/conditions],
    [api/monitor/resource]).

    A condition, its severity, and the node condition types a monitor's
    conditions surface under. *)

From S2P Require Import Prelude GoStrings.

(** A severity is a Go string with three declared values; any other string is a
    value of the type too, and the code has a branch for it. *)
Abbreviation Severity := string.

Definition SeverityInfo : Severity := "Info".
Definition SeverityWarning : Severity := "Warning".
Definition SeverityFatal : Severity := "Fatal".

Definition valid_severity (s : Severity) : bool :=
  String.eqb s SeverityInfo || String.eqb s SeverityWarning || String.eqb s SeverityFatal.

Record Condition := mkCondition {
  Reason : string;
  Message : string;
  CondSeverity : Severity;
  MinOccurrences : Z;
  Resolved : bool
}.

#[export] Instance Condition_eq_dec : EqDecision Condition.
Proof. solve_decision. Defined.

(** [corev1.NodeConditionType]. *)
Abbreviation NodeConditionType := string.

Definition AcceleratedHardwareReady : NodeConditionType := "AcceleratedHardwareReady".
Definition ContainerRuntimeReady : NodeConditionType := "ContainerRuntimeReady".
Definition DiskPressure : NodeConditionType := "DiskPressure".
Definition KernelReady : NodeConditionType := "KernelReady".
Definition MemoryPressure : NodeConditionType := "MemoryPressure".
Definition NetworkingReady : NodeConditionType := "NetworkingReady".
Definition Ready : NodeConditionType := "Ready".
Definition StorageReady : NodeConditionType := "StorageReady".

(** [resource.Type] and [resource.Part]. *)
Abbreviation ResourceType := string.
Abbreviation Part := string.

Definition ResourceTypeDmesg : ResourceType := "dmesg".
Definition ResourceTypeFile : ResourceType := "file".
Definition ResourceTypeJournal : ResourceType := "journal".

Lemma valid_severity_cases s :
  valid_severity s = true ↔ s = SeverityInfo ∨ s = SeverityWarning ∨ s = SeverityFatal.
Proof.
  unfold valid_severity. rewrite !orb_true_iff, !String.eqb_eq. tauto.
Qed.
