(* ===== verification/Observer.v ===== *)
(** * Observer: log streams and their subscribers ([pkg/observer], [pkg/util/subscription.go]).

    An observer owns one buffered channel per subscriber and never blocks on it:
    a message that finds a buffer full is dropped for that subscriber only.  The
    file observer turns what is appended to a file into messages, one per line.
    Opening files, inotify and the systemd journal are outside the model: the
    file observer reads the data the operating system returns. *)

From S2P Require Import Prelude GoStrings Paths Monitor.

(** ** BaseObserver *)

(** The capacity of a subscriber's channel. *)
Definition subscriberCap : nat := 1000.

(** [subscribers] holds the messages waiting in each subscriber's channel. *)
Record BaseObserver := mkBaseObserver { subscribers : list (list string) }.

(** Returns the index of the new channel. *)
Definition Subscribe (o : BaseObserver) : BaseObserver * nat :=
  (mkBaseObserver (subscribers o ++ [[]]), length (subscribers o)).

Definition try_send (message : string) (channel : list string) : list string :=
  if (length channel <? subscriberCap)%nat then channel ++ [message] else channel.

Definition Broadcast (o : BaseObserver) (message : string) : BaseObserver :=
  mkBaseObserver (try_send message <$> subscribers o).

(** A subscriber takes the oldest message of its channel. *)
Definition receive (o : BaseObserver) (i : nat) : option (string * BaseObserver) :=
  match subscribers o !! i with
  | Some (m :: channel) => Some (m, mkBaseObserver (<[i := channel]> (subscribers o)))
  | _ => None
  end.

(** ** The file observer *)

Definition newline : Ascii.ascii := byte_of 10.

(** [readAll] on the data between the reader and the end of the file: every line
    that ends is broadcast, trimmed.  [line] is what [ReadString] has read of the
    current line; at the end of the data it is returned with the error, and the
    code leaves it. *)
Fixpoint read_lines (line data : string) : list string :=
  match data with
  | EmptyString => []
  | String c data' =>
      if Ascii.eqb c newline then TrimSpace (line +:+ String c EmptyString) :: read_lines EmptyString data'
      else read_lines (line +:+ String c EmptyString) data'
  end.

Definition readAll (o : BaseObserver) (data : string) : BaseObserver :=
  foldl Broadcast o (read_lines EmptyString data).

(** ** Observers by resource *)

Inductive ObserverKind := FileObserver (path : string) | JournalObserver (serviceName : string).

Definition Identifier (k : ObserverKind) : string :=
  match k with
  | FileObserver path => "file:" +:+ path
  | JournalObserver service => "journal:" +:+ service
  end.

Inductive SubscribeError :=
| NotHandled (rType : ResourceType)
| PartCount (want got : nat).

(** The constructors the package registers; [kmsg] is the host path of /dev/kmsg. *)
Definition construct (kmsg : string) (rType : ResourceType) (rParts : list Part)
    : result SubscribeError ObserverKind :=
  if String.eqb rType ResourceTypeDmesg then
    match rParts with
    | [] => Ok (FileObserver kmsg)
    | _ => Err (PartCount 0 (length rParts))
    end
  else if String.eqb rType ResourceTypeFile then
    match rParts with
    | [path] => Ok (FileObserver path)
    | _ => Err (PartCount 1 (length rParts))
    end
  else if String.eqb rType ResourceTypeJournal then
    match rParts with
    | [service] => Ok (JournalObserver service)
    | _ => Err (PartCount 1 (length rParts))
    end
  else Err (NotHandled rType).

(** ** Delivery *)

(** What happens to an observer after a subscription. *)
Inductive obs_event := EvBroadcast (m : string) | EvReceive (i : nat).

(** The observer and what subscriber [i] has received. *)
Definition obs_step (i : nat) (s : BaseObserver * list string) (e : obs_event)
    : BaseObserver * list string :=
  match e with
  | EvBroadcast m => (Broadcast s.1 m, s.2)
  | EvReceive j =>
      match receive s.1 j with
      | Some (m, o') => (o', if decide (j = i) then s.2 ++ [m] else s.2)
      | None => s
      end
  end.

Definition obs_run (i : nat) (o : BaseObserver) (es : list obs_event) : BaseObserver * list string :=
  foldl (obs_step i) (o, []) es.

Definition broadcasts (es : list obs_event) : list string :=
  omap (λ e, match e with EvBroadcast m => Some m | _ => None end) es.

(** Every broadcast of the run found room in the channel of [i]. *)
Fixpoint no_drop (i : nat) (o : BaseObserver) (es : list obs_event) : Prop :=
  match es with
  | [] => True
  | e :: es' =>
      (∀ m, e = EvBroadcast m →
         (length (default [] (subscribers o !! i)) < subscriberCap)%nat) ∧
      no_drop i (obs_step i (o, []) e).1 es'
  end.

Lemma obs_step_inv i o got seen e :
  is_Some (subscribers o !! i) →
  sublist (got ++ default [] (subscribers o !! i)) seen →
  (length (default [] (subscribers o !! i)) ≤ subscriberCap)%nat →
  let '(o', got') := obs_step i (o, got) e in
  is_Some (subscribers o' !! i) ∧
  sublist (got' ++ default [] (subscribers o' !! i)) (seen ++ broadcasts [e]) ∧
  (length (default [] (subscribers o' !! i)) ≤ subscriberCap)%nat.
Proof.
  intros [ch Hch] Hs Hl. rewrite Hch in Hs, Hl. simpl in Hs, Hl.
  destruct e as [m|j]; simpl.
  - rewrite list_lookup_fmap, Hch. simpl. split; [eauto|]. unfold try_send.
    destruct (length ch <? subscriberCap)%nat eqn:E.
    + apply Nat.ltb_lt in E. rewrite app_assoc, length_app. simpl.
      split; [by apply sublist_app|lia].
    + split; [by apply sublist_inserts_r|done].
  - rewrite app_nil_r. unfold receive. destruct (subscribers o !! j) as [[|m cj]|] eqn:E.
    1,3: rewrite Hch; simpl; by eauto.
    simpl. destruct (decide (j = i)) as [->|Hji].
    + rewrite Hch in E. injection E as ->. rewrite list_lookup_insert_eq by (by eapply lookup_lt_Some).
      simpl in *. rewrite <- app_assoc. split; [eauto|]. split; [done|lia].
    + rewrite list_lookup_insert_ne by done. rewrite Hch. simpl. eauto.
Qed.

Lemma obs_run_snoc i o es e : obs_run i o (es ++ [e]) = obs_step i (obs_run i o es) e.
Proof. unfold obs_run. by rewrite foldl_app. Qed.

Lemma broadcasts_app es es' : broadcasts (es ++ es') = broadcasts es ++ broadcasts es'.
Proof. apply omap_app. Qed.

Lemma obs_run_inv i o es :
  subscribers o !! i = Some [] →
  let '(o', got) := obs_run i o es in
  is_Some (subscribers o' !! i) ∧
  sublist (got ++ default [] (subscribers o' !! i)) (broadcasts es) ∧
  (length (default [] (subscribers o' !! i)) ≤ subscriberCap)%nat.
Proof.
  intros Hi. induction es as [|e es IH] using rev_ind.
  - simpl. rewrite Hi. simpl. split; [eauto|]. split; [done|unfold subscriberCap; lia].
  - rewrite obs_run_snoc, broadcasts_app. destruct (obs_run i o es) as [o1 got].
    destruct IH as (H1 & H2 & H3). by apply obs_step_inv.
Qed.

(** A subscriber receives what was broadcast after it subscribed, in order and
    without repetition, and its channel never holds more than its capacity; slow
    subscribers lose messages, never reorder them. *)
Theorem delivery_in_order o es :
  let '(o1, i) := Subscribe o in
  let '(o2, got) := obs_run i o1 es in
  sublist (got ++ default [] (subscribers o2 !! i)) (broadcasts es) ∧
  (length (default [] (subscribers o2 !! i)) ≤ subscriberCap)%nat.
Proof.
  unfold Subscribe. pose proof (obs_run_inv (length (subscribers o))
    (mkBaseObserver (subscribers o ++ [[]])) es) as H.
  destruct (obs_run _ _ es) as [o2 got]. simpl in H.
  destruct H as (_ & ? & ?); [|done]. apply list_lookup_middle. done.
Qed.

Lemma no_drop_run i o got es :
  is_Some (subscribers o !! i) → no_drop i o es →
  let '(o', got') := foldl (obs_step i) (o, got) es in
  got' ++ default [] (subscribers o' !! i) =
  (got ++ default [] (subscribers o !! i)) ++ broadcasts es.
Proof.
  revert o got. induction es as [|e es IH]; intros o got [ch Hch] Hnd; [by rewrite app_nil_r|].
  destruct Hnd as [Hroom Hnd]. rewrite Hch in *. simpl in Hroom. destruct e as [m|j]; simpl in *.
  - specialize (Hroom m eq_refl). apply Nat.ltb_lt in Hroom.
    assert (Hl : subscribers (Broadcast o m) !! i = Some (ch ++ [m])).
    { simpl. rewrite list_lookup_fmap, Hch. simpl. unfold try_send. by rewrite Hroom. }
    specialize (IH (Broadcast o m) got ltac:(eauto) Hnd). destruct (foldl _ _ es) as [o' got'].
    rewrite IH. rewrite Hl. simpl. by rewrite <- !app_assoc.
  - unfold receive in *. destruct (subscribers o !! j) as [[|m cj]|] eqn:E; simpl in *.
    1,3: specialize (IH o got ltac:(eauto) Hnd); by rewrite Hch in IH.
    destruct (decide (j = i)) as [->|Hji].
    + rewrite Hch in E. injection E as ->.
      assert (Hl : <[i:=cj]> (subscribers o) !! i = Some cj)
        by (apply list_lookup_insert_eq; by eapply lookup_lt_Some).
      specialize (IH (mkBaseObserver (<[i:=cj]> (subscribers o))) (got ++ [m])).
      simpl in IH. rewrite Hl in IH. destruct (foldl _ _ es) as [o' got'].
      rewrite IH by eauto. simpl. by rewrite <- (app_assoc got).
    + specialize (IH (mkBaseObserver (<[j:=cj]> (subscribers o))) got). simpl in IH.
      rewrite list_lookup_insert_ne, Hch in IH by done. simpl in IH. by apply IH; eauto.
Qed.

(** A subscriber whose channel never fills loses nothing: what it received and
    what is waiting for it are exactly the messages broadcast since it subscribed. *)
Theorem delivery_complete o es :
  let '(o1, i) := Subscribe o in
  no_drop i o1 es →
  let '(o2, got) := obs_run i o1 es in
  got ++ default [] (subscribers o2 !! i) = broadcasts es.
Proof.
  unfold Subscribe. intros Hnd.
  assert (Hl : (subscribers o ++ [[]]) !! length (subscribers o) = Some [])
    by (by apply list_lookup_middle).
  pose proof (no_drop_run (length (subscribers o)) (mkBaseObserver (subscribers o ++ [[]])) [] es)
    as H. simpl in H. rewrite Hl in H. unfold obs_run. destruct (foldl _ _ es) as [o2 got].
  by apply H; eauto.
Qed.

Definition ex_events : list obs_event :=
  [EvBroadcast "a"; EvBroadcast "b"; EvReceive 0; EvBroadcast "c"].

Lemma delivery_complete_witness :
  let o := mkBaseObserver [] in
  no_drop 0 (Subscribe o).1 ex_events ∧
  (obs_run 0 (Subscribe o).1 ex_events).2 ++
    default [] (subscribers (obs_run 0 (Subscribe o).1 ex_events).1 !! 0%nat) = ["a"; "b"; "c"].
Proof.
  intros o. assert (Hnd : no_drop 0 (Subscribe o).1 ex_events).
  { repeat split; simpl; intros; unfold subscriberCap; lia. }
  split; [exact Hnd|]. exact (delivery_complete o ex_events Hnd).
Defined.

(** ** What the file observer reads *)

Lemma read_lines_acc line data pre :
  IndexByte pre newline = None →
  read_lines line (pre +:+ String newline data) =
  TrimSpace (line +:+ pre +:+ String newline EmptyString) :: read_lines EmptyString data.
Proof.
  revert line. induction pre as [|c pre IH]; intros line; simpl.
  - done.
  - destruct (Ascii.eqb c newline) eqn:E; [done|]. intros H%fmap_None.
    rewrite IH by done. by rewrite <- sapp_assoc.
Qed.

(** A broadcast of many messages fills each channel as far as there is room. *)
Lemma Broadcast_all o ms :
  subscribers (foldl Broadcast o ms) =
  (λ channel, channel ++ take (subscriberCap - length channel) ms) <$> subscribers o.
Proof.
  revert o. induction ms as [|m ms IH]; intros o; cbn [foldl].
  - rewrite <- (list_fmap_id (subscribers o)) at 1. apply list_fmap_ext. intros i ch _.
    by rewrite take_nil, app_nil_r.
  - rewrite IH. cbn [subscribers Broadcast]. rewrite <- list_fmap_compose. apply list_fmap_ext.
    intros i ch _. unfold compose, try_send. destruct (Nat.ltb_spec (length ch) subscriberCap) as [H|H].
    + rewrite length_app, <- app_assoc. simpl length.
      replace (subscriberCap - length ch)%nat with (S (subscriberCap - (length ch + 1))) by lia. done.
    + by replace (subscriberCap - length ch)%nat with 0%nat by lia.
Qed.

(** Text as lines, each without its end, and what comes after the last line end. *)
Definition nl : string := String newline EmptyString.

Definition text_of (found : list string * string) : string :=
  foldr (λ line text, line +:+ nl +:+ text) found.2 found.1.

Definition unbroken (line : string) : Prop := IndexByte line newline = None.

Definition text_ok (found : list string * string) : Prop := Forall unbroken found.1 ∧ unbroken found.2.

Lemma read_lines_unended line data : unbroken data → read_lines line data = [].
Proof.
  revert line. induction data as [|c data IH]; intros line H; [done|]. unfold unbroken in H. simpl in *.
  destruct (Ascii.eqb c newline); [done|]. apply IH. by apply fmap_None in H.
Qed.

(** What one call of [readAll] broadcasts of a text: its lines, trimmed; the reader has
    consumed the rest when it meets the end of the file. *)
Lemma read_lines_text found :
  text_ok found → read_lines EmptyString (text_of found) = (λ line, TrimSpace (line +:+ nl)) <$> found.1.
Proof.
  destruct found as [lines rest]. intros [Hl Hr]. unfold text_of. simpl in *.
  induction Hl as [|line lines Hline _ IH]; simpl; [by apply read_lines_unended|].
  rewrite (read_lines_acc EmptyString _ line Hline). simpl. f_equal. exact IH.
Qed.

(** A line that reaches the file in two pieces is torn: the reader drops what it had read
    of it when it reached the end of the file, so only the rest of the line is broadcast
    once it is complete. *)
Theorem torn_line o a b rest :
  unbroken a → unbroken b →
  readAll (readAll o a) (b +:+ nl +:+ rest) = readAll (Broadcast o (TrimSpace (b +:+ nl))) rest.
Proof.
  intros Ha Hb. unfold readAll. rewrite (read_lines_unended EmptyString a Ha).
  change (b +:+ nl +:+ rest) with (b +:+ String newline rest). by rewrite (read_lines_acc EmptyString rest b Hb).
Qed.

Lemma torn_line_witness :
  let o := mkBaseObserver [[]] in
  readAll (readAll o "BUG: soft ") ("lockup" +:+ nl +:+ EmptyString) = mkBaseObserver [["lockup"]].
Proof. intros o. rewrite (torn_line o "BUG: soft " "lockup" EmptyString); reflexivity. Defined.
