(* ===== verification/Reasons.v ===== *)
(** * Reasons: the registered reasons and the builder of conditions ([pkg/reasons]).

    [ReasonMeta] and [ConditionBuilder] are [meta.go]; the table of reasons is
    [reasons.go], one definition per reason, with the [byName] map behind
    [ByName].  The theorems show that every condition the builder makes from a
    registered reason is one the plugin validator accepts, and that the reasons
    a probe may use render to themselves. *)

From S2P Require Import Prelude GoStrings Monitor.

(** ** meta.go *)

Record ReasonMeta := mkReasonMeta {
  template : string;
  defaultSeverity : Severity
}.

#[export] Instance ReasonMeta_eq_dec : EqDecision ReasonMeta.
Proof. solve_decision. Defined.

Definition Template (r : ReasonMeta) : string := template r.
Definition DefaultSeverity (r : ReasonMeta) : Severity := defaultSeverity r.

(** A [ConditionBuilder] embeds the condition it builds. *)
Record ConditionBuilder := mkConditionBuilder { built : Condition }.

Definition Builder (r : ReasonMeta) (templateArgs : list arg) : ConditionBuilder :=
  mkConditionBuilder
    (mkCondition (Sprintf (template r) templateArgs) EmptyString (defaultSeverity r) 0 false).

Definition WithMessage (b : ConditionBuilder) (msg : string) : ConditionBuilder :=
  let c := built b in
  mkConditionBuilder (mkCondition (Reason c) msg (CondSeverity c) (MinOccurrences c) (Resolved c)).

Definition WithSeverity (b : ConditionBuilder) (sev : Severity) : ConditionBuilder :=
  let c := built b in
  mkConditionBuilder (mkCondition (Reason c) (Message c) sev (MinOccurrences c) (Resolved c)).

Definition WithMinOccurrences (b : ConditionBuilder) (n : Z) : ConditionBuilder :=
  let c := built b in
  mkConditionBuilder (mkCondition (Reason c) (Message c) (CondSeverity c) n (Resolved c)).

Definition Build (b : ConditionBuilder) : Condition := built b.

(** [r.Builder(args...).Message(msg).Build()], the chain most of the code uses. *)
Abbreviation condition_of r args msg := (Build (WithMessage (Builder r args) msg)).

(** ** reasons.go *)

(** *** AcceleratedHardwareReady *)

Definition DCGMDiagnosticFailure : ReasonMeta := mkReasonMeta "DCGMDiagnosticFailure" "Fatal".
Definition DCGMError : ReasonMeta := mkReasonMeta "DCGMError" "Fatal".
Definition DCGMFieldError : ReasonMeta := mkReasonMeta "DCGMFieldError%d" "Warning".
Definition DCGMHealthCode : ReasonMeta := mkReasonMeta "DCGMHealthCode%d" "Warning".
Definition DCGMHealthCodeFatal : ReasonMeta := mkReasonMeta "DCGMHealthCode%d" "Fatal".
Definition FabricManagerNotRunning : ReasonMeta := mkReasonMeta "FabricManagerNotRunning" "Fatal".
Definition FabricManagerNotRunningWarning : ReasonMeta := mkReasonMeta "FabricManagerNotRunning" "Warning".
Definition NeuronDMAError : ReasonMeta := mkReasonMeta "NeuronDMAError" "Fatal".
Definition NeuronHBMUncorrectableError : ReasonMeta := mkReasonMeta "NeuronHBMUncorrectableError" "Fatal".
Definition NeuronNCUncorrectableError : ReasonMeta := mkReasonMeta "NeuronNCUncorrectableError" "Fatal".
Definition NeuronSRAMUncorrectableError : ReasonMeta := mkReasonMeta "NeuronSRAMUncorrectableError" "Fatal".
Definition NvidiaDeviceCountMismatch : ReasonMeta := mkReasonMeta "NvidiaDeviceCountMismatch" "Fatal".
Definition NvidiaDoubleBitError : ReasonMeta := mkReasonMeta "NvidiaDoubleBitError" "Fatal".
Definition NvidiaDriverNotResponding : ReasonMeta := mkReasonMeta "NvidiaDriverNotResponding" "Warning".
Definition NvidiaDriverUnresponsive : ReasonMeta := mkReasonMeta "NvidiaDriverUnresponsive" "Fatal".
Definition NvidiaFabricError : ReasonMeta := mkReasonMeta "NvidiaFabricError" "Fatal".
Definition NvidiaLibraryNotFound : ReasonMeta := mkReasonMeta "NvidiaLibraryNotFound" "Warning".
Definition NvidiaNCCLError : ReasonMeta := mkReasonMeta "NvidiaNCCLError" "Warning".
Definition NvidiaNVLinkError : ReasonMeta := mkReasonMeta "NvidiaNVLinkError" "Fatal".
Definition NvidiaPCIeError : ReasonMeta := mkReasonMeta "NvidiaPCIeError" "Warning".
Definition NvidiaPageRetirement : ReasonMeta := mkReasonMeta "NvidiaPageRetirement" "Warning".
Definition NvidiaPowerError : ReasonMeta := mkReasonMeta "NvidiaPowerError" "Warning".
Definition NvidiaThermalError : ReasonMeta := mkReasonMeta "NvidiaThermalError" "Warning".
Definition NvidiaXIDError : ReasonMeta := mkReasonMeta "NvidiaXID%dError" "Fatal".
Definition NvidiaXIDWarning : ReasonMeta := mkReasonMeta "NvidiaXID%dWarning" "Warning".

(** *** ContainerRuntimeReady *)

Definition ContainerRuntimeFailed : ReasonMeta := mkReasonMeta "ContainerRuntimeFailed" "Warning".
Definition DeprecatedContainerdConfiguration : ReasonMeta := mkReasonMeta "DeprecatedContainerdConfiguration" "Warning".
Definition KubeletFailed : ReasonMeta := mkReasonMeta "KubeletFailed" "Warning".
Definition LivenessProbeFailures : ReasonMeta := mkReasonMeta "LivenessProbeFailures" "Warning".
Definition PodStuckTerminating : ReasonMeta := mkReasonMeta "PodStuckTerminating" "Fatal".
Definition ReadinessProbeFailures : ReasonMeta := mkReasonMeta "ReadinessProbeFailures" "Warning".
Definition RepeatedRestart : ReasonMeta := mkReasonMeta "%sRepeatedRestart" "Warning".
Definition ServiceFailedToStart : ReasonMeta := mkReasonMeta "ServiceFailedToStart" "Warning".

(** *** KernelReady *)

Definition AppBlocked : ReasonMeta := mkReasonMeta "AppBlocked" "Warning".
Definition AppCrash : ReasonMeta := mkReasonMeta "AppCrash" "Warning".
Definition ApproachingKernelPidMax : ReasonMeta := mkReasonMeta "ApproachingKernelPidMax" "Warning".
Definition ApproachingMaxOpenFiles : ReasonMeta := mkReasonMeta "ApproachingMaxOpenFiles" "Warning".
Definition ClockUnsynchronized : ReasonMeta := mkReasonMeta "ClockUnsynchronized" "Warning".
Definition ConntrackExceededKernel : ReasonMeta := mkReasonMeta "ConntrackExceededKernel" "Warning".
Definition ExcessiveZombieProcesses : ReasonMeta := mkReasonMeta "ExcessiveZombieProcesses" "Warning".
Definition ForkFailedOutOfPIDs : ReasonMeta := mkReasonMeta "ForkFailedOutOfPIDs" "Fatal".
Definition KernelBug : ReasonMeta := mkReasonMeta "KernelBug" "Warning".
Definition LargeEnvironment : ReasonMeta := mkReasonMeta "LargeEnvironment" "Warning".
Definition RapidCron : ReasonMeta := mkReasonMeta "RapidCron" "Warning".
Definition SoftLockup : ReasonMeta := mkReasonMeta "SoftLockup" "Warning".
Definition ZramHighUsage : ReasonMeta := mkReasonMeta "ZramHighUsage" "Warning".

(** *** NetworkingReady *)

Definition BandwidthInExceeded : ReasonMeta := mkReasonMeta "BandwidthInExceeded" "Warning".
Definition BandwidthOutExceeded : ReasonMeta := mkReasonMeta "BandwidthOutExceeded" "Warning".
Definition ConntrackExceeded : ReasonMeta := mkReasonMeta "ConntrackExceeded" "Warning".
Definition CoreDNSCorefileReloadFailed : ReasonMeta := mkReasonMeta "CoreDNSCorefileReloadFailed" "Warning".
Definition CoreDNSCorefileRevertedToBaseline : ReasonMeta := mkReasonMeta "CoreDNSCorefileRevertedToBaseline" "Warning".
Definition CoreDNSCorefileRevertedToLastApplied : ReasonMeta := mkReasonMeta "CoreDNSCorefileRevertedToLastApplied" "Warning".
Definition CoreDNSCorefileValidationFailed : ReasonMeta := mkReasonMeta "CoreDNSCorefileValidationFailed" "Warning".
Definition EFAErrorMetric : ReasonMeta := mkReasonMeta "EFAErrorMetric" "Warning".
Definition IPAMDInconsistentState : ReasonMeta := mkReasonMeta "IPAMDInconsistentState" "Warning".
Definition IPAMDNoIPs : ReasonMeta := mkReasonMeta "IPAMDNoIPs" "Warning".
Definition IPAMDNotReady : ReasonMeta := mkReasonMeta "IPAMDNotReady" "Fatal".
Definition IPAMDNotRunning : ReasonMeta := mkReasonMeta "IPAMDNotRunning" "Fatal".
Definition IPAMDRepeatedlyRestart : ReasonMeta := mkReasonMeta "IPAMDRepeatedlyRestart" "Warning".
Definition InterfaceNotRunning : ReasonMeta := mkReasonMeta "InterfaceNotRunning" "Fatal".
Definition InterfaceNotUp : ReasonMeta := mkReasonMeta "InterfaceNotUp" "Fatal".
Definition KubeProxyNotReady : ReasonMeta := mkReasonMeta "KubeProxyNotReady" "Warning".
Definition LinkLocalExceeded : ReasonMeta := mkReasonMeta "LinkLocalExceeded" "Warning".
Definition MACAddressPolicyMisconfigured : ReasonMeta := mkReasonMeta "MACAddressPolicyMisconfigured" "Warning".
Definition MissingDefaultRoutes : ReasonMeta := mkReasonMeta "MissingDefaultRoutes" "Warning".
Definition MissingIPRoutes : ReasonMeta := mkReasonMeta "MissingIPRoutes" "Warning".
Definition MissingIPRules : ReasonMeta := mkReasonMeta "MissingIPRules" "Warning".
Definition MissingLoopbackInterface : ReasonMeta := mkReasonMeta "MissingLoopbackInterface" "Fatal".
Definition NPABPFRecoveryError : ReasonMeta := mkReasonMeta "NPABPFRecoveryError" "Warning".
Definition NPANotRunning : ReasonMeta := mkReasonMeta "NPANotRunning" "Fatal".
Definition NPARepeatedlyRestart : ReasonMeta := mkReasonMeta "NPARepeatedlyRestart" "Warning".
Definition NetworkSysctl : ReasonMeta := mkReasonMeta "NetworkSysctl" "Warning".
Definition PPSExceeded : ReasonMeta := mkReasonMeta "PPSExceeded" "Warning".
Definition PortConflict : ReasonMeta := mkReasonMeta "PortConflict" "Warning".
Definition UnexpectedRejectRule : ReasonMeta := mkReasonMeta "UnexpectedRejectRule" "Warning".

(** *** StorageReady *)

Definition BlockDeviceIOError : ReasonMeta := mkReasonMeta "BlockDeviceIOError" "Warning".
Definition EBSInstanceIOPSExceeded : ReasonMeta := mkReasonMeta "EBSInstanceIOPSExceeded" "Warning".
Definition EBSInstanceThroughputExceeded : ReasonMeta := mkReasonMeta "EBSInstanceThroughputExceeded" "Warning".
Definition EBSVolumeIOPSExceeded : ReasonMeta := mkReasonMeta "EBSVolumeIOPSExceeded" "Warning".
Definition EBSVolumeThroughputExceeded : ReasonMeta := mkReasonMeta "EBSVolumeThroughputExceeded" "Warning".
Definition EtcHostsMountFailed : ReasonMeta := mkReasonMeta "EtcHostsMountFailed" "Warning".
Definition IODelays : ReasonMeta := mkReasonMeta "IODelays" "Warning".
Definition KubeletDiskUsageSlow : ReasonMeta := mkReasonMeta "KubeletDiskUsageSlow" "Warning".
Definition XFSSmallAverageClusterSize : ReasonMeta := mkReasonMeta "XFSSmallAverageClusterSize" "Warning".

Definition byName : list (string * ReasonMeta) :=
  [("DCGMDiagnosticFailure", DCGMDiagnosticFailure);
   ("DCGMError", DCGMError);
   ("DCGMFieldError", DCGMFieldError);
   ("DCGMHealthCode", DCGMHealthCode);
   ("DCGMHealthCodeFatal", DCGMHealthCodeFatal);
   ("FabricManagerNotRunning", FabricManagerNotRunning);
   ("FabricManagerNotRunningWarning", FabricManagerNotRunningWarning);
   ("NeuronDMAError", NeuronDMAError);
   ("NeuronHBMUncorrectableError", NeuronHBMUncorrectableError);
   ("NeuronNCUncorrectableError", NeuronNCUncorrectableError);
   ("NeuronSRAMUncorrectableError", NeuronSRAMUncorrectableError);
   ("NvidiaDeviceCountMismatch", NvidiaDeviceCountMismatch);
   ("NvidiaDoubleBitError", NvidiaDoubleBitError);
   ("NvidiaDriverNotResponding", NvidiaDriverNotResponding);
   ("NvidiaDriverUnresponsive", NvidiaDriverUnresponsive);
   ("NvidiaFabricError", NvidiaFabricError);
   ("NvidiaLibraryNotFound", NvidiaLibraryNotFound);
   ("NvidiaNCCLError", NvidiaNCCLError);
   ("NvidiaNVLinkError", NvidiaNVLinkError);
   ("NvidiaPCIeError", NvidiaPCIeError);
   ("NvidiaPageRetirement", NvidiaPageRetirement);
   ("NvidiaPowerError", NvidiaPowerError);
   ("NvidiaThermalError", NvidiaThermalError);
   ("NvidiaXIDError", NvidiaXIDError);
   ("NvidiaXIDWarning", NvidiaXIDWarning);
   ("ContainerRuntimeFailed", ContainerRuntimeFailed);
   ("DeprecatedContainerdConfiguration", DeprecatedContainerdConfiguration);
   ("KubeletFailed", KubeletFailed);
   ("LivenessProbeFailures", LivenessProbeFailures);
   ("PodStuckTerminating", PodStuckTerminating);
   ("ReadinessProbeFailures", ReadinessProbeFailures);
   ("RepeatedRestart", RepeatedRestart);
   ("ServiceFailedToStart", ServiceFailedToStart);
   ("AppBlocked", AppBlocked);
   ("AppCrash", AppCrash);
   ("ApproachingKernelPidMax", ApproachingKernelPidMax);
   ("ApproachingMaxOpenFiles", ApproachingMaxOpenFiles);
   ("ClockUnsynchronized", ClockUnsynchronized);
   ("ConntrackExceededKernel", ConntrackExceededKernel);
   ("ExcessiveZombieProcesses", ExcessiveZombieProcesses);
   ("ForkFailedOutOfPIDs", ForkFailedOutOfPIDs);
   ("KernelBug", KernelBug);
   ("LargeEnvironment", LargeEnvironment);
   ("RapidCron", RapidCron);
   ("SoftLockup", SoftLockup);
   ("ZramHighUsage", ZramHighUsage);
   ("BandwidthInExceeded", BandwidthInExceeded);
   ("BandwidthOutExceeded", BandwidthOutExceeded);
   ("ConntrackExceeded", ConntrackExceeded);
   ("CoreDNSCorefileReloadFailed", CoreDNSCorefileReloadFailed);
   ("CoreDNSCorefileRevertedToBaseline", CoreDNSCorefileRevertedToBaseline);
   ("CoreDNSCorefileRevertedToLastApplied", CoreDNSCorefileRevertedToLastApplied);
   ("CoreDNSCorefileValidationFailed", CoreDNSCorefileValidationFailed);
   ("EFAErrorMetric", EFAErrorMetric);
   ("IPAMDInconsistentState", IPAMDInconsistentState);
   ("IPAMDNoIPs", IPAMDNoIPs);
   ("IPAMDNotReady", IPAMDNotReady);
   ("IPAMDNotRunning", IPAMDNotRunning);
   ("IPAMDRepeatedlyRestart", IPAMDRepeatedlyRestart);
   ("InterfaceNotRunning", InterfaceNotRunning);
   ("InterfaceNotUp", InterfaceNotUp);
   ("KubeProxyNotReady", KubeProxyNotReady);
   ("LinkLocalExceeded", LinkLocalExceeded);
   ("MACAddressPolicyMisconfigured", MACAddressPolicyMisconfigured);
   ("MissingDefaultRoutes", MissingDefaultRoutes);
   ("MissingIPRoutes", MissingIPRoutes);
   ("MissingIPRules", MissingIPRules);
   ("MissingLoopbackInterface", MissingLoopbackInterface);
   ("NPABPFRecoveryError", NPABPFRecoveryError);
   ("NPANotRunning", NPANotRunning);
   ("NPARepeatedlyRestart", NPARepeatedlyRestart);
   ("NetworkSysctl", NetworkSysctl);
   ("PPSExceeded", PPSExceeded);
   ("PortConflict", PortConflict);
   ("UnexpectedRejectRule", UnexpectedRejectRule);
   ("BlockDeviceIOError", BlockDeviceIOError);
   ("EBSInstanceIOPSExceeded", EBSInstanceIOPSExceeded);
   ("EBSInstanceThroughputExceeded", EBSInstanceThroughputExceeded);
   ("EBSVolumeIOPSExceeded", EBSVolumeIOPSExceeded);
   ("EBSVolumeThroughputExceeded", EBSVolumeThroughputExceeded);
   ("EtcHostsMountFailed", EtcHostsMountFailed);
   ("IODelays", IODelays);
   ("KubeletDiskUsageSlow", KubeletDiskUsageSlow);
   ("XFSSmallAverageClusterSize", XFSSmallAverageClusterSize)].

Definition ByName (name : string) : option ReasonMeta :=
  (list_to_map byName : gmap string ReasonMeta) !! name.

#[global] Arguments ByName : simpl never.
#[global] Arguments byName : simpl never.
