(* ===== verification/Renotify.v ===== *)
(** * Renotify: when to notify again for a state that has not changed
    ([pkg/util/renotify/renotify.go]).

    The tracker is generic in its key, as in Go; [zero] is the key type's zero
    value, which a new or reset tracker holds with the zero time. *)

From S2P Require Import Prelude.

Section Tracker.
Context {K : Type} `{EqDecision K} (zero : K).

Record Tracker := mkTracker {
  interval : Duration;
  lastKey : K;
  lastNotified : Time
}.

Definition New (i : Duration) : Tracker := mkTracker i zero zero_time.

Definition ShouldNotify (t : Tracker) (key : K) (now : Time) : bool :=
  negb (bool_decide (key = lastKey t)) || (interval t <=? Sub now (lastNotified t)).

Definition Notified (t : Tracker) (key : K) (now : Time) : Tracker :=
  mkTracker (interval t) key now.

Definition Reset (t : Tracker) : Tracker :=
  mkTracker (interval t) zero zero_time.

(** After a notification at [last], an unchanged key is due again exactly when
    the interval has passed; a changed key is due at once. *)
Lemma ShouldNotify_after t key last key' now :
  0 < interval t ≤ max_int64 →
  ShouldNotify (Notified t key last) key' now = true
  ↔ key' ≠ key ∨ interval t ≤ now - last.
Proof.
  intros Hi. unfold ShouldNotify, Notified; simpl.
  rewrite orb_true_iff, negb_true_iff, bool_decide_eq_false, Z.leb_le.
  by rewrite Sub_le_iff.
Qed.

(** A new or reset tracker notifies every key, at any time that is at least
    the interval after Go's zero time: the subtraction from the zero time
    saturates, it does not wrap around. *)
Lemma ShouldNotify_reset t key now :
  0 < interval t ≤ max_int64 → interval t ≤ now →
  ShouldNotify (Reset t) key now = true.
Proof.
  intros Hi Hn. unfold ShouldNotify, Reset; simpl.
  apply orb_true_iff. right. apply Z.leb_le, Sub_le_iff; [done|].
  unfold zero_time. lia.
Qed.
End Tracker.
Arguments Tracker K : clear implicits.
Arguments mkTracker {K} interval lastKey lastNotified.

#[export] Hint Resolve ShouldNotify_reset : agent.
