(* ===== verification/Registry.v ===== *)
(** * Registry: plugins and their validation ([pkg/monitor/registry],
    [pkg/monitor/framework]).

    The registry is a map from plugin names to plugins, which starts empty and
    grows by [Register] and [ValidateAndRegister].  A Go interface value that
    may be nil is an [option]; map iteration order is unspecified in Go, so
    [map_to_list] stands for one order and every theorem is about membership. *)

From S2P Require Import Prelude GoStrings Monitor Reasons.

Section Registry.
(** Custom resource definitions are the Kubernetes client's type: the registry
    only carries them. *)
Context {CRD : Type}.

(** What the registry calls on a [monitor.Monitor]. *)
Record MonitorI := mkMonitorI {
  Name : string;
  Conditions : list Condition
}.

(** A [MonitorPlugin]; [pluginCRDs] is [None] when the plugin does not
    implement [CRDProvider]. *)
Record MonitorPlugin := mkMonitorPlugin {
  pluginName : string;
  pluginMonitors : list (option MonitorI);
  pluginCRDs : option (list CRD)
}.

(** framework.Plugin: always a [CRDProvider]. *)
Definition NewPlugin (name : string) (monitors : list (option MonitorI)) : MonitorPlugin :=
  mkMonitorPlugin name monitors (Some []).
Definition NewPluginWithCRDs (name : string) (monitors : list (option MonitorI))
    (crds : list CRD) : MonitorPlugin :=
  mkMonitorPlugin name monitors (Some crds).

(** The errors of the package, one constructor per format. *)
Inductive CondError :=
| EmptyReason
| InvalidSeverity (s : Severity)
| NegativeMinOccurrences.

Inductive MonError :=
| NilMonitor
| EmptyMonitorName
| ConditionFailed (i : nat) (e : CondError).

Inductive PluginError :=
| NilPlugin
| EmptyPluginName
| NoMonitors
| MonitorFailed (i : nat) (e : MonError).

Inductive RegError :=
| CannotRegisterNil
| PluginNameEmpty
| AlreadyRegistered (name : string)
| ValidationFailed (e : PluginError).

(** ** registry.go *)

Record pluginRegistry := mkRegistry { plugins : gmap string MonitorPlugin }.

Definition NewRegistry : pluginRegistry := mkRegistry ∅.

Definition Register (r : pluginRegistry) (plugin : option MonitorPlugin)
    : result RegError pluginRegistry :=
  match plugin with
  | None => Err CannotRegisterNil
  | Some p =>
      let name := pluginName p in
      if String.eqb name EmptyString then Err PluginNameEmpty
      else match plugins r !! name with
           | Some _ => Err (AlreadyRegistered name)
           | None => Ok (mkRegistry (<[name := p]> (plugins r)))
           end
  end.

Definition Get (r : pluginRegistry) (name : string) : option MonitorPlugin :=
  plugins r !! name.

Definition List (r : pluginRegistry) : list MonitorPlugin :=
  (map_to_list (plugins r)).*2.

Definition AllMonitors (r : pluginRegistry) : list (option MonitorI) :=
  List r ≫= pluginMonitors.

Definition AllCRDs (r : pluginRegistry) : list CRD :=
  List r ≫= λ p, match pluginCRDs p with Some crds => crds | None => [] end.

(** [MustRegister] panics on an error; a panic is [None]. *)
Definition MustRegister (r : pluginRegistry) (plugin : option MonitorPlugin)
    : option pluginRegistry :=
  match Register r plugin with Ok r' => Some r' | Err _ => None end.

(** ** validator.go *)

Definition ValidateCondition (cond : Condition) : result CondError unit :=
  if String.eqb (Reason cond) EmptyString then Err EmptyReason
  else if negb (valid_severity (CondSeverity cond)) then
    Err (InvalidSeverity (CondSeverity cond))
  else if MinOccurrences cond <? 0 then Err NegativeMinOccurrences
  else Ok tt.

(** The loop of the validators: the first element that fails, with its index. *)
Fixpoint validate_each {A E} (v : A → result E unit) (i : nat) (l : list A)
    : result (nat * E) unit :=
  match l with
  | [] => Ok tt
  | x :: l' => match v x with
               | Err e => Err (i, e)
               | Ok _ => validate_each v (S i) l'
               end
  end.

Definition ValidateMonitor (mon : option MonitorI) : result MonError unit :=
  match mon with
  | None => Err NilMonitor
  | Some m =>
      if String.eqb (Name m) EmptyString then Err EmptyMonitorName
      else match validate_each ValidateCondition 0 (Conditions m) with
           | Err (i, e) => Err (ConditionFailed i e)
           | Ok _ => Ok tt
           end
  end.

Definition ValidatePlugin (plugin : option MonitorPlugin) : result PluginError unit :=
  match plugin with
  | None => Err NilPlugin
  | Some p =>
      if String.eqb (pluginName p) EmptyString then Err EmptyPluginName
      else match pluginMonitors p with
           | [] => Err NoMonitors
           | ms => match validate_each ValidateMonitor 0 ms with
                   | Err (i, e) => Err (MonitorFailed i e)
                   | Ok _ => Ok tt
                   end
           end
  end.

Definition ValidateAndRegister (r : pluginRegistry) (plugin : option MonitorPlugin)
    : result RegError pluginRegistry :=
  match ValidatePlugin plugin with
  | Err e => Err (ValidationFailed e)
  | Ok _ => Register r plugin
  end.

(** ** What the validators decide *)

Lemma validate_each_ok {A E} (v : A → result E unit) i l :
  validate_each v i l = Ok tt ↔ ∀ x, x ∈ l → v x = Ok tt.
Proof.
  revert i. induction l as [|x l IH]; intros i; simpl.
  - split; [intros _ x Hx; by apply elem_of_nil in Hx|done].
  - destruct (v x) as [[]|e] eqn:E1.
    + rewrite IH. split.
      * intros H y [->|?]%elem_of_cons; auto.
      * intros H y ?. apply H. by constructor.
    + split; [done|]. intros H. rewrite H in E1 by constructor. done.
Qed.

(** The error of [validate_each] is the first failing element's. *)
Lemma validate_each_err {A E} (v : A → result E unit) i l k e :
  validate_each v i l = Err (k, e) →
  ∃ j x, k = (i + j)%nat ∧ l !! j = Some x ∧ v x = Err e ∧
         ∀ j' y, (j' < j)%nat → l !! j' = Some y → v y = Ok tt.
Proof.
  revert i. induction l as [|x l IH]; intros i; simpl; [done|].
  destruct (v x) as [[]|e'] eqn:E1.
  - intros H. destruct (IH (S i) H) as (j & y & -> & Hj & Hy & Hlt).
    exists (S j), y. split_and!; [lia|done|done|].
    intros [|j'] z Hj' Hz; simpl in Hz; [by simplify_eq|]. apply (Hlt j'); [lia|done].
  - intros [= <- <-]. exists 0%nat, x. split_and!; [lia|done|done|].
    intros j' y Hlt. lia.
Qed.

(** The conditions the manager can process: a reason, one of the three
    severities, and a count that is not negative. *)
Definition good_condition (c : Condition) : Prop :=
  Reason c ≠ EmptyString ∧ valid_severity (CondSeverity c) = true ∧ 0 ≤ MinOccurrences c.

Definition good_monitor (m : option MonitorI) : Prop :=
  ∃ mon, m = Some mon ∧ Name mon ≠ EmptyString ∧ ∀ c, c ∈ Conditions mon → good_condition c.

Definition good_plugin (p : MonitorPlugin) : Prop :=
  pluginName p ≠ EmptyString ∧ pluginMonitors p ≠ [] ∧
  ∀ m, m ∈ pluginMonitors p → good_monitor m.

Lemma ValidateCondition_ok c : ValidateCondition c = Ok tt ↔ good_condition c.
Proof.
  unfold ValidateCondition, good_condition.
  destruct (String.eqb_spec (Reason c) EmptyString) as [E|E]; [naive_solver|].
  destruct (valid_severity (CondSeverity c)); simpl; [|naive_solver].
  destruct (MinOccurrences c <? 0) eqn:Hm; bool_to_prop; naive_solver lia.
Qed.

Lemma ValidateMonitor_ok m : ValidateMonitor m = Ok tt ↔ good_monitor m.
Proof.
  unfold ValidateMonitor, good_monitor. destruct m as [m|]; [|naive_solver].
  destruct (String.eqb_spec (Name m) EmptyString) as [E|E]; [naive_solver|].
  pose proof (validate_each_ok ValidateCondition 0 (Conditions m)) as Hv.
  setoid_rewrite ValidateCondition_ok in Hv.
  destruct (validate_each ValidateCondition 0 (Conditions m)) as [[]|[i e]]; naive_solver.
Qed.

Lemma ValidatePlugin_ok p : ValidatePlugin (Some p) = Ok tt ↔ good_plugin p.
Proof.
  unfold ValidatePlugin, good_plugin.
  destruct (String.eqb_spec (pluginName p) EmptyString) as [E|E]; [naive_solver|].
  pose proof (validate_each_ok ValidateMonitor 0 (pluginMonitors p)) as Hv.
  setoid_rewrite ValidateMonitor_ok in Hv.
  destruct (pluginMonitors p) as [|m ms]; [naive_solver|].
  destruct (validate_each ValidateMonitor 0 (m :: ms)) as [[]|[i e]]; naive_solver.
Qed.

Lemma Register_inv r p r' :
  Register r p = Ok r' →
  ∃ pl, p = Some pl ∧ pluginName pl ≠ EmptyString ∧ plugins r !! pluginName pl = None ∧
        r' = mkRegistry (<[pluginName pl := pl]> (plugins r)).
Proof.
  unfold Register. destruct p as [pl|]; [|done].
  destruct (String.eqb_spec (pluginName pl) EmptyString); [done|].
  destruct (plugins r !! pluginName pl) eqn:?; [done|].
  intros [= <-]. eauto.
Qed.

Lemma elem_of_AllMonitors r m :
  m ∈ AllMonitors r ↔ ∃ n p, plugins r !! n = Some p ∧ m ∈ pluginMonitors p.
Proof.
  unfold AllMonitors, List. rewrite list_elem_of_bind. split.
  - intros (p & Hm & Hp). apply list_elem_of_fmap in Hp as ([n p'] & -> & Hp).
    apply elem_of_map_to_list in Hp. eauto.
  - intros (n & p & Hp & Hm). exists p. split; [done|].
    apply list_elem_of_fmap. exists (n, p). split; [done|]. by apply elem_of_map_to_list.
Qed.

(** Registering a list of plugins in order, as the [init] functions of the
    monitor packages and [main] do; a failure stops the agent. *)
Fixpoint register_all (r : pluginRegistry) (ps : list (option MonitorPlugin))
    : result RegError pluginRegistry :=
  match ps with
  | [] => Ok r
  | p :: ps' => r' <-? ValidateAndRegister r p;; register_all r' ps'
  end.

(** Registry invariant: a plugin is stored under its own name and validated. *)
Definition registry_ok (r : pluginRegistry) : Prop :=
  map_Forall (λ n p, pluginName p = n ∧ good_plugin p) (plugins r).

Lemma ValidateAndRegister_inv r p r' :
  ValidateAndRegister r p = Ok r' →
  ∃ pl, p = Some pl ∧ good_plugin pl ∧ plugins r !! pluginName pl = None ∧
        r' = mkRegistry (<[pluginName pl := pl]> (plugins r)).
Proof.
  unfold ValidateAndRegister. destruct (ValidatePlugin p) as [[]|] eqn:Hv; [|done].
  intros (pl & -> & Hn & Hl & ->)%Register_inv.
  exists pl. split_and!; try done. by apply ValidatePlugin_ok.
Qed.

Lemma registry_ok_step r p r' :
  registry_ok r → ValidateAndRegister r p = Ok r' → registry_ok r'.
Proof.
  intros Hr (pl & -> & Hg & Hl & ->)%ValidateAndRegister_inv. simpl.
  apply map_Forall_insert_2; auto.
Qed.

Lemma registry_ok_all r ps r' :
  registry_ok r → register_all r ps = Ok r' → registry_ok r'.
Proof.
  revert r. induction ps as [|p ps IH]; intros r Hr; simpl; [by intros [= <-]|].
  unfold rbind. destruct (ValidateAndRegister r p) as [r1|] eqn:E; [|done].
  eauto using registry_ok_step.
Qed.

Lemma register_all_plugins r ps r' n p :
  register_all r ps = Ok r' →
  plugins r' !! n = Some p ↔
    plugins r !! n = Some p ∨ (Some p ∈ ps ∧ pluginName p = n).
Proof.
  revert r. induction ps as [|q ps IH]; intros r; simpl.
  - intros [= <-]. split; [auto|]. intros [?|[Hn _]]; [done|]. by apply elem_of_nil in Hn.
  - unfold rbind. destruct (ValidateAndRegister r q) as [r1|] eqn:E; [|done].
    intros H. rewrite (IH r1 H). apply ValidateAndRegister_inv in E as (pl & -> & _ & Hnone & ->).
    simpl. destruct (decide (n = pluginName pl)) as [->|Hne].
    + rewrite lookup_insert_eq, Hnone, elem_of_cons. naive_solver.
    + rewrite lookup_insert_ne, elem_of_cons by done. naive_solver.
Qed.
End Registry.

(** When every plugin registers, the registry offers exactly the monitors of the
    plugins, each of them named and with conditions that have a reason, one of the
    three severities and a count that is not negative. *)
Theorem registered_monitors {CRD} (ps : list (option (MonitorPlugin (CRD := CRD)))) r :
  register_all NewRegistry ps = Ok r →
  (∀ m, m ∈ AllMonitors r ↔ ∃ p, Some p ∈ ps ∧ m ∈ pluginMonitors p) ∧
  (∀ m, m ∈ AllMonitors r → good_monitor m).
Proof.
  intros Hr.
  assert (Hin : ∀ m, m ∈ AllMonitors r ↔ ∃ p, Some p ∈ ps ∧ m ∈ pluginMonitors p).
  { intros m. rewrite elem_of_AllMonitors. setoid_rewrite (register_all_plugins _ _ _ _ _ Hr).
    simpl. setoid_rewrite lookup_empty. naive_solver. }
  split; [done|]. intros m. rewrite elem_of_AllMonitors. intros (n & p & Hp & Hm).
  destruct (registry_ok_all NewRegistry ps r) with n p as (_ & _ & _ & Hg); auto.
  intros n' p'. simpl. by rewrite lookup_empty.
Qed.

(** The index a validator reports is that of the first element that fails, and the
    error is that element's. *)
Theorem validation_error_first mon i e :
  ValidateMonitor (Some mon) = Err (ConditionFailed i e) →
  ∃ c, Conditions mon !! i = Some c ∧ ValidateCondition c = Err e ∧
       ∀ j c', (j < i)%nat → Conditions mon !! j = Some c' → good_condition c'.
Proof.
  unfold ValidateMonitor. destruct (String.eqb _ _); [done|].
  destruct (validate_each _ _ _) as [|[k e']] eqn:E; [done|]. intros [= <- <-].
  apply validate_each_err in E as (j & c & -> & Hj & Hc & Hlt). exists c.
  split; [done|]. split; [done|]. intros j' c' Hj' Hl. apply ValidateCondition_ok. eauto.
Qed.

(** ** Conditions built from registered reasons *)

(** The template has a byte outside its first verb. *)
Definition starts_plain (t : string) : bool :=
  match t with String c _ => negb (Ascii.eqb c percent) | EmptyString => false end.
Definition has_text (t : string) : bool :=
  starts_plain t || match t with String _ (String _ t') => starts_plain t' | _ => false end.

Lemma Sprintf_starts_plain t args : starts_plain t = true → Sprintf t args ≠ EmptyString.
Proof.
  destruct t as [|c t]; simpl; [done|]. intros H. bool_to_prop. by rewrite H.
Qed.

Lemma sapp_nonempty_r a b : b ≠ EmptyString → a +:+ b ≠ EmptyString.
Proof. by destruct a. Qed.

Lemma Sprintf_has_text t args : has_text t = true → Sprintf t args ≠ EmptyString.
Proof.
  unfold has_text. destruct (starts_plain t) eqn:E; simpl.
  { intros _. by apply Sprintf_starts_plain. }
  destruct t as [|c [|v t]]; try done. simpl in E. bool_to_prop. intros Ht. simpl. rewrite E.
  destruct (Ascii.eqb v percent); [done|]. destruct args as [|a args]; [done|].
  by apply sapp_nonempty_r, Sprintf_starts_plain.
Qed.

Lemma byName_ok name r :
  (name, r) ∈ byName → has_text (template r) = true ∧ valid_severity (defaultSeverity r) = true.
Proof.
  intros Hin.
  assert (Hall : forallb (λ p, has_text (template p.2) && valid_severity (defaultSeverity p.2))
    byName = true) by reflexivity.
  rewrite forallb_forall in Hall. specialize (Hall (name, r)). apply list_elem_of_In in Hin.
  specialize (Hall Hin). simpl in Hall. by bool_to_prop.
Qed.

(** C38. Whatever arguments and message it is built with, a condition made from a
    registered reason passes the validator: its reason is not empty, its severity is
    one of the three, and it asks for no minimum. *)
Theorem registered_reason_valid name r args msg :
  (name, r) ∈ byName → ValidateCondition (condition_of r args msg) = Ok tt.
Proof.
  intros [Ht Hv]%byName_ok. apply ValidateCondition_ok.
  split; [by apply Sprintf_has_text|]. by split.
Qed.

(** ** Concrete instances *)

Definition ex_plugin : MonitorPlugin (CRD := unit) :=
  mkMonitorPlugin "kernel-monitor"
    [Some (mkMonitorI "kernel" [condition_of SoftLockup [] "cpu stuck"])] None.

Lemma registered_monitors_witness :
  let r := match register_all NewRegistry [Some ex_plugin] with Ok r => r | _ => NewRegistry end in
  register_all NewRegistry [Some ex_plugin] = Ok r ∧
  ∀ m, m ∈ AllMonitors r → good_monitor m.
Proof.
  intros r. assert (Hr : register_all NewRegistry [Some ex_plugin] = Ok r) by reflexivity.
  split; [exact Hr|]. exact (proj2 (registered_monitors [Some ex_plugin] r Hr)).
Defined.

Definition ex_bad_monitor : MonitorI :=
  mkMonitorI "m" [condition_of SoftLockup [] EmptyString; mkCondition "R" EmptyString "Severe" 0 false].

Lemma validation_error_first_witness :
  ValidateMonitor (Some ex_bad_monitor) = Err (ConditionFailed 1 (InvalidSeverity "Severe")) ∧
  ∃ c, Conditions ex_bad_monitor !! 1%nat = Some c ∧
       ValidateCondition c = Err (InvalidSeverity "Severe").
Proof.
  split; [reflexivity|].
  destruct (validation_error_first ex_bad_monitor 1 (InvalidSeverity "Severe")) as (c & ? & ? & _);
    [reflexivity|eauto].
Defined.

Lemma registered_reason_valid_witness :
  ("NvidiaXIDError", NvidiaXIDError) ∈ byName ∧
  ValidateCondition (condition_of NvidiaXIDError [AInt "int" 63] "msg") = Ok tt.
Proof.
  assert (Hin : ("NvidiaXIDError", NvidiaXIDError) ∈ byName)
    by (by apply (bool_decide_unpack _)).
  split; [exact Hin|]. exact (registered_reason_valid _ _ _ _ Hin).
Defined.
