(* ===== verification/Examples.v ===== *)
(** * Examples: the integration examples of the repository ([examples]), run against the
    registry of [Registry].

    The examples are templates whose lists of monitors are empty; as they are, the registry
    refuses their plugins. *)

From S2P Require Import Prelude GoStrings Monitor Registry.

Section Examples.
Context {CRD : Type} (crdName : CRD → string).
(** [api.CRDs]. *)
Context (CRDs : list CRD).

Definition CreatePluginWithCRDs : MonitorPlugin := NewPluginWithCRDs "my-plugin" [] CRDs.

(** Each gives what it prints, after the registry that it leaves. *)
Definition RegisterAndUseCRDs (r : pluginRegistry) : pluginRegistry * result RegError (list string) :=
  match ValidateAndRegister r (Some CreatePluginWithCRDs) with
  | Err err => (r, Err err)
  | Ok r' =>
      let allCRDs := AllCRDs r' in
      (r', Ok (("Found " +:+ Itoa (Z.of_nat (length allCRDs)) +:+ " CRDs from upstream")
               :: map (λ crd, "  - " +:+ crdName crd) allCRDs))
  end.

Definition CompleteIntegration (r : pluginRegistry) : pluginRegistry * result (string * RegError) (list string) :=
  let plugin := NewPluginWithCRDs "internal-plugin" [] CRDs in
  match ValidateAndRegister r (Some plugin) with
  | Err err => (r, Err ("failed to register plugin: %w", err))
  | Ok r' =>
      let allMonitors := AllMonitors r' in
      let allCRDs := AllCRDs r' in
      (r', Ok (("Registered " +:+ Itoa (Z.of_nat (length allMonitors)) +:+ " monitors and " +:+
                Itoa (Z.of_nat (length allCRDs)) +:+ " CRDs")
               :: map (λ crd, "CRD available: " +:+ crdName crd) allCRDs))
  end.

(** A plugin without monitors is refused, so both end with the error of the validation and
    leave the registry as it was. *)
Lemma examples_refused r :
  RegisterAndUseCRDs r = (r, Err (ValidationFailed NoMonitors)) ∧
  CompleteIntegration r = (r, Err ("failed to register plugin: %w", ValidationFailed NoMonitors)).
Proof. done. Qed.

(** With a valid monitor the same plugin is accepted in a registry that does not have its
    name, and its CRDs are then among the registry's. *)
Lemma example_with_monitor name mon r :
  ValidateMonitor (Some mon) = Ok tt → name ≠ EmptyString → Get r name = None →
  ∃ r', ValidateAndRegister r (Some (NewPluginWithCRDs name [Some mon] CRDs)) = Ok r' ∧ ∀ crd, crd ∈ CRDs → crd ∈ AllCRDs r'.
Proof.
  intros Hm Hn Hg. unfold ValidateAndRegister, Register.
  assert (Hv : ValidatePlugin (Some (NewPluginWithCRDs name [Some mon] CRDs)) = Ok tt).
  { unfold ValidatePlugin, NewPluginWithCRDs. cbn [pluginName pluginMonitors validate_each].
    rewrite Hm. by destruct (String.eqb_spec name EmptyString). }
  rewrite Hv. cbn [pluginName NewPluginWithCRDs]. unfold Get in Hg. rewrite Hg.
  destruct (String.eqb_spec name EmptyString) as [|_]; [done|]. eexists. split; [done|].
  intros crd Hc. unfold AllCRDs, List. apply list_elem_of_bind. eexists. split; [|apply list_elem_of_fmap].
  2: { exists (name, NewPluginWithCRDs name [Some mon] CRDs). split; [done|]. apply elem_of_map_to_list, lookup_insert_eq. }
  done.
Qed.
End Examples.
