(* ===== verification/Exporter.v ===== *)
(** * Exporter: node conditions from fatal reports ([pkg/manager/node_exporter.go]).

    The exporter keeps one managed node condition per condition type and, per
    type, the unresolved fatal reasons in arrival order.  [Fatal] and [Resolve]
    update them under a lock, so each is one atomic step of the model; the
    heartbeat and the report loop are two more steps.  [rebuildFatalCondition]
    indexes its first entry, so it can panic: a panic is [None]. *)

From S2P Require Import Prelude GoStrings Monitor.

(** ** State *)

(** [corev1.ConditionStatus] and the fields of a [corev1.NodeCondition]. *)
Inductive ConditionStatus := ConditionTrue | ConditionFalse | ConditionUnknown.

#[export] Instance ConditionStatus_eq_dec : EqDecision ConditionStatus.
Proof. solve_decision. Defined.

Record NodeCondition := mkNodeCondition {
  ncType : NodeConditionType;
  ncStatus : ConditionStatus;
  ncReason : string;
  ncMessage : string;
  LastHeartbeatTime : Time;
  LastTransitionTime : Time
}.

#[export] Instance NodeCondition_eq_dec : EqDecision NodeCondition.
Proof. solve_decision. Defined.

Record NodeConditionConfig := mkNodeConditionConfig {
  ReadyReason : string;
  ReadyMessage : string
}.

Record fatalEntry := mkFatalEntry {
  reason : string;
  message : string;
  reported : Z
}.

(** An event handed to the Kubernetes event recorder. *)
Inductive EventType := EventTypeNormal | EventTypeWarning.
Record Event := mkEvent { evType : EventType; evReason : string; evMessage : string }.

(** [recorded] is the sequence of events handed to the recorder. *)
Record nodeExporter := mkNodeExporter {
  managedConditions : gmap NodeConditionType NodeCondition;
  managedConditionsDirty : bool;
  conditionConfigs : gmap NodeConditionType NodeConditionConfig;
  fatalEntries : gmap NodeConditionType (list fatalEntry);
  reportSeq : Z;
  recorded : list Event
}.

(** Building a new state from an old one, field by field. *)
Definition set_managed (e : nodeExporter) (m : gmap NodeConditionType NodeCondition)
    (dirty : bool) : nodeExporter :=
  mkNodeExporter m dirty (conditionConfigs e) (fatalEntries e) (reportSeq e) (recorded e).
Definition set_entries (e : nodeExporter) (f : gmap NodeConditionType (list fatalEntry))
    (seq : Z) : nodeExporter :=
  mkNodeExporter (managedConditions e) (managedConditionsDirty e) (conditionConfigs e) f seq
    (recorded e).
Definition record_event (e : nodeExporter) (ev : Event) : nodeExporter :=
  mkNodeExporter (managedConditions e) (managedConditionsDirty e) (conditionConfigs e)
    (fatalEntries e) (reportSeq e) (recorded e ++ [ev]).

Definition entries_of (e : nodeExporter) (t : NodeConditionType) : list fatalEntry :=
  default [] (fatalEntries e !! t).

(** ** Operations *)

Definition initializeManagedConditions (now : Time)
    (conditionConfigs : gmap NodeConditionType NodeConditionConfig)
    : gmap NodeConditionType NodeCondition :=
  map_imap (λ t cfg, Some (mkNodeCondition t ConditionTrue (ReadyReason cfg) (ReadyMessage cfg)
                             now now)) conditionConfigs.

Definition NewNodeExporter (now : Time)
    (managedConditionConfigs : gmap NodeConditionType NodeConditionConfig) : nodeExporter :=
  mkNodeExporter (initializeManagedConditions now managedConditionConfigs) true
    managedConditionConfigs ∅ 0 [].

Definition Info (e : nodeExporter) (c : Condition) (t : NodeConditionType) : nodeExporter :=
  record_event e (mkEvent EventTypeNormal t (Reason c +:+ ": " +:+ Message c)).

Definition Warning (e : nodeExporter) (c : Condition) (t : NodeConditionType) : nodeExporter :=
  record_event e (mkEvent EventTypeWarning t (Reason c +:+ ": " +:+ Message c)).

(** The loop of [rebuildFatalCondition] that picks the latest report. *)
Definition latest_from (first : fatalEntry) (rest : list fatalEntry) : fatalEntry :=
  foldl (λ latest entry, if reported latest <? reported entry then entry else latest) first rest.

(** The loop that aggregates distinct non-empty messages in arrival order. *)
Definition add_message (messages : list string) (entry : fatalEntry) : list string :=
  let duplicate := existsb (λ m, String.eqb m (message entry)) messages in
  if negb duplicate && negb (String.eqb (message entry) EmptyString)
  then messages ++ [message entry] else messages.

Definition aggregate (entries : list fatalEntry) : list string := foldl add_message [] entries.

(** The transition time of a condition replacing the managed one. *)
Definition transition_time (e : nodeExporter) (t : NodeConditionType) (st : ConditionStatus)
    (now : Time) : Time :=
  match managedConditions e !! t with
  | Some old => if decide (ncStatus old = st) then LastTransitionTime old else now
  | None => now
  end.

Definition rebuildFatalCondition (e : nodeExporter) (now : Time) (t : NodeConditionType)
    : option nodeExporter :=
  match entries_of e t with
  | [] => None
  | first :: rest =>
      let latest := latest_from first rest in
      let newCondition :=
        mkNodeCondition t ConditionFalse (reason latest) (Join (aggregate (first :: rest)) "; ")
          now (transition_time e t ConditionFalse now) in
      Some (set_managed e (<[t := newCondition]> (managedConditions e)) true)
  end.

(** The loop of [Fatal]: update the first entry with the reason, if there is one. *)
Fixpoint touch_entry (r m : string) (seq : Z) (entries : list fatalEntry)
    : option (list fatalEntry) :=
  match entries with
  | [] => None
  | x :: xs => if String.eqb (reason x) r then Some (mkFatalEntry r m seq :: xs)
               else cons x <$> touch_entry r m seq xs
  end.

Definition Fatal (e : nodeExporter) (now : Time) (c : Condition) (t : NodeConditionType)
    : option nodeExporter :=
  let seq := u64 (reportSeq e + 1) in
  let entries := entries_of e t in
  let entries' := match touch_entry (Reason c) (Message c) seq entries with
                  | Some updated => updated
                  | None => entries ++ [mkFatalEntry (Reason c) (Message c) seq]
                  end in
  rebuildFatalCondition (set_entries e (<[t := entries']> (fatalEntries e)) seq) now t.

(** The loop of [Resolve]: remove the first entry with the reason. *)
Fixpoint remove_entry (r : string) (entries : list fatalEntry) : option (list fatalEntry) :=
  match entries with
  | [] => None
  | x :: xs => if String.eqb (reason x) r then Some xs else cons x <$> remove_entry r xs
  end.

Definition Resolve (e : nodeExporter) (now : Time) (c : Condition) (t : NodeConditionType)
    : option (nodeExporter * bool) :=
  match remove_entry (Reason c) (entries_of e t) with
  | None => Some (e, match entries_of e t with [] => true | _ => false end)
  | Some entries =>
      let e1 := set_entries e (<[t := entries]> (fatalEntries e)) (reportSeq e) in
      match entries with
      | _ :: _ =>
          let e2 := record_event e1 (mkEvent EventTypeNormal t
            (Reason c +:+ ": resolved, " +:+ t +:+ " still reports "
               +:+ Join (reason <$> entries) ", ")) in
          e3 ← rebuildFatalCondition e2 now t; Some (e3, false)
      | [] =>
          let e2 := record_event e1 (mkEvent EventTypeNormal t
            (Reason c +:+ ": the previously reported issue has been resolved")) in
          let config := match conditionConfigs e !! t with
                        | Some cfg => (ReadyReason cfg, ReadyMessage cfg)
                        | None => ("Resolved", "The previously reported issues have been resolved")
                        end in
          let readyCondition :=
            mkNodeCondition t ConditionTrue config.1 config.2 now
              (transition_time e2 t ConditionTrue now) in
          Some (set_managed e2 (<[t := readyCondition]> (managedConditions e2)) true, true)
      end
  end.

Definition updateHeartbeatTimes (e : nodeExporter) (now : Time) : nodeExporter :=
  set_managed e
    ((λ c, mkNodeCondition (ncType c) (ncStatus c) (ncReason c) (ncMessage c) now
             (LastTransitionTime c)) <$> managedConditions e) true.

(** The inner loop of the report: the index of the first node condition of a type. *)
Fixpoint find_type (t : NodeConditionType) (conditions : list NodeCondition) : option nat :=
  match conditions with
  | [] => None
  | c :: cs => if String.eqb t (ncType c) then Some 0%nat else S <$> find_type t cs
  end.

(** One iteration of the outer loop.  [conditions] is the slice the loop ranges
    over, taken before it: replacing an element keeps its type and appending
    does not move it, so the index found in it is an index of [acc]. *)
Definition upsert (conditions acc : list NodeCondition) (managed : NodeCondition)
    : list NodeCondition :=
  match find_type (ncType managed) conditions with
  | Some i => <[i := managed]> acc
  | None => acc ++ [managed]
  end.

Definition merge_conditions (conditions managed : list NodeCondition) : list NodeCondition :=
  foldl (upsert conditions) conditions managed.

(** [reportManagedConditions].  [get] is the answer of the API server to Get: the
    node's conditions, or an error; [patch] its answer to a status patch.  The
    managed conditions are visited in an unspecified order, [order].  Returns
    the new state, the patch that was sent, and the error. *)
Definition reportManagedConditions {E} (e : nodeExporter) (order : list NodeCondition)
    (get : result E (list NodeCondition)) (patch : list NodeCondition → result E unit)
    : nodeExporter * option (list NodeCondition) * result E unit :=
  if negb (managedConditionsDirty e) then (e, None, Ok tt)
  else match get with
       | Err err => (e, None, Err err)
       | Ok conditions =>
           let newConditions := merge_conditions conditions order in
           match patch newConditions with
           | Err err => (e, Some newConditions, Err err)
           | Ok _ => (set_managed e (managedConditions e) false, Some newConditions, Ok tt)
           end
       end.

(** *** The loop of the exporter *)

Definition reportInterval : Duration := 15 * Second.
Definition heartbeatInterval : Duration := 5 * Minute.

(** What the loop selects, with what the API server answers to a report. *)
Inductive wakeup {E : Type} :=
| HeartbeatTick (now : Time)
| ReportTick (order : list NodeCondition) (get : result E (list NodeCondition)) (patch : list NodeCondition → result E unit)
| ContextDone.
Arguments wakeup E : clear implicits.

(** The exporter, and the patches it sent. *)
Fixpoint RunWithTickers {E} (e : nodeExporter) (ws : list (wakeup E)) : nodeExporter * list (list NodeCondition) :=
  match ws with
  | [] | ContextDone :: _ => (e, [])
  | HeartbeatTick now :: rest => RunWithTickers (updateHeartbeatTimes e now) rest
  | ReportTick order get patch :: rest =>
      let '(e, sent, _) := reportManagedConditions e order get patch in
      let '(e, patches) := RunWithTickers e rest in
      (e, match sent with Some p => p :: patches | None => patches end)
  end.

(** Once a report has succeeded, further ticks without a heartbeat or a call send nothing. *)
Lemma quiet_ticks {E} (e : nodeExporter) (ws : list (wakeup E)) :
  managedConditionsDirty e = false → Forall (λ w, match w with HeartbeatTick _ => False | _ => True end) ws →
  RunWithTickers e ws = (e, []).
Proof.
  intros Hd. induction 1 as [|w ws Hw _ IH]; [done|]. destruct w; [done| |done]. simpl.
  unfold reportManagedConditions. rewrite Hd. simpl. by rewrite IH.
Qed.
