(* ===== verification/ExporterSpec.v ===== *)
(** * ExporterSpec: what the exporter promises, and that it implements it.

    The specification keeps, per condition type, the unresolved reasons with
    their latest messages in arrival order and the same reasons ordered by most
    recent report.  The refinement theorem shows that after any sequence of
    [Fatal] and [Resolve] calls the managed condition of every type is the one
    the specification shows; the other theorems are the health of a type as a
    property of the trace, transition times, and the report to the API server. *)

From Stdlib Require Import Sorted.
From S2P Require Import Prelude GoStrings Monitor Exporter.

(** ** Calls and their traces *)

Inductive op :=
| OpFatal (t : NodeConditionType) (c : Condition)
| OpResolve (t : NodeConditionType) (c : Condition).

Definition step_op (e : nodeExporter) (now : Time) (o : op) : option nodeExporter :=
  match o with
  | OpFatal t c => Fatal e now c t
  | OpResolve t c => fst <$> Resolve e now c t
  end.

Fixpoint run (e : nodeExporter) (tr : list (Time * op)) : option nodeExporter :=
  match tr with
  | [] => Some e
  | (now, o) :: tr' => e' ← step_op e now o; run e' tr'
  end.

(** ** The specification *)

Record tstate := mkT {
  arrivals : list (string * string);
  recency : list string;
  ever : bool
}.

Definition t0 : tstate := mkT [] [] false.

Definition drop_reason (r : string) (l : list (string * string)) : list (string * string) :=
  filter (λ p, p.1 ≠ r) l.

(** A report puts the reason at the end of the arrivals when it is new and
    refreshes its message in place when it is not; it is now the most recent. *)
Definition arrive (r m : string) (l : list (string * string)) : list (string * string) :=
  if decide (r ∈ l.*1) then (λ p, if decide (p.1 = r) then (r, m) else p) <$> l
  else l ++ [(r, m)].

Definition spec_op (o : op) (s : NodeConditionType → tstate) : NodeConditionType → tstate :=
  λ t, match o with
       | OpFatal t' c =>
           if decide (t = t') then
             mkT (arrive (Reason c) (Message c) (arrivals (s t)))
                 (Reason c :: filter (λ r, r ≠ Reason c) (recency (s t))) true
           else s t
       | OpResolve t' c =>
           if decide (t = t') then
             mkT (drop_reason (Reason c) (arrivals (s t)))
                 (filter (λ r, r ≠ Reason c) (recency (s t))) (ever (s t))
           else s t
       end.

Definition spec_run (tr : list (Time * op)) : NodeConditionType → tstate :=
  foldl (λ s (o : Time * op), spec_op o.2 s) (λ _, t0) tr.

(** The first occurrence of each string. *)
Fixpoint nub (l : list string) : list string :=
  match l with
  | [] => []
  | x :: xs => x :: filter (λ y, y ≠ x) (nub xs)
  end.

Definition spec_message (s : tstate) : string :=
  Join (nub (filter (λ m, m ≠ EmptyString) (arrivals s).*2)) "; ".

(** Status, reason and message of the condition of a type; [None] when the
    exporter does not manage the type. *)
Definition spec_view (cfg : option NodeConditionConfig) (s : tstate)
    : option (ConditionStatus * string * string) :=
  match arrivals s, recency s with
  | _ :: _, r :: _ => Some (ConditionFalse, r, spec_message s)
  | _, _ =>
      match cfg with
      | Some c => Some (ConditionTrue, ReadyReason c, ReadyMessage c)
      | None => if ever s then Some (ConditionTrue, "Resolved",
                                     "The previously reported issues have been resolved")
                else None
      end
  end.

Definition view (e : nodeExporter) (t : NodeConditionType)
    : option (ConditionStatus * string * string) :=
  (λ c, (ncStatus c, ncReason c, ncMessage c)) <$> managedConditions e !! t.

(** ** Lists of entries *)

Definition pair_of (x : fatalEntry) : string * string := (reason x, message x).

Lemma touch_entry_Some r m seq l l' :
  touch_entry r m seq l = Some l' →
  ∃ pre x post, l = pre ++ x :: post ∧ reason x = r ∧ r ∉ (reason <$> pre) ∧
                l' = pre ++ mkFatalEntry r m seq :: post.
Proof.
  revert l'. induction l as [|x l IH]; intros l'; simpl; [done|].
  destruct (String.eqb_spec (reason x) r) as [E|E].
  - intros [= <-]. exists [], x, l. simpl. split_and!; try done. apply not_elem_of_nil.
  - intros (l1 & Hl1 & ->)%fmap_Some.
    destruct (IH l1 Hl1) as (pre & y & post & -> & Hy & Hn & ->).
    exists (x :: pre), y, post. simpl. split_and!; try done.
    apply not_elem_of_cons. by split.
Qed.

Lemma touch_entry_None r m seq l : touch_entry r m seq l = None ↔ r ∉ (reason <$> l).
Proof.
  induction l as [|x l IH]; simpl; [split; [intros _; apply not_elem_of_nil|done]|].
  rewrite not_elem_of_cons.
  destruct (String.eqb_spec (reason x) r) as [E|E].
  - naive_solver.
  - rewrite fmap_None. naive_solver.
Qed.

Lemma remove_entry_None r l : remove_entry r l = None ↔ r ∉ (reason <$> l).
Proof.
  induction l as [|x l IH]; simpl; [split; [intros _; apply not_elem_of_nil|done]|].
  rewrite not_elem_of_cons.
  destruct (String.eqb_spec (reason x) r) as [E|E]; [|rewrite fmap_None]; naive_solver.
Qed.

Lemma remove_entry_Some r l l' :
  remove_entry r l = Some l' →
  ∃ pre x post, l = pre ++ x :: post ∧ reason x = r ∧ r ∉ (reason <$> pre) ∧ l' = pre ++ post.
Proof.
  revert l'. induction l as [|x l IH]; intros l'; simpl; [done|].
  destruct (String.eqb_spec (reason x) r) as [E|E].
  - intros [= <-]. exists [], x, l. simpl. split_and!; try done. apply not_elem_of_nil.
  - intros (l1 & Hl1 & ->)%fmap_Some.
    destruct (IH l1 Hl1) as (pre & y & post & -> & Hy & Hn & ->).
    exists (x :: pre), y, post. simpl. split_and!; try done.
    apply not_elem_of_cons. by split.
Qed.

(** With distinct reasons, filtering out a reason removes exactly its entry. *)
Lemma filter_reason_notin {A} (f : A → string) r (l : list A) :
  r ∉ (f <$> l) → filter (λ x, f x ≠ r) l = l.
Proof.
  induction l as [|x l IH]; simpl; [done|].
  rewrite not_elem_of_cons. intros [Hx Hl].
  rewrite filter_cons_True by congruence. by rewrite IH.
Qed.

Lemma filter_reason_split {A} (f : A → string) r (pre post : list A) x :
  f x = r → r ∉ (f <$> pre) → r ∉ (f <$> post) →
  filter (λ y, f y ≠ r) (pre ++ x :: post) = pre ++ post.
Proof.
  intros Hx Hpre Hpost. rewrite filter_app, filter_cons_False by naive_solver.
  by rewrite !filter_reason_notin.
Qed.

Lemma NoDup_split_reason (l pre post : list fatalEntry) x :
  NoDup (reason <$> l) → l = pre ++ x :: post →
  reason x ∉ (reason <$> pre) ∧ reason x ∉ (reason <$> post).
Proof.
  intros Hnd ->. rewrite fmap_app in Hnd. simpl in Hnd.
  apply NoDup_app in Hnd as (_ & Hd & [Hp _]%NoDup_cons).
  split; [|done]. intros Hin. apply (Hd _ Hin). by constructor.
Qed.

(** ** The latest report *)

Lemma latest_from_spec rest first :
  let x := latest_from first rest in
  x ∈ first :: rest ∧ ∀ y, y ∈ first :: rest → reported y ≤ reported x.
Proof.
  revert first. induction rest as [|z rest IH]; intros first; simpl.
  - split; [by constructor|]. intros y ->%list_elem_of_singleton. lia.
  - unfold latest_from in *; simpl.
    destruct (reported first <? reported z) eqn:E; bool_to_prop.
    + destruct (IH z) as [Hin Hmax]. split; [by right|].
      intros y [->|Hy]%elem_of_cons; [|auto].
      specialize (Hmax z ltac:(by constructor)). lia.
    + destruct (IH first) as [Hin Hmax]. split.
      * apply elem_of_cons in Hin as [->|Hin]; [by constructor|]. by do 2 right.
      * intros y [->|[->|Hy]%elem_of_cons]%elem_of_cons.
        -- apply Hmax. by constructor.
        -- specialize (Hmax first ltac:(by constructor)). lia.
        -- apply Hmax. by right.
Qed.

(** Entries from the most recently to the least recently reported. *)
Abbreviation by_recency := (StronglySorted (λ a b, reported b < reported a)).

Lemma latest_from_sorted first rest x sorted :
  x :: sorted ≡ₚ first :: rest → by_recency (x :: sorted) → latest_from first rest = x.
Proof.
  intros Hp Hs. destruct (latest_from_spec rest first) as [Hin Hmax].
  rewrite <- Hp in Hin. apply elem_of_cons in Hin as [|Hin]; [done|].
  apply StronglySorted_inv in Hs as [_ Hall]. rewrite Forall_forall in Hall.
  specialize (Hall _ Hin).
  specialize (Hmax x). rewrite <- Hp in Hmax. specialize (Hmax ltac:(by constructor)). lia.
Qed.

(** ** Aggregated messages *)

Lemma nub_filter_comm P `{∀ x : string, Decision (P x)} l :
  filter P (nub l) = nub (filter P l).
Proof.
  induction l as [|x l IH]; simpl; [done|]. rewrite !filter_cons.
  destruct (decide (P x)) as [Hx|Hx]; simpl.
  - f_equal. rewrite list_filter_filter, <- IH, list_filter_filter.
    apply list_filter_iff. naive_solver.
  - rewrite list_filter_filter, <- IH. apply list_filter_iff. naive_solver.
Qed.

Lemma existsb_eqb_in (s : string) l : existsb (λ m, String.eqb m s) l = bool_decide (s ∈ l).
Proof.
  apply Bool.eq_iff_eq_true. rewrite existsb_exists, bool_decide_eq_true. split.
  - intros (m & Hm & ->%String.eqb_eq). by apply list_elem_of_In.
  - intros ?. exists s. rewrite String.eqb_eq. split; [|done]. by apply list_elem_of_In.
Qed.

Lemma aggregate_from acc entries :
  foldl add_message acc entries =
  acc ++ filter (λ m, m ∉ acc) (nub (filter (λ m, m ≠ EmptyString) (message <$> entries))).
Proof.
  revert acc. induction entries as [|x l IH]; intros acc; simpl; [by rewrite app_nil_r|].
  rewrite IH. unfold add_message. rewrite existsb_eqb_in, filter_cons.
  destruct (String.eqb_spec (message x) EmptyString) as [E|E].
  - rewrite andb_false_r. destruct (decide _) as [?|_]; [by destruct (decide (message x ≠ EmptyString))|done].
  - destruct (decide (message x ≠ EmptyString)) as [_|?]; [|done]. simpl.
    rewrite andb_true_r, filter_cons. case_bool_decide as Hin; simpl.
    + destruct (decide (message x ∉ acc)); [done|]. f_equal.
      rewrite list_filter_filter. apply list_filter_iff. naive_solver.
    + destruct (decide (message x ∉ acc)); [|done]. rewrite <- app_assoc. simpl. f_equal. f_equal.
      rewrite list_filter_filter. apply list_filter_iff. intros y.
      rewrite elem_of_app, list_elem_of_singleton. naive_solver.
Qed.

Lemma aggregate_spec entries :
  aggregate entries = nub (filter (λ m, m ≠ EmptyString) (message <$> entries)).
Proof.
  unfold aggregate. rewrite aggregate_from. simpl.
  induction (nub _) as [|x l IH]; [done|].
  rewrite filter_cons_True by apply not_elem_of_nil. by rewrite IH.
Qed.

(** ** Refinement

    The entries of a type stand for its specification state: the same pairs in
    arrival order, distinct reasons, and report numbers that order them as the
    specification does and do not exceed the counter. *)

Definition entries_rel (seq : Z) (es : list fatalEntry) (s : tstate) : Prop :=
  pair_of <$> es = arrivals s ∧ NoDup (reason <$> es) ∧
  (∀ x, x ∈ es → reported x ≤ seq) ∧
  ∃ sorted, sorted ≡ₚ es ∧ reason <$> sorted = recency s ∧ by_recency sorted.

Lemma by_recency_filter P `{∀ x : fatalEntry, Decision (P x)} l :
  by_recency l → by_recency (filter P l).
Proof.
  induction 1 as [|x l Hs IH Hall]; [constructor|]. rewrite filter_cons.
  destruct (decide (P x)); [|done]. constructor; [done|].
  apply Forall_forall. intros y [_ Hy]%list_elem_of_filter.
  rewrite Forall_forall in Hall. auto.
Qed.

Lemma fmap_filter_reason r (l : list fatalEntry) :
  reason <$> filter (λ x, reason x ≠ r) l = filter (λ q, q ≠ r) (reason <$> l).
Proof.
  by apply fmap_filter.
Qed.

(** The common part of both operations on the order by recency. *)
Lemma sorted_without r (sorted pre post : list fatalEntry) x :
  sorted ≡ₚ pre ++ x :: post → reason x = r →
  r ∉ (reason <$> pre) → r ∉ (reason <$> post) →
  filter (λ y, reason y ≠ r) sorted ≡ₚ pre ++ post.
Proof.
  intros Hp Hx Hpre Hpost. rewrite Hp. by rewrite (filter_reason_split reason).
Qed.

Lemma by_recency_cons (x : fatalEntry) l seq :
  (∀ y, y ∈ l → reported y ≤ seq) → seq < reported x → by_recency l → by_recency (x :: l).
Proof.
  intros Hb Hx Hl. constructor; [done|]. apply Forall_forall. intros y Hy.
  specialize (Hb _ Hy). lia.
Qed.

Lemma arrive_new r m l : r ∉ l.*1 → arrive r m l = l ++ [(r, m)].
Proof. intros. unfold arrive. by destruct (decide _). Qed.

Lemma arrive_old r m pre m' post :
  r ∉ pre.*1 → r ∉ post.*1 → arrive r m (pre ++ (r, m') :: post) = pre ++ (r, m) :: post.
Proof.
  intros Hpre Hpost. unfold arrive. rewrite decide_True by (rewrite fmap_app; apply elem_of_app; right; by left).
  assert (Hid : ∀ l : list (string * string), r ∉ l.*1 →
    (λ p, if decide (p.1 = r) then (r, m) else p) <$> l = l).
  { induction l as [|p l IH]; [done|]. rewrite !fmap_cons. intros [Hp Hl]%not_elem_of_cons.
    rewrite decide_False by congruence. by rewrite IH. }
  rewrite fmap_app, fmap_cons, !Hid by done. by rewrite decide_True.
Qed.

Lemma fst_pair_of (l : list fatalEntry) : (pair_of <$> l).*1 = reason <$> l.
Proof. by rewrite <- list_fmap_compose. Qed.

Lemma entries_rel_fatal seq es s r m :
  entries_rel seq es s →
  let es' := match touch_entry r m (seq + 1) es with
             | Some updated => updated
             | None => es ++ [mkFatalEntry r m (seq + 1)]
             end in
  entries_rel (seq + 1) es'
    (mkT (arrive r m (arrivals s)) (r :: filter (λ q, q ≠ r) (recency s)) true).
Proof.
  intros (Hpair & Hnd & Hb & sorted & Hp & Hrec & Hs).
  set (new := mkFatalEntry r m (seq + 1)).
  assert (Hbf : ∀ y, y ∈ filter (λ y, reason y ≠ r) sorted → reported y ≤ seq).
  { intros y [_ Hy]%list_elem_of_filter. apply Hb. by rewrite <- Hp. }
  assert (Hcons : by_recency (new :: filter (λ y, reason y ≠ r) sorted)).
  { apply (by_recency_cons _ _ seq); [done|simpl; lia|]. by apply by_recency_filter. }
  destruct (touch_entry r m (seq + 1) es) as [es'|] eqn:E; simpl.
  - apply touch_entry_Some in E as (pre & x & post & -> & Hx & Hpre & ->).
    destruct (NoDup_split_reason _ _ _ _ Hnd eq_refl) as [_ Hpost]. rewrite Hx in Hpost.
    split_and!.
    + simpl. rewrite <- Hpair, !fmap_app. simpl.
      change (pair_of x) with (reason x, message x). rewrite Hx.
      rewrite arrive_old by (by rewrite fst_pair_of). done.
    + rewrite !fmap_app in *. simpl in *. by rewrite <- Hx.
    + intros y. rewrite elem_of_app, elem_of_cons. intros [Hy|[->|Hy]]; [|simpl; lia|].
      * specialize (Hb y ltac:(apply elem_of_app; by left)). lia.
      * specialize (Hb y ltac:(apply elem_of_app; right; by right)). lia.
    + exists (new :: filter (λ y, reason y ≠ r) sorted). split_and!; [|simpl|done].
      * rewrite (sorted_without r sorted pre post x) by done. apply Permutation_middle.
      * by rewrite fmap_filter_reason, Hrec.
  - apply touch_entry_None in E. split_and!.
    + simpl. rewrite fmap_app, <- Hpair. rewrite arrive_new by (by rewrite fst_pair_of). done.
    + rewrite fmap_app. apply NoDup_app. split_and!; [done| |simpl; apply NoDup_singleton].
      intros q Hq Hq'%list_elem_of_singleton. simpl in Hq'. congruence.
    + intros y. rewrite elem_of_app, list_elem_of_singleton.
      intros [Hy| ->]; [specialize (Hb y Hy); lia|simpl; lia].
    + exists (new :: filter (λ y, reason y ≠ r) sorted). split_and!; [|simpl|done].
      * rewrite (filter_reason_notin reason) by (by rewrite Hp).
        rewrite Hp. apply Permutation_cons_append.
      * by rewrite fmap_filter_reason, Hrec.
Qed.

Lemma entries_rel_resolve seq es s r b :
  entries_rel seq es s →
  entries_rel seq (default es (remove_entry r es))
    (mkT (drop_reason r (arrivals s)) (filter (λ q, q ≠ r) (recency s)) b).
Proof.
  intros (Hpair & Hnd & Hb & sorted & Hp & Hrec & Hs).
  assert (Hdrop : drop_reason r (arrivals s) = pair_of <$> filter (λ x, reason x ≠ r) es).
  { unfold drop_reason. rewrite <- Hpair. symmetry. by apply fmap_filter. }
  assert (Hfe : default es (remove_entry r es) = filter (λ x, reason x ≠ r) es).
  { destruct (remove_entry r es) as [es'|] eqn:E; simpl.
    - apply remove_entry_Some in E as (pre & x & post & -> & Hx & Hpre & ->).
      destruct (NoDup_split_reason _ _ _ _ Hnd eq_refl) as [_ Hpost]. rewrite Hx in Hpost.
      by rewrite (filter_reason_split reason).
    - apply remove_entry_None in E. by rewrite (filter_reason_notin reason). }
  rewrite Hfe. split_and!.
  - done.
  - rewrite fmap_filter_reason. by apply NoDup_filter.
  - intros y [_ Hy]%list_elem_of_filter. auto.
  - exists (filter (λ y, reason y ≠ r) sorted). split_and!.
    + by rewrite Hp.
    + simpl. by rewrite fmap_filter_reason, Hrec.
    + by apply by_recency_filter.
Qed.

(** The exporter implements the specification state [s]. *)
Definition implements (cfgs : gmap NodeConditionType NodeConditionConfig) (e : nodeExporter)
    (s : NodeConditionType → tstate) : Prop :=
  conditionConfigs e = cfgs ∧ 0 ≤ reportSeq e ∧
  (∀ t, entries_rel (reportSeq e) (entries_of e t) (s t)) ∧
  (∀ t, view e t = spec_view (cfgs !! t) (s t)) ∧
  (∀ t, recency (s t) ≠ [] → ever (s t) = true).

Lemma entries_rel_nil seq s : entries_rel seq [] s → arrivals s = [] ∧ recency s = [].
Proof.
  intros (Hp & _ & _ & sorted & Hs & Hr & _). apply Permutation_nil_r in Hs as ->.
  simpl in *. done.
Qed.

Lemma entries_rel_cons seq x es s :
  entries_rel seq (x :: es) s →
  ∃ p ps rs, arrivals s = p :: ps ∧ recency s = reason (latest_from x es) :: rs.
Proof.
  intros (Hp & _ & _ & sorted & Hs & Hr & Hsort).
  destruct sorted as [|y sorted]; [by apply Permutation_nil_cons in Hs|].
  rewrite (latest_from_sorted x es y sorted) by done.
  rewrite fmap_cons in Hp. rewrite fmap_cons in Hr. eauto.
Qed.

Lemma snd_pair_of (l : list fatalEntry) : (pair_of <$> l).*2 = message <$> l.
Proof. by rewrite <- list_fmap_compose. Qed.

(** A rebuild shows what the specification shows for failing types. *)
Lemma rebuild_view e now t s cfg :
  entries_rel (reportSeq e) (entries_of e t) s → entries_of e t ≠ [] →
  ∃ e', rebuildFatalCondition e now t = Some e' ∧
    view e' t = spec_view cfg s ∧ (∀ t', t' ≠ t → view e' t' = view e t') ∧
    conditionConfigs e' = conditionConfigs e ∧ fatalEntries e' = fatalEntries e ∧
    reportSeq e' = reportSeq e.
Proof.
  intros Hrel Hne. unfold rebuildFatalCondition.
  destruct (entries_of e t) as [|x es] eqn:Ees; [done|].
  eexists. split; [done|]. split_and!; try done.
  - destruct (entries_rel_cons _ _ _ _ Hrel) as (p & ps & rs & Ha & Hr).
    unfold view; simpl. rewrite lookup_insert_eq. simpl.
    unfold spec_view, spec_message. rewrite Hr, Ha, <- Ha.
    destruct Hrel as (Hp & _). by rewrite <- Hp, snd_pair_of, aggregate_spec.
  - intros t' Ht. unfold view; simpl. by rewrite lookup_insert_ne.
Qed.

Lemma arrive_ne r m l : arrive r m l ≠ [].
Proof.
  unfold arrive. destruct (decide _) as [Hin|_].
  - destruct l; [by apply elem_of_nil in Hin|done].
  - by destruct l.
Qed.

Lemma entries_of_insert e t es seq t' :
  entries_of (set_entries e (<[t := es]> (fatalEntries e)) seq) t' =
  if decide (t' = t) then es else entries_of e t'.
Proof.
  unfold entries_of; simpl. destruct (decide (t' = t)) as [->|Ht].
  - by rewrite lookup_insert_eq.
  - by rewrite lookup_insert_ne.
Qed.

Lemma entries_rel_mono seq seq' es s :
  seq ≤ seq' → entries_rel seq es s → entries_rel seq' es s.
Proof.
  intros Hle (?&?&Hb&?). split_and!; try done. intros x Hx. specialize (Hb x Hx). lia.
Qed.

Lemma entries_of_eq e e' : fatalEntries e' = fatalEntries e → entries_of e' = entries_of e.
Proof. unfold entries_of. by intros ->. Qed.

#[local] Arguments spec_op : simpl never.

Definition op_type (o : op) : NodeConditionType :=
  match o with OpFatal t _ | OpResolve t _ => t end.

Lemma spec_op_other o s t : t ≠ op_type o → spec_op o s t = s t.
Proof. destruct o; unfold spec_op; simpl; intros ?; by rewrite decide_False. Qed.

Lemma spec_resolve_at t c s :
  spec_op (OpResolve t c) s t =
  mkT (drop_reason (Reason c) (arrivals (s t)))
    (filter (λ q, q ≠ Reason c) (recency (s t))) (ever (s t)).
Proof. unfold spec_op. by rewrite decide_True. Qed.

Lemma ever_op o s :
  (∀ t, recency (s t) ≠ [] → ever (s t) = true) →
  ∀ t, recency (spec_op o s t) ≠ [] → ever (spec_op o s t) = true.
Proof.
  intros Hever t. destruct (decide (t = op_type o)) as [->|Ht];
    [|rewrite spec_op_other by done; apply Hever].
  destruct o as [t' c|t' c]; unfold spec_op; simpl; rewrite decide_True by done; [done|]. simpl.
  intros Hne. apply Hever. intros Hnil. by rewrite Hnil in Hne.
Qed.

(** Resolving a reason that no entry has changes nothing of the specification
    state the exporter shows. *)
Lemma spec_resolve_absent seq es s t c :
  entries_rel seq es (s t) → Reason c ∉ (reason <$> es) →
  spec_op (OpResolve t c) s t = s t.
Proof.
  intros (Hp & _ & _ & sorted & Hs & Hrc & _) Hn. rewrite spec_resolve_at.
  assert (drop_reason (Reason c) (arrivals (s t)) = arrivals (s t)) as ->.
  { unfold drop_reason. rewrite (filter_reason_notin fst); [done|].
    by rewrite <- Hp, fst_pair_of. }
  rewrite <- Hrc, (filter_reason_notin (λ q, q)) by (by rewrite list_fmap_id, Hs).
  rewrite Hrc. by destruct (s t).
Qed.

(** What is left to show for an operation on [t]: the entries and the view of
    [t]; the other types are untouched. *)
Lemma implements_at cfgs e e' s o :
  implements cfgs e s → conditionConfigs e' = cfgs → reportSeq e ≤ reportSeq e' →
  entries_rel (reportSeq e') (entries_of e' (op_type o)) (spec_op o s (op_type o)) →
  view e' (op_type o) = spec_view (cfgs !! op_type o) (spec_op o s (op_type o)) →
  (∀ t, t ≠ op_type o → entries_of e' t = entries_of e t ∧ view e' t = view e t) →
  implements cfgs e' (spec_op o s).
Proof.
  intros (Hc & H0 & Hrel & Hview & Hever) Hc' Hseq Hr Hv Hother.
  unfold implements. split_and!; [done|lia| | |by apply ever_op].
  - intros t. destruct (decide (t = op_type o)) as [->|Ht]; [done|].
    destruct (Hother t Ht) as [-> _]. rewrite spec_op_other by done.
    eapply entries_rel_mono; eauto.
  - intros t. destruct (decide (t = op_type o)) as [->|Ht]; [done|].
    destruct (Hother t Ht) as [_ ->]. rewrite spec_op_other by done. apply Hview.
Qed.

(** [Fatal] never panics and implements its specification. *)
Lemma Fatal_implements cfgs e s now c t :
  implements cfgs e s → reportSeq e + 1 < 2 ^ 64 →
  ∃ e', Fatal e now c t = Some e' ∧ implements cfgs e' (spec_op (OpFatal t c) s) ∧
        reportSeq e' = reportSeq e + 1.
Proof.
  intros Himp Hseq. pose proof Himp as (Hc & H0 & Hrel & _ & _).
  unfold Fatal. rewrite u64_small by (unfold is_u64; lia).
  set (es' := match touch_entry _ _ _ _ with Some u => u | None => _ end).
  set (e1 := set_entries e (<[t := es']> (fatalEntries e)) (reportSeq e + 1)).
  pose proof (entries_rel_fatal _ _ _ (Reason c) (Message c) (Hrel t)) as Hr1. fold es' in Hr1.
  assert (Hsp : spec_op (OpFatal t c) s t =
    mkT (arrive (Reason c) (Message c) (arrivals (s t)))
        (Reason c :: filter (λ r, r ≠ Reason c) (recency (s t))) true).
  { unfold spec_op. by rewrite decide_True. }
  rewrite <- Hsp in Hr1.
  assert (He1 : ∀ t', entries_of e1 t' = if decide (t' = t) then es' else entries_of e t').
  { intros t'. unfold e1. by rewrite entries_of_insert. }
  destruct (rebuild_view e1 now t (spec_op (OpFatal t c) s t) (cfgs !! t)) as
    (e' & Hreb & Hv & Hv' & Hcfg & Hfe & Hsq).
  { by rewrite He1, decide_True. }
  { rewrite He1, decide_True by done. intros Hnil. rewrite Hnil in Hr1.
    apply entries_rel_nil in Hr1 as [Ha _]. rewrite Hsp in Ha. by apply arrive_ne in Ha. }
  exists e'. split; [done|]. split; [|done].
  apply (implements_at cfgs e); simpl op_type; try done.
  - by rewrite Hcfg.
  - rewrite Hsq; simpl; lia.
  - rewrite Hsq, (entries_of_eq _ _ Hfe), He1. by rewrite decide_True.
  - intros t' Ht. rewrite (entries_of_eq _ _ Hfe), He1, decide_False by done.
    split; [done|]. by rewrite Hv'.
Qed.

(** [Resolve] never panics, implements its specification, and returns whether
    the type is healthy afterwards. *)
Definition resolve_ok cfgs e s now c t : Prop :=
  ∃ e' b, Resolve e now c t = Some (e', b) ∧
    implements cfgs e' (spec_op (OpResolve t c) s) ∧ reportSeq e' = reportSeq e ∧
    (b = true ↔ recency (spec_op (OpResolve t c) s t) = []).

Lemma Resolve_absent cfgs e s now c t :
  implements cfgs e s → remove_entry (Reason c) (entries_of e t) = None →
  resolve_ok cfgs e s now c t.
Proof.
  intros Himp E. pose proof Himp as (Hc & H0 & Hrel & Hview & _).
  pose proof (entries_rel_resolve _ _ _ (Reason c) (ever (s t)) (Hrel t)) as Hr1.
  rewrite E, <- spec_resolve_at in Hr1. simpl in Hr1.
  pose proof E as Hn. apply remove_entry_None in Hn.
  pose proof (spec_resolve_absent _ _ _ _ _ (Hrel t) Hn) as Hsp.
  unfold resolve_ok, Resolve. rewrite E. eexists e, _. split; [done|]. split; [|split; [done|]].
  - apply (implements_at cfgs e); simpl op_type; try done. by rewrite Hview, Hsp.
  - destruct (entries_of e t) as [|x l].
    + by destruct (entries_rel_nil _ _ Hr1) as [_ ->].
    + by destruct (entries_rel_cons _ _ _ _ Hr1) as (?&?&?&_&->).
Qed.

Lemma recency_ne seq es s r :
  entries_rel seq es s → remove_entry r es = Some [] → recency s ≠ [].
Proof.
  intros (_ & _ & _ & sorted & Hs & Hr & _) E Hnil. rewrite Hnil in Hr.
  apply fmap_nil_inv in Hr as ->. apply Permutation_nil_l in Hs. by subst es.
Qed.

Lemma Resolve_present cfgs e s now c t es :
  implements cfgs e s → remove_entry (Reason c) (entries_of e t) = Some es →
  resolve_ok cfgs e s now c t.
Proof.
  intros Himp E. pose proof Himp as (Hc & H0 & Hrel & Hview & Hever).
  pose proof (entries_rel_resolve _ _ _ (Reason c) (ever (s t)) (Hrel t)) as Hr1.
  rewrite E, <- spec_resolve_at in Hr1. simpl in Hr1.
  set (e1 := set_entries e (<[t := es]> (fatalEntries e)) (reportSeq e)).
  assert (He1 : ∀ e', fatalEntries e' = fatalEntries e1 →
    ∀ t', entries_of e' t' = if decide (t' = t) then es else entries_of e t').
  { intros e' He' t'. rewrite (entries_of_eq _ _ He'). unfold e1. by rewrite entries_of_insert. }
  unfold resolve_ok, Resolve. rewrite E. fold e1. destruct es as [|x es].
  - destruct (entries_rel_nil _ _ Hr1) as [Ha Hrc].
    eexists _, true. split; [done|]. split; [|done].
    apply (implements_at cfgs e); simpl op_type; try done.
    + by rewrite He1, decide_True.
    + unfold view; simpl. rewrite lookup_insert_eq. simpl. unfold spec_view.
      rewrite Ha, Hc. destruct (cfgs !! t) as [cfg|]; [done|].
      rewrite spec_resolve_at; simpl. rewrite Hever; [done|]. by eapply recency_ne.
    + intros t' Ht. rewrite He1, decide_False by done. split; [done|].
      unfold view; simpl. by rewrite lookup_insert_ne.
  - set (e2 := record_event e1 _).
    destruct (rebuild_view e2 now t (spec_op (OpResolve t c) s t) (cfgs !! t)) as
      (e' & Hreb & Hv & Hv' & Hcfg & Hfe & Hsq).
    { by rewrite He1, decide_True. }
    { by rewrite He1, decide_True. }
    rewrite Hreb. simpl. eexists e', false. split; [done|]. split; [|split; [done|]].
    + apply (implements_at cfgs e); simpl op_type; try done.
      * by rewrite Hcfg.
      * by rewrite Hsq.
      * by rewrite Hsq, He1, decide_True.
      * intros t' Ht. rewrite He1, decide_False by done. split; [done|]. by rewrite Hv'.
    + destruct (entries_rel_cons _ _ _ _ Hr1) as (?&?&?&_&Hr'). by rewrite Hr'.
Qed.

Lemma Resolve_implements cfgs e s now c t :
  implements cfgs e s → resolve_ok cfgs e s now c t.
Proof.
  intros Himp. destruct (remove_entry (Reason c) (entries_of e t)) as [es|] eqn:E;
    eauto using Resolve_present, Resolve_absent.
Qed.

Lemma new_implements now cfgs : implements cfgs (NewNodeExporter now cfgs) (λ _, t0).
Proof.
  unfold implements. split_and!; try done.
  - intros t. unfold entries_of; simpl. rewrite lookup_empty. simpl.
    split_and!; try done; [apply NoDup_nil_2|intros x Hx; by apply elem_of_nil in Hx|].
    exists []. split_and!; try done. constructor.
  - intros t. unfold view; simpl. unfold initializeManagedConditions.
    rewrite map_lookup_imap. by destruct (cfgs !! t).
Qed.

Lemma run_implements cfgs tr e s :
  implements cfgs e s → reportSeq e + Z.of_nat (length tr) < 2 ^ 64 →
  ∃ e', run e tr = Some e' ∧ implements cfgs e' (foldl (λ s (o : Time * op), spec_op o.2 s) s tr).
Proof.
  revert e s. induction tr as [|[now [t c|t c]] tr IH]; intros e s Himp Hlen; simpl;
    [eauto| |]; simpl in Hlen.
  - destruct (Fatal_implements cfgs e s now c t) as (e' & -> & Himp' & Hseq); [done|lia|].
    simpl. apply IH; [done|lia].
  - destruct (Resolve_implements cfgs e s now c t Himp) as (e' & b & -> & Himp' & Hseq & _).
    simpl. apply IH; [done|lia].
Qed.

(** *** Health as a property of the trace *)

(** Whether reason [r] of type [t] is failing after the trace: its last call was
    a report, not a resolution. *)
Definition failing_step (t : NodeConditionType) (r : string) (b : bool) (o : op) : bool :=
  match o with
  | OpFatal t' c => if decide (t = t' ∧ r = Reason c) then true else b
  | OpResolve t' c => if decide (t = t' ∧ r = Reason c) then false else b
  end.

Definition failing (tr : list (Time * op)) (t : NodeConditionType) (r : string) : bool :=
  foldl (λ b (o : Time * op), failing_step t r b o.2) false tr.

Lemma recency_failing tr s t r b :
  (r ∈ recency (s t) ↔ b = true) →
  r ∈ recency (foldl (λ s (o : Time * op), spec_op o.2 s) s tr t) ↔
  foldl (λ b (o : Time * op), failing_step t r b o.2) b tr = true.
Proof.
  revert s b. induction tr as [|[now o] tr IH]; intros s b Hb; simpl; [done|].
  apply IH. unfold spec_op, failing_step. destruct o as [t' c|t' c]; simpl.
  all: destruct (decide (t = t')) as [->|Ht];
    [|rewrite decide_False by tauto; done].
  all: destruct (decide _) as [[_ ->]|Hr]; simpl.
  - split; [done|]. intros _. by left.
  - rewrite elem_of_cons, list_elem_of_filter. rewrite <- Hb. naive_solver.
  - rewrite list_elem_of_filter. naive_solver.
  - rewrite list_elem_of_filter, <- Hb. naive_solver.
Qed.

(** ** Transition times *)

(** A call changes the transition time of a type's condition to the call's time
    when it changes the status, and keeps it otherwise. *)
Definition transition_step (e e' : nodeExporter) (now : Time) (t : NodeConditionType) : Prop :=
  ∀ c', managedConditions e' !! t = Some c' →
    managedConditions e !! t = Some c' ∨
    (LastHeartbeatTime c' = now ∧
     LastTransitionTime c' = match managedConditions e !! t with
                             | Some c => if decide (ncStatus c = ncStatus c')
                                         then LastTransitionTime c else now
                             | None => now
                             end).

Lemma insert_transition e e' now t st r m t' :
  managedConditions e' =
    <[t := mkNodeCondition t st r m now (transition_time e t st now)]> (managedConditions e) →
  transition_step e e' now t'.
Proof.
  intros He' c'. rewrite He'. destruct (decide (t' = t)) as [->|Ht].
  - rewrite lookup_insert_eq. intros [= <-]. right. split; [done|]. done.
  - rewrite lookup_insert_ne by done. auto.
Qed.

Lemma rebuild_transition e now t e' t' :
  rebuildFatalCondition e now t = Some e' → transition_step e e' now t'.
Proof.
  unfold rebuildFatalCondition. destruct (entries_of e t) as [|x l]; [done|].
  intros [= <-]. by eapply insert_transition.
Qed.

Lemma step_op_transition e now o e' t :
  step_op e now o = Some e' → transition_step e e' now t.
Proof.
  destruct o as [t' c|t' c]; simpl.
  - unfold Fatal. by intros H%(rebuild_transition _ _ _ _ t).
  - unfold Resolve. destruct (remove_entry _ _) as [[|x es]|]; simpl.
    + intros [= <-]. by eapply insert_transition.
    + intros ([e1 b] & Hr & ->)%fmap_Some.
      apply bind_Some in Hr as (e3 & Hr%(rebuild_transition _ _ _ _ t) & [= <- <-]). done.
    + intros [= <-]. intros c' ?. by left.
Qed.

(** ** The report to the API server *)

Lemma find_type_Some t l i :
  find_type t l = Some i → ∃ c, l !! i = Some c ∧ ncType c = t.
Proof.
  revert i. induction l as [|x l IH]; intros i; simpl; [done|].
  destruct (String.eqb_spec t (ncType x)) as [->|Ht].
  - intros [= <-]. eauto.
  - intros (j & Hj & ->)%fmap_Some. apply IH in Hj. eauto.
Qed.

Lemma find_type_None t l : find_type t l = None ↔ t ∉ (ncType <$> l).
Proof.
  induction l as [|x l IH]; simpl; [split; [intros _; apply not_elem_of_nil|done]|].
  rewrite not_elem_of_cons.
  destruct (String.eqb_spec t (ncType x)); [|rewrite fmap_None]; naive_solver.
Qed.

Lemma find_type_app t l l' :
  find_type t (l ++ l') =
  match find_type t l with
  | Some i => Some i
  | None => Nat.add (length l) <$> find_type t l'
  end.
Proof.
  induction l as [|x l IH]; simpl; [by destruct (find_type t l')|].
  destruct (String.eqb t (ncType x)); [done|]. rewrite IH.
  destruct (find_type t l); [done|]. by destruct (find_type t l').
Qed.

Lemma find_type_types t l l' :
  ncType <$> l = ncType <$> l' → find_type t l = find_type t l'.
Proof.
  revert l'. induction l as [|x l IH]; intros [|y l'] H; try done.
  injection H as Hx Hl. simpl. rewrite Hx. by rewrite (IH l').
Qed.

Lemma merge_snoc conds ms m :
  merge_conditions conds (ms ++ [m]) = upsert conds (merge_conditions conds ms) m.
Proof. unfold merge_conditions. by rewrite foldl_app. Qed.

Lemma insert_types (l : list NodeCondition) i m :
  (ncType <$> l) !! i = Some (ncType m) → ncType <$> <[i := m]> l = ncType <$> l.
Proof. intros H. rewrite list_fmap_insert. by apply list_insert_id. Qed.

Lemma merge_types conds ms :
  ncType <$> merge_conditions conds ms =
  (ncType <$> conds) ++ (ncType <$> filter (λ m, find_type (ncType m) conds = None) ms).
Proof.
  induction ms as [|m ms IH] using rev_ind; [by rewrite app_nil_r|].
  rewrite merge_snoc, filter_app, filter_cons. unfold upsert.
  destruct (find_type (ncType m) conds) as [i|] eqn:E.
  - rewrite decide_False by done. rewrite filter_nil, app_nil_r.
    rewrite insert_types; [done|]. rewrite IH.
    apply find_type_Some in E as (c & Hc & Hct).
    apply lookup_app_l_Some. by rewrite list_lookup_fmap, Hc, <- Hct.
  - rewrite decide_True by done. rewrite fmap_app, IH, filter_nil. simpl.
    by rewrite fmap_app, app_assoc.
Qed.

(** The index of a managed type in the result. *)
Lemma find_type_merge t conds ms i :
  find_type t conds = Some i → find_type t (merge_conditions conds ms) = Some i.
Proof.
  intros Hi. rewrite (find_type_types t _ (conds ++ filter
    (λ m, find_type (ncType m) conds = None) ms)) by (by rewrite merge_types, fmap_app).
  by rewrite find_type_app, Hi.
Qed.

Lemma find_type_merge_absent conds ms m :
  find_type (ncType m) conds = None → ncType m ∉ (ncType <$> ms) →
  find_type (ncType m) (merge_conditions conds ms) = None.
Proof.
  intros Hc Hm. apply find_type_None. rewrite merge_types, elem_of_app.
  intros [Hin|(x & Hx & Hin)%list_elem_of_fmap]; [by apply find_type_None in Hc|].
  apply list_elem_of_filter in Hin as [_ Hin]. apply Hm. rewrite Hx. by apply list_elem_of_fmap_2.
Qed.

Lemma merge_managed conds ms m :
  NoDup (ncType <$> ms) → m ∈ ms →
  ∃ i, find_type (ncType m) (merge_conditions conds ms) = Some i ∧
       merge_conditions conds ms !! i = Some m.
Proof.
  induction ms as [|x ms IH] using rev_ind; intros Hnd Hm; [by apply elem_of_nil in Hm|].
  rewrite fmap_app in Hnd. apply NoDup_app in Hnd as (Hnd & Hx & _).
  assert (Hxm : ncType x ∉ (ncType <$> ms)) by (intros Hin; apply (Hx _ Hin); by left).
  rewrite merge_snoc. unfold upsert.
  apply elem_of_app in Hm as [Hm| ->%list_elem_of_singleton].
  - destruct (IH Hnd Hm) as (i & Hi & Hl).
    assert (Hne : ncType x ≠ ncType m).
    { intros E. apply Hxm. rewrite E. by apply list_elem_of_fmap_2. }
    destruct (find_type (ncType x) conds) as [j|] eqn:E.
    + apply (find_type_merge _ _ ms) in E as Hj.
      apply find_type_Some in Hj as (c & Hc & Hct).
      exists i. split.
      * rewrite <- Hi. apply find_type_types, insert_types.
        by rewrite list_lookup_fmap, Hc, <- Hct.
      * rewrite list_lookup_insert_ne; [done|]. intros ->. congruence.
    + exists i. split; [by rewrite find_type_app, Hi|].
      apply lookup_app_l_Some. done.
  - destruct (find_type (ncType x) conds) as [j|] eqn:E.
    + apply (find_type_merge _ _ ms) in E as Hj. exists j.
      apply find_type_Some in Hj as Hc. destruct Hc as (c & Hc & Hct). split.
      * rewrite <- Hj. apply find_type_types, insert_types.
        by rewrite list_lookup_fmap, Hc, <- Hct.
      * apply list_lookup_insert_eq. by eapply lookup_lt_Some.
    + exists (length (merge_conditions conds ms)). split.
      * rewrite find_type_app, find_type_merge_absent by done. simpl.
        rewrite String.eqb_refl. simpl. by rewrite Nat.add_0_r.
      * apply list_lookup_middle. done.
Qed.

Lemma merge_unmanaged conds ms j c :
  conds !! j = Some c → ncType c ∉ (ncType <$> ms) →
  merge_conditions conds ms !! j = Some c.
Proof.
  intros Hj. induction ms as [|x ms IH] using rev_ind; [done|].
  rewrite fmap_app, not_elem_of_app. intros [Hms Hx]. simpl in Hx.
  rewrite merge_snoc. unfold upsert. specialize (IH Hms).
  destruct (find_type (ncType x) conds) as [i|] eqn:E.
  - apply find_type_Some in E as (c' & Hc' & Hct). rewrite list_lookup_insert_ne; [done|].
    intros ->. apply Hx. rewrite Hj in Hc'. injection Hc' as ->. rewrite Hct. by left.
  - by apply lookup_app_l_Some.
Qed.

Lemma merge_idempotent conds ms ms' :
  NoDup (ncType <$> ms) → ms' ⊆ ms →
  merge_conditions (merge_conditions conds ms) ms' = merge_conditions conds ms.
Proof.
  intros Hnd. induction ms' as [|m ms' IH] using rev_ind; intros Hsub; [done|].
  rewrite merge_snoc, IH by (intros x Hx; apply Hsub; apply elem_of_app; by left).
  unfold upsert. destruct (merge_managed conds ms m) as (i & Hi & Hl); [done| |].
  { apply Hsub, elem_of_app. right. by left. }
  rewrite Hi. by apply list_insert_id.
Qed.

(** *** The exporter and the node it reports to *)

Definition first_condition (t : NodeConditionType) (l : list NodeCondition)
    : option NodeCondition :=
  i ← find_type t l; l !! i.

Definition managed_values (e : nodeExporter) : list NodeCondition :=
  (map_to_list (managedConditions e)).*2.

(** The exporter with the conditions of its node.  A step is a call, a
    heartbeat tick, a report tick - the API server may fail either request, and
    a patch that failed may still have been applied - or another client that
    leaves the managed conditions of the node alone. *)
Inductive sys_step : nodeExporter * list NodeCondition → nodeExporter * list NodeCondition → Prop :=
| SCall e node now o e' :
    step_op e now o = Some e' → sys_step (e, node) (e', node)
| SHeartbeat e node now :
    sys_step (e, node) (updateHeartbeatTimes e now, node)
| SReport e node order E (get : result E (list NodeCondition)) patch e' sent res node' :
    order ≡ₚ managed_values e →
    (get = Ok node ∨ ∃ err, get = Err err) →
    reportManagedConditions e order get patch = (e', sent, res) →
    (sent = None ∧ node' = node ∨
     ∃ conds, sent = Some conds ∧ (node' = conds ∨ node' = node ∧ is_ok res = false)) →
    sys_step (e, node) (e', node')
| SOther e node node' :
    (∀ t, is_Some (managedConditions e !! t) → first_condition t node' = first_condition t node) →
    sys_step (e, node) (e, node').

Definition types_ok (e : nodeExporter) : Prop :=
  map_Forall (λ t c, ncType c = t) (managedConditions e).

(** When nothing is waiting to be reported, the node shows every managed
    condition. *)
Definition published (e : nodeExporter) (node : list NodeCondition) : Prop :=
  managedConditionsDirty e = false →
  ∀ t c, managedConditions e !! t = Some c → first_condition t node = Some c.

Lemma managed_values_types e :
  types_ok e → ncType <$> managed_values e = (map_to_list (managedConditions e)).*1.
Proof.
  intros Ht. unfold managed_values. rewrite <- list_fmap_compose.
  apply list_fmap_ext. intros i [t c] Hi. simpl. apply Ht.
  apply elem_of_map_to_list. by eapply list_elem_of_lookup_2.
Qed.

Lemma managed_values_nodup e order :
  types_ok e → order ≡ₚ managed_values e → NoDup (ncType <$> order).
Proof.
  intros Ht ->. rewrite managed_values_types by done. apply NoDup_fst_map_to_list.
Qed.

Lemma managed_in_order e order t c :
  order ≡ₚ managed_values e → managedConditions e !! t = Some c → c ∈ order.
Proof.
  intros -> Hc. unfold managed_values. apply list_elem_of_fmap. exists (t, c).
  split; [done|]. by apply elem_of_map_to_list.
Qed.

Lemma merged_published e order conds t c :
  types_ok e → order ≡ₚ managed_values e → managedConditions e !! t = Some c →
  first_condition t (merge_conditions conds order) = Some c.
Proof.
  intros Ht Ho Hc. pose proof (Ht _ _ Hc) as <-.
  destruct (merge_managed conds order c) as (i & Hi & Hl);
    eauto using managed_values_nodup, managed_in_order.
  unfold first_condition. by rewrite Hi.
Qed.

Lemma types_ok_insert e e' t c :
  types_ok e → ncType c = t → managedConditions e' = <[t := c]> (managedConditions e) →
  types_ok e'.
Proof. intros Ht Hc He'. unfold types_ok. rewrite He'. by apply map_Forall_insert_2. Qed.

Lemma rebuild_types e now t e' :
  types_ok e → rebuildFatalCondition e now t = Some e' →
  types_ok e' ∧ managedConditionsDirty e' = true.
Proof.
  unfold rebuildFatalCondition. destruct (entries_of e t) as [|x l]; [done|].
  intros Ht [= <-]. split; [|done].
  eapply (types_ok_insert e _ t); [done| |reflexivity]. done.
Qed.

(** A call keeps the types and either marks the state dirty or changes nothing. *)
Lemma step_op_dirty e now o e' :
  types_ok e → step_op e now o = Some e' →
  types_ok e' ∧ (managedConditionsDirty e' = true ∨ e' = e).
Proof.
  intros Ht. destruct o as [t c|t c]; simpl.
  - unfold Fatal. intros [? ?]%rebuild_types; auto.
  - unfold Resolve. destruct (remove_entry _ _) as [[|x es]|]; simpl.
    + intros [= <-]. split; [|auto].
      eapply (types_ok_insert e _ t); [done| |reflexivity]. done.
    + intros ([e1 b] & Hr & ->)%fmap_Some.
      apply bind_Some in Hr as (e3 & [? ?]%rebuild_types & [= <- <-]); auto.
    + intros [= <-]. auto.
Qed.

Lemma sys_step_published s s' :
  sys_step s s' → types_ok s.1 → published s.1 s.2 → types_ok s'.1 ∧ published s'.1 s'.2.
Proof.
  intros Hs Ht Hp. destruct Hs as
    [e node now o e' Hs|e node now|e node order E get patch e' sent res node' Ho Hg Hr Hn
    |e node node' Ho]; simpl in *.
  - destruct (step_op_dirty _ _ _ _ Ht Hs) as [Ht' [Hd| ->]]; [|done].
    split; [done|]. intros Hd'. congruence.
  - split; [|done]. intros t c. simpl. rewrite lookup_fmap.
    intros (c0 & Hc0 & ->)%fmap_Some. simpl. by apply Ht.
  - unfold reportManagedConditions in Hr. destruct (managedConditionsDirty e) eqn:Hd; simpl in Hr.
    2:{ injection Hr as <- <- <-. destruct Hn as [[_ ->]|(? & Hn & _)]; done. }
    destruct get as [conds|err].
    2:{ injection Hr as <- <- <-. destruct Hn as [[_ ->]|(? & Hn & _)]; done. }
    destruct (patch _) as [[]|err]; injection Hr as <- <- <-.
    + destruct Hn as [[Hn _]|(conds' & [= <-] & [ -> |[_ Hn]])]; try done.
      split; [done|]. intros _ t c Hc. simpl in Hc. by eapply merged_published.
    + split; [done|]. intros Hd'. congruence.
  - split; [done|]. intros Hd t c Hc. rewrite Ho by eauto. by apply Hp.
Qed.

Lemma new_types_ok now cfgs : types_ok (NewNodeExporter now cfgs).
Proof.
  intros t c. simpl. unfold initializeManagedConditions. rewrite map_lookup_imap.
  destruct (cfgs !! t); simpl; [|done]. by intros [= <-].
Qed.

Lemma reachable_published now cfgs node0 s :
  rtc sys_step (NewNodeExporter now cfgs, node0) s → types_ok s.1 ∧ published s.1 s.2.
Proof.
  intros Hr. assert (H0 : types_ok (NewNodeExporter now cfgs) ∧
    published (NewNodeExporter now cfgs) node0).
  { split; [apply new_types_ok|done]. }
  change (NewNodeExporter now cfgs) with (NewNodeExporter now cfgs, node0).1 in H0 at 1.
  change (NewNodeExporter now cfgs) with (NewNodeExporter now cfgs, node0).1 in H0 at 2.
  change node0 with (NewNodeExporter now cfgs, node0).2 in H0 at 3.
  revert H0. induction Hr as [s|s s1 s2 Hs Hr IH]; [done|].
  intros [Ht Hp]. apply IH. by eapply sys_step_published.
Qed.

(** ** The exporter's contract *)

Lemma run_new now cfgs tr :
  Z.of_nat (length tr) < 2 ^ 64 →
  ∃ e, run (NewNodeExporter now cfgs) tr = Some e ∧ implements cfgs e (spec_run tr).
Proof. intros Htr. apply run_implements; [apply new_implements|done]. Qed.

Lemma implements_recency cfgs e s t :
  implements cfgs e s → arrivals (s t) = [] ↔ recency (s t) = [].
Proof.
  intros (_ & _ & Hrel & _). specialize (Hrel t).
  destruct (entries_of e t) as [|x es] eqn:E.
  - by destruct (entries_rel_nil _ _ Hrel) as [-> ->].
  - destruct (entries_rel_cons _ _ _ _ Hrel) as (p & ps & rs & -> & ->). done.
Qed.

(** C4. Refinement: from a new exporter, no sequence of fewer than 2^64 [Fatal]
    and [Resolve] calls panics, and afterwards the status, reason and message of
    every condition type are those of the abstract specification: False, the most
    recently reported unresolved reason and the distinct messages in arrival
    order while anything is unresolved, and the ready configuration otherwise. *)
Theorem exporter_refines now cfgs tr :
  Z.of_nat (length tr) < 2 ^ 64 →
  ∃ e, run (NewNodeExporter now cfgs) tr = Some e ∧
       ∀ t, view e t = spec_view (cfgs !! t) (spec_run tr t).
Proof.
  intros Htr. destruct (run_new now cfgs tr Htr) as (e & He & _ & _ & _ & Hv & _). eauto.
Qed.

Lemma spec_failing tr t r : r ∈ recency (spec_run tr t) ↔ failing tr t r = true.
Proof. apply recency_failing. simpl. split; [intros H; by apply elem_of_nil in H|done]. Qed.

Lemma spec_view_unhealthy cfg s :
  (arrivals s = [] ↔ recency s = []) →
  (∃ r m, spec_view cfg s = Some (ConditionFalse, r, m)) ↔ recency s ≠ [].
Proof.
  unfold spec_view. intros Har.
  destruct (recency s) as [|r rs], (arrivals s) as [|x l]; simpl in *;
    try (by destruct Har as [Ha Hr]; first [by specialize (Ha eq_refl)|by specialize (Hr eq_refl)]).
  - split; [|done]. intros (r & m & H). by destruct cfg, (ever s).
  - split; [done|]. eauto.
Qed.

Lemma recency_failing_any tr t :
  recency (spec_run tr t) ≠ [] ↔ ∃ r, failing tr t r = true.
Proof.
  split.
  - intros Hne. destruct (recency (spec_run tr t)) as [|r rs] eqn:E; [done|].
    exists r. apply spec_failing. rewrite E. by left.
  - intros (r & Hr%spec_failing) Hnil. rewrite Hnil in Hr. by apply elem_of_nil in Hr.
Qed.

(** The exporter shows a type False exactly while the specification has reasons for it. *)
Lemma implements_unhealthy cfgs e s t :
  implements cfgs e s → (∃ c, managedConditions e !! t = Some c ∧ ncStatus c = ConditionFalse) ↔ recency (s t) ≠ [].
Proof.
  intros Himp. rewrite <- (spec_view_unhealthy (cfgs !! t)) by (by eapply implements_recency).
  destruct Himp as (_ & _ & _ & Hv & _). rewrite <- Hv. unfold view. split.
  - intros (c & -> & Hc). simpl. rewrite Hc. eauto.
  - intros (r & m & (c & Hc & [= Hs _ _])%fmap_Some). eauto.
Qed.

(** The unresolved reasons that the exporter holds are those of the specification. *)
Lemma implements_reasons cfgs e s t r :
  implements cfgs e s → r ∈ reason <$> entries_of e t ↔ r ∈ recency (s t).
Proof.
  intros (_ & _ & Hrel & _). destruct (Hrel t) as (_ & _ & _ & sorted & Hp & <- & _). by rewrite Hp.
Qed.

(** A type is reported unhealthy exactly when some reason of that type has been
    reported more recently than it was resolved; resolving another reason, or a
    reason of another type, does not clear it. *)
Theorem unhealthy_iff_failing now cfgs tr t :
  Z.of_nat (length tr) < 2 ^ 64 →
  ∃ e, run (NewNodeExporter now cfgs) tr = Some e ∧
       ((∃ c, managedConditions e !! t = Some c ∧ ncStatus c = ConditionFalse) ↔
        ∃ r, failing tr t r = true).
Proof.
  intros Htr. destruct (run_new now cfgs tr Htr) as (e & He & Himp). exists e. split; [done|].
  rewrite <- recency_failing_any. by apply (implements_unhealthy cfgs).
Qed.

(** After any trace [Resolve] returns without panicking, and its result is true
    exactly when no reason of the type is failing any more. *)
Theorem resolve_returns_healthy now cfgs tr now' c t :
  Z.of_nat (length tr) < 2 ^ 64 →
  ∃ e e' b, run (NewNodeExporter now cfgs) tr = Some e ∧ Resolve e now' c t = Some (e', b) ∧
    (b = true ↔ ∀ r, failing (tr ++ [(now', OpResolve t c)]) t r = false).
Proof.
  intros Htr. destruct (run_new now cfgs tr Htr) as (e & He & Himp).
  destruct (Resolve_implements cfgs e _ now' c t Himp) as (e' & b & Hr & _ & _ & Hb).
  exists e, e', b. split; [done|]. split; [done|]. rewrite Hb.
  assert (Hsp : spec_op (OpResolve t c) (spec_run tr) = spec_run (tr ++ [(now', OpResolve t c)])).
  { unfold spec_run. by rewrite foldl_app. }
  rewrite Hsp. pose proof (recency_failing_any (tr ++ [(now', OpResolve t c)]) t) as Ha. split.
  - intros Hnil r. apply not_true_is_false. intros Hf. by apply Ha; [exists r|].
  - intros Hall. destruct (recency (spec_run _ t)) as [|r rs] eqn:E; [done|].
    destruct Ha as [[r' Hf] _]; [done|]. rewrite Hall in Hf. done.
Qed.

(** A call that changes or refreshes the condition of a type stamps its heartbeat
    with the time of the call, and moves the transition time exactly when the
    status changes: a type that stays unhealthy keeps the time it became so. *)
Theorem transition_only_on_status_change e now o e' t c c' :
  step_op e now o = Some e' →
  managedConditions e !! t = Some c → managedConditions e' !! t = Some c' →
  c' = c ∨
  LastHeartbeatTime c' = now ∧
  LastTransitionTime c' = if decide (ncStatus c = ncStatus c') then LastTransitionTime c else now.
Proof.
  intros Hs Hc Hc'. destruct (step_op_transition _ _ _ _ t Hs c' Hc') as [H|[Hh Hl]].
  - left. congruence.
  - right. split; [done|]. by rewrite Hc in Hl.
Qed.

(** C25. The report is an upsert: the types already on the node keep their places, the
    managed types missing from it are appended in order, every managed condition is
    the first of its type in the result, every other condition is left as it was,
    and reporting the same conditions again changes nothing. *)
Theorem report_upserts conds ms :
  NoDup (ncType <$> ms) →
  ncType <$> merge_conditions conds ms =
    (ncType <$> conds) ++ (ncType <$> filter (λ m, find_type (ncType m) conds = None) ms) ∧
  (∀ m, m ∈ ms → first_condition (ncType m) (merge_conditions conds ms) = Some m) ∧
  (∀ j c, conds !! j = Some c → ncType c ∉ (ncType <$> ms) →
     merge_conditions conds ms !! j = Some c) ∧
  merge_conditions (merge_conditions conds ms) ms = merge_conditions conds ms.
Proof.
  intros Hnd. split_and!; eauto using merge_types, merge_unmanaged, merge_idempotent.
  intros m Hm. destruct (merge_managed conds ms m Hnd Hm) as (i & Hi & Hl).
  unfold first_condition. by rewrite Hi.
Qed.

(** C24. In every state reached by calls, heartbeats, reports whose requests may fail -
    a failed patch may even have been applied - and other clients that leave the
    managed conditions alone, an exporter with nothing left to report agrees with
    the node on every managed condition. *)
Theorem clean_means_published now cfgs node0 e node :
  rtc sys_step (NewNodeExporter now cfgs, node0) (e, node) →
  managedConditionsDirty e = false →
  ∀ t c, managedConditions e !! t = Some c → first_condition t node = Some c.
Proof. intros Hr. by destruct (reachable_published _ _ _ _ Hr) as [_ Hp]. Qed.

(** ** Concrete instances *)

Definition ex_cfgs : gmap NodeConditionType NodeConditionConfig :=
  {[ "KernelReady" := mkNodeConditionConfig "KernelIsReady" "kernel ok" ]}.
Definition ex_cond (r m : string) : Condition := mkCondition r m SeverityFatal 0 false.
Definition ex_trace : list (Time * op) :=
  [(10, OpFatal "KernelReady" (ex_cond "ForkFailed" "no pids"));
   (20, OpFatal "KernelReady" (ex_cond "SoftLockup" "cpu stuck"));
   (30, OpFatal "KernelReady" (ex_cond "ForkFailed" "no memory"));
   (40, OpResolve "KernelReady" (ex_cond "Other" EmptyString))].
Definition ex_node : list NodeCondition :=
  [mkNodeCondition "Ready" ConditionTrue "KubeletReady" "ok" 1 1;
   mkNodeCondition "KernelReady" ConditionTrue "KernelIsReady" "kernel ok" 1 1].
Definition ex_managed : list NodeCondition :=
  [mkNodeCondition "StorageReady" ConditionTrue "DiskIsReady" "ok" 5 5;
   mkNodeCondition "KernelReady" ConditionFalse "ForkFailed" "no pids" 5 5].

Lemma exporter_refines_witness :
  Z.of_nat (length ex_trace) < 2 ^ 64 ∧
  ∃ e, run (NewNodeExporter 0 ex_cfgs) ex_trace = Some e ∧
       view e "KernelReady" = Some (ConditionFalse, "ForkFailed", "no memory; cpu stuck").
Proof.
  split; [reflexivity|]. destruct (exporter_refines 0 ex_cfgs ex_trace) as (e & He & Hv); [reflexivity|].
  exists e. split; [exact He|]. rewrite Hv. reflexivity.
Defined.

Lemma unhealthy_iff_failing_witness :
  Z.of_nat (length ex_trace) < 2 ^ 64 ∧
  ∃ e, run (NewNodeExporter 0 ex_cfgs) ex_trace = Some e ∧
       ∃ c, managedConditions e !! "KernelReady" = Some c ∧ ncStatus c = ConditionFalse.
Proof.
  split; [reflexivity|].
  destruct (unhealthy_iff_failing 0 ex_cfgs ex_trace "KernelReady") as (e & He & Hv); [reflexivity|].
  exists e. split; [exact He|]. apply Hv. exists "SoftLockup". reflexivity.
Defined.

Lemma resolve_returns_healthy_witness :
  Z.of_nat (length (take 1 ex_trace)) < 2 ^ 64 ∧
  ∃ e e' b, run (NewNodeExporter 0 ex_cfgs) (take 1 ex_trace) = Some e ∧
    Resolve e 50 (ex_cond "ForkFailed" EmptyString) "KernelReady" = Some (e', b) ∧
    (b = true ↔ ∀ r, failing (take 1 ex_trace ++
       [(50, OpResolve "KernelReady" (ex_cond "ForkFailed" EmptyString))]) "KernelReady" r = false).
Proof. split; [reflexivity|]. apply resolve_returns_healthy. reflexivity. Defined.

Lemma transition_only_on_status_change_witness :
  ∃ e e' c c',
    step_op e 20 (OpFatal "KernelReady" (ex_cond "SoftLockup" "cpu stuck")) = Some e' ∧
    managedConditions e !! "KernelReady" = Some c ∧
    managedConditions e' !! "KernelReady" = Some c' ∧
    (c' = c ∨ LastHeartbeatTime c' = 20 ∧
     LastTransitionTime c' =
       if decide (ncStatus c = ncStatus c') then LastTransitionTime c else 20).
Proof.
  exists (NewNodeExporter 0 ex_cfgs). eexists _, _, _. repeat split.
  eapply (transition_only_on_status_change (NewNodeExporter 0 ex_cfgs) 20
    (OpFatal "KernelReady" (ex_cond "SoftLockup" "cpu stuck")) _ "KernelReady"); reflexivity.
Defined.

Lemma report_upserts_witness :
  NoDup (ncType <$> ex_managed) ∧
  ncType <$> merge_conditions ex_node ex_managed = ["Ready"; "KernelReady"; "StorageReady"] ∧
  merge_conditions ex_node ex_managed !! 0%nat = ex_node !! 0%nat.
Proof.
  assert (Hnd : NoDup (ncType <$> ex_managed)) by (by apply (bool_decide_unpack _)).
  split; [done|]. destruct (report_upserts ex_node ex_managed Hnd) as (Ht & _ & Hu & _).
  split; [rewrite Ht; reflexivity|]. apply Hu; [reflexivity|]. by apply (bool_decide_unpack _).
Defined.

Lemma clean_means_published_witness :
  let e0 := NewNodeExporter 5 ex_cfgs in
  let e1 := set_managed e0 (managedConditions e0) false in
  let node := merge_conditions ex_node (managed_values e0) in
  rtc sys_step (e0, ex_node) (e1, node) ∧
  first_condition "KernelReady" node =
    Some (mkNodeCondition "KernelReady" ConditionTrue "KernelIsReady" "kernel ok" 5 5).
Proof.
  intros e0 e1 node.
  assert (Hr : rtc sys_step (e0, ex_node) (e1, node)).
  { apply rtc_once. eapply (SReport e0 ex_node (managed_values e0) unit (Ok ex_node) (λ _, Ok tt));
      [reflexivity|by left|reflexivity|]. right. eexists. split; [reflexivity|by left]. }
  split; [exact Hr|].
  apply (clean_means_published 5 ex_cfgs ex_node e1 node Hr); reflexivity.
Defined.
