(* ===== verification/Manager.v ===== *)
(** * Manager: from monitors to the exporter ([pkg/manager/manager.go],
    [pkg/manager/exporter.go]).

    Monitors hand conditions to the manager, by notifying or by being polled; the
    manager counts the occurrences of each reason and routes a condition to the
    exporter by its severity.  All of it runs in one loop, so the events of a run
    are a sequence.  The manager only knows the [Exporter] interface; the theorems
    about health use the interface's laws, which the node exporter satisfies. *)

From S2P Require Import Prelude GoStrings Monitor Observer Exporter ExporterSpec.

(** ** The Exporter interface *)

(** A call returns the exporter and an error, or panics ([None]). *)
Abbreviation call X A := (option (X * result string A)).

Class ExporterOps (X : Type) := {
  ex_Info : X → Time → Condition → NodeConditionType → call X unit;
  ex_Warning : X → Time → Condition → NodeConditionType → call X unit;
  ex_Fatal : X → Time → Condition → NodeConditionType → call X unit;
  ex_Resolve : X → Time → Condition → NodeConditionType → call X bool
}.

(** What the manager relies on.  [unhealthy x t] is that the exporter shows type
    [t] as failing; [ex_ok] is the exporter's own invariant.  A call that fails
    leaves the health as it was. *)
Class ExporterLaws (X : Type) `{ExporterOps X} := {
  ex_ok : X → Prop;
  unhealthy : X → NodeConditionType → Prop;
  law_Info : ∀ x now c t, ex_ok x →
    ∃ x' r, ex_Info x now c t = Some (x', r) ∧ ex_ok x' ∧ ∀ t', unhealthy x' t' ↔ unhealthy x t';
  law_Warning : ∀ x now c t, ex_ok x →
    ∃ x' r, ex_Warning x now c t = Some (x', r) ∧ ex_ok x' ∧
            ∀ t', unhealthy x' t' ↔ unhealthy x t';
  law_Fatal : ∀ x now c t, ex_ok x →
    ∃ x' r, ex_Fatal x now c t = Some (x', r) ∧ ex_ok x' ∧
            ∀ t', unhealthy x' t' ↔ (is_ok r = true ∧ t' = t) ∨ unhealthy x t';
  law_Resolve : ∀ x now c t, ex_ok x →
    ∃ x' r, ex_Resolve x now c t = Some (x', r) ∧ ex_ok x' ∧
            (∀ t', t' ≠ t → unhealthy x' t' ↔ unhealthy x t') ∧
            match r with
            | Ok true => ¬ unhealthy x' t
            | Ok false => unhealthy x' t ∧ unhealthy x t
            | Err _ => unhealthy x' t ↔ unhealthy x t
            end
}.

(** ** The node exporter is an Exporter *)

#[export] Instance nodeExporter_ops : ExporterOps nodeExporter := {
  ex_Info := λ e _ c t, Some (Info e c t, Ok tt);
  ex_Warning := λ e _ c t, Some (Warning e c t, Ok tt);
  ex_Fatal := λ e now c t, e' ← Fatal e now c t; Some (e', Ok tt);
  ex_Resolve := λ e now c t, r ← Resolve e now c t; Some (r.1, Ok r.2)
}.

Definition shows_false (e : nodeExporter) (t : NodeConditionType) : Prop :=
  ∃ c, managedConditions e !! t = Some c ∧ ncStatus c = ConditionFalse.

(** The condition of a type is False exactly while it has unresolved entries. *)
Definition health_ok (e : nodeExporter) : Prop :=
  ∀ t, shows_false e t ↔ entries_of e t ≠ [].

Lemma shows_false_insert e e' t t' c :
  managedConditions e' = <[t := c]> (managedConditions e) →
  shows_false e' t' ↔ if decide (t' = t) then ncStatus c = ConditionFalse else shows_false e t'.
Proof.
  intros He. unfold shows_false. rewrite He. destruct (decide (t' = t)) as [->|Ht].
  - rewrite lookup_insert_eq. split; [by intros (? & [= ->] & ?)|eauto].
  - by rewrite lookup_insert_ne.
Qed.

Lemma rebuild_health e now t :
  entries_of e t ≠ [] → (∀ t', t' ≠ t → shows_false e t' ↔ entries_of e t' ≠ []) →
  ∃ e', rebuildFatalCondition e now t = Some e' ∧ health_ok e' ∧
        fatalEntries e' = fatalEntries e.
Proof.
  intros Hne Hh. unfold rebuildFatalCondition. destruct (entries_of e t) as [|x l] eqn:E; [done|].
  eexists. split; [done|]. split; [|done]. intros t'.
  rewrite (shows_false_insert e _ t t') by done.
  rewrite (entries_of_eq e (set_managed e _ _)) by done.
  destruct (decide (t' = t)) as [->|Ht]; simpl; [by rewrite E|auto].
Qed.

Lemma touch_entry_ne r m seq l l' : touch_entry r m seq l = Some l' → l' ≠ [].
Proof. intros (pre & x & post & _ & _ & _ & ->)%touch_entry_Some H. by destruct pre. Qed.

Lemma Fatal_health e now c t :
  health_ok e →
  ∃ e', Fatal e now c t = Some e' ∧ health_ok e' ∧
        ∀ t', shows_false e' t' ↔ t' = t ∨ shows_false e t'.
Proof.
  intros Hh. unfold Fatal.
  set (es := match touch_entry _ _ _ _ with Some u => u | None => _ end).
  set (e1 := set_entries e _ _).
  assert (Hes : es ≠ []).
  { unfold es. destruct (touch_entry _ _ _ _) eqn:E; [by eapply touch_entry_ne|].
    by destruct (entries_of e t). }
  assert (Ht : entries_of e1 t = es)
    by (unfold e1; by rewrite entries_of_insert, decide_True).
  assert (Hne : ∀ t', t' ≠ t → entries_of e1 t' = entries_of e t')
    by (intros t' ?; unfold e1; by rewrite entries_of_insert, decide_False).
  destruct (rebuild_health e1 now t) as (e' & He' & Hh' & Hf).
  { by rewrite Ht. }
  { intros t' Ht'. rewrite Hne by done. apply Hh. }
  exists e'. split; [done|]. split; [done|]. intros t'. rewrite (Hh' t'), (entries_of_eq e1 e') by done.
  destruct (decide (t' = t)) as [->|Ht']; [rewrite Ht; tauto|].
  rewrite Hne, (Hh t') by done. tauto.
Qed.

Lemma Resolve_health e now c t :
  health_ok e →
  ∃ e' b, Resolve e now c t = Some (e', b) ∧ health_ok e' ∧
    (∀ t', t' ≠ t → shows_false e' t' ↔ shows_false e t') ∧
    if b then ¬ shows_false e' t else shows_false e' t ∧ shows_false e t.
Proof.
  intros Hh. unfold Resolve. destruct (remove_entry _ _) as [[|x es]|] eqn:E.
  - eexists _, true. split; [done|]. set (e' := set_managed _ _ _).
    assert (Hsf : ∀ t', shows_false e' t' ↔ if decide (t' = t) then False else shows_false e t').
    { intros t'. etrans; [by apply (shows_false_insert e _ t)|]. by destruct (decide _). }
    split; [|split].
    + intros t'. rewrite Hsf. unfold entries_of; simpl. destruct (decide (t' = t)) as [->|Ht'].
      * rewrite lookup_insert_eq. simpl. tauto.
      * rewrite lookup_insert_ne by done. apply Hh.
    + intros t' Ht'. by rewrite Hsf, decide_False.
    + rewrite Hsf. by destruct (decide (t = t)); [intros []|].
  - set (e1 := record_event _ _).
    assert (Ht : entries_of e1 t = x :: es)
      by (unfold entries_of, e1; simpl; by rewrite lookup_insert_eq).
    assert (Hne : ∀ t', t' ≠ t → entries_of e1 t' = entries_of e t')
      by (intros t' ?; unfold entries_of, e1; simpl; by rewrite lookup_insert_ne).
    destruct (rebuild_health e1 now t) as (e' & -> & Hh' & Hf).
    { by rewrite Ht. }
    { intros t' Ht'. rewrite Hne by done. apply Hh. }
    exists e', false. split; [done|]. split; [done|]. split.
    + intros t' Ht'. rewrite (Hh' t'), (Hh t'), (entries_of_eq e1 e') by done. by rewrite Hne.
    + rewrite (Hh' t), (Hh t), (entries_of_eq e1 e') by done. rewrite Ht. split; [done|].
      intros Hn. rewrite Hn in E. discriminate E.
  - exists e, (match entries_of e t with [] => true | _ => false end).
    split; [done|]. split; [done|]. split; [done|]. destruct (entries_of e t) eqn:Et.
    + rewrite (Hh t), Et. intros Hn. by apply Hn.
    + by rewrite (Hh t), Et; split.
Qed.

Lemma nodeExporter_Fatal_law e now c t :
  health_ok e →
  ∃ e' (r : result string unit), ex_Fatal e now c t = Some (e', r) ∧ health_ok e' ∧
    ∀ t', shows_false e' t' ↔ (is_ok r = true ∧ t' = t) ∨ shows_false e t'.
Proof.
  intros He. destruct (Fatal_health e now c t He) as (e' & He' & Hh & Hs).
  exists e', (Ok tt). simpl. rewrite He'. split; [done|]. split; [done|].
  intros t'. rewrite Hs. naive_solver.
Qed.

Lemma nodeExporter_Resolve_law e now c t :
  health_ok e →
  ∃ e' (r : result string bool), ex_Resolve e now c t = Some (e', r) ∧ health_ok e' ∧
    (∀ t', t' ≠ t → shows_false e' t' ↔ shows_false e t') ∧
    match r with
    | Ok true => ¬ shows_false e' t
    | Ok false => shows_false e' t ∧ shows_false e t
    | Err _ => shows_false e' t ↔ shows_false e t
    end.
Proof.
  intros He. destruct (Resolve_health e now c t He) as (e' & b & He' & Hh & Hs & Hb).
  exists e', (Ok b). simpl. rewrite He'. auto.
Qed.

Lemma nodeExporter_Event_law (f : nodeExporter → nodeExporter) e :
  (managedConditions (f e), fatalEntries (f e)) = (managedConditions e, fatalEntries e) →
  health_ok e →
  ∃ e' (r : result string unit), Some (f e, Ok tt) = Some (e', r) ∧ health_ok e' ∧
    ∀ t', shows_false e' t' ↔ shows_false e t'.
Proof.
  intros [= Hm Hf] He. exists (f e), (Ok tt). split; [done|].
  assert (Hs : ∀ t', shows_false (f e) t' ↔ shows_false e t')
    by (intros t'; unfold shows_false; by rewrite Hm).
  split; [|done]. intros t'. rewrite Hs, (He t'), (entries_of_eq e (f e)); done.
Qed.

#[export] Instance nodeExporter_laws : ExporterLaws nodeExporter := {
  ex_ok := health_ok;
  unhealthy := shows_false;
  law_Info e _ c t := nodeExporter_Event_law (λ e, Info e c t) e eq_refl;
  law_Warning e _ c t := nodeExporter_Event_law (λ e, Warning e c t) e eq_refl;
  law_Fatal := nodeExporter_Fatal_law;
  law_Resolve := nodeExporter_Resolve_law
}.

Lemma new_health_ok now cfgs : health_ok (NewNodeExporter now cfgs).
Proof.
  intros t. unfold shows_false, entries_of; simpl. unfold initializeManagedConditions.
  rewrite lookup_empty, map_lookup_imap. simpl. split; [|done].
  intros (c & Hc & Hs). destruct (cfgs !! t); simpl in *; [|done]. by injection Hc as <-.
Qed.

(** ** The manager *)

(** A notification waits in the manager's channel. *)
Record notification := mkNotification { monitorName : string; condition : Condition }.

Definition notifyCap : nat := 100.

Inductive ManagerError :=
| MissingConditionType (monitor : string)
| InvalidConditionSeverity (s : Severity)
| ExporterError (err : string).

Section Manager.
Context {X : Type} `{ExporterOps X}.

(** [conditionCount] and [conditionTypeGauge] are the Prometheus metrics, by
    severity and reason and by condition type.  [Mon] is a monitor: what the
    manager asks it for is its conditions, which may change over time, so they
    come with the poll. *)
Record MonitorManager := mkMonitorManager {
  monitors : gset string;
  conditionTypeMap : gmap string NodeConditionType;
  conditionCountMap : gmap string Z;
  observers : gmap string (ObserverKind * BaseObserver);
  notifyChan : list notification;
  exporter : X;
  conditionCount : gmap (string * string) Z;
  conditionTypeGauge : gmap NodeConditionType Z
}.

Definition NewMonitorManager (x : X) : MonitorManager :=
  mkMonitorManager ∅ ∅ ∅ ∅ [] x ∅ ∅.

Definition set_types (m : MonitorManager) mons types : MonitorManager :=
  mkMonitorManager mons types (conditionCountMap m) (observers m) (notifyChan m)
    (exporter m) (conditionCount m) (conditionTypeGauge m).
Definition set_count (m : MonitorManager) (r : string) (n : Z) : MonitorManager :=
  mkMonitorManager (monitors m) (conditionTypeMap m) (<[r := n]> (conditionCountMap m))
    (observers m) (notifyChan m) (exporter m) (conditionCount m) (conditionTypeGauge m).
Definition set_exporter (m : MonitorManager) (x : X) : MonitorManager :=
  mkMonitorManager (monitors m) (conditionTypeMap m) (conditionCountMap m) (observers m)
    (notifyChan m) x (conditionCount m) (conditionTypeGauge m).
Definition set_gauge (m : MonitorManager) (t : NodeConditionType) (v : Z) : MonitorManager :=
  mkMonitorManager (monitors m) (conditionTypeMap m) (conditionCountMap m) (observers m)
    (notifyChan m) (exporter m) (conditionCount m) (<[t := v]> (conditionTypeGauge m)).
Definition set_chan (m : MonitorManager) (ch : list notification) : MonitorManager :=
  mkMonitorManager (monitors m) (conditionTypeMap m) (conditionCountMap m) (observers m)
    ch (exporter m) (conditionCount m) (conditionTypeGauge m).
Definition set_observers (m : MonitorManager) obs : MonitorManager :=
  mkMonitorManager (monitors m) (conditionTypeMap m) (conditionCountMap m) obs
    (notifyChan m) (exporter m) (conditionCount m) (conditionTypeGauge m).

(** The occurrences counted for a reason; a key that is missing reads as 0. *)
Definition occurrences (m : MonitorManager) (r : string) : Z :=
  default 0 (conditionCountMap m !! r).

Definition count_condition (m : MonitorManager) (c : Condition) : MonitorManager :=
  let key := (CondSeverity c, Reason c) in
  mkMonitorManager (monitors m) (conditionTypeMap m) (conditionCountMap m) (observers m)
    (notifyChan m) (exporter m)
    (<[key := default 0 (conditionCount m !! key) + 1]> (conditionCount m))
    (conditionTypeGauge m).

(** [Register]: the monitor's own [Register] is the code of the monitor, which
    subscribes through the manager and may fail. *)
Definition Register (m : MonitorManager) (name : string) (conditionType : NodeConditionType)
    (mon_register : MonitorManager → MonitorManager * result string unit)
    : MonitorManager * result string unit :=
  mon_register (set_types m ({[ name ]} ∪ monitors m)
                  (<[name := conditionType]> (conditionTypeMap m))).

(** The loop over the registered types in [SendCondition]. *)
Definition raise_gauges (m : MonitorManager) (conditionType : NodeConditionType)
    : MonitorManager :=
  foldl (λ m' cType, if String.eqb conditionType cType then set_gauge m' cType 1 else m') m
    (map_to_list (conditionTypeMap m)).*2.

Definition SendCondition (m : MonitorManager) (now : Time) (c : Condition)
    (conditionType : NodeConditionType) : option (MonitorManager * result ManagerError unit) :=
  let sent m' r :=
    '(x, res) ← r;
    Some (set_exporter m' x, match res with Ok _ => Ok tt | Err e => Err (ExporterError e) end) in
  if String.eqb (CondSeverity c) SeverityInfo then
    sent m (ex_Info (exporter m) now c conditionType)
  else if String.eqb (CondSeverity c) SeverityWarning then
    sent m (ex_Warning (exporter m) now c conditionType)
  else if String.eqb (CondSeverity c) SeverityFatal then
    let m' := raise_gauges m conditionType in
    sent m' (ex_Fatal (exporter m') now c conditionType)
  else Some (m, Err (InvalidConditionSeverity (CondSeverity c))).

Definition exportCondition (m : MonitorManager) (now : Time) (name : string) (c : Condition)
    : option (MonitorManager * result ManagerError unit) :=
  match conditionTypeMap m !! name with
  | None => Some (m, Err (MissingConditionType name))
  | Some conditionType =>
      if Resolved c && String.eqb (CondSeverity c) SeverityFatal then
        let m := set_count m (Reason c) 0 in
        '(x, r) ← ex_Resolve (exporter m) now c conditionType;
        let m := set_exporter m x in
        Some match r with
             | Err err => (m, Err (ExporterError err))
             | Ok recovered =>
                 (if recovered : bool then set_gauge m conditionType 0 else m, Ok tt)
             end
      else
        let m := count_condition m c in
        if occurrences m (Reason c) <? MinOccurrences c then
          Some (set_count m (Reason c) (i64 (occurrences m (Reason c) + 1)), Ok tt)
        else SendCondition (set_count m (Reason c) 0) now c conditionType
  end.

(** The loop of a poll: the conditions of the monitors, in the order the map and
    the monitors give them; an error is logged and the loop goes on. *)
Fixpoint export_all (m : MonitorManager) (now : Time) (cs : list (string * Condition))
    : option MonitorManager :=
  match cs with
  | [] => Some m
  | (name, c) :: cs' => '(m', _) ← exportCondition m now name c; export_all m' now cs'
  end.

(** [Notify]: enabled while the channel has room; the caller waits otherwise, or
    returns when its context ends. *)
Definition Notify (m : MonitorManager) (name : string) (c : Condition)
    : option MonitorManager :=
  if (length (notifyChan m) <? notifyCap)%nat
  then Some (set_chan m (notifyChan m ++ [mkNotification name c])) else None.

(** The events of [runLoop], with the notifications of the monitors between them. *)
Inductive event :=
| EvNotify (name : string) (c : Condition)
| EvLoop
| EvPoll (conditions : list (string * Condition)).

(** One event; an event that is not enabled leaves the state as it is, [None] is a panic. *)
Definition run_event (m : MonitorManager) (now : Time) (ev : event) : option MonitorManager :=
  match ev with
  | EvNotify name c => Some (default m (Notify m name c))
  | EvLoop =>
      match notifyChan m with
      | [] => Some m
      | notif :: rest =>
          '(m', _) ← exportCondition (set_chan m rest) now (monitorName notif) (condition notif);
          Some m'
      end
  | EvPoll cs => export_all m now cs
  end.

Fixpoint runLoop (m : MonitorManager) (evs : list (Time * event)) : option MonitorManager :=
  match evs with
  | [] => Some m
  | (now, ev) :: evs' => m' ← run_event m now ev; runLoop m' evs'
  end.

(** *** Subscriptions *)

Definition resourceID (rType : ResourceType) (rParts : list Part) : string :=
  foldl (λ id part, id +:+ "-" +:+ part) rType rParts.

(** Returns the observer's key and the index of the new channel in it. *)
Definition SubscribeResource (kmsg : string) (m : MonitorManager) (rType : ResourceType)
    (rParts : list Part) : MonitorManager * result SubscribeError (string * nat) :=
  let rID := resourceID rType rParts in
  let attach k o := let '(o', i) := Subscribe o in
                    (set_observers m (<[rID := (k, o')]> (observers m)), Ok (rID, i)) in
  match observers m !! rID with
  | Some (k, o) => attach k o
  | None =>
      match construct kmsg rType rParts with
      | Err err => (m, Err err)
      | Ok k => attach k (mkBaseObserver [])
      end
  end.
End Manager.
Arguments MonitorManager X : clear implicits.

(** ** Health metrics *)

Section Gauges.
Context {X : Type} `{ExporterLaws X}.

Definition gauge_of (m : MonitorManager X) (t : NodeConditionType) : Z :=
  default 0 (conditionTypeGauge m !! t).

(** The gauge of every failing type is 1; with [exact], only of those. *)
Definition mgr_ok (exact : Prop) (m : MonitorManager X) : Prop :=
  ex_ok (exporter m) ∧ ∀ t, (unhealthy (exporter m) t → gauge_of m t = 1) ∧
                            (exact → gauge_of m t = 1 → unhealthy (exporter m) t).

(** The exporter's [Fatal] does not fail. *)
Definition fatal_total : Prop :=
  ∀ x now c t x' r, ex_Fatal x now c t = Some (x', r) → is_ok r = true.

Lemma raise_gauges_keeps (m : MonitorManager X) t :
  exporter (raise_gauges m t) = exporter m ∧
  ∀ t', gauge_of (raise_gauges m t) t' =
    if decide (t' = t ∧ t ∈ (map_to_list (conditionTypeMap m)).*2) then 1 else gauge_of m t'.
Proof.
  unfold raise_gauges. generalize ((map_to_list (conditionTypeMap m)).*2) as l.
  induction l as [|cType l [IH1 IH2]] using rev_ind.
  - split; [done|]. intros t'. rewrite decide_False; [done|].
    intros [_ Hn]. by apply elem_of_nil in Hn.
  - rewrite foldl_app. simpl. destruct (String.eqb_spec t cType) as [<-|Hne].
    + split; [done|]. intros t'. unfold gauge_of; simpl.
      destruct (decide (t' = t)) as [->|Ht'].
      * rewrite lookup_insert_eq, decide_True; [done|]. split; [done|].
        apply elem_of_app. right. by left.
      * rewrite lookup_insert_ne by done. specialize (IH2 t'). unfold gauge_of in IH2.
        by rewrite IH2, !decide_False by tauto.
    + split; [done|]. intros t'. rewrite IH2.
      destruct (decide (t' = t ∧ t ∈ l)), (decide (t' = t ∧ t ∈ l ++ [cType])); try done;
        exfalso; rewrite elem_of_app, list_elem_of_singleton in *; naive_solver.
Qed.

Lemma mgr_ok_same exact (m m' : MonitorManager X) :
  (∀ t, gauge_of m' t = gauge_of m t) → ex_ok (exporter m') →
  (∀ t, unhealthy (exporter m') t ↔ unhealthy (exporter m) t) →
  mgr_ok exact m → mgr_ok exact m'.
Proof.
  intros Hg Hx Hu [_ Hm]. split; [done|]. intros t. rewrite Hg, Hu. apply Hm.
Qed.

Lemma SendCondition_ok exact (m : MonitorManager X) now c t name :
  (exact → fatal_total) → mgr_ok exact m → conditionTypeMap m !! name = Some t →
  ∃ m' r, SendCondition m now c t = Some (m', r) ∧ mgr_ok exact m' ∧
          conditionTypeMap m' = conditionTypeMap m.
Proof.
  intros Hex Hm Hname. pose proof Hm as [Hx Hg]. unfold SendCondition.
  destruct (String.eqb _ SeverityInfo); [|destruct (String.eqb _ SeverityWarning);
    [|destruct (String.eqb _ SeverityFatal); [|by eauto]]].
  - destruct (law_Info (exporter m) now c t Hx) as (x' & r & -> & Hx' & Hu).
    eexists _, _. split; [done|]. split; [|done]. by eapply (mgr_ok_same _ m).
  - destruct (law_Warning (exporter m) now c t Hx) as (x' & r & -> & Hx' & Hu).
    eexists _, _. split; [done|]. split; [|done]. by eapply (mgr_ok_same _ m).
  - destruct (raise_gauges_keeps m t) as [He Hr]. rewrite He.
    assert (Ht : t ∈ (map_to_list (conditionTypeMap m)).*2).
    { apply list_elem_of_fmap. exists (name, t). split; [done|]. by apply elem_of_map_to_list. }
    destruct (law_Fatal (exporter m) now c t Hx) as (x' & r & Hf & Hx' & Hu). rewrite Hf.
    eexists _, _. split; [done|]. split.
    + split; [done|]. intros t'. rewrite Hu.
      change (gauge_of (set_exporter _ x') t') with (gauge_of (raise_gauges m t) t').
      rewrite Hr. destruct (decide (t' = t ∧ _)) as [[-> _]|Hne].
      * split; [done|]. intros He'. left. split; [by eapply Hex|done].
      * destruct (Hg t') as [Hg1 Hg2]. split; [intros [[_ ->]|Hu']; [tauto|auto]|auto].
    + clear. simpl. unfold raise_gauges.
      generalize ((map_to_list (conditionTypeMap m)).*2) as l.
      induction l as [|a l IH] using rev_ind; [done|].
      rewrite foldl_app. simpl. by destruct (String.eqb t a).
Qed.

Lemma exportCondition_ok exact (m : MonitorManager X) now name c :
  (exact → fatal_total) → mgr_ok exact m →
  ∃ m' r, exportCondition m now name c = Some (m', r) ∧ mgr_ok exact m'.
Proof.
  intros Hex Hm. unfold exportCondition.
  destruct (conditionTypeMap m !! name) as [t|] eqn:Hname; [|by eauto].
  destruct (Resolved c && _).
  - set (m1 := set_count m _ 0). assert (Hm1 : mgr_ok exact m1) by exact Hm.
    destruct Hm1 as [Hx Hg].
    destruct (law_Resolve (exporter m1) now c t Hx) as (x' & r & -> & Hx' & Hu & Hr).
    simpl. destruct r as [[]|err]; (eexists _, _; split; [done|]); (split; [done|]).
    + intros t'. change (exporter (set_gauge (set_exporter m1 x') t 0)) with x'.
      unfold gauge_of; simpl. destruct (decide (t' = t)) as [->|Ht'].
      * rewrite lookup_insert_eq. simpl. split; [done|lia].
      * rewrite lookup_insert_ne by done. rewrite Hu by done. apply (Hg t').
    + intros t'. destruct (decide (t' = t)) as [->|Ht']; [|simpl; rewrite Hu by done; apply (Hg t')].
      destruct (Hg t) as [Hg1 Hg2]. destruct Hr as [Hr1 Hr2]. simpl. auto.
    + intros t'. destruct (decide (t' = t)) as [->|Ht']; simpl; [rewrite Hr|rewrite Hu by done];
        apply (Hg _).
  - set (m1 := count_condition m c). assert (Hm1 : mgr_ok exact m1) by exact Hm.
    destruct (_ <? _).
    + eexists _, _. split; [done|]. exact Hm.
    + destruct (SendCondition_ok exact (set_count m1 (Reason c) 0) now c t name)
        as (m' & r & -> & Hok & _); eauto.
Qed.

Lemma export_all_ok exact now cs (m : MonitorManager X) :
  (exact → fatal_total) → mgr_ok exact m →
  ∃ m', export_all m now cs = Some m' ∧ mgr_ok exact m'.
Proof.
  intros Hex. revert m. induction cs as [|[name c] cs IH]; intros m Hm; simpl; [eauto|].
  destruct (exportCondition_ok exact m now name c Hex Hm) as (m' & r & -> & Hm'). simpl. auto.
Qed.

Lemma runLoop_ok exact evs (m : MonitorManager X) :
  (exact → fatal_total) → mgr_ok exact m →
  ∃ m', runLoop m evs = Some m' ∧ mgr_ok exact m'.
Proof.
  intros Hex. revert m. induction evs as [|[now ev] evs IH]; intros m Hm; simpl; [eauto|].
  assert (∃ m', run_event m now ev = Some m' ∧ mgr_ok exact m') as (m' & -> & Hm').
  { destruct ev as [name c| |cs]; simpl.
    - unfold Notify. destruct (_ <? _)%nat; simpl; eauto.
    - destruct (notifyChan m) as [|n rest]; [eauto|].
      destruct (exportCondition_ok exact (set_chan m rest) now (monitorName n) (condition n) Hex Hm)
        as (m' & r & -> & Hm'). simpl. eauto.
    - by apply export_all_ok. }
  simpl. auto.
Qed.

(** The channel never holds more than its capacity. *)
Lemma Notify_bound (m m' : MonitorManager X) name c :
  Notify m name c = Some m' → (length (notifyChan m') ≤ notifyCap)%nat.
Proof.
  unfold Notify. destruct (_ <? _)%nat eqn:E; [|done]. intros [= <-]. simpl.
  apply Nat.ltb_lt in E. rewrite length_app. simpl. lia.
Qed.
End Gauges.

(** With the interface's laws alone: whatever monitors notify or return when
    polled, and whether or not the exporter's calls fail, the loop does not panic
    and the gauge of every condition type the exporter shows as failing is 1. *)
Theorem gauge_covers_health {X} `{ExporterLaws X} (x : X) evs :
  ex_ok x → (∀ t, ¬ unhealthy x t) →
  ∃ m, runLoop (NewMonitorManager x) evs = Some m ∧ ex_ok (exporter m) ∧
       ∀ t, unhealthy (exporter m) t → gauge_of m t = 1.
Proof.
  intros Hx Hh. destruct (runLoop_ok False evs (NewMonitorManager x)) as (m & Hm & Hok & Hg).
  - done.
  - split; [done|]. intros t. split; [intros Hu; by apply Hh in Hu|done].
  - exists m. split; [done|]. split; [done|]. intros t. apply Hg.
Qed.

Lemma nodeExporter_fatal_total : fatal_total (X := nodeExporter).
Proof. intros e now c t e' r. simpl. by intros (e1 & _ & [= _ <-])%bind_Some. Qed.

(** ** Occurrence counting *)

Section Occurrences.
Context {X : Type} `{ExporterOps X}.

Definition gated (c : Condition) : bool :=
  negb (Resolved c && String.eqb (CondSeverity c) SeverityFatal).

Lemma occurrences_set_count (m : MonitorManager X) r n : occurrences (set_count m r n) r = n.
Proof. unfold occurrences; simpl. by rewrite lookup_insert_eq. Qed.

(** One report of a condition: withheld below the minimum, sent at it. *)
Lemma exportCondition_gate (m : MonitorManager X) now name t c :
  gated c = true → conditionTypeMap m !! name = Some t →
  let m1 := count_condition m c in
  exportCondition m now name c =
    if occurrences m (Reason c) <? MinOccurrences c
    then Some (set_count m1 (Reason c) (i64 (occurrences m (Reason c) + 1)), Ok tt)
    else SendCondition (set_count m1 (Reason c) 0) now c t.
Proof.
  unfold gated. intros Hg Ht. apply negb_true_iff in Hg. unfold exportCondition.
  by rewrite Ht, Hg.
Qed.
End Occurrences.

(** The exporter's events after [k] reports of a warning in a row. *)
Lemma min_occurrences_steps n (m : MonitorManager nodeExporter) now name t c k :
  CondSeverity c = SeverityWarning → MinOccurrences c = n → 0 ≤ n < 2 ^ 63 →
  conditionTypeMap m !! name = Some t → occurrences m (Reason c) = 0 →
  ∃ m', export_all m now (replicate k (name, c)) = Some m' ∧
    conditionTypeMap m' !! name = Some t ∧
    occurrences m' (Reason c) = Z.of_nat k mod (n + 1) ∧
    recorded (exporter m') =
      recorded (exporter m) ++
        replicate (Z.to_nat (Z.of_nat k / (n + 1)))
          (mkEvent EventTypeWarning t (Reason c +:+ ": " +:+ Message c)).
Proof.
  intros Hsev Hn Hrange Ht H0.
  assert (Hg : gated c = true) by (unfold gated; rewrite Hsev; by destruct (Resolved c)).
  assert (Hsnoc : ∀ l m x, export_all m now (l ++ [x]) =
    m' ← export_all m now l; '(m'', _) ← exportCondition m' now x.1 x.2;
    Some (m'' : MonitorManager nodeExporter)).
  { intros l. induction l as [|[nm c'] l IH]; intros m0 [nm' c'']; simpl.
    - by destruct (exportCondition _ _ _ _) as [[? ?]|].
    - destruct (exportCondition _ _ _ _) as [[? ?]|]; simpl; [apply IH|done]. }
  induction k as [|k (m1 & He & Ht1 & Ho & Hr)].
  - exists m. rewrite Z.mod_0_l, Z.div_0_l by lia. simpl. by rewrite app_nil_r.
  - rewrite replicate_S_end, Hsnoc, He. simpl.
    rewrite (exportCondition_gate m1 now name t c Hg Ht1), Hn.
    pose proof (Z.mod_pos_bound (Z.of_nat k) (n + 1) ltac:(lia)) as Hb.
    pose proof (Z.div_mod (Z.of_nat k) (n + 1) ltac:(lia)) as Hd.
    rewrite Nat2Z.inj_succ. destruct (Z.ltb_spec (occurrences m1 (Reason c)) n) as [Hlt|Hge].
    + eexists. split; [done|]. split; [done|]. rewrite occurrences_set_count.
      rewrite i64_small by (unfold is_i64; lia). simpl. rewrite Hr.
      rewrite <- (Z.mod_unique (Z.succ (Z.of_nat k)) (n + 1) (Z.of_nat k / (n + 1))
        (Z.of_nat k mod (n + 1) + 1)) by lia.
      rewrite <- (Z.div_unique (Z.succ (Z.of_nat k)) (n + 1) (Z.of_nat k / (n + 1))
        (Z.of_nat k mod (n + 1) + 1)) by lia. by rewrite Ho.
    + unfold SendCondition. rewrite Hsev. simpl.
      eexists. split; [done|]. split; [done|].
      change (occurrences (set_exporter (set_count ?a ?b 0) ?x) ?b) with
        (occurrences (set_count a b 0) b). rewrite occurrences_set_count. simpl. rewrite Hr.
      rewrite <- (Z.mod_unique (Z.succ (Z.of_nat k)) (n + 1) (Z.of_nat k / (n + 1) + 1) 0) by lia.
      rewrite <- (Z.div_unique (Z.succ (Z.of_nat k)) (n + 1) (Z.of_nat k / (n + 1) + 1) 0) by lia.
      split; [done|]. rewrite <- app_assoc. f_equal.
      rewrite Z2Nat.inj_add by (try lia; apply Z.div_pos; lia).
      rewrite Nat.add_1_r. by rewrite replicate_S_end.
Qed.

(** A condition with a minimum of [n] occurrences is exported once every [n + 1]
    reports: after [k] reports of the reason in a row, [k / (n + 1)] events have been
    recorded and [k mod (n + 1)] reports are pending. *)
Theorem min_occurrences_period n (m : MonitorManager nodeExporter) now name t c k :
  CondSeverity c = SeverityWarning → MinOccurrences c = n → 0 ≤ n < 2 ^ 63 →
  conditionTypeMap m !! name = Some t → occurrences m (Reason c) = 0 →
  ∃ m', export_all m now (replicate k (name, c)) = Some m' ∧
    occurrences m' (Reason c) = Z.of_nat k mod (n + 1) ∧
    recorded (exporter m') =
      recorded (exporter m) ++
        replicate (Z.to_nat (Z.of_nat k / (n + 1)))
          (mkEvent EventTypeWarning t (Reason c +:+ ": " +:+ Message c)).
Proof.
  intros ? ? ? ? ?. destruct (min_occurrences_steps n m now name t c k) as (m' & ?&?&?&?); eauto.
Qed.

(** ** Resource identifiers *)

Lemma resourceID_inj_construct kmsg t1 p1 t2 p2 k1 k2 :
  construct kmsg t1 p1 = Ok k1 → construct kmsg t2 p2 = Ok k2 →
  resourceID t1 p1 = resourceID t2 p2 → t1 = t2 ∧ p1 = p2.
Proof.
  unfold construct.
  repeat (match goal with
    | |- context [String.eqb ?a ?b] => destruct (String.eqb_spec a b) as [->|]
    end; try done).
  all: destruct p1 as [|a1 [|]], p2 as [|a2 [|]]; try done.
  all: intros _ _; unfold resourceID; simpl; try done.
  all: intros [= ->]; done.
Qed.

Section Subscriptions.
Context {X : Type} `{ExporterOps X} (kmsg : string).

(** Every observer watches a resource whose identifier is its key. *)
Definition observers_ok (m : MonitorManager X) : Prop :=
  map_Forall (λ id ko, ∃ t p, construct kmsg t p = Ok ko.1 ∧ resourceID t p = id) (observers m).

Definition subscribe_all (m : MonitorManager X) (reqs : list (ResourceType * list Part))
    : MonitorManager X :=
  foldl (λ m req, (SubscribeResource kmsg m req.1 req.2).1) m reqs.

Lemma SubscribeResource_ok m t p :
  observers_ok m → observers_ok (SubscribeResource kmsg m t p).1.
Proof.
  intros Hm. unfold SubscribeResource. destruct (observers m !! resourceID t p) as [[k o]|] eqn:E.
  - destruct (Hm _ _ E) as (t0 & p0 & Hc & Hid). simpl in *.
    apply map_Forall_insert_2; simpl; eauto.
  - destruct (construct kmsg t p) as [k|err] eqn:Hc; [|done]. simpl.
    apply map_Forall_insert_2; simpl; eauto.
Qed.

Lemma subscribe_all_ok m reqs : observers_ok m → observers_ok (subscribe_all m reqs).
Proof.
  revert m. induction reqs as [|req reqs IH]; intros m Hm; [done|]. simpl.
  by apply IH, SubscribeResource_ok.
Qed.
End Subscriptions.

(** After any subscriptions, one to a resource the constructors accept succeeds and
    is attached to an observer of exactly that resource: distinct resources never
    share an observer, and a channel is added, never replaced. *)
Theorem subscription_watches_resource {X} `{ExporterOps X} kmsg (x : X) reqs t p k :
  construct kmsg t p = Ok k →
  let m := subscribe_all kmsg (NewMonitorManager x) reqs in
  ∃ m' i o, SubscribeResource kmsg m t p = (m', Ok (resourceID t p, i)) ∧
    observers m' !! resourceID t p = Some (k, o) ∧
    length (subscribers o) = S i ∧ subscribers o !! i = Some [].
Proof.
  intros Hc m. assert (Hm : observers_ok kmsg m).
  { apply subscribe_all_ok. intros id ko. simpl. by rewrite lookup_empty. }
  unfold SubscribeResource. destruct (observers m !! resourceID t p) as [[k' o]|] eqn:E.
  - destruct (Hm _ _ E) as (t0 & p0 & Hc0 & Hid). simpl in Hc0.
    destruct (resourceID_inj_construct kmsg t0 p0 t p k' k) as [-> ->]; try done.
    rewrite Hc in Hc0. injection Hc0 as ->. eexists _, _, _. split; [done|]. simpl.
    split; [apply lookup_insert_eq|]. simpl. rewrite length_app. simpl. split; [lia|].
    by apply list_lookup_middle.
  - rewrite Hc. eexists _, _, _. split; [done|]. simpl. split; [apply lookup_insert_eq|done].
Qed.

(** The identifier is not one for requests the constructors would refuse: a
    malformed subscription is accepted, and shares the stream of another resource,
    once that resource is observed. *)
Theorem malformed_subscription_accepted {X} `{ExporterOps X} kmsg (x : X) a b :
  let m := subscribe_all kmsg (NewMonitorManager x) [(ResourceTypeFile, [a +:+ "-" +:+ b])] in
  construct kmsg ResourceTypeFile [a; b] = Err (PartCount 1 2) ∧
  (SubscribeResource kmsg m ResourceTypeFile [a; b]).2 =
    Ok (resourceID ResourceTypeFile [a +:+ "-" +:+ b], 1%nat).
Proof.
  intros m. assert (Hid : resourceID ResourceTypeFile [a; b] =
    resourceID ResourceTypeFile [a +:+ "-" +:+ b]).
  { done. }
  split; [done|]. assert (Hm : observers m !! resourceID ResourceTypeFile [a; b] =
    Some (FileObserver (a +:+ "-" +:+ b), mkBaseObserver [[]])).
  { rewrite Hid. unfold m, subscribe_all. simpl. unfold SubscribeResource.
    change (observers (NewMonitorManager x) !! _) with (@None (ObserverKind * BaseObserver)).
    simpl. apply lookup_insert_eq. }
  unfold SubscribeResource. rewrite Hm. done.
Qed.

(** ** What the manager makes of a notification *)

(** The counts of occurrences and the calls to the exporter, for one condition. *)
Definition route (types : gmap string NodeConditionType) (counts : gmap string Z) (now : Time) (name : string) (c : Condition)
    : gmap string Z * list (Time * op) :=
  match types !! name with
  | None => (counts, [])
  | Some t =>
      if Resolved c && String.eqb (CondSeverity c) SeverityFatal then
        (<[Reason c := 0]> counts, [(now, OpResolve t c)])
      else if default 0 (counts !! Reason c) <? MinOccurrences c then
        (<[Reason c := i64 (default 0 (counts !! Reason c) + 1)]> counts, [])
      else (<[Reason c := 0]> counts, if String.eqb (CondSeverity c) SeverityFatal then [(now, OpFatal t c)] else [])
  end.

Definition route_step (types : gmap string NodeConditionType) (acc : gmap string Z * list (Time * op))
    (x : Time * string * Condition) : gmap string Z * list (Time * op) :=
  let '(counts, ops) := route types acc.1 x.1.1 x.1.2 x.2 in (counts, acc.2 ++ ops).

Definition routed (types : gmap string NodeConditionType) (xs : list (Time * string * Condition))
    : gmap string Z * list (Time * op) := foldl (route_step types) (∅, []) xs.

Lemma routed_snoc types xs x : routed types (xs ++ [x]) = route_step types (routed types xs) x.
Proof. unfold routed. by rewrite foldl_app. Qed.

Lemma raise_gauges_fields {X} `{ExporterOps X} (m : MonitorManager X) t :
  let m' := raise_gauges m t in
  conditionTypeMap m' = conditionTypeMap m ∧ conditionCountMap m' = conditionCountMap m ∧ observers m' = observers m ∧
  notifyChan m' = notifyChan m ∧ exporter m' = exporter m.
Proof.
  unfold raise_gauges. generalize ((map_to_list (conditionTypeMap m)).*2). intros l. simpl.
  induction l as [|x l IH] using rev_ind; [done|]. rewrite foldl_app. simpl. by destruct (String.eqb _ _).
Qed.

(** The exporter changed by a call: what it shows follows the specification, and what
    changed is waiting to be reported. *)
Definition updated (e e' : nodeExporter) : Prop :=
  types_ok e' ∧ (managedConditionsDirty e' = true ∨
    managedConditions e' = managedConditions e ∧ managedConditionsDirty e' = managedConditionsDirty e).

Lemma step_op_updated e now o e' : types_ok e → step_op e now o = Some e' → updated e e'.
Proof. intros Ht Hs. destruct (step_op_dirty _ _ _ _ Ht Hs) as [? [?| ->]]; split; auto. Qed.

Lemma exportCondition_routed cfgs (m : MonitorManager nodeExporter) now name c tr :
  implements cfgs (exporter m) (spec_run tr) → types_ok (exporter m) → reportSeq (exporter m) + 1 < 2 ^ 64 →
  ∃ m' r, exportCondition m now name c = Some (m', r) ∧
    conditionCountMap m' = fst (route (conditionTypeMap m) (conditionCountMap m) now name c) ∧
    implements cfgs (exporter m') (spec_run (tr ++ snd (route (conditionTypeMap m) (conditionCountMap m) now name c))) ∧
    reportSeq (exporter m') ≤ reportSeq (exporter m) + 1 ∧ updated (exporter m) (exporter m') ∧
    conditionTypeMap m' = conditionTypeMap m ∧ observers m' = observers m ∧ notifyChan m' = notifyChan m.
Proof.
  intros Hi Ht Hs. unfold exportCondition, route. destruct (conditionTypeMap m !! name) as [t|].
  2: { exists m, (Err (MissingConditionType name)). rewrite app_nil_r. split_and!; try done; [lia|by split; auto]. }
  assert (Hspec : ∀ o, spec_run (tr ++ [(now, o)]) = spec_op o (spec_run tr)) by (intros o; unfold spec_run; by rewrite foldl_app).
  destruct (Resolved c && _).
  - destruct (Resolve_implements cfgs _ _ now c t Hi) as (e' & b & Er & Hi' & Hs' & _).
    cbn. rewrite Er. cbn. eexists _, _. split; [done|]. rewrite Hspec.
    assert (Hu : updated (exporter m) e') by (apply (step_op_updated _ now (OpResolve t c)); [done|]; simpl; by rewrite Er).
    destruct b; cbn; split_and!; try done; lia.
  - unfold occurrences. cbn. destruct (_ <? MinOccurrences c).
    { eexists _, _. split; [done|]. rewrite app_nil_r. split_and!; try done; cbn; [lia|by split; auto]. }
    unfold SendCondition. cbn. destruct (String.eqb_spec (CondSeverity c) SeverityInfo) as [Ei|].
    { rewrite Ei. cbn. eexists _, _. split; [done|]. rewrite app_nil_r.
      split_and!; try done; cbn; [lia|by split; auto]. }
    destruct (String.eqb_spec (CondSeverity c) SeverityWarning) as [Ew|].
    { rewrite Ew. cbn. eexists _, _. split; [done|]. rewrite app_nil_r.
      split_and!; try done; cbn; [lia|by split; auto]. }
    destruct (String.eqb (CondSeverity c) SeverityFatal).
    2: { eexists _, _. split; [done|]. rewrite app_nil_r. split_and!; try done; cbn; [lia|by split; auto]. }
    set (m1 := set_count _ _ _). destruct (raise_gauges_fields m1 t) as (E1 & E2 & E3 & E4 & E5).
    set (m2 := raise_gauges m1 t) in *. cbn in E5.
    destruct (Fatal_implements cfgs (exporter m) (spec_run tr) now c t Hi Hs) as (e' & Ef & Hi' & Hs').
    cbn. rewrite E5, Ef. cbn. eexists _, _. split; [done|]. cbn. rewrite Hspec.
    assert (Hu : updated (exporter m) e') by (by apply (step_op_updated _ now (OpFatal t c))).
    split_and!; try done; lia.
Qed.

(** ** Runs from a manager with monitors *)

(** What a run of the loop takes, in order: what is polled, and what waits in the channel,
    which has room for [notifyCap]. *)
Fixpoint consumed (chan : list notification) (evs : list (Time * event)) : list (Time * string * Condition) :=
  match evs with
  | [] => []
  | (now, EvNotify name c) :: evs' =>
      consumed (if (length chan <? notifyCap)%nat then chan ++ [mkNotification name c] else chan) evs'
  | (now, EvLoop) :: evs' =>
      match chan with
      | [] => consumed [] evs'
      | n :: rest => (now, monitorName n, condition n) :: consumed rest evs'
      end
  | (now, EvPoll cs) :: evs' => map (λ nc, (now, nc.1, nc.2)) cs ++ consumed chan evs'
  end.

(** Monitors with their condition types and the resources they subscribe to. *)
Abbreviation registration := (string * NodeConditionType * list (ResourceType * list Part))%type.

Definition register_all {X} `{ExporterOps X} (kmsg : string) (m : MonitorManager X) (regs : list registration)
    : MonitorManager X :=
  foldl (λ m r, (Register m r.1.1 r.1.2 (λ m, (subscribe_all kmsg m r.2, Ok tt))).1) m regs.

(** A manager with a node exporter that has taken [xs]. *)
Record run_ok (cfgs : gmap NodeConditionType NodeConditionConfig) (types : gmap string NodeConditionType)
    (xs : list (Time * string * Condition)) (m : MonitorManager nodeExporter) : Prop := {
  run_gauges : mgr_ok True m;
  run_types : conditionTypeMap m = types;
  run_counts : conditionCountMap m = (routed types xs).1;
  run_spec : implements cfgs (exporter m) (spec_run (routed types xs).2);
  run_keys : types_ok (exporter m);
  run_seq : reportSeq (exporter m) ≤ Z.of_nat (length xs)
}.

Lemma run_ok_chan cfgs types xs m ch : run_ok cfgs types xs m → run_ok cfgs types xs (set_chan m ch).
Proof. intros []. by split. Qed.

Lemma run_ok_export cfgs types xs m now name c :
  run_ok cfgs types xs m → Z.of_nat (length xs) + 1 < 2 ^ 64 →
  ∃ m' r, exportCondition m now name c = Some (m', r) ∧ run_ok cfgs types (xs ++ [(now, name, c)]) m' ∧
    notifyChan m' = notifyChan m.
Proof.
  intros [Hg Ht Hc Hs Hk Hq] Hlen.
  destruct (exportCondition_routed cfgs m now name c _ Hs Hk) as (m' & r & E & Ec & Ei & Esq & [Hk' _] & Ety & _ & Ech); [lia|].
  destruct (exportCondition_ok True m now name c (λ _, nodeExporter_fatal_total) Hg) as (m1 & r1 & E1 & Hg').
  rewrite E in E1. injection E1 as <- <-. exists m', r. split; [done|]. split; [|done].
  rewrite Ht, Hc in *. split; [done|done|..|done|].
  - rewrite routed_snoc. unfold route_step. simpl. by destruct (route _ _ _ _ _).
  - rewrite routed_snoc. unfold route_step. simpl. by destruct (route _ _ _ _ _).
  - rewrite length_app. simpl. lia.
Qed.

Lemma run_ok_export_all cfgs types now cs xs m :
  run_ok cfgs types xs m → Z.of_nat (length xs) + Z.of_nat (length cs) < 2 ^ 64 →
  ∃ m', export_all m now cs = Some m' ∧ run_ok cfgs types (xs ++ map (λ nc, (now, nc.1, nc.2)) cs) m' ∧
    notifyChan m' = notifyChan m.
Proof.
  revert xs m. induction cs as [|[name c] cs IH]; intros xs m Hm Hlen; [exists m; by rewrite app_nil_r|].
  cbn [length] in Hlen. destruct (run_ok_export _ _ _ _ now name c Hm) as (m1 & r & E & Hm1 & Ech); [lia|].
  destruct (IH _ _ Hm1) as (m' & E' & Hm' & Ech'); [rewrite length_app; simpl; lia|].
  exists m'. cbn [export_all]. rewrite E. cbn [mbind option_bind]. split; [done|].
  rewrite <-(assoc_L app) in Hm'. by rewrite Ech'.
Qed.

Lemma run_ok_loop cfgs types evs xs m :
  run_ok cfgs types xs m → Z.of_nat (length xs) + Z.of_nat (length (consumed (notifyChan m) evs)) < 2 ^ 64 →
  ∃ m', runLoop m evs = Some m' ∧ run_ok cfgs types (xs ++ consumed (notifyChan m) evs) m'.
Proof.
  revert xs m. induction evs as [|[now [name c| |cs]] evs IH]; intros xs m Hm Hlen; cbn [runLoop run_event consumed] in *.
  - exists m. by rewrite app_nil_r.
  - unfold Notify. destruct (_ <? _)%nat; cbn [default mbind option_bind]; [|by apply IH].
    by apply (IH xs (set_chan m _)); [apply run_ok_chan|].
  - destruct (notifyChan m) as [|n rest] eqn:En; [specialize (IH xs m Hm); rewrite En in IH; by apply IH|].
    cbn [length] in Hlen.
    destruct (run_ok_export _ _ _ _ now (monitorName n) (condition n) (run_ok_chan _ _ _ _ rest Hm)) as (m1 & r & E & Hm1 & Ech); [lia|].
    rewrite E. cbn [mbind option_bind]. simpl in Ech. rewrite <-Ech in *.
    destruct (IH _ _ Hm1) as (m' & E' & Hm'); [rewrite length_app; simpl; lia|].
    exists m'. split; [done|]. by rewrite <-(assoc_L app) in Hm'.
  - rewrite length_app, length_map in Hlen.
    destruct (run_ok_export_all _ _ now cs _ _ Hm) as (m1 & E & Hm1 & Ech); [lia|]. rewrite E. cbn [mbind option_bind].
    rewrite <-Ech in *. destruct (IH _ _ Hm1) as (m' & E' & Hm'); [rewrite length_app, length_map; lia|].
    exists m'. split; [done|]. by rewrite <-(assoc_L app) in Hm'.
Qed.

Lemma subscribe_all_keeps {X} `{ExporterOps X} kmsg (m : MonitorManager X) reqs :
  let m' := subscribe_all kmsg m reqs in
  conditionTypeMap m' = conditionTypeMap m ∧ conditionCountMap m' = conditionCountMap m ∧ exporter m' = exporter m ∧
  conditionTypeGauge m' = conditionTypeGauge m ∧ notifyChan m' = notifyChan m.
Proof.
  revert m. induction reqs as [|req reqs IH]; intros m; [done|].
  destruct (IH (SubscribeResource kmsg m req.1 req.2).1) as (E1 & E2 & E3 & E4 & E5).
  unfold subscribe_all in *. cbn [foldl]. rewrite E1, E2, E3, E4, E5.
  unfold SubscribeResource. destruct (observers m !! _) as [[k o]|]; [done|]. by destruct (construct _ _ _).
Qed.

Lemma register_all_new kmsg now cfgs regs :
  let m := register_all kmsg (NewMonitorManager (NewNodeExporter now cfgs)) regs in
  run_ok cfgs (conditionTypeMap m) [] m ∧ notifyChan m = [].
Proof.
  assert (H : let m := register_all kmsg (NewMonitorManager (NewNodeExporter now cfgs)) regs in
    conditionCountMap m = ∅ ∧ exporter m = NewNodeExporter now cfgs ∧ conditionTypeGauge m = ∅ ∧ notifyChan m = []).
  { unfold register_all. induction regs as [|r regs IH] using rev_ind; [done|]. rewrite foldl_app. simpl.
    unfold Register. cbn [fst].
    match goal with |- context [subscribe_all kmsg ?m r.2] => destruct (subscribe_all_keeps kmsg m r.2) as (_ & -> & -> & -> & ->) end. done. }
  intros m. destruct H as (Ec & Ee & Eg & En). fold m in Ec, Ee, Eg, En. split; [|done]. split; try done; rewrite ?Ee.
  - split; [rewrite Ee; apply new_health_ok|]. intros t. unfold gauge_of. rewrite Ee, Eg. split; [|done].
    intros Hs%new_health_ok. by destruct Hs.
  - apply new_implements.
  - apply new_types_ok.
  - done.
Qed.

(** C5. With the node exporter the metric is exact.  From a manager with any monitors
    registered, whatever they notify and return when polled, the loop does not panic, and
    afterwards three things agree for every condition type: its gauge is 1; the exporter
    shows it False; and some reason of it was, among the conditions that the loop took
    from monitors of that type and that had occurred often enough, reported fatal more
    recently than resolved. *)
Theorem gauge_mirrors_condition kmsg now cfgs regs evs :
  let m0 := register_all kmsg (NewMonitorManager (NewNodeExporter now cfgs)) regs in
  Z.of_nat (length (consumed [] evs)) < 2 ^ 64 →
  ∃ m, runLoop m0 evs = Some m ∧
    ∀ t, (gauge_of m t = 1 ↔ shows_false (exporter m) t) ∧
         (shows_false (exporter m) t ↔
          ∃ r, failing (routed (conditionTypeMap m0) (consumed [] evs)).2 t r = true).
Proof.
  intros m0 Hlen. destruct (register_all_new kmsg now cfgs regs) as [H0 Hn]. fold m0 in H0, Hn.
  destruct (run_ok_loop _ _ evs [] m0 H0) as (m & E & [[_ Hg] _ _ Hi _ _]); [by rewrite Hn|].
  rewrite Hn in Hi. exists m. split; [done|]. intros t. split.
  - destruct (Hg t) as [H1 H2]. split; [by apply H2|apply H1].
  - rewrite <-recency_failing_any. by apply (implements_unhealthy cfgs).
Qed.

(** ** Concrete instances *)

Definition ex_exporter : nodeExporter := NewNodeExporter 0 ex_cfgs.
Definition ex_manager : MonitorManager nodeExporter :=
  (Register (NewMonitorManager ex_exporter) "kernel-monitor" KernelReady (λ m, (m, Ok tt))).1.
Definition ex_warning (n : Z) : Condition := mkCondition "LowPIDs" "few left" SeverityWarning n false.

Lemma gauge_covers_health_witness :
  health_ok ex_exporter ∧
  ∃ m, runLoop (NewMonitorManager ex_exporter)
         [(1, EvNotify "m" (ex_cond "A" "x")); (2, EvLoop)] = Some m ∧ health_ok (exporter m) ∧
       ∀ t, shows_false (exporter m) t → gauge_of m t = 1.
Proof.
  split; [apply new_health_ok|].
  apply (@gauge_covers_health nodeExporter nodeExporter_ops nodeExporter_laws ex_exporter);
    [apply new_health_ok|].
  intros t Hs%new_health_ok. apply Hs. unfold entries_of; simpl. by rewrite lookup_empty.
Defined.

Lemma min_occurrences_period_witness :
  ∃ m', export_all ex_manager 5 (replicate 7 ("kernel-monitor", ex_warning 2)) = Some m' ∧
        occurrences m' "LowPIDs" = 1 ∧ length (recorded (exporter m')) = 2%nat.
Proof.
  destruct (min_occurrences_period 2 ex_manager 5 "kernel-monitor" KernelReady (ex_warning 2) 7)
    as (m' & He & Ho & Hr); try reflexivity; [split; [discriminate|reflexivity]|].
  exists m'. split; [exact He|]. split; [exact Ho|]. rewrite Hr. reflexivity.
Defined.

Lemma subscription_watches_resource_witness :
  construct "/dev/kmsg" ResourceTypeJournal ["kubelet"] = Ok (JournalObserver "kubelet") ∧
  ∃ m' i o, SubscribeResource "/dev/kmsg" (subscribe_all "/dev/kmsg" (NewMonitorManager ex_exporter)
       [(ResourceTypeJournal, ["kubelet"]); (ResourceTypeDmesg, [])]) ResourceTypeJournal ["kubelet"]
     = (m', Ok (resourceID ResourceTypeJournal ["kubelet"], i)) ∧
    observers m' !! resourceID ResourceTypeJournal ["kubelet"] = Some (JournalObserver "kubelet", o) ∧
    length (subscribers o) = S i ∧ subscribers o !! i = Some [].
Proof. split; [reflexivity|]. by apply subscription_watches_resource. Defined.

(** A fatal condition raises the gauge, and its resolution lowers it. *)
Lemma gauge_mirrors_condition_witness :
  let fatal := ex_cond "ForkFailed" "no pids" in
  let resolved := mkCondition "ForkFailed" EmptyString SeverityFatal 0 true in
  let regs := [("kernel", KernelReady, [(ResourceTypeDmesg, [])])] in
  let evs := [(1, EvNotify "kernel" fatal); (2, EvLoop)] in
  let m0 := register_all "/dev/kmsg" (NewMonitorManager ex_exporter) regs in
  (∃ m, runLoop m0 evs = Some m ∧ gauge_of m KernelReady = 1 ∧ shows_false (exporter m) KernelReady) ∧
  (∃ m, runLoop m0 (evs ++ [(3, EvPoll [("kernel", resolved)])]) = Some m ∧ ¬ shows_false (exporter m) KernelReady).
Proof.
  intros fatal resolved regs evs m0. split.
  - destruct (gauge_mirrors_condition "/dev/kmsg" 0 ex_cfgs regs evs) as (m & E & H); [reflexivity|].
    exists m. split; [exact E|]. destruct (H KernelReady) as [H1 H2].
    assert (Hs : shows_false (exporter m) KernelReady) by (apply H2; exists "ForkFailed"; vm_compute; reflexivity).
    split; [by apply H1|exact Hs].
  - destruct (gauge_mirrors_condition "/dev/kmsg" 0 ex_cfgs regs (evs ++ [(3, EvPoll [("kernel", resolved)])])) as (m & E & H); [reflexivity|].
    exists m. split; [exact E|]. destruct (H KernelReady) as [H1 _]. intros Hs%H1. revert E Hs.
    assert (Hg : (λ m, gauge_of m KernelReady) <$> runLoop m0 (evs ++ [(3, EvPoll [("kernel", resolved)])]) = Some 0)
      by (vm_compute; reflexivity).
    intros E. change (runLoop m0 (evs ++ [(3, EvPoll [("kernel", resolved)])])) with
      (runLoop (register_all "/dev/kmsg" (NewMonitorManager (NewNodeExporter 0 ex_cfgs)) regs) (evs ++ [(3, EvPoll [("kernel", resolved)])])) in Hg.
    rewrite E in Hg. simpl in Hg. congruence.
Defined.
