(* ===== verification/Probe.v ===== *)
(** * Probe: declarative health probes ([api/probe], [pkg/probe]).

    A spec says how to ask one agent on the node whether it is healthy; the
    runner asks it at every tick and reports through the manager.  Each check has
    its own state machine: consecutive failures up to a threshold, one report per
    episode, and recovery after enough consecutive healthy answers. *)

From S2P Require Import Prelude GoStrings GoNet Monitor Reasons Registry.

(** ** api/probe *)

Abbreviation TransportKind := string.
Definition TransportHTTPLoopback : TransportKind := "http-loopback".
Definition TransportSystemdDBus : TransportKind := "systemd-dbus".

Record Check := mkCheck {
  Transport : TransportKind;
  Address : string;
  Path : string;
  ReasonOnFail : string;
  FailureSeverity : Severity
}.

Record Checks := mkChecks {
  Liveness : Check;
  Readiness : option Check;
  Diagnostics : option Check
}.

Record Spec := mkSpec {
  Subsystem : string;
  SpecChecks : Checks;
  Interval : Duration;
  FailureThreshold : Z;
  RecoveryThreshold : Z;
  StartupGracePeriod : Duration
}.

(** ** validate.go *)

Definition livenessCheck : string := "liveness".
Definition readinessCheck : string := "readiness".
Definition diagnosticsCheck : string := "diagnostics".

(** The errors of the package, without the texts they carry. *)
Inductive SpecError :=
| MissingSubsystem
| MissingAddress (name : string)
| NotHostPort (name : string)
| NotLoopback (name : string)
| InvalidPort (name : string)
| MissingPath (name : string)
| NotLiveness (name : string)
| NotServiceUnit (name : string)
| TemplateUnit (name : string)
| UnexpectedPath (name : string)
| UnknownTransport (name : string)
| MissingReason (name : string)
| UnregisteredReason (name : string)
| ParameterizedReason (name : string)
| InvalidFailureSeverity (name : string)
| SharedReason
| DiagnosticsHasFailure
| IntervalNotPositive
| FailureThresholdTooLow
| RecoveryThresholdNegative
| GraceNegative.

Definition validateLoopbackAddress (name address : string) : result SpecError unit :=
  match SplitHostPort address with
  | None => Err (NotHostPort name)
  | Some (host, port) =>
      if negb (String.eqb host "localhost") &&
         negb (match ParseIP host with Some ip => IsLoopback ip | None => false end)
      then Err (NotLoopback name)
      else match ParseUint 16 port with
           | None => Err (InvalidPort name)
           | Some n => if n =? 0 then Err (InvalidPort name) else Ok tt
           end
  end.

Definition maxUnitNameLength : nat := 256.
Definition unitNameChars : string :=
  "ABCDEFGHIJKLMNOPQRSTUVWXYZabcdefghijklmnopqrstuvwxyz0123456789:-_.\@".

(** [strings.ContainsFunc] with the predicate of [validateServiceUnit]: the allowed
    runes are ASCII, so a rune is allowed exactly when it is one of these bytes. *)
Fixpoint has_invalid_char (s : string) : bool :=
  match s with
  | EmptyString => false
  | String c s' => negb (has_byte unitNameChars c) || has_invalid_char s'
  end.

Definition at_sign : Ascii.ascii := byte_of 64.

Definition validateServiceUnit (name unit : string) : result SpecError () :=
  match CutSuffix unit ".service" with
  | None => Err (NotServiceUnit name)
  | Some prefix =>
      if String.eqb prefix EmptyString || HasPrefix prefix "@" ||
         (maxUnitNameLength <=? String.length unit)%nat || has_invalid_char prefix
      then Err (NotServiceUnit name)
      else match IndexByte prefix at_sign with
           | Some i => if (S i =? String.length prefix)%nat then Err (TemplateUnit name) else Ok tt
           | None => Ok tt
           end
  end.

Definition validateCheck (name : string) (c : Check) : result SpecError unit :=
  if String.eqb (Address c) EmptyString then Err (MissingAddress name)
  else if String.eqb (Transport c) TransportHTTPLoopback then
    validateLoopbackAddress name (Address c) ;;?
    (if HasPrefix (Path c) "/" then Ok tt else Err (MissingPath name))
  else if String.eqb (Transport c) TransportSystemdDBus then
    if negb (String.eqb name livenessCheck) then Err (NotLiveness name)
    else
      validateServiceUnit name (Address c) ;;?
      (if String.eqb (Path c) EmptyString then Ok tt else Err (UnexpectedPath name))
  else Err (UnknownTransport name).

Definition validateFailure (name : string) (c : Check) : result SpecError unit :=
  if String.eqb (ReasonOnFail c) EmptyString then Err (MissingReason name)
  else match ByName (ReasonOnFail c) with
       | None => Err (UnregisteredReason name)
       | Some meta =>
           if has_byte (Template meta) percent then Err (ParameterizedReason name)
           else if String.eqb (FailureSeverity c) EmptyString || valid_severity (FailureSeverity c)
           then Ok tt else Err (InvalidFailureSeverity name)
       end.

Definition validateChecks (checks : Checks) : result SpecError unit :=
  validateCheck livenessCheck (Liveness checks) ;;?
  validateFailure livenessCheck (Liveness checks) ;;?
  match Readiness checks with
  | None => Ok tt
  | Some readiness =>
      validateCheck readinessCheck readiness ;;?
      validateFailure readinessCheck readiness ;;?
      (if String.eqb (ReasonOnFail readiness) (ReasonOnFail (Liveness checks))
       then Err SharedReason else Ok tt)
  end ;;?
  match Diagnostics checks with
  | None => Ok tt
  | Some diagnostics =>
      validateCheck diagnosticsCheck diagnostics ;;?
      (if negb (String.eqb (ReasonOnFail diagnostics) EmptyString) ||
          negb (String.eqb (FailureSeverity diagnostics) EmptyString)
       then Err DiagnosticsHasFailure else Ok tt)
  end.

Definition Validate (spec : Spec) : result SpecError unit :=
  if String.eqb (Subsystem spec) EmptyString then Err MissingSubsystem
  else
    validateChecks (SpecChecks spec) ;;?
    if Interval spec <=? 0 then Err IntervalNotPositive
    else if FailureThreshold spec <? 1 then Err FailureThresholdTooLow
    else if RecoveryThreshold spec <? 0 then Err RecoveryThresholdNegative
    else if StartupGracePeriod spec <? 0 then Err GraceNegative
    else Ok tt.

(** ** transport.go *)

Inductive Outcome := OutcomeHealthy | OutcomeUnhealthy | OutcomeUnknown | OutcomeOther (s : string).

#[export] Instance Outcome_eq_dec : EqDecision Outcome.
Proof. solve_decision. Defined.

Record Result := mkResult { outcome : Outcome; Detail : string }.

(** *** transport_http.go *)

Definition maxDetailBytes : nat := 1024.

(** What the HTTP client answers: it could not build the request, the exchange
    failed (with the context's error when that has ended), or a response. *)
Inductive HTTPAnswer :=
| RequestError (err : string)
| ExchangeError (err : string) (ctxErr : option string)
| Response (code : Z) (status body : string).

Definition HTTPDo (check : Check) (answer : HTTPAnswer) : Result :=
  let url := "http://" +:+ Address check +:+ Path check in
  match answer with
  | RequestError err => mkResult OutcomeUnknown ("building request for " +:+ url +:+ ": " +:+ err)
  | ExchangeError err (Some ctxErr) => mkResult OutcomeUnknown ("check canceled: " +:+ ctxErr)
  | ExchangeError err None => mkResult OutcomeUnhealthy ("GET " +:+ url +:+ ": " +:+ err)
  | Response code status body =>
      if (200 <=? code) && (code <? 300) then mkResult OutcomeHealthy EmptyString
      else
        let body := take_bytes (maxDetailBytes + 1) body in
        let truncated := (maxDetailBytes <? String.length body)%nat in
        let body := if truncated then take_bytes maxDetailBytes body else body in
        let detail := "GET " +:+ url +:+ ": " +:+ status in
        let b := TrimSpace body in
        let detail :=
          if negb (String.eqb b EmptyString)
          then detail +:+ ": " +:+ b +:+ (if truncated then " (truncated)" else EmptyString)
          else detail in
        mkResult OutcomeUnhealthy detail
  end.

(** *** transport_dbus.go *)

(** A property that was read: its string, or the description of a value of
    another type; [Err] is the error of the call. *)
Inductive DBusValue := DBusString (s : string) | DBusOther (described : string).

Section Runner.
(** [conn] is [None] with the error of the connection; [unit_prop] and
    [service_prop] answer the property calls. *)
Definition DBusDo (check : Check) (connErr : option string)
    (unit_prop service_prop : string → result string DBusValue) : Result :=
  match connErr with
  | Some err => mkResult OutcomeUnknown ("connecting to D-Bus: " +:+ err)
  | None =>
      match unit_prop "ActiveState" with
      | Err err => mkResult OutcomeUnknown
                     ("querying ActiveState of " +:+ Address check +:+ ": " +:+ err)
      | Ok (DBusOther d) => mkResult OutcomeUnknown
          ("unexpected ActiveState type for " +:+ Address check +:+ ": got " +:+ d +:+ ", want string")
      | Ok (DBusString activeState) =>
          if String.eqb activeState "active" then mkResult OutcomeHealthy EmptyString
          else
            let detail := "unit " +:+ Address check +:+ " ActiveState=" +:+ Quote activeState in
            let enrich detail name (get : string → result string DBusValue) :=
              match get name with
              | Ok (DBusString s) => detail +:+ " " +:+ name +:+ "=" +:+ Quote s
              | _ => detail
              end in
            let detail := enrich detail "LoadState" unit_prop in
            let detail := enrich detail "SubState" unit_prop in
            let detail := enrich detail "Result" service_prop in
            mkResult OutcomeUnhealthy detail
      end
  end.

(** ** runner.go *)

(** The Go [int] counters are unbounded here: they grow by one per interval. *)
Record checkState := mkCheckState {
  csName : string;
  csCheck : Check;
  csReason : string;
  csSeverity : Severity;
  consecutiveFailures : Z;
  consecutiveHealthy : Z;
  fired : bool;
  streakStart : Time;
  streakStartedInGrace : bool
}.

Definition newCheckState (name : string) (check : Check) : checkState :=
  let severity :=
    if String.eqb (FailureSeverity check) EmptyString then
      match ByName (ReasonOnFail check) with
      | Some meta => DefaultSeverity meta
      | None => EmptyString
      end
    else FailureSeverity check in
  mkCheckState name check (ReasonOnFail check) severity 0 0 false zero_time false.

Definition set_counts (cs : checkState) (failures healthy : Z) (f : bool) : checkState :=
  mkCheckState (csName cs) (csCheck cs) (csReason cs) (csSeverity cs) failures healthy f
    (streakStart cs) (streakStartedInGrace cs).
Definition set_streak (cs : checkState) (start : Time) (inGrace : bool) : checkState :=
  mkCheckState (csName cs) (csCheck cs) (csReason cs) (csSeverity cs) (consecutiveFailures cs)
    (consecutiveHealthy cs) (fired cs) start inGrace.

Record Runner := mkRunner {
  spec : Spec;
  recoveryThreshold : Z;
  startedAt : Time;
  liveness : checkState;
  readiness : option checkState
}.

Definition NewRunner (spec : Spec) : result SpecError Runner :=
  Validate spec ;;?
  let recoveryThreshold := if RecoveryThreshold spec =? 0 then 1 else RecoveryThreshold spec in
  Ok (mkRunner spec recoveryThreshold zero_time
        (newCheckState livenessCheck (Liveness (SpecChecks spec)))
        (newCheckState readinessCheck <$> Readiness (SpecChecks spec))).

(** The first statement of [Start]. *)
Definition start (r : Runner) (now : Time) : Runner :=
  mkRunner (spec r) (recoveryThreshold r) now (liveness r) (readiness r).

(** [Duration.Round(time.Second)]: half away from zero, saturating. *)
Definition RoundSecond (d : Duration) : Duration :=
  let r := Z.rem (Z.abs d) Second in
  if d <? 0 then
    if 2 * r <? Second then d + r else Z.max min_int64 (d - Second + r)
  else
    if 2 * r <? Second then d - r else Z.min max_int64 (d + Second - r).

Definition timesText (n : Z) : string :=
  if n =? 1 then "1 time" else Itoa n +:+ " times".

Definition summarySeverity (checkSeverity : Severity) : Severity :=
  if String.eqb checkSeverity SeverityInfo then SeverityInfo else SeverityWarning.

(** Both handlers return the new state and the condition they notify, if any; the
    state is updated before the notification is sent, whether or not it succeeds. *)
Definition applyHealthy (r : Runner) (cs : checkState) (now : Time)
    : checkState * option Condition :=
  let streak := consecutiveFailures cs in
  let cs := set_counts cs 0 (consecutiveHealthy cs) (fired cs) in
  if negb (fired cs) then
    if streak =? 0 then (cs, None)
    else if streakStartedInGrace cs then (cs, None)
    else
      let elapsed := RoundSecond (Sub now (streakStart cs)) in
      (cs, Some (mkCondition (csReason cs)
                   (Subsystem (spec r) +:+ " " +:+ csName cs +:+ " check failed " +:+
                    timesText streak +:+ " and recovered " +:+ DurationString elapsed +:+
                    " after the first failure")
                   (summarySeverity (csSeverity cs)) 0 false))
  else
    let cs := set_counts cs 0 (consecutiveHealthy cs + 1) true in
    if consecutiveHealthy cs <? recoveryThreshold r then (cs, None)
    else
      let cs := set_counts cs 0 0 false in
      if negb (String.eqb (csSeverity cs) SeverityFatal) then (cs, None)
      else (cs, Some (mkCondition (csReason cs)
                        ("The " +:+ Subsystem (spec r) +:+ " " +:+ csName cs +:+
                         " check is healthy again") SeverityFatal 0 true)).

Definition inGracePeriod (r : Runner) (now : Time) : bool :=
  Sub now (startedAt r) <? StartupGracePeriod (spec r).

Definition applyUnhealthy (r : Runner) (cs : checkState) (detail : string) (now : Time)
    : checkState * option Condition :=
  let inGrace := inGracePeriod r now in
  let cs := if consecutiveFailures cs =? 0 then set_streak cs now inGrace else cs in
  let cs := set_counts cs (consecutiveFailures cs + 1) 0 (fired cs) in
  if fired cs then (cs, None)
  else if inGrace then (cs, None)
  else if consecutiveFailures cs <? FailureThreshold (spec r) then (cs, None)
  else (set_counts cs (consecutiveFailures cs) 0 true,
        Some (mkCondition (csReason cs) detail (csSeverity cs) 0 false)).

(** [apply]; an outcome that is none of the three is an error. *)
Definition apply (r : Runner) (cs : checkState) (res : Result) (now : Time)
    : checkState * result string (option Condition) :=
  match outcome res with
  | OutcomeUnknown => (cs, Ok None)
  | OutcomeHealthy => let '(cs', c) := applyHealthy r cs now in (cs', Ok c)
  | OutcomeUnhealthy => let '(cs', c) := applyUnhealthy r cs (Detail res) now in (cs', Ok c)
  | OutcomeOther s => (cs, Err s)
  end.

(** [do]: [transports] maps a kind to what its transport answers for a check. *)
Definition do_check (transports : TransportKind → option (Check → Result)) (r : Runner)
    (cs : checkState) : Result :=
  match transports (Transport (csCheck cs)) with
  | None => mkResult OutcomeUnknown ("no transport " +:+ Quote (Transport (csCheck cs)))
  | Some transport =>
      let res := transport (csCheck cs) in
      if negb (String.eqb (Detail res) EmptyString)
      then mkResult (outcome res)
             (Subsystem (spec r) +:+ " " +:+ csName cs +:+ " check: " +:+ Detail res)
      else res
  end.

Definition sent (res : result string (option Condition)) : list Condition :=
  match res with Ok (Some c) => [c] | _ => [] end.

(** One cycle: the conditions it notifies, in order. *)
Definition runOnce (transports : TransportKind → option (Check → Result)) (r : Runner)
    (now : Time) : Runner * list Condition :=
  let res := do_check transports r (liveness r) in
  let '(l, out) := apply r (liveness r) res now in
  let r1 := mkRunner (spec r) (recoveryThreshold r) (startedAt r) l (readiness r) in
  match outcome res, readiness r with
  | OutcomeHealthy, Some rd =>
      let '(rd', out') := apply r1 rd (do_check transports r1 rd) now in
      (mkRunner (spec r) (recoveryThreshold r) (startedAt r) l (Some rd'), sent out ++ sent out')
  | _, _ => (r1, sent out)
  end.
End Runner.
