(* ===== verification/ProbeSpec.v ===== *)
(** * ProbeSpec: what a probe promises.

    What a check does is determined by the history of its answers, with those that
    could not be obtained left out: the theorems state what it notifies in each cycle,
    and that through the manager the exporter holds the reason of a check exactly while
    its history says that it has failed. *)

From S2P Require Import Prelude GoStrings GoNet Monitor Observer Reasons Registry Exporter ExporterSpec Manager Probe.

(** ** Histories *)

(** The answers of a check, the most recent first; [true] is healthy. *)
Fixpoint streak (b : bool) (hist : list bool) : Z :=
  match hist with
  | x :: hist' => if Bool.eqb x b then 1 + streak b hist' else 0
  | [] => 0
  end.

Definition answer (res : Result) : option bool :=
  match outcome res with
  | OutcomeHealthy => Some true
  | OutcomeUnhealthy => Some false
  | _ => None
  end.

(** The cycles of one check. *)
Fixpoint run_check (r : Runner) (cs : checkState) (cycles : list (Time * Result))
    : checkState * list Condition :=
  match cycles with
  | [] => (cs, [])
  | (now, res) :: cycles' =>
      let '(cs1, out) := apply r cs res now in
      let '(cs2, outs) := run_check r cs1 cycles' in
      (cs2, sent out ++ outs)
  end.

Definition history (cycles : list (Time * Result)) : list bool :=
  rev (omap (λ c, answer c.2) cycles).

Lemma streak_nonneg b hist : 0 ≤ streak b hist.
Proof. induction hist as [|x hist IH]; simpl; [lia|]. destruct (Bool.eqb x b); lia. Qed.

Lemma run_check_snoc r cs cycles now res :
  run_check r cs (cycles ++ [(now, res)]) =
  let '(cs1, outs) := run_check r cs cycles in
  let '(cs2, out) := apply r cs1 res now in (cs2, outs ++ sent out).
Proof.
  revert cs. induction cycles as [|[now' res'] cycles IH]; intros cs; simpl.
  - destruct (apply r cs res now) as [cs2 out]. by rewrite app_nil_r.
  - destruct (apply r cs res' now') as [cs1 out]. rewrite IH.
    destruct (run_check r cs1 cycles) as [cs2 outs]. destruct (apply r cs2 res now) as [cs3 out'].
    by rewrite app_assoc.
Qed.

Lemma history_snoc cycles now res :
  history (cycles ++ [(now, res)]) =
  match answer res with Some b => b :: history cycles | None => history cycles end.
Proof.
  unfold history. rewrite omap_app. simpl. destruct (answer res); simpl.
  - by rewrite rev_app_distr.
  - by rewrite app_nil_r.
Qed.

(** ** The state of a check *)

(** A check that has not been asked yet. *)
Definition fresh (cs : checkState) : Prop :=
  consecutiveFailures cs = 0 ∧ consecutiveHealthy cs = 0 ∧ fired cs = false.

(** The counters count the history's current streaks; a reported failure is still
    short of the recovery threshold. *)
Definition check_inv (r : Runner) (hist : list bool) (cs : checkState) : Prop :=
  consecutiveFailures cs = streak false hist ∧
  (fired cs = true → consecutiveHealthy cs = streak true hist ∧ streak true hist < recoveryThreshold r) ∧
  (fired cs = false → consecutiveHealthy cs = 0).

Definition same_check (cs cs' : checkState) : Prop :=
  csName cs' = csName cs ∧ csCheck cs' = csCheck cs ∧ csReason cs' = csReason cs ∧
  csSeverity cs' = csSeverity cs.

Lemma fresh_inv r cs : fresh cs → check_inv r [] cs.
Proof. intros (H1 & H2 & H3). unfold check_inv. rewrite H1, H2, H3. split_and!; auto; done. Qed.

Lemma applyHealthy_inv r cs hist now :
  1 ≤ recoveryThreshold r → check_inv r hist cs →
  let '(cs', c) := applyHealthy r cs now in
  check_inv r (true :: hist) cs' ∧ same_check cs cs' ∧
  (fired cs' = true ↔ fired cs = true ∧ streak true (true :: hist) < recoveryThreshold r).
Proof.
  intros HR (Hf & Hfi & Hnf). unfold applyHealthy. simpl.
  pose proof (streak_nonneg true hist) as Hnn.
  destruct (fired cs) eqn:E; simpl.
  - destruct (Hfi eq_refl) as [Hh Hlt]. rewrite Hh.
    destruct (Z.ltb_spec (streak true hist + 1) (recoveryThreshold r)) as [H|H].
    + unfold check_inv, same_check; simpl. repeat split; try done; intros; lia.
    + destruct (String.eqb (csSeverity cs) SeverityFatal); unfold check_inv, same_check; simpl;
        repeat split; try done; intros; lia.
  - specialize (Hnf eq_refl).
    destruct (consecutiveFailures cs =? 0); [|destruct (streakStartedInGrace cs)];
      unfold check_inv, same_check; simpl; rewrite ?E; repeat split; try done; naive_solver.
Qed.

Lemma applyUnhealthy_inv r cs hist detail now :
  1 ≤ recoveryThreshold r → check_inv r hist cs →
  let '(cs', c) := applyUnhealthy r cs detail now in
  check_inv r (false :: hist) cs' ∧ same_check cs cs' ∧
  (fired cs' = true ↔ fired cs = true ∨
     (inGracePeriod r now = false ∧ FailureThreshold (spec r) ≤ streak false (false :: hist))).
Proof.
  intros HR (Hf & Hfi & Hnf). unfold applyUnhealthy.
  set (cs1 := if consecutiveFailures cs =? 0 then _ else cs).
  assert (H1 : consecutiveFailures cs1 = consecutiveFailures cs ∧ fired cs1 = fired cs ∧
    same_check cs cs1).
  { unfold cs1, same_check. by destruct (consecutiveFailures cs =? 0). }
  destruct H1 as (Hc & Hfd & Hsame). simpl. rewrite Hc, Hfd, Hf.
  destruct (fired cs) eqn:E; [|destruct (inGracePeriod r now);
    [|destruct (Z.ltb_spec (streak false hist + 1) (FailureThreshold (spec r)))]];
    unfold check_inv, same_check in *; simpl; rewrite ?Hfd, ?E;
    repeat split; try tauto; try done; try lia; intuition (try lia; try congruence).
Qed.

Lemma apply_inv r cs hist res now :
  1 ≤ recoveryThreshold r → check_inv r hist cs →
  let hist' := match answer res with Some b => b :: hist | None => hist end in
  let cs' := (apply r cs res now).1 in
  check_inv r hist' cs' ∧ same_check cs cs' ∧
  (fired cs = false →
     fired cs' = true ↔ answer res = Some false ∧ inGracePeriod r now = false ∧
                        FailureThreshold (spec r) ≤ streak false hist') ∧
  (fired cs = true → fired cs' = false ↔ recoveryThreshold r ≤ streak true hist').
Proof.
  intros HR Hinv. unfold apply, answer. destruct (outcome res) eqn:E; simpl.
  - pose proof (applyHealthy_inv r cs hist now HR Hinv) as H.
    destruct (applyHealthy r cs now) as [cs' c]. destruct H as (H1 & H2 & H3). simpl in *.
    split; [done|]. split; [done|]. split; intros Hfd.
    + rewrite H3, Hfd. naive_solver.
    + rewrite <- not_true_iff_false, H3, Hfd. intuition lia.
  - pose proof (applyUnhealthy_inv r cs hist (Detail res) now HR Hinv) as H.
    destruct (applyUnhealthy r cs (Detail res) now) as [cs' c]. destruct H as (H1 & H2 & H3).
    simpl in *. split; [done|]. split; [done|]. split; intros Hfd.
    + rewrite H3, Hfd. naive_solver.
    + rewrite <- not_true_iff_false, H3, Hfd. intuition lia.
  - destruct Hinv as (H1 & H2 & H3). split; [done|]. split; [done|]. split; intros Hfd.
    + rewrite Hfd. naive_solver.
    + rewrite Hfd. destruct (H2 Hfd). split; [done|lia].
  - destruct Hinv as (H1 & H2 & H3). split; [done|]. split; [done|]. split; intros Hfd.
    + rewrite Hfd. naive_solver.
    + rewrite Hfd. destruct (H2 Hfd). split; [done|lia].
Qed.

Lemma run_check_inv r cs cycles :
  1 ≤ recoveryThreshold r → fresh cs →
  check_inv r (history cycles) (run_check r cs cycles).1 ∧
  same_check cs (run_check r cs cycles).1.
Proof.
  intros HR Hfr. induction cycles as [|[now res] cycles [IH1 IH2]] using rev_ind.
  - split; [by apply fresh_inv|done].
  - rewrite run_check_snoc, history_snoc. destruct (run_check r cs cycles) as [cs1 outs].
    destruct (apply_inv r cs1 (history cycles) res now HR IH1) as (H1 & H2 & _).
    destruct (apply r cs1 res now) as [cs2 out]. simpl in *. split; [done|].
    unfold same_check in *. intuition congruence.
Qed.

Lemma apply_same r cs res now : same_check cs (apply r cs res now).1.
Proof.
  unfold same_check, apply. destruct (outcome res); simpl; try done.
  - unfold applyHealthy; simpl. destruct (fired cs); simpl.
    + destruct (_ <? _); [done|]. by destruct (negb _).
    + destruct (_ =? 0); [done|]. by destruct (streakStartedInGrace cs).
  - unfold applyUnhealthy. set (cs1 := if consecutiveFailures cs =? 0 then _ else cs).
    assert (H1 : same_check cs cs1) by (unfold cs1, same_check; by destruct (consecutiveFailures cs =? 0)).
    unfold same_check in H1. simpl. destruct (fired cs1); [done|]. destruct (inGracePeriod r now); [done|]. by destruct (_ <? _).
Qed.

(** ** The history of a check

    The cycles it had, the most recent first. *)

Abbreviation past := (list (Time * Result)).
Definition answers (h : past) : list bool := omap (λ c, answer c.2) h.

(** It has failed: [FailureThreshold] answers in a row were unhealthy when the startup
    grace period was over, and since then there were not [recoveryThreshold] healthy
    answers in a row. *)
Fixpoint failed (r : Runner) (h : past) : bool :=
  match h with
  | [] => false
  | (now, res) :: h' =>
      match answer res with
      | None => failed r h'
      | Some false => failed r h' || (negb (inGracePeriod r now) && (FailureThreshold (spec r) <=? streak false (answers h)))
      | Some true => failed r h' && (streak true (answers h) <? recoveryThreshold r)
      end
  end.

(** The time of the first failure of the current streak. *)
Fixpoint streak_began (h : past) : option Time :=
  match h with
  | [] => None
  | (now, res) :: h' =>
      match answer res with
      | None => streak_began h'
      | Some true => None
      | Some false => Some (default now (streak_began h'))
      end
  end.

(** What the check [cs] notifies in a cycle. *)
Definition failure (cs : checkState) (res : Result) : Condition :=
  mkCondition (csReason cs) (Detail res) (csSeverity cs) 0 false.
Definition recovery (r : Runner) (cs : checkState) : Condition :=
  mkCondition (csReason cs) ("The " +:+ Subsystem (spec r) +:+ " " +:+ csName cs +:+ " check is healthy again") SeverityFatal 0 true.
Definition summary (r : Runner) (cs : checkState) (n : Z) (elapsed : Duration) : Condition :=
  mkCondition (csReason cs)
    (Subsystem (spec r) +:+ " " +:+ csName cs +:+ " check failed " +:+ timesText n +:+ " and recovered " +:+
     DurationString (RoundSecond elapsed) +:+ " after the first failure") (summarySeverity (csSeverity cs)) 0 false.

Definition notifies (r : Runner) (cs : checkState) (h : past) (now : Time) (res : Result) : list Condition :=
  match answer res with
  | None => []
  | Some false =>
      if failed r h || inGracePeriod r now || (streak false (false :: answers h) <? FailureThreshold (spec r)) then []
      else [failure cs res]
  | Some true =>
      if failed r h then
        if (streak true (true :: answers h) <? recoveryThreshold r) || negb (String.eqb (csSeverity cs) SeverityFatal) then []
        else [recovery r cs]
      else match streak_began h with
           | Some began => if inGracePeriod r began then [] else [summary r cs (streak false (answers h)) (Sub now began)]
           | None => []
           end
  end.

#[local] Arguments Z.add : simpl never.

Lemma answers_cons now res h :
  answers ((now, res) :: h) = match answer res with Some b => b :: answers h | None => answers h end.
Proof. unfold answers. simpl. by destruct (answer res). Qed.

Lemma streak_began_pos h : 0 < streak false (answers h) ↔ is_Some (streak_began h).
Proof.
  induction h as [|[now res] h IH]; [split; [by intros|by intros []]|]. rewrite answers_cons. cbn [streak_began].
  destruct (answer res) as [[]|]; simpl; [split; [lia|by intros []]| |done].
  pose proof (streak_nonneg false (answers h)). split; [eauto|lia].
Qed.

(** The state of a check after its history. *)
Definition state_of (r : Runner) (h : past) (cs : checkState) : Prop :=
  check_inv r (answers h) cs ∧ fired cs = failed r h ∧
  ∀ began, streak_began h = Some began → streakStart cs = began ∧ streakStartedInGrace cs = inGracePeriod r began.

Lemma applyUnhealthy_streak r cs detail now :
  let cs' := (applyUnhealthy r cs detail now).1 in
  streakStart cs' = (if consecutiveFailures cs =? 0 then now else streakStart cs) ∧
  streakStartedInGrace cs' = (if consecutiveFailures cs =? 0 then inGracePeriod r now else streakStartedInGrace cs).
Proof.
  unfold applyUnhealthy. set (cs1 := if consecutiveFailures cs =? 0 then _ else cs).
  assert (H : streakStart cs1 = (if consecutiveFailures cs =? 0 then now else streakStart cs) ∧
    streakStartedInGrace cs1 = (if consecutiveFailures cs =? 0 then inGracePeriod r now else streakStartedInGrace cs))
    by (unfold cs1; by destruct (consecutiveFailures cs =? 0)).
  simpl. destruct (fired cs1), (inGracePeriod r now); try done. by destruct (_ <? _).
Qed.

Lemma state_of_apply r cs h res now :
  1 ≤ recoveryThreshold r → state_of r h cs → state_of r ((now, res) :: h) (apply r cs res now).1.
Proof.
  intros HR (Hinv & Hf & Hs). pose proof (apply_inv r cs (answers h) res now HR Hinv) as (Hi & _ & Hup & Hdown).
  split; [by rewrite answers_cons|]. split.
  - cbn [failed]. rewrite answers_cons. destruct (fired cs) eqn:E; rewrite <-Hf.
    + specialize (Hdown eq_refl). destruct (answer res) as [[]|] eqn:Ea; simpl in *.
      * destruct (fired (apply r cs res now).1); symmetry; [apply Z.ltb_lt|apply Z.ltb_ge]; [|by apply Hdown].
        destruct (Z.lt_ge_cases (1 + streak true (answers h)) (recoveryThreshold r)) as [|Hge]; [done|by apply Hdown in Hge].
      * apply not_false_iff_true. intros H%Hdown. lia.
      * apply not_false_iff_true. intros H%Hdown. destruct Hinv as (_ & Hfi & _). destruct (Hfi E). lia.
    + specialize (Hup eq_refl). apply eq_true_iff_eq. rewrite Hup. destruct (answer res) as [[]|]; simpl.
      * split; [by intros []|done].
      * rewrite andb_true_iff, negb_true_iff, Z.leb_le. tauto.
      * split; [by intros []|done].
  - intros began. cbn [streak_began]. unfold apply, answer in *. destruct (outcome res) eqn:Eo; simpl; try apply Hs; [done|].
    intros [= <-].
    pose proof (applyUnhealthy_streak r cs (Detail res) now) as [E1 E2]. destruct (applyUnhealthy r cs (Detail res) now) as [cs' c].
    simpl in *. rewrite E1, E2. destruct Hinv as (Hc & _). rewrite Hc. pose proof (streak_began_pos h) as Hpos.
    destruct (streak_began h) as [t|] eqn:Et.
    + rewrite (proj2 (Z.eqb_neq _ _)) by (assert (is_Some (Some t)) by done; naive_solver lia). by apply Hs.
    + pose proof (streak_nonneg false (answers h)). rewrite (proj2 (Z.eqb_eq _ _)); [done|].
      destruct (Z.eq_dec (streak false (answers h)) 0); [done|]. assert (is_Some (@None Time)) as [] by (apply Hpos; lia). done.
Qed.

Lemma state_of_run r cs cycles :
  1 ≤ recoveryThreshold r → fresh cs → state_of r (rev cycles) (run_check r cs cycles).1 ∧ same_check cs (run_check r cs cycles).1.
Proof.
  intros HR Hfr. split; [|by apply run_check_inv]. induction cycles as [|[now res] cycles IH] using rev_ind.
  - split; [by apply fresh_inv|]. simpl. split; [by destruct Hfr as (_ & _ & ->)|done].
  - rewrite run_check_snoc, rev_unit. destruct (run_check r cs cycles) as [cs1 outs]. simpl in IH.
    pose proof (state_of_apply r cs1 _ res now HR IH). by destruct (apply r cs1 res now).
Qed.

(** A cycle notifies what the history says. *)
Lemma apply_notifies r cs h res now :
  state_of r h cs → sent (apply r cs res now).2 = notifies r cs h now res.
Proof.
  intros ((Hc & Hfi & Hnf) & Hf & Hs). unfold apply, notifies, answer. rewrite <-Hf.
  destruct (outcome res); simpl; [| |done..].
  - unfold applyHealthy; simpl. destruct (fired cs) eqn:E; simpl.
    + destruct (Hfi eq_refl) as [-> _]. rewrite (Z.add_comm 1). destruct (_ <? _); [done|]. simpl.
      by destruct (String.eqb (csSeverity cs) SeverityFatal).
    + rewrite Hc. pose proof (streak_began_pos h) as Hpos. pose proof (streak_nonneg false (answers h)).
      destruct (streak_began h) as [began|].
      * rewrite (proj2 (Z.eqb_neq _ _)) by (assert (is_Some (Some began)) by done; naive_solver lia).
        destruct (Hs began eq_refl) as [-> ->]. by destruct (inGracePeriod r began).
      * rewrite (proj2 (Z.eqb_eq _ _)); [done|].
        destruct (Z.eq_dec (streak false (answers h)) 0); [done|]. assert (is_Some (@None Time)) as [] by (apply Hpos; lia). done.
  - unfold applyUnhealthy. set (cs1 := if consecutiveFailures cs =? 0 then _ else cs).
    assert (H1 : consecutiveFailures cs1 = consecutiveFailures cs ∧ fired cs1 = fired cs ∧
      csReason cs1 = csReason cs ∧ csSeverity cs1 = csSeverity cs)
      by (unfold cs1; by destruct (consecutiveFailures cs =? 0)).
    destruct H1 as (E1 & E2 & E3 & E4). simpl. rewrite E1, E2, Hc, (Z.add_comm 1).
    destruct (fired cs); [done|]. simpl. destruct (inGracePeriod r now); [done|]. simpl.
    destruct (_ <? _); [done|]. simpl. unfold failure. by rewrite E3, E4.
Qed.

(** C26. What a check notifies in a cycle is determined by its history.  Unhealthy: its
    failure, once, when this is at least the [FailureThreshold]-th unhealthy answer in a
    row, the startup grace period is over, and it has not already failed.  Healthy: once
    it has failed, its recovery (of a fatal check) at the [recoveryThreshold]-th healthy
    answer in a row; and otherwise, after a streak of failures that began after the grace
    period and was never reported, a summary with the length of the streak and the time
    since its first failure.  In every other cycle, and when the check could not be
    carried out, nothing. *)
Theorem probe_transitions r cs cycles now res :
  1 ≤ recoveryThreshold r → fresh cs →
  sent (apply r (run_check r cs cycles).1 res now).2 = notifies r cs (rev cycles) now res.
Proof.
  intros HR Hfr. destruct (state_of_run r cs cycles HR Hfr) as [Hst (En & _ & Er & Es)].
  rewrite (apply_notifies _ _ _ _ _ Hst). unfold notifies, failure, recovery, summary. by rewrite En, Er, Es.
Qed.

(** ** What is reported *)

(** What the manager does with a notified condition, as a call of the exporter. *)
Definition ops_of (t : NodeConditionType) (now : Time) (c : Condition) : list (Time * op) :=
  if String.eqb (CondSeverity c) SeverityFatal
  then [(now, if Resolved c then OpResolve t c else OpFatal t c)] else [].

Lemma apply_sent r cs res now :
  csSeverity cs = SeverityFatal →
  let cs' := (apply r cs res now).1 in
  let out := sent (apply r cs res now).2 in
  match fired cs, fired cs' with
  | false, true => ∃ m, out = [mkCondition (csReason cs) m SeverityFatal 0 false]
  | true, false => ∃ m, out = [mkCondition (csReason cs) m SeverityFatal 0 true]
  | _, _ => ∀ c, c ∈ out → CondSeverity c ≠ SeverityFatal
  end.
Proof.
  intros Hs. unfold apply. destruct (outcome res); simpl.
  - unfold applyHealthy; simpl. destruct (fired cs) eqn:E; simpl.
    + destruct (_ <? _); simpl; [intros c Hc; by apply elem_of_nil in Hc|].
      rewrite Hs. simpl. eauto.
    + destruct (consecutiveFailures cs =? 0); [|destruct (streakStartedInGrace cs)];
        simpl; rewrite ?E; try (intros c Hc; by apply elem_of_nil in Hc).
      intros c ->%list_elem_of_singleton. simpl. unfold summarySeverity. by rewrite Hs.
  - unfold applyUnhealthy.
    set (cs1 := if consecutiveFailures cs =? 0 then _ else cs).
    assert (H1 : fired cs1 = fired cs ∧ csReason cs1 = csReason cs ∧ csSeverity cs1 = csSeverity cs)
      by (unfold cs1; by destruct (consecutiveFailures cs =? 0)).
    destruct H1 as (Hf & Hr & Hsv). simpl. rewrite Hf.
    destruct (fired cs) eqn:E; [|destruct (inGracePeriod r now); [|destruct (_ <? _)]];
      simpl; rewrite ?Hf, ?E, ?Hr, ?Hsv, ?Hs; eauto; intros c Hc; by apply elem_of_nil in Hc.
  - destruct (fired cs); intros c Hc; by apply elem_of_nil in Hc.
  - destruct (fired cs); intros c Hc; by apply elem_of_nil in Hc.
Qed.

Lemma ops_of_quiet t now out :
  (∀ c, c ∈ out → CondSeverity c ≠ SeverityFatal) → (out ≫= ops_of t now) = [].
Proof.
  induction out as [|c out IH]; intros H; [done|]. rewrite bind_cons, IH by (intros; apply H; by right).
  unfold ops_of. destruct (String.eqb_spec (CondSeverity c) SeverityFatal); [|done].
  exfalso. by apply (H c); [left|].
Qed.

(** A check that is not fatal never notifies a fatal condition. *)
Lemma apply_quiet r cs res now :
  csSeverity cs ≠ SeverityFatal → ∀ c, c ∈ sent (apply r cs res now).2 → CondSeverity c ≠ SeverityFatal.
Proof.
  intros Hs c. unfold apply. destruct (outcome res); cbn [snd sent].
  - unfold applyHealthy; simpl. destruct (fired cs); simpl.
    + destruct (_ <? _); [|rewrite (proj2 (String.eqb_neq _ _) Hs)]; simpl; by intros ?%elem_of_nil.
    + destruct (consecutiveFailures cs =? 0); [|destruct (streakStartedInGrace cs)]; simpl; try by intros ?%elem_of_nil.
      intros ->%list_elem_of_singleton. simpl. unfold summarySeverity. by destruct (String.eqb (csSeverity cs) SeverityInfo).
  - unfold applyUnhealthy. set (cs1 := if consecutiveFailures cs =? 0 then _ else cs).
    assert (H1 : csSeverity cs1 = csSeverity cs) by (unfold cs1; by destruct (consecutiveFailures cs =? 0)).
    simpl. destruct (fired cs1); [|destruct (inGracePeriod r now); [|destruct (_ <? _)]]; simpl; try by intros ?%elem_of_nil.
    intros ->%list_elem_of_singleton. simpl. by rewrite H1.
  - by intros ?%elem_of_nil.
  - by intros ?%elem_of_nil.
Qed.

Lemma failing_app tr tr' t r : failing (tr ++ tr') t r =
  foldl (λ b (o : Time * op), failing_step t r b o.2) (failing tr t r) tr'.
Proof. unfold failing. by rewrite foldl_app. Qed.

(** ** Validated specs *)

Lemma Validate_ok s :
  Validate s = Ok tt →
  validateFailure livenessCheck (Liveness (SpecChecks s)) = Ok tt ∧
  validateCheck livenessCheck (Liveness (SpecChecks s)) = Ok tt ∧
  (∀ c, Readiness (SpecChecks s) = Some c →
     validateFailure readinessCheck c = Ok tt ∧ validateCheck readinessCheck c = Ok tt ∧
     ReasonOnFail c ≠ ReasonOnFail (Liveness (SpecChecks s))) ∧
  1 ≤ FailureThreshold s ∧ 0 ≤ RecoveryThreshold s.
Proof.
  unfold Validate. destruct (String.eqb _ _); [done|].
  intros ([] & Hc & Hrest)%rbind_ok. unfold validateChecks in Hc.
  apply rbind_ok in Hc as ([] & H1 & Hc). apply rbind_ok in Hc as ([] & H2 & Hc).
  apply rbind_ok in Hc as ([] & H3 & _).
  destruct (Interval s <=? 0); [done|]. destruct (FailureThreshold s <? 1) eqn:H4; [done|].
  destruct (RecoveryThreshold s <? 0) eqn:H5; [done|]. bool_to_prop.
  split; [done|]. split; [done|]. split; [|lia]. intros c Hc. rewrite Hc in H3.
  apply rbind_ok in H3 as ([] & H6 & H3). apply rbind_ok in H3 as ([] & H7 & H3).
  destruct (String.eqb_spec (ReasonOnFail c) (ReasonOnFail (Liveness (SpecChecks s)))); done.
Qed.

Lemma validateFailure_good name c :
  validateFailure name c = Ok tt →
  csReason (newCheckState name c) ≠ EmptyString ∧
  valid_severity (csSeverity (newCheckState name c)) = true.
Proof.
  unfold validateFailure, newCheckState. cbn [csReason csSeverity].
  destruct (String.eqb_spec (ReasonOnFail c) EmptyString) as [|Hne]; [intros Hx; discriminate Hx|].
  destruct (ByName (ReasonOnFail c)) as [meta|] eqn:Hm; [|intros Hx; discriminate Hx].
  destruct (has_byte _ _); [intros Hx; discriminate Hx|]. intros H. split; [exact Hne|].
  destruct (String.eqb (FailureSeverity c) EmptyString).
  - unfold ByName in Hm. apply elem_of_list_to_map_2 in Hm. exact (proj2 (byName_ok _ _ Hm)).
  - destruct (valid_severity (FailureSeverity c)); [reflexivity|discriminate H].
Qed.

(** A condition of the check: its reason, a valid severity and no minimum. *)
Definition check_condition (cs : checkState) (c : Condition) : Prop :=
  Reason c = csReason cs ∧ valid_severity (CondSeverity c) = true ∧ MinOccurrences c = 0.

Lemma apply_conditions r cs res now c :
  valid_severity (csSeverity cs) = true → c ∈ sent (apply r cs res now).2 → check_condition cs c.
Proof.
  intros Hv. unfold apply. destruct (outcome res); cbn [snd sent].
  - unfold applyHealthy; simpl. destruct (fired cs); simpl.
    + destruct (_ <? _); [|destruct (String.eqb _ _)]; simpl;
        try (intros Hc; by apply elem_of_nil in Hc).
      intros ->%list_elem_of_singleton. done.
    + destruct (consecutiveFailures cs =? 0); [|destruct (streakStartedInGrace cs)];
        simpl; try (intros Hc; by apply elem_of_nil in Hc).
      intros ->%list_elem_of_singleton. unfold check_condition, summarySeverity; simpl.
      by destruct (String.eqb (csSeverity cs) SeverityInfo).
  - unfold applyUnhealthy.
    set (cs1 := if consecutiveFailures cs =? 0 then _ else cs).
    assert (H1 : csReason cs1 = csReason cs ∧ csSeverity cs1 = csSeverity cs)
      by (unfold cs1; by destruct (consecutiveFailures cs =? 0)).
    destruct H1 as [Hr Hsv]. simpl.
    destruct (fired cs1); [|destruct (inGracePeriod r now); [|destruct (_ <? _)]]; simpl;
      try (intros Hc; by apply elem_of_nil in Hc).
    intros ->%list_elem_of_singleton. unfold check_condition; simpl. by rewrite Hr, Hsv.
  - intros Hc; by apply elem_of_nil in Hc.
  - intros Hc; by apply elem_of_nil in Hc.
Qed.

Lemma run_check_conditions r cs cycles c :
  1 ≤ recoveryThreshold r → fresh cs → valid_severity (csSeverity cs) = true →
  c ∈ (run_check r cs cycles).2 → check_condition cs c.
Proof.
  intros HR Hfr Hv. induction cycles as [|[now res] cycles IH] using rev_ind.
  - intros Hc. by apply elem_of_nil in Hc.
  - pose proof (run_check_inv r cs cycles HR Hfr) as [_ (_ & _ & Hr & Hs)].
    rewrite run_check_snoc. destruct (run_check r cs cycles) as [cs1 outs]. simpl in *.
    pose proof (apply_conditions r cs1 res now c) as Ha.
    destruct (apply r cs1 res now) as [cs2 out]. simpl in *.
    intros [Hc|Hc]%elem_of_app; [auto|]. unfold check_condition in *. rewrite Hs, Hr in Ha. auto.
Qed.

Lemma NewRunner_ok s r :
  NewRunner s = Ok r →
  1 ≤ recoveryThreshold r ∧ fresh (liveness r) ∧ valid_severity (csSeverity (liveness r)) = true ∧
  csReason (liveness r) ≠ EmptyString ∧
  ∀ rd, readiness r = Some rd →
    fresh rd ∧ valid_severity (csSeverity rd) = true ∧ csReason rd ≠ EmptyString ∧
    csReason rd ≠ csReason (liveness r).
Proof.
  unfold NewRunner. intros ([] & Hv & [= <-])%rbind_ok.
  destruct (Validate_ok s Hv) as (Hl & _ & Hrd & _ & HR).
  destruct (validateFailure_good _ _ Hl) as [Hl1 Hl2].
  cbn [recoveryThreshold liveness readiness]. split.
  { destruct (RecoveryThreshold s =? 0) eqn:E; bool_to_prop; lia. }
  split; [split_and!; reflexivity|]. split; [exact Hl2|]. split; [exact Hl1|].
  intros rd (c & Hc & ->)%fmap_Some. destruct (Hrd c Hc) as (Hf & _ & Hne).
  destruct (validateFailure_good _ _ Hf) as [Hf1 Hf2].
  split; [split_and!; reflexivity|]. split; [exact Hf2|]. split; [exact Hf1|exact Hne].
Qed.

(** A runner that was built from a spec never reports a condition the manager
    would refuse, and its two checks never share a reason: whatever the answers, the
    conditions of a check carry its own non-empty reason and a valid severity. *)
Theorem validated_probe_reports s r cycles :
  NewRunner s = Ok r →
  (∀ c, c ∈ (run_check r (liveness r) cycles).2 →
     good_condition c ∧ Reason c = csReason (liveness r)) ∧
  (∀ rd c, readiness r = Some rd → c ∈ (run_check r rd cycles).2 →
     good_condition c ∧ Reason c = csReason rd ∧ Reason c ≠ csReason (liveness r)).
Proof.
  intros (HR & Hfr & Hv & Hne & Hrd)%NewRunner_ok. split.
  - intros c Hc. destruct (run_check_conditions r _ cycles c HR Hfr Hv Hc) as (Hrn & ? & Hm).
    unfold good_condition. rewrite Hm, Hrn. by split_and!.
  - intros rd c Hr Hc. destruct (Hrd rd Hr) as (Hfr' & Hv' & Hne' & Hd).
    destruct (run_check_conditions r _ cycles c HR Hfr' Hv' Hc) as (Hrn & ? & Hm).
    unfold good_condition. rewrite Hm, Hrn. by split_and!.
Qed.

(** ** From a probe to the exporter

    A probe runs beside other monitors: its cycles and the conditions of the others reach
    the loop of the manager in any order. *)

Abbreviation transports := (TransportKind → option (Check → Result)).

Inductive probe_event :=
| Tick (now : Time) (ts : transports)
| Other (now : Time) (name : string) (c : Condition).

(** A cycle with the notifications that the loop takes, or a condition of another monitor. *)
Definition probe_step (name : string) (s : Runner * MonitorManager nodeExporter) (ev : probe_event)
    : option (Runner * MonitorManager nodeExporter) :=
  match ev with
  | Tick now ts =>
      let '(r, cs) := runOnce ts s.1 now in
      m ← runLoop s.2 (cs ≫= λ c, [(now, EvNotify name c); (now, EvLoop)]);
      Some (r, m)
  | Other now n c => m ← runLoop s.2 [(now, EvPoll [(n, c)])]; Some (s.1, m)
  end.

Fixpoint probe_run (name : string) (s : Runner * MonitorManager nodeExporter) (evs : list probe_event)
    : option (Runner * MonitorManager nodeExporter) :=
  match evs with
  | [] => Some s
  | ev :: evs' => s' ← probe_step name s ev; probe_run name s' evs'
  end.

(** The cycles of the two checks: readiness is asked when liveness is healthy. *)
Definition live_cycle (r : Runner) (ev : probe_event) : option (Time * Result) :=
  match ev with Tick now ts => Some (now, do_check ts r (liveness r)) | Other _ _ _ => None end.
Definition ready_cycle (r : Runner) (rd : checkState) (ev : probe_event) : option (Time * Result) :=
  match ev with
  | Tick now ts =>
      if decide (outcome (do_check ts r (liveness r)) = OutcomeHealthy) then Some (now, do_check ts r rd) else None
  | Other _ _ _ => None
  end.
Definition live_past (r : Runner) (evs : list probe_event) : past := rev (omap (live_cycle r) evs).
Definition ready_past (r : Runner) (rd : checkState) (evs : list probe_event) : past := rev (omap (ready_cycle r rd) evs).

(** The reason of the check is unresolved in the exporter. *)
Definition holds_reason (m : MonitorManager nodeExporter) (t : NodeConditionType) (r : string) : Prop :=
  r ∈ reason <$> entries_of (exporter m) t.

(** *** The manager's view of a check *)

(** The calls of the exporter so far leave the reason of [cs] failing exactly when it is
    fatal and has fired, and no occurrence of it is withheld. *)
Definition tracks (types : gmap string NodeConditionType) (t : NodeConditionType)
    (xs : list (Time * string * Condition)) (cs : checkState) : Prop :=
  default 0 ((routed types xs).1 !! csReason cs) = 0 ∧
  failing (routed types xs).2 t (csReason cs) = fired cs && String.eqb (csSeverity cs) SeverityFatal.

Lemma tracks_same types t xs cs cs' :
  csReason cs' = csReason cs → csSeverity cs' = csSeverity cs → fired cs' = fired cs → tracks types t xs cs → tracks types t xs cs'.
Proof. unfold tracks. by intros -> -> ->. Qed.

(** A condition with another reason changes nothing of it. *)
Lemma tracks_other types t xs cs now n c :
  Reason c ≠ csReason cs → tracks types t xs cs → tracks types t (xs ++ [(now, n, c)]) cs.
Proof.
  intros Hne [Hc Hf]. unfold tracks. rewrite routed_snoc. unfold route_step, route. simpl.
  assert (Hkeep : ∀ o, match o with OpFatal _ d | OpResolve _ d => Reason d ≠ csReason cs end → failing ((routed types xs).2 ++ [(now, o)]) t (csReason cs) =
    fired cs && String.eqb (csSeverity cs) SeverityFatal).
  { intros o Ho. rewrite failing_app, Hf. destruct o; simpl in *; by rewrite decide_False by naive_solver. }
  destruct (types !! n) as [t'|]; [|by rewrite app_nil_r].
  destruct (Resolved c && _); [|destruct (_ <? _); [|destruct (String.eqb (CondSeverity c) SeverityFatal)]]; simpl;
    rewrite lookup_insert_ne, ?app_nil_r by done; split; auto.
Qed.

(** A condition of the check, without a minimum, becomes the call that it stands for. *)
Lemma routed_check types t xs cs name now c :
  types !! name = Some t → Reason c = csReason cs → MinOccurrences c = 0 →
  default 0 ((routed types xs).1 !! csReason cs) = 0 →
  default 0 ((routed types (xs ++ [(now, name, c)])).1 !! csReason cs) = 0 ∧
  (routed types (xs ++ [(now, name, c)])).2 = (routed types xs).2 ++ ops_of t now c.
Proof.
  intros Hn Hr Hm H0. rewrite routed_snoc. unfold route_step, route, ops_of. simpl. rewrite Hn, Hr, H0, Hm.
  destruct (Resolved c), (String.eqb (CondSeverity c) SeverityFatal); simpl; rewrite lookup_insert_eq; done.
Qed.

(** One cycle of the check. *)
Lemma tracks_apply types t xs r cs res now name :
  types !! name = Some t → valid_severity (csSeverity cs) = true → tracks types t xs cs →
  tracks types t (xs ++ map (λ c, (now, name, c)) (sent (apply r cs res now).2)) (apply r cs res now).1.
Proof.
  intros Hn Hv [H0 Hf]. pose proof (apply_conditions r cs res now) as Hcond.
  pose proof (apply_same r cs res now) as (_ & _ & Er & Es).
  assert (Hone : sent (apply r cs res now).2 = [] ∨ ∃ c, sent (apply r cs res now).2 = [c])
    by (destruct (apply r cs res now) as [cs' [[c|]|]]; simpl; eauto).
  assert (Hops : default 0 ((routed types (xs ++ map (λ c, (now, name, c)) (sent (apply r cs res now).2))).1 !! csReason cs) = 0 ∧
    (routed types (xs ++ map (λ c, (now, name, c)) (sent (apply r cs res now).2))).2 =
    (routed types xs).2 ++ (sent (apply r cs res now).2 ≫= ops_of t now)).
  { destruct Hone as [->|[c E]]; [simpl; by rewrite !app_nil_r|]. rewrite E in *. simpl. rewrite app_nil_r.
    assert (check_condition cs c) as (? & _ & ?) by (apply Hcond; [done|by left]). by apply routed_check. }
  destruct Hops as [Hc Ho]. unfold tracks. rewrite Er, Es. split; [done|]. rewrite Ho, failing_app, Hf.
  destruct (String.eqb_spec (csSeverity cs) SeverityFatal) as [Efat|Hne].
  - pose proof (apply_sent r cs res now Efat) as Hs. cbv zeta in Hs. rewrite !andb_true_r.
    destruct (fired cs), (fired (apply r cs res now).1).
    2,3: destruct Hs as [msg ->]; simpl; by rewrite decide_True.
    all: by rewrite ops_of_quiet.
  - rewrite !andb_false_r. rewrite ops_of_quiet; [done|]. by apply apply_quiet.
Qed.

(** *** A run *)

Definition set_checks (r : Runner) (l : checkState) (rd : option checkState) : Runner :=
  mkRunner (spec r) (recoveryThreshold r) (startedAt r) l rd.

(** The check [cs] that was [cs0] at the start, after its history [h]. *)
Definition check_ok (r : Runner) (types : gmap string NodeConditionType) (t : NodeConditionType)
    (xs : list (Time * string * Condition)) (cs0 : checkState) (h : past) (cs : checkState) : Prop :=
  state_of r h cs ∧ same_check cs0 cs ∧ tracks types t xs cs.

Record probe_ok (cfgs : gmap NodeConditionType NodeConditionConfig) (types : gmap string NodeConditionType)
    (t : NodeConditionType) (r0 : Runner) (evs : list probe_event) (s : Runner * MonitorManager nodeExporter)
    (xs : list (Time * string * Condition)) (l : checkState) (rd : option checkState) : Prop := {
  po_run : run_ok cfgs types xs s.2;
  po_chan : notifyChan s.2 = [];
  po_runner : s.1 = set_checks r0 l rd;
  po_live : check_ok r0 types t xs (liveness r0) (live_past r0 evs) l;
  po_ready : match readiness r0, rd with
             | Some rd0, Some rd => check_ok r0 types t xs rd0 (ready_past r0 rd0 evs) rd
             | None, None => True
             | _, _ => False
             end;
  po_length : (length xs ≤ 2 * length evs)%nat
}.

Lemma loop_takes cfgs types name now cs xs m :
  run_ok cfgs types xs m → notifyChan m = [] → Z.of_nat (length xs) + Z.of_nat (length cs) < 2 ^ 64 →
  ∃ m', runLoop m (cs ≫= λ c, [(now, EvNotify name c); (now, EvLoop)]) = Some m' ∧
    run_ok cfgs types (xs ++ map (λ c, (now, name, c)) cs) m' ∧ notifyChan m' = [].
Proof.
  revert xs m. induction cs as [|c cs IH]; intros xs m Hm Hn Hlen; [exists m; by rewrite app_nil_r|].
  cbn [length] in Hlen. destruct (run_ok_export cfgs types xs m now name c Hm) as (m1 & r & E & Hm1 & Hn1); [lia|].
  destruct (IH _ m1 Hm1) as (m' & E' & Hm' & Hn'); [congruence|rewrite length_app; simpl; lia|].
  exists m'. rewrite bind_cons. cbn [app runLoop run_event]. unfold Notify. rewrite Hn. simpl.
  assert (Hs : set_chan (set_chan m [mkNotification name c]) [] = m) by (destruct m; simpl in *; by subst).
  rewrite Hs, E. simpl. split; [done|]. by rewrite <-(assoc_L app) in Hm'.
Qed.

(** The cycle of one check keeps it and its history together, and the other check. *)
Lemma check_ok_apply r types t xs cs0 h cs res now name :
  1 ≤ recoveryThreshold r → types !! name = Some t → valid_severity (csSeverity cs0) = true →
  check_ok r types t xs cs0 h cs →
  check_ok r types t (xs ++ map (λ c, (now, name, c)) (sent (apply r cs res now).2)) cs0 ((now, res) :: h) (apply r cs res now).1.
Proof.
  intros HR Hn Hv (Hst & Hsame & Htr). pose proof Hsame as (E1 & E2 & E3 & E4). split; [by apply state_of_apply|]. split.
  - pose proof (apply_same r cs res now). unfold same_check in *. intuition congruence.
  - apply tracks_apply; [done|congruence|done].
Qed.

Lemma check_ok_other r types t xs cs0 h cs ys :
  (∀ y, y ∈ ys → Reason y.2 ≠ csReason cs0) → check_ok r types t xs cs0 h cs → check_ok r types t (xs ++ ys) cs0 h cs.
Proof.
  intros Hne (Hst & Hsame & Htr). split; [done|]. split; [done|]. pose proof Hsame as (_ & _ & E & _).
  induction ys as [|[[now n] c] ys IH] using rev_ind; [by rewrite app_nil_r|]. rewrite (assoc_L app).
  apply tracks_other; [rewrite E; apply (Hne (now, n, c)), elem_of_app; right; by left|].
  apply IH. intros y Hy. apply Hne, elem_of_app. by left.
Qed.

Lemma sent_reason r cs0 cs res (now : Time) (name : string) :
  same_check cs0 cs → valid_severity (csSeverity cs0) = true →
  ∀ y, y ∈ map (λ c, (now, name, c)) (sent (apply r cs res now).2) → Reason y.2 = csReason cs0.
Proof.
  intros (_ & _ & E3 & E4) Hv y Hy. apply list_elem_of_fmap in Hy as (c & -> & Hc). simpl. rewrite <-E3.
  by apply (apply_conditions r cs res now c); [congruence|].
Qed.

Lemma do_check_same ts r l rd cs0 cs : same_check cs0 cs → do_check ts (set_checks r l rd) cs = do_check ts r cs0.
Proof. intros (E1 & E2 & _). unfold do_check. simpl. by rewrite E1, E2. Qed.

Lemma apply_set_checks r l rd cs res now : apply (set_checks r l rd) cs res now = apply r cs res now.
Proof. done. Qed.

Lemma sent_length r cs res now : (length (sent (apply r cs res now).2) ≤ 1)%nat.
Proof. destruct (apply r cs res now) as [cs' [[c|]|]]; simpl; lia. Qed.

Lemma probe_step_ok cfgs types t name r0 evs s xs l rd ev :
  1 ≤ recoveryThreshold r0 → types !! name = Some t → valid_severity (csSeverity (liveness r0)) = true →
  (∀ rd0, readiness r0 = Some rd0 → valid_severity (csSeverity rd0) = true ∧ csReason rd0 ≠ csReason (liveness r0)) →
  (∀ now n c, ev = Other now n c → Reason c ≠ csReason (liveness r0) ∧ ∀ rd0, readiness r0 = Some rd0 → Reason c ≠ csReason rd0) →
  Z.of_nat (2 * S (length evs)) < 2 ^ 64 →
  probe_ok cfgs types t r0 evs s xs l rd →
  ∃ s' xs' l' rd', probe_step name s ev = Some s' ∧ probe_ok cfgs types t r0 (evs ++ [ev]) s' xs' l' rd'.
Proof.
  intros HR Hn Hvl Hrd Hev Hlen [Hm Hc Er Hl Hr Hx]. destruct s as [r m]. simpl in *. subst r.
  assert (Hlp : live_past r0 (evs ++ [ev]) = (match live_cycle r0 ev with Some x => [x] | None => [] end) ++ live_past r0 evs).
  { unfold live_past. rewrite omap_app, rev_app_distr. simpl. by destruct (live_cycle r0 ev). }
  assert (Hrp : ∀ rd0, ready_past r0 rd0 (evs ++ [ev]) = (match ready_cycle r0 rd0 ev with Some x => [x] | None => [] end) ++ ready_past r0 rd0 evs).
  { intros rd0. unfold ready_past. rewrite omap_app, rev_app_distr. simpl. by destruct (ready_cycle r0 rd0 ev). }
  destruct ev as [now ts|now n c].
  2: { destruct (Hev now n c eq_refl) as [Hne1 Hne2].
    destruct (run_ok_export cfgs types xs m now n c Hm) as (m1 & res & E & Hm1 & Hn1); [lia|].
    eexists _, (xs ++ [(now, n, c)]), l, rd. cbn [probe_step fst snd runLoop run_event export_all]. rewrite E. simpl.
    split; [done|]. split; simpl; [done|congruence|done|..].
    - rewrite Hlp. apply check_ok_other; [|done]. by intros y ->%list_elem_of_singleton.
    - destruct (readiness r0) as [rd0|], rd as [rd1|]; try done. rewrite Hrp.
      apply check_ok_other; [|done]. intros y ->%list_elem_of_singleton. by apply Hne2.
    - rewrite !length_app. simpl. lia. }
  cbn [probe_step fst snd]. unfold runOnce. cbn [liveness readiness spec recoveryThreshold startedAt set_checks].
  rewrite (do_check_same ts r0 l rd (liveness r0) l) by apply Hl.
  cbn [live_cycle ready_cycle] in Hlp, Hrp. set (res := do_check ts r0 (liveness r0)) in *.
  rewrite apply_set_checks. pose proof (check_ok_apply r0 types t xs (liveness r0) _ l res now name HR Hn Hvl Hl) as Hl'.
  pose proof (sent_reason r0 (liveness r0) l res now name (proj1 (proj2 Hl)) Hvl) as Hreason.
  pose proof (sent_length r0 l res now) as Hsl.
  destruct (apply r0 l res now) as [l' out] eqn:Ea. cbn [fst snd] in *.
  set (ys := map (λ c, (now, name, c)) (sent out)) in *.
  assert (Hskip : ∀ m', runLoop m (sent out ≫= λ c, [(now, EvNotify name c); (now, EvLoop)]) = Some m' →
    run_ok cfgs types (xs ++ ys) m' → notifyChan m' = [] →
    (∀ rd0, readiness r0 = Some rd0 → outcome res ≠ OutcomeHealthy) →
    probe_ok cfgs types t r0 (evs ++ [Tick now ts]) (set_checks r0 l' rd, m') (xs ++ ys) l' rd).
  { intros m' _ Hm' Hn' Hno. split; simpl; [done..|by rewrite Hlp| |].
    - destruct (readiness r0) as [rd0|], rd as [rd1|]; try done. rewrite Hrp, decide_False by (by eapply Hno).
      apply check_ok_other; [|done]. intros y Hy. rewrite (Hreason y Hy). destruct (Hrd rd0 eq_refl). done.
    - rewrite !length_app. unfold ys. rewrite length_map. simpl. lia. }
  assert (Hrun : ∃ m', runLoop m (sent out ≫= λ c, [(now, EvNotify name c); (now, EvLoop)]) = Some m' ∧
    run_ok cfgs types (xs ++ ys) m' ∧ notifyChan m' = []) by (apply loop_takes; [done|done|lia]).
  destruct (decide (outcome res = OutcomeHealthy)) as [Eh|Hnh].
  2: { destruct Hrun as (m' & E & Hm' & Hn'). exists (set_checks r0 l' rd, m'), (xs ++ ys), l', rd.
    split; [|apply Hskip; by auto]. destruct (outcome res); try done; by rewrite E. }
  rewrite Eh. destruct rd as [rd|].
  2: { destruct Hrun as (m' & E & Hm' & Hn'). exists (set_checks r0 l' None, m'), (xs ++ ys), l', None.
    split; [by rewrite E|]. apply Hskip; try done. by destruct (readiness r0). }
  destruct (readiness r0) as [rd0|] eqn:Erd; [|done]. destruct (Hrd rd0 eq_refl) as [Hv Hne].
  change (mkRunner (spec r0) (recoveryThreshold r0) (startedAt r0) l' (Some rd)) with (set_checks r0 l' (Some rd)).
  rewrite (do_check_same ts r0 l' (Some rd) rd0 rd) by apply Hr. set (res2 := do_check ts r0 rd0) in *.
  rewrite apply_set_checks.
  assert (Hr1 : check_ok r0 types t (xs ++ ys) rd0 (ready_past r0 rd0 evs) rd).
  { apply check_ok_other; [|done]. intros y Hy. rewrite (Hreason y Hy). done. }
  pose proof (check_ok_apply r0 types t _ rd0 _ rd res2 now name HR Hn Hv Hr1) as Hr2.
  pose proof (sent_reason r0 rd0 rd res2 now name (proj1 (proj2 Hr)) Hv) as Hreason2.
  pose proof (sent_length r0 rd res2 now) as Hsl2.
  destruct (apply r0 rd res2 now) as [rd' out2] eqn:Ea2. cbn [fst snd] in *.
  destruct (loop_takes cfgs types name now (sent out ++ sent out2) xs m Hm Hc) as (m' & E & Hm' & Hn');
    [rewrite length_app; lia|].
  exists (set_checks r0 l' (Some rd'), m'), (xs ++ map (λ c, (now, name, c)) (sent out ++ sent out2)), l', (Some rd').
  rewrite E. split; [done|]. rewrite map_app, (assoc_L app). fold ys. split; simpl; [by rewrite map_app, (assoc_L app) in Hm'|done|done|..].
  - rewrite Hlp. apply check_ok_other; [|done]. intros y Hy. by rewrite (Hreason2 y Hy).
  - by rewrite Erd, Hrp.
  - rewrite !length_app. unfold ys. rewrite !length_map. simpl. lia.
Qed.

(** What a history says of a check in the exporter: nothing unless the check is fatal. *)
Definition should_hold (r : Runner) (cs : checkState) (h : past) : bool :=
  failed r h && String.eqb (csSeverity cs) SeverityFatal.

Lemma check_ok_holds cfgs types t r xs cs0 h cs m :
  run_ok cfgs types xs m → check_ok r types t xs cs0 h cs → holds_reason m t (csReason cs0) ↔ should_hold r cs0 h = true.
Proof.
  intros [_ _ _ Hi _ _] ((_ & Hf & _) & (_ & _ & E3 & E4) & _ & Ht). unfold holds_reason, should_hold.
  rewrite (implements_reasons _ _ _ _ _ Hi), spec_failing, <-E3, Ht. by rewrite Hf, E4.
Qed.

Lemma probe_run_ok cfgs types t name r0 evs evs0 s xs l rd :
  1 ≤ recoveryThreshold r0 → types !! name = Some t → valid_severity (csSeverity (liveness r0)) = true →
  (∀ rd0, readiness r0 = Some rd0 → valid_severity (csSeverity rd0) = true ∧ csReason rd0 ≠ csReason (liveness r0)) →
  (∀ now n c, Other now n c ∈ evs → Reason c ≠ csReason (liveness r0) ∧ ∀ rd0, readiness r0 = Some rd0 → Reason c ≠ csReason rd0) →
  Z.of_nat (2 * (length evs0 + length evs)) < 2 ^ 64 →
  probe_ok cfgs types t r0 evs0 s xs l rd →
  ∃ s' xs' l' rd', probe_run name s evs = Some s' ∧ probe_ok cfgs types t r0 (evs0 ++ evs) s' xs' l' rd'.
Proof.
  intros HR Hn Hvl Hrd. revert evs0 s xs l rd. induction evs as [|ev evs IH]; intros evs0 s xs l rd Hev Hlen Hok.
  { exists s, xs, l, rd. by rewrite app_nil_r. }
  cbn [length] in Hlen.
  destruct (probe_step_ok cfgs types t name r0 evs0 s xs l rd ev) as (s1 & xs1 & l1 & rd1 & E & Hok1); try done; [|lia|].
  { intros now n c ->. apply (Hev now n c). by left. }
  destruct (IH (evs0 ++ [ev]) s1 xs1 l1 rd1) as (s' & xs' & l' & rd' & E' & Hok'); [|rewrite length_app; simpl; lia|done|].
  { intros now n c Hin. apply (Hev now n c). by right. }
  exists s', xs', l', rd'. cbn [probe_run]. rewrite E. split; [done|]. by rewrite <-(assoc_L app) in Hok'.
Qed.

(** C6. End to end.  A runner built from a valid spec and started, and a manager with any
    monitors registered, the probe's among them: whatever the transports answer in the
    cycles, and whatever conditions with other reasons the loop takes in between, nothing
    panics, and afterwards the exporter holds the reason of each check, under the type of
    the probe's monitor, exactly when the check is fatal and its history says that it has
    failed.  So the exporter shows that type False exactly when a fatal check of the probe
    has failed or a reason of another monitor is unresolved. *)
Theorem probe_drives_condition sp r started kmsg now0 cfgs regs name t evs :
  NewRunner sp = Ok r →
  let r0 := start r started in
  let m0 := register_all kmsg (NewMonitorManager (NewNodeExporter now0 cfgs)) regs in
  conditionTypeMap m0 !! name = Some t →
  (∀ now n c, Other now n c ∈ evs →
     Reason c ≠ csReason (liveness r0) ∧ ∀ rd0, readiness r0 = Some rd0 → Reason c ≠ csReason rd0) →
  Z.of_nat (2 * length evs) < 2 ^ 64 →
  let live := should_hold r0 (liveness r0) (live_past r0 evs) in
  let ready := match readiness r0 with Some rd0 => should_hold r0 rd0 (ready_past r0 rd0 evs) | None => false end in
  ∃ r' m', probe_run name (r0, m0) evs = Some (r', m') ∧
    (holds_reason m' t (csReason (liveness r0)) ↔ live = true) ∧
    (∀ rd0, readiness r0 = Some rd0 → holds_reason m' t (csReason rd0) ↔ ready = true) ∧
    (shows_false (exporter m') t ↔ live = true ∨ ready = true ∨
       ∃ q, holds_reason m' t q ∧ q ≠ csReason (liveness r0) ∧ ∀ rd0, readiness r0 = Some rd0 → q ≠ csReason rd0).
Proof.
  intros (HR & Hfr & Hv & _ & Hrd)%NewRunner_ok r0 m0 Hn Hev Hlen live ready.
  destruct (register_all_new kmsg now0 cfgs regs) as [Hm0 Hc0]. fold m0 in Hm0, Hc0.
  assert (Hfresh : ∀ cs, fresh cs → check_ok r0 (conditionTypeMap m0) t [] cs [] cs).
  { intros cs Hf. split; [|split; [done|]].
    - split; [by apply fresh_inv|]. split; [by destruct Hf as (_ & _ & ->)|done].
    - split; [done|]. destruct Hf as (_ & _ & ->). done. }
  destruct (probe_run_ok cfgs (conditionTypeMap m0) t name r0 evs [] (r0, m0) [] (liveness r0) (readiness r0))
    as ([r' m'] & xs & l & rd & E & [Hm _ _ Hl Hr _]); try done.
  - intros rd0 H. destruct (Hrd rd0 H) as (_ & ? & _ & ?). done.
  - split; simpl; [done|done|by destruct r| | |].
    + by apply Hfresh.
    + destruct (readiness r) as [rd0|] eqn:Er; [|done]. apply Hfresh. by apply Hrd.
    + done.
  - exists r', m'. split; [done|].
    assert (H1 : holds_reason m' t (csReason (liveness r0)) ↔ live = true) by (by eapply check_ok_holds).
    assert (H2 : ∀ rd0, readiness r0 = Some rd0 → holds_reason m' t (csReason rd0) ↔ ready = true).
    { intros rd0 H. unfold ready. cbn [snd] in Hm. rewrite H in *. destruct rd as [rd|]; [|done]. by eapply check_ok_holds. }
    split; [done|]. split; [done|].
    destruct Hm as [_ _ _ Hi _ _]. assert (Hsf : shows_false (exporter m') t ↔ ∃ q, holds_reason m' t q).
    { unfold shows_false, holds_reason. rewrite (implements_unhealthy _ _ _ _ Hi). split.
      - intros Hne. destruct (recency _) as [|q qs] eqn:Eq; [done|]. exists q. apply (implements_reasons _ _ _ _ _ Hi).
        cbn [snd] in *. rewrite Eq. by left.
      - intros [q Hq%(implements_reasons _ _ _ _ _ Hi)] Hnil. cbn [snd] in *. rewrite Hnil in Hq. by apply elem_of_nil in Hq. }
    rewrite Hsf. split.
    + intros [q Hq]. destruct (decide (q = csReason (liveness r0))) as [->|Hne]; [left; by apply H1|]. right.
      destruct (readiness r0) as [rd0|] eqn:Er; [|right; eauto 10].
      destruct (decide (q = csReason rd0)) as [->|Hne2]; [left; by apply (H2 rd0)|].
      right. exists q. split_and!; [done|done|]. by intros ? [= <-].
    + intros [H%H1|[H|(q & Hq & _)]]; [eauto| |eauto]. unfold ready in H, H2.
      destruct (readiness r0) as [rd0|]; [|done]. exists (csReason rd0). by apply H2.
Qed.

(** ** Concrete instances *)

Definition ex_check (path reason : string) : Check :=
  mkCheck TransportHTTPLoopback "127.0.0.1:8173" path reason SeverityFatal.
Definition ex_spec : Spec :=
  mkSpec "ipamd" (mkChecks (ex_check "/healthz" "IPAMDNotRunning")
                    (Some (ex_check "/readyz" "IPAMDNotReady")) None)
    (30 * Second) 3 2 (2 * Minute).
Definition ex_runner : Runner :=
  mkRunner ex_spec 2 0 (newCheckState livenessCheck (ex_check "/healthz" "IPAMDNotRunning"))
    (Some (newCheckState readinessCheck (ex_check "/readyz" "IPAMDNotReady"))).
Definition ex_down : Result := mkResult OutcomeUnhealthy "refused".
Definition ex_cycles : list (Time * Result) :=
  [(3 * Minute, ex_down); (4 * Minute, mkResult OutcomeUnknown "bus"); (5 * Minute, ex_down);
   (6 * Minute, ex_down)].


Lemma probe_transitions_witness :
  sent (apply ex_runner (run_check ex_runner (liveness ex_runner) (take 3 ex_cycles)).1 ex_down (6 * Minute)).2 =
  [mkCondition "IPAMDNotRunning" "refused" SeverityFatal 0 false].
Proof.
  rewrite (probe_transitions ex_runner (liveness ex_runner) (take 3 ex_cycles) (6 * Minute) ex_down);
    [vm_compute; reflexivity|discriminate|repeat split].
Defined.

(** The agent is down from the start, and another monitor reports a reason of its own. *)
Definition ex_events : list probe_event :=
  [Tick (3 * Minute) (λ _, Some (λ _, ex_down)); Other (3 * Minute) "other" (ex_cond "IPAMDNoIPs" "none");
   Tick (4 * Minute) (λ _, Some (λ _, ex_down)); Tick (5 * Minute) (λ _, Some (λ _, ex_down))].

Lemma probe_drives_condition_witness :
  NewRunner ex_spec = Ok ex_runner ∧
  ∃ r' m', probe_run "networking"
      (ex_runner, register_all "/dev/kmsg" (NewMonitorManager (NewNodeExporter 0 ∅)) [("networking", NetworkingReady, [])])
      ex_events = Some (r', m') ∧
    holds_reason m' NetworkingReady "IPAMDNotRunning" ∧ ¬ holds_reason m' NetworkingReady "IPAMDNotReady" ∧
    shows_false (exporter m') NetworkingReady.
Proof.
  assert (Hr : NewRunner ex_spec = Ok ex_runner) by (vm_compute; reflexivity). split; [exact Hr|].
  destruct (probe_drives_condition ex_spec ex_runner 0 "/dev/kmsg" 0 ∅ [("networking", NetworkingReady, [])] "networking"
    NetworkingReady ex_events Hr) as (r' & m' & E & H1 & H2 & H3); [vm_compute; reflexivity| |reflexivity|].
  - intros now n c Hin. apply elem_of_cons in Hin as [H|Hin]; [discriminate H|].
    apply elem_of_cons in Hin as [H|Hin].
    + injection H as -> -> ->. split; [discriminate|]. intros rd0 H. injection H as <-. discriminate.
    + repeat (apply elem_of_cons in Hin as [H|Hin]; [discriminate H|]). destruct (not_elem_of_nil _ Hin).
  - exists r', m'. split; [exact E|]. assert (Hl : should_hold (start ex_runner 0) (liveness (start ex_runner 0))
      (live_past (start ex_runner 0) ex_events) = true) by (vm_compute; reflexivity).
    split; [apply H1; exact Hl|]. split; [|apply H3; left; exact Hl].
    intros H. apply (H2 _ eq_refl) in H. vm_compute in H. discriminate H.
Defined.

Lemma validated_probe_reports_witness :
  NewRunner ex_spec = Ok ex_runner ∧
  ∀ c, c ∈ (run_check ex_runner (liveness ex_runner) ex_cycles).2 → good_condition c.
Proof.
  assert (Hr : NewRunner ex_spec = Ok ex_runner) by (vm_compute; reflexivity).
  split; [exact Hr|]. intros c Hc.
  exact (proj1 (proj1 (validated_probe_reports ex_spec ex_runner ex_cycles Hr) c Hc)).
Defined.
