(* ===== verification/Classify.v ===== *)
(** * Classify: from GPU signals to conditions ([monitors/nvidia/classify]).

    [Classify] is the policy of the NVIDIA monitor: a pure function from a
    snapshot of signals to conditions.  A pointer field of the snapshot is an
    [option].  [SuppressRepeatedWarnings] rate-limits warnings that repeat. *)

From stdpp Require Import sorting.
From S2P Require Import Prelude GoStrings Monitor Reasons Renotify Registry.

(** ** xid.go *)

Definition WellKnownXidCodes : list Z :=
  [46; 48; 54; 62; 63; 64; 74; 79; 95; 109; 110; 119; 120; 136; 140; 142; 143; 151; 155; 156; 158].

Definition isWellKnownXid (xid : Z) : bool := existsb (λ v, v =? xid) WellKnownXidCodes.

(** ** fabric.go *)

Definition DcgmFMStatusNotSupported : Z := 0.
Definition DcgmFMStatusNotStarted : Z := 1.
Definition DcgmFMStatusInProgress : Z := 2.
Definition DcgmFMStatusSuccess : Z := 3.
Definition DcgmFMStatusFailure : Z := 4.
Definition DcgmFMStatusUnrecognized : Z := 5.
Definition DcgmFMStatusNvmlTooOld : Z := 6.
Definition dcgmStatusBadParam : Z := -1.

Definition dcgmInt64Blank : Z := 9223372036854775792. (* 0x7ffffffffffffff0 *)
Definition isInt64Blank (v : Z) : bool := dcgmInt64Blank <=? v.

Definition fabricManagerStatusNames : list (Z * string) :=
  [(DcgmFMStatusNotSupported, "NotSupported"); (DcgmFMStatusNotStarted, "NotStarted");
   (DcgmFMStatusInProgress, "InProgress"); (DcgmFMStatusSuccess, "Success");
   (DcgmFMStatusFailure, "Failure"); (DcgmFMStatusUnrecognized, "Unrecognized");
   (DcgmFMStatusNvmlTooOld, "NvmlTooOld")].

Record fabricHealthSubField := mkSubField {
  sfName : string;
  shift : Z;
  widthMask : Z;
  fault : Z → bool
}.

Definition faultWhenTrue (v : Z) : bool := v =? 1.

Definition fabricHealthSubFields : list fabricHealthSubField :=
  [mkSubField "degraded_bw" 0 3 faultWhenTrue;
   mkSubField "route_recovery" 2 3 faultWhenTrue;
   mkSubField "route_unhealthy" 4 3 faultWhenTrue;
   mkSubField "access_timeout_recovery" 6 3 faultWhenTrue;
   mkSubField "incorrect_configuration" 8 15 (λ v, 2 <=? v)].

(** The value of a sub-field; [>>] on an [int64] is the arithmetic shift. *)
Definition sub_field (mask : Z) (sf : fabricHealthSubField) : Z :=
  Z.land (Z.shiftr mask (shift sf)) (widthMask sf).

Definition fabricHealthMaskFaults (mask : Z) : list string :=
  omap (λ sf, let v := sub_field mask sf in
              if fault sf v then Some (sfName sf +:+ "=" +:+ Itoa v) else None)
    fabricHealthSubFields.

(** ** classify.go *)

Record NormalizedSignals := mkSignals {
  XIDs : list Z;
  FabricHealthMask : option Z;
  FabricManagerStatus : option Z;
  DoubleBitECC : bool;
  NVLinkError : bool;
  PageRetirement : bool;
  PowerViolation : bool;
  ThermalViolation : bool;
  PCIeReplay : bool;
  GPUCount : option Z;
  GPUDeviceFileCount : option Z;
  GPUDeviceFilePath : string;
  ExpectedGPUCount : option Z
}.

Definition fabricManagerStatusMessage (status : Z) : string :=
  let name := match head (filter (λ p, p.1 = status) fabricManagerStatusNames) with
              | Some p => p.2
              | None => EmptyString
              end in
  let name := if String.eqb name EmptyString then Sprintf "Unknown(%d)" [AInt "int64" status] else name in
  Sprintf "Fabric Manager status: %s" [AStr name].

Definition classify_xid (xid : Z) : Condition :=
  let a := AInt "uint" xid in
  if isWellKnownXid xid then
    condition_of NvidiaXIDError [a]
      (Sprintf "detected XID-%d on the instance, review kernel logs for additional information." [a])
  else
    condition_of NvidiaXIDWarning [a]
      (Sprintf "detected unknown XID-%d on the instance, review kernel logs for additional information." [a]).

Definition classify_mask (mask : option Z) : list Condition :=
  match mask with
  | None => []
  | Some m =>
      if isInt64Blank (i64 m) then []
      else match fabricHealthMaskFaults (i64 m) with
           | [] => []
           | faults => [condition_of NvidiaFabricError []
                          ("GPU fabric health mask 0x" +:+ Hex m +:+ ": " +:+ Join faults ", ")]
           end
  end.

(** The statuses of the two non-default cases of the switch. *)
Definition fm_quiet (status : Z) : bool :=
  existsb (Z.eqb status)
    [DcgmFMStatusSuccess; DcgmFMStatusNotSupported; DcgmFMStatusInProgress; DcgmFMStatusNotStarted].
Definition fm_unknown (status : Z) : bool :=
  existsb (Z.eqb status) [DcgmFMStatusUnrecognized; DcgmFMStatusNvmlTooOld; dcgmStatusBadParam].

Definition classify_fm (status : option Z) : list Condition :=
  match status with
  | None => []
  | Some status =>
      if isInt64Blank status then []
      else if fm_quiet status then []
      else if fm_unknown status then
        [condition_of FabricManagerNotRunningWarning [] (fabricManagerStatusMessage status)]
      else [condition_of FabricManagerNotRunning [] (fabricManagerStatusMessage status)]
  end.

Definition flag (b : bool) (r : ReasonMeta) (msg : string) : list Condition :=
  if b then [condition_of r [] msg] else [].

Definition classify_files (s : NormalizedSignals) : list Condition :=
  match GPUCount s, GPUDeviceFileCount s with
  | Some n, Some f =>
      if negb (n =? f) then
        [condition_of NvidiaDeviceCountMismatch []
           (Sprintf "DCGM detected %d GPUs but %d nvidia device files were detected at %s"
              [AInt "uint" n; AInt "uint" f; AStr (GPUDeviceFilePath s)])]
      else []
  | _, _ => []
  end.

Definition classify_expected (s : NormalizedSignals) : list Condition :=
  match GPUCount s, ExpectedGPUCount s with
  | Some n, Some e =>
      if n <? e then
        [condition_of NvidiaDeviceCountMismatch []
           (Sprintf "expected %d GPUs for this instance type but only %d were detected — possible hardware failure"
              [AInt "uint" e; AInt "uint" n])]
      else []
  | _, _ => []
  end.

Definition Classify (s : NormalizedSignals) : list Condition :=
  (classify_xid <$> XIDs s) ++
  classify_mask (FabricHealthMask s) ++
  classify_fm (FabricManagerStatus s) ++
  flag (DoubleBitECC s) NvidiaDoubleBitError "detected NVIDIA double-bit ECC error" ++
  flag (NVLinkError s) NvidiaNVLinkError "detected NVIDIA NVLink error" ++
  flag (PageRetirement s) NvidiaPageRetirement "page retirement threshold reached" ++
  flag (PowerViolation s) NvidiaPowerError "GPU power violation" ++
  flag (ThermalViolation s) NvidiaThermalError "GPU thermal violation" ++
  flag (PCIeReplay s) NvidiaPCIeError "GPU PCIe replay" ++
  classify_files s ++ classify_expected s.

(** ** warnings.go *)

Definition WarningReNotifyInterval : Duration := 30 * Minute.

(** [slices.Compact]: consecutive equal elements once. *)
Fixpoint Compact (l : list string) : list string :=
  match l with
  | [] => []
  | x :: l' =>
      match l' with
      | y :: _ => if String.eqb x y then Compact l' else x :: Compact l'
      | [] => [x]
      end
  end.

Definition warning_key (c : Condition) : string :=
  Reason c +:+ String Ascii.zero (Message c).

(** The loop that rebuilds the list; [kept] holds the selected warnings kept so far. *)
Fixpoint rebuild (isSelected : Condition → bool) (keep : bool) (kept : list Condition)
    (conds : list Condition) : list Condition :=
  match conds with
  | [] => []
  | c :: conds' =>
      if isSelected c then
        if negb keep || bool_decide (c ∈ kept) then rebuild isSelected keep kept conds'
        else c :: rebuild isSelected keep (c :: kept) conds'
      else c :: rebuild isSelected keep kept conds'
  end.

Definition is_selected (selected : Condition → bool) (c : Condition) : bool :=
  String.eqb (CondSeverity c) SeverityWarning && selected c.

(** The key of the set of selected warnings. *)
Definition warnings_key (keys : list string) : string :=
  Join (Compact (merge_sort String.le keys)) (String (byte_of 10) EmptyString).

Definition SuppressRepeatedWarnings (notified : Tracker string) (now : Time)
    (conds : list Condition) (selected : Condition → bool) : list Condition * Tracker string :=
  let isSelected := is_selected selected in
  let keys := warning_key <$> filter (λ c, isSelected c = true) conds in
  match keys with
  | [] => (conds, Reset EmptyString notified)
  | _ =>
      let key := warnings_key keys in
      let keep := ShouldNotify notified key now in
      let notified := if keep then Notified notified key now else notified in
      (rebuild isSelected keep [] conds, notified)
  end.

(** ** The fabric health mask *)

Lemma sub_field_mod mask name k w f :
  0 ≤ k → 0 ≤ w → sub_field mask (mkSubField name k (2 ^ w - 1) f) = (mask / 2 ^ k) mod 2 ^ w.
Proof.
  intros Hk Hw. unfold sub_field; simpl. rewrite Z.shiftr_div_pow2 by done.
  replace (2 ^ w - 1) with (Z.ones w) by (rewrite Z.ones_equiv; lia). by apply Z.land_ones.
Qed.

Lemma faults_nil mask :
  fabricHealthMaskFaults mask = [] ↔
  Forall (λ sf, fault sf (sub_field mask sf) = false) fabricHealthSubFields.
Proof.
  unfold fabricHealthMaskFaults. generalize fabricHealthSubFields as l.
  induction l as [|sf l IH]; simpl; [done|]. rewrite Forall_cons, <- IH.
  destruct (fault sf (sub_field mask sf)); simpl; naive_solver.
Qed.

(** A fabric health mask reports a fault exactly when one of its four two-bit
    sub-fields is 1 or its configuration field is at least 2; every other bit of the
    mask, those from 12 up included, is ignored. *)
Theorem fabric_mask_healthy_iff mask :
  fabricHealthMaskFaults mask = [] ↔
  mask mod 4 ≠ 1 ∧ (mask / 4) mod 4 ≠ 1 ∧ (mask / 16) mod 4 ≠ 1 ∧ (mask / 64) mod 4 ≠ 1 ∧
  (mask / 256) mod 16 < 2.
Proof.
  rewrite faults_nil. unfold fabricHealthSubFields. rewrite !Forall_cons.
  rewrite (sub_field_mod mask _ 0 2), (sub_field_mod mask _ 2 2), (sub_field_mod mask _ 4 2),
    (sub_field_mod mask _ 6 2), (sub_field_mod mask _ 8 4) by lia.
  cbn [fault]. unfold faultWhenTrue. rewrite !Z.eqb_neq, Z.leb_gt, Z.pow_0_r, Z.div_1_r.
  change (2 ^ 2) with 4. change (2 ^ 4) with 16. change (2 ^ 6) with 64. change (2 ^ 8) with 256.
  rewrite Forall_nil. tauto.
Qed.

(** ** What is fatal *)

Lemma severity_of r args msg : CondSeverity (condition_of r args msg) = defaultSeverity r.
Proof. done. Qed.

Abbreviation has_fatal l := (∃ c, c ∈ l ∧ CondSeverity c = SeverityFatal).

Lemma has_fatal_app l l' : has_fatal (l ++ l') ↔ has_fatal l ∨ has_fatal l'.
Proof. setoid_rewrite elem_of_app. naive_solver. Qed.

Lemma has_fatal_nil : has_fatal ([] : list Condition) ↔ False.
Proof. split; [|done]. intros (c & Hc & _). by apply elem_of_nil in Hc. Qed.

Lemma has_fatal_one c : has_fatal [c] ↔ CondSeverity c = SeverityFatal.
Proof. setoid_rewrite list_elem_of_singleton. naive_solver. Qed.

Lemma has_fatal_flag b r msg :
  has_fatal (flag b r msg) ↔ b = true ∧ defaultSeverity r = SeverityFatal.
Proof.
  unfold flag. destruct b; [rewrite has_fatal_one, severity_of|rewrite has_fatal_nil]; naive_solver.
Qed.

Lemma has_fatal_xids (xids : list Z) :
  has_fatal (classify_xid <$> xids) ↔ ∃ x, x ∈ xids ∧ isWellKnownXid x = true.
Proof.
  setoid_rewrite list_elem_of_fmap. unfold classify_xid. split.
  - intros (c & (x & -> & Hx) & Hs). exists x. split; [done|].
    by destruct (isWellKnownXid x).
  - intros (x & Hx & Hw). eexists. split; [by exists x|]. by rewrite Hw.
Qed.

(** Close an equivalence whose right side contradicts the case at hand. *)
Local Ltac no_case := rewrite has_fatal_nil; split; [done|];
  intros (? & [= <-] & ? & ?) || intros (? & ? & ?); try congruence; intuition congruence.

Lemma has_fatal_mask mask :
  has_fatal (classify_mask mask) ↔
  ∃ m, mask = Some m ∧ isInt64Blank (i64 m) = false ∧ fabricHealthMaskFaults (i64 m) ≠ [].
Proof.
  unfold classify_mask. destruct mask as [m|]; [|no_case].
  destruct (isInt64Blank (i64 m)) eqn:E; [no_case|].
  destruct (fabricHealthMaskFaults (i64 m)) eqn:Ef; [no_case|].
  rewrite has_fatal_one, severity_of. split; [|done]. intros _. exists m. by rewrite Ef.
Qed.

Lemma has_fatal_fm status :
  has_fatal (classify_fm status) ↔
  ∃ st, status = Some st ∧ isInt64Blank st = false ∧ fm_quiet st = false ∧ fm_unknown st = false.
Proof.
  unfold classify_fm. destruct status as [st|]; [|no_case].
  destruct (isInt64Blank st) eqn:E1; [no_case|]. destruct (fm_quiet st) eqn:E2; [no_case|].
  destruct (fm_unknown st) eqn:E3; rewrite has_fatal_one, severity_of.
  - split; [done|]. intros (? & [= <-] & ? & ? & ?). congruence.
  - split; [|done]. eauto.
Qed.

(** Two counts that were observed and satisfy a test. *)
Definition counts (a b : option Z) (test : Z → Z → Prop) : Prop :=
  ∃ n m, a = Some n ∧ b = Some m ∧ test n m.

Lemma has_fatal_counts s :
  has_fatal (classify_files s ++ classify_expected s) ↔
  counts (GPUCount s) (GPUDeviceFileCount s) (λ n f, n ≠ f) ∨
  counts (GPUCount s) (ExpectedGPUCount s) (λ n e, n < e).
Proof.
  rewrite has_fatal_app. unfold classify_files, classify_expected, counts. f_equiv.
  - destruct (GPUCount s) as [n|]; [|rewrite has_fatal_nil; naive_solver].
    destruct (GPUDeviceFileCount s) as [f|]; [|rewrite has_fatal_nil; naive_solver].
    destruct (Z.eqb_spec n f); cbn [negb]; [rewrite has_fatal_nil; naive_solver|].
    rewrite has_fatal_one, severity_of. naive_solver.
  - destruct (GPUCount s) as [n|]; [|rewrite has_fatal_nil; naive_solver].
    destruct (ExpectedGPUCount s) as [e|]; [|rewrite has_fatal_nil; naive_solver].
    destruct (Z.ltb_spec n e); [rewrite has_fatal_one, severity_of; naive_solver|].
    rewrite has_fatal_nil. naive_solver lia.
Qed.

(** A snapshot makes the node's accelerators unready exactly when it has a
    well-known XID, a fabric mask that was read and shows a fault, a Fabric Manager
    status that was read and is neither benign nor unknown, a double-bit ECC or
    NVLink error, or a GPU count that disagrees with the device files or is short of
    the instance type's. *)
Theorem classify_fatal_iff s :
  has_fatal (Classify s) ↔
  (∃ x, x ∈ XIDs s ∧ isWellKnownXid x = true) ∨
  (∃ m, FabricHealthMask s = Some m ∧ isInt64Blank (i64 m) = false ∧
        fabricHealthMaskFaults (i64 m) ≠ []) ∨
  (∃ st, FabricManagerStatus s = Some st ∧ isInt64Blank st = false ∧
         fm_quiet st = false ∧ fm_unknown st = false) ∨
  DoubleBitECC s = true ∨ NVLinkError s = true ∨
  counts (GPUCount s) (GPUDeviceFileCount s) (λ n f, n ≠ f) ∨
  counts (GPUCount s) (ExpectedGPUCount s) (λ n e, n < e).
Proof.
  unfold Classify. do 9 rewrite has_fatal_app.
  rewrite has_fatal_xids, has_fatal_mask, has_fatal_fm, !has_fatal_flag, has_fatal_counts.
  cbn [defaultSeverity NvidiaDoubleBitError NvidiaNVLinkError NvidiaPageRetirement
    NvidiaPowerError NvidiaThermalError NvidiaPCIeError].
  intuition discriminate.
Qed.

(** ** Repeated warnings *)

Lemma Compact_elem x l : x ∈ Compact l ↔ x ∈ l.
Proof.
  induction l as [|a l IH]; [done|]. destruct l as [|b l]; [done|].
  change (Compact (a :: b :: l)) with
    (if String.eqb a b then Compact (b :: l) else a :: Compact (b :: l)).
  destruct (String.eqb_spec a b) as [->|Hne].
  - rewrite IH, !elem_of_cons. tauto.
  - rewrite elem_of_cons, IH, !elem_of_cons. done.
Qed.

Lemma Compact_sorted l : StronglySorted String.le l → StronglySorted String.le (Compact l) ∧ NoDup (Compact l).
Proof.
  induction l as [|a l IH]; intros Hs; [by repeat constructor|].
  destruct l as [|b l]; [split; [done|apply NoDup_singleton]|].
  apply StronglySorted_inv in Hs as [Hs Ha]. destruct (IH Hs) as [IH1 IH2].
  change (Compact (a :: b :: l)) with
    (if String.eqb a b then Compact (b :: l) else a :: Compact (b :: l)).
  destruct (String.eqb_spec a b) as [->|Hne]; [done|]. split.
  - constructor; [done|]. rewrite Forall_forall in Ha |- *. intros x Hx. apply Ha. by apply Compact_elem.
  - constructor; [|done]. rewrite Compact_elem. intros Hin. apply Hne.
    apply elem_of_cons in Hin as [|Hin]; [done|]. apply (anti_symm String.le).
    + rewrite Forall_forall in Ha. apply Ha. by left.
    + apply StronglySorted_inv in Hs as [_ Hb]. rewrite Forall_forall in Hb. by apply Hb.
Qed.

(** The key is that of the set: order and repetition do not matter. *)
Lemma warnings_key_set keys keys' :
  (∀ k, k ∈ keys ↔ k ∈ keys') → warnings_key keys = warnings_key keys'.
Proof.
  intros Hk. unfold warnings_key. f_equal.
  destruct (Compact_sorted (merge_sort String.le keys)) as [Hs Hn];
    [apply (StronglySorted_merge_sort _)|].
  destruct (Compact_sorted (merge_sort String.le keys')) as [Hs' Hn'];
    [apply (StronglySorted_merge_sort _)|].
  apply (StronglySorted_unique String.le); try done.
  apply NoDup_Permutation; [done..|]. intros x. rewrite !Compact_elem.
  by rewrite !merge_sort_Permutation.
Qed.

Section Suppress.
Context (selected : Condition → bool).
Abbreviation sel := (λ c, is_selected selected c = true).

Definition selected_keys (conds : list Condition) : list string :=
  warning_key <$> filter sel conds.

Lemma rebuild_others keep kept conds :
  filter (λ c, ¬ sel c) (rebuild (is_selected selected) keep kept conds) =
  filter (λ c, ¬ sel c) conds.
Proof.
  revert kept. induction conds as [|c conds IH]; intros kept; [done|]. simpl.
  destruct (is_selected selected c) eqn:E.
  - rewrite (filter_cons_False _ c conds) by (rewrite E; naive_solver).
    destruct (negb keep || bool_decide (c ∈ kept)); [apply IH|].
    rewrite filter_cons_False by (rewrite E; naive_solver). apply IH.
  - rewrite !filter_cons_True by (rewrite E; done). by rewrite IH.
Qed.

Lemma rebuild_dropped kept conds : filter sel (rebuild (is_selected selected) false kept conds) = [].
Proof.
  induction conds as [|c conds IH]; [done|]. simpl. destruct (is_selected selected c) eqn:E; [done|].
  by rewrite filter_cons_False by congruence.
Qed.

Lemma rebuild_kept kept conds :
  let out := filter sel (rebuild (is_selected selected) true kept conds) in
  NoDup out ∧ ∀ c, c ∈ out ↔ c ∈ filter sel conds ∧ c ∉ kept.
Proof.
  revert kept. induction conds as [|c conds IH]; intros kept; simpl.
  { split; [apply NoDup_nil_2|]. intros c. split; [intros H; by apply elem_of_nil in H|].
    intros [H _]; by apply elem_of_nil in H. }
  destruct (is_selected selected c) eqn:E.
  - rewrite (filter_cons_True _ c conds) by done.
    case_bool_decide as Hk.
    + destruct (IH kept) as [IH1 IH2]. split; [done|]. intros c'. rewrite IH2, elem_of_cons.
      naive_solver.
    + destruct (IH (c :: kept)) as [IH1 IH2]. rewrite filter_cons_True by done. split.
      * constructor; [|done]. rewrite IH2, elem_of_cons. naive_solver.
      * intros c'. rewrite !elem_of_cons, IH2, elem_of_cons. destruct (decide (c' = c)); naive_solver.
  - rewrite !filter_cons_False by congruence. apply IH.
Qed.

Lemma Suppress_eq t now conds :
  selected_keys conds ≠ [] →
  let key := warnings_key (selected_keys conds) in
  SuppressRepeatedWarnings t now conds selected =
  (rebuild (is_selected selected) (ShouldNotify t key now) [] conds,
   if ShouldNotify t key now then Notified t key now else t).
Proof.
  unfold SuppressRepeatedWarnings, selected_keys. by destruct (warning_key <$> _).
Qed.
End Suppress.

(** Rate limiting loses nothing else and repeats nothing: the other conditions
    come through unchanged and in order, and the selected warnings either all come
    through, each once, or none does. *)
Theorem suppress_keeps_others t now conds selected :
  let out := (SuppressRepeatedWarnings t now conds selected).1 in
  filter (λ c, ¬ is_selected selected c = true) out =
    filter (λ c, ¬ is_selected selected c = true) conds ∧
  (filter (λ c, is_selected selected c = true) out = [] ∨
   NoDup (filter (λ c, is_selected selected c = true) out) ∧
   ∀ c, c ∈ filter (λ c, is_selected selected c = true) out ↔
        c ∈ filter (λ c, is_selected selected c = true) conds).
Proof.
  intros out. subst out. destruct (selected_keys selected conds) as [|k ks] eqn:E.
  - unfold SuppressRepeatedWarnings. fold (selected_keys selected conds). rewrite E. simpl.
    split; [done|]. left. by apply fmap_nil_inv in E.
  - rewrite Suppress_eq by (rewrite E; done). simpl. split; [apply rebuild_others|].
    destruct (ShouldNotify _ _ _); [right|left; apply rebuild_dropped].
    destruct (rebuild_kept selected [] conds) as [Hn H]. split; [done|]. intros c. rewrite H.
    split; [tauto|]. intros Hc. split; [done|]. apply not_elem_of_nil.
Qed.

(** An unchanged set of warnings is reported again exactly when the interval has
    passed since it was last reported, whatever the order and the number of times the
    readers returned each of them. *)
Theorem suppress_renotifies t selected conds1 now1 conds2 now2 :
  0 < interval t ≤ max_int64 →
  selected_keys selected conds1 ≠ [] →
  (∀ k, k ∈ selected_keys selected conds1 ↔ k ∈ selected_keys selected conds2) →
  ShouldNotify t (warnings_key (selected_keys selected conds1)) now1 = true →
  let t1 := (SuppressRepeatedWarnings t now1 conds1 selected).2 in
  let out2 := (SuppressRepeatedWarnings t1 now2 conds2 selected).1 in
  filter (λ c, is_selected selected c = true) out2 = [] ↔ now2 - now1 < interval t.
Proof.
  intros Hi Hne Hk Hn t1 out2.
  assert (Hne2 : selected_keys selected conds2 ≠ []).
  { destruct (selected_keys selected conds1) as [|k ks]; [done|]. intros E.
    specialize (Hk k). rewrite E in Hk. destruct Hk as [Hk _].
    specialize (Hk ltac:(by left)). by apply elem_of_nil in Hk. }
  assert (Ht1 : t1 = Notified t (warnings_key (selected_keys selected conds1)) now1).
  { unfold t1. rewrite Suppress_eq, Hn by done. done. }
  unfold out2. rewrite Suppress_eq by done. rewrite Ht1, <- (warnings_key_set _ _ Hk). simpl.
  pose proof (ShouldNotify_after t (warnings_key (selected_keys selected conds1)) now1
    (warnings_key (selected_keys selected conds1)) now2 Hi) as Hs.
  destruct (ShouldNotify (Notified _ _ _) _ _).
  - destruct Hs as [Hs _]. destruct (Hs eq_refl) as [|Hle]; [done|]. split; [|lia].
    destruct (rebuild_kept selected [] conds2) as [_ Hr]. intros Hnil. exfalso. apply Hne2.
    unfold selected_keys. destruct (filter _ conds2) as [|c l] eqn:E; [done|].
    specialize (Hr c). rewrite Hnil in Hr. destruct Hr as [_ Hr].
    specialize (Hr ltac:(split; [by left|apply not_elem_of_nil])). by apply elem_of_nil in Hr.
  - split; [|intros _; apply rebuild_dropped]. intros _.
    destruct (Z.lt_ge_cases (now2 - now1) (interval t)); [done|]. destruct Hs as [_ Hs].
    specialize (Hs ltac:(by right)). done.
Qed.

Definition ex_gpu_warning : Condition := condition_of NvidiaPowerError [] "GPU power violation".

Lemma suppress_renotifies_witness :
  let t := New EmptyString WarningReNotifyInterval in
  let t1 := (SuppressRepeatedWarnings t (1000 * Hour) [ex_gpu_warning] (λ _, true)).2 in
  filter (λ c, is_selected (λ _, true) c = true)
    (SuppressRepeatedWarnings t1 (1000 * Hour + Minute) [ex_gpu_warning; ex_gpu_warning]
       (λ _, true)).1 = [] ↔ (1000 * Hour + Minute) - 1000 * Hour < interval t.
Proof.
  intros t t1. apply (suppress_renotifies t (λ _, true) [ex_gpu_warning]);
    [split; [reflexivity|by vm_compute]|by vm_compute| |reflexivity].
  intros k. change (selected_keys (λ _, true) [ex_gpu_warning; ex_gpu_warning]) with
    [warning_key ex_gpu_warning; warning_key ex_gpu_warning].
  change (selected_keys (λ _, true) [ex_gpu_warning]) with [warning_key ex_gpu_warning].
  rewrite !elem_of_cons. tauto.
Defined.
