(* ===== verification/Codegen.v ===== *)
(** * Codegen: the generators of the table of reasons and of its documentation
    ([tools/codegen-reasons], [tools/codegen-docs]) and the documented XID codes
    ([monitors/nvidia/classify/xid.go]).

    The YAML decoder and the template engine are libraries: a decoded configuration is an
    argument, in the order in which a template ranges over it.  The theorems are about the
    table that the repository ships, [Reasons.byName]. *)

From S2P Require Import Prelude GoStrings Monitor Reasons Classify.

(** ** The configuration *)

Record internalReasonMeta := mkInternal { metaTemplate : string; metaSeverity : Severity; metaDescription : string }.
Abbreviation reasonConfig := (list (string * list (string * internalReasonMeta))).

Definition rows_of (config : reasonConfig) : list (string * internalReasonMeta) := mjoin (map snd config).

Lemma elem_of_rows (config : reasonConfig) nr : nr ∈ rows_of config ↔ ∃ c, c ∈ config ∧ nr ∈ c.2.
Proof.
  unfold rows_of. rewrite list_elem_of_join. split.
  - intros (l & Hl & Hin). apply list_elem_of_fmap in Hin as (c & -> & Hc). by exists c.
  - intros (c & Hc & Hl). exists c.2. split; [done|]. by apply list_elem_of_fmap_2.
Qed.

(** ** codegen-reasons *)

(** [None] is the panic. *)
Definition validate (r : internalReasonMeta) : option () :=
  if String.eqb (metaSeverity r) SeverityFatal || String.eqb (metaSeverity r) SeverityWarning ||
     String.eqb (metaSeverity r) SeverityInfo
  then Some tt else None.

Definition quoted (s : string) : string := String dquote (s +:+ String dquote EmptyString).

(** A declaration and an entry of the map as [reasons.go.tpl] writes them, blanks aside;
    nothing is escaped in a literal. *)
Definition declaration (nr : string * internalReasonMeta) : string :=
  nr.1 +:+ " = ReasonMeta{ template: " +:+ quoted (metaTemplate nr.2) +:+
  ", defaultSeverity: " +:+ quoted (metaSeverity nr.2) +:+ ", }".
Definition map_entry (nr : string * internalReasonMeta) : string := quoted nr.1 +:+ ": " +:+ nr.1 +:+ ",".

(** The declarations by condition, and the entries. *)
Definition generate_reasons (config : reasonConfig) : option (list (string * list string) * list string) :=
  _ ← mapM (λ nr, validate nr.2) (rows_of config);
  Some (map (λ c, (c.1, map declaration c.2)) config, map map_entry (rows_of config)).

(** ** codegen-docs *)

Definition severityObject (sev : Severity) : option string :=
  if String.eqb sev SeverityFatal then Some "Condition"
  else if String.eqb sev SeverityWarning || String.eqb sev SeverityInfo then Some "Event"
  else None.

(** [strings.ReplaceAll] of [%] and a letter. *)
Definition percent : Ascii.ascii := byte_of 37.

Fixpoint replace_verb (c : Ascii.ascii) (new s : string) : string :=
  match s with
  | String a (String b s' as t) =>
      if Ascii.eqb a percent && Ascii.eqb b c then new +:+ replace_verb c new s' else String a (replace_verb c new t)
  | _ => s
  end.

Definition letter_d : Ascii.ascii := byte_of 100.
Definition letter_s : Ascii.ascii := byte_of 115.

Fixpoint has_percent (s : string) : bool :=
  match s with EmptyString => false | String c s' => Ascii.eqb c percent || has_percent s' end.

Definition sanitizeTemplate (s : string) : option string :=
  let out := replace_verb letter_s "[Name]" (replace_verb letter_d "[Code]" s) in
  if has_percent out then None else Some out.

(** The section of a condition: its short name, and a row per reason. *)
Definition doc_row (r : internalReasonMeta) : option (list string) :=
  name ← sanitizeTemplate (metaTemplate r); kind ← severityObject (metaSeverity r);
  Some ["|" +:+ name; "|" +:+ kind; "|" +:+ metaDescription r].

Definition doc_section (c : string * list (string * internalReasonMeta)) : option (string * list (list string)) :=
  rows ← mapM (λ nr, doc_row nr.2) c.2;
  Some (default c.1 (CutSuffix c.1 "Ready"), rows).

Definition generate_docs (config : reasonConfig) : option (list (string * list (list string))) := mapM doc_section config.

(** ** The generators accept what the repository ships *)

(** A configuration that gives the table of [Reasons]. *)
Definition ships (config : reasonConfig) : Prop :=
  ∀ nr, nr ∈ rows_of config → (nr.1, mkReasonMeta (metaTemplate nr.2) (metaSeverity nr.2)) ∈ byName.

(** What a literal of Go spells without an escape. *)
Fixpoint plain (s : string) : bool :=
  match s with
  | EmptyString => true
  | String c s' => negb (Ascii.eqb c dquote || Ascii.eqb c (byte_of 92) || Ascii.eqb c (byte_of 10)) && plain s'
  end.

(** What is checked of a row of the table. *)
Definition row_ok (nr : string * ReasonMeta) : bool :=
  valid_severity (defaultSeverity nr.2) && plain nr.1 && plain (template nr.2) &&
  match sanitizeTemplate (template nr.2) with Some _ => true | None => false end.

Lemma rows_ok : forallb row_ok byName = true.
Proof. vm_compute. reflexivity. Qed.

Lemma shipped_row config nr :
  ships config → nr ∈ rows_of config →
  valid_severity (metaSeverity nr.2) = true ∧ plain nr.1 = true ∧ plain (metaTemplate nr.2) = true ∧
  is_Some (sanitizeTemplate (metaTemplate nr.2)).
Proof.
  intros Hs Hin. specialize (Hs nr Hin). pose proof rows_ok as H. rewrite forallb_forall in H.
  specialize (H _ (proj1 (list_elem_of_In _ _) Hs)). unfold row_ok in H. simpl in H.
  rewrite !andb_true_iff in H. destruct H as [[[? ?] ?] ?]. split_and!; try done.
  by destruct (sanitizeTemplate _).
Qed.

Lemma severity_kinds s : valid_severity s = true → is_Some (severityObject s) ∧ validate (mkInternal EmptyString s EmptyString) = Some tt.
Proof. intros [->|[->| ->]]%valid_severity_cases; split; by try eexists. Qed.

(** Both generators succeed on a configuration that gives the shipped table, and the literals
    of the generated table are the templates they are made from. *)
Lemma generators_accept config :
  ships config → is_Some (generate_reasons config) ∧ is_Some (generate_docs config) ∧
  ∀ nr, nr ∈ rows_of config → plain (metaTemplate nr.2) = true.
Proof.
  intros Hs. split_and!.
  - unfold generate_reasons.
    match goal with |- is_Some (?m ≫= _) => assert (is_Some m) as [l ->]; [|by eexists] end.
    apply mapM_is_Some, Forall_forall. intros nr Hin. destruct (shipped_row config nr Hs Hin) as [Hv _].
    exists tt. by apply severity_kinds in Hv as [_ Hv].
  - apply mapM_is_Some, Forall_forall. intros c Hc. cbn beta. unfold compose, doc_section.
    match goal with |- is_Some (?m ≫= _) => assert (is_Some m) as [l ->]; [|by eexists] end.
    apply mapM_is_Some, Forall_forall. intros nr Hin.
    destruct (shipped_row config nr Hs) as (Hv & _ & _ & [t Ht]); [apply elem_of_rows; by exists c|].
    unfold compose, doc_row. rewrite Ht. destruct (severity_kinds _ Hv) as [[k ->] _]. by eexists.
  - intros nr Hin. by destruct (shipped_row config nr Hs Hin) as (_ & _ & ? & _).
Qed.

Example sanitize_ex : sanitizeTemplate "NvidiaXID%dError" = Some "NvidiaXID[Code]Error" ∧ sanitizeTemplate "%sX%q" = None.
Proof. split; reflexivity. Qed.

(** ** The documented XID codes *)

Inductive bucket :=
| RESET_GPU | WORKFLOW_XID_48 | WORKFLOW_NVLINK_ERR | RESTART_BM | CHECK_MECHANICALS | RESTART_VM | CONTACT_SUPPORT | IGNORE.

Definition documentedXids : list (Z * bucket) :=
  [(46, RESET_GPU); (48, WORKFLOW_XID_48); (54, CHECK_MECHANICALS); (62, RESET_GPU); (63, IGNORE); (64, RESET_GPU);
   (74, WORKFLOW_NVLINK_ERR); (79, RESTART_BM); (95, RESET_GPU); (109, RESET_GPU); (110, RESET_GPU); (119, RESET_GPU);
   (120, RESET_GPU); (136, RESET_GPU); (140, RESET_GPU); (142, CONTACT_SUPPORT); (143, RESET_GPU); (151, RESTART_VM);
   (155, RESET_GPU); (156, RESET_GPU); (158, RESET_GPU)].

(** The comment documents the codes of the list, each once. *)
Lemma documented_xids : documentedXids.*1 = WellKnownXidCodes ∧ NoDup WellKnownXidCodes.
Proof. split; [reflexivity|]. apply (bool_decide_unpack _). vm_compute. exact I. Qed.
