(* ===== verification/Nvml.v ===== *)
(** * Nvml: reading the NVIDIA driver ([monitors/nvidia/nvml]: returncode.go, the
    readings of policy.go, the names of devices.go).

    The driver's management library is not part of the repository: a device is a
    record of what its calls answer during one poll, and the library's constants
    are constructors with their names.  A reader of one GPU threads two things
    through its calls: whether the GPU turned out to be lost, and the calls whose
    return code has no rule, which a metric counts. *)

From S2P Require Import Prelude GoStrings Monitor Reasons Renotify Classify.

(** ** returncode.go *)

(** [nvmlReturn_t]: the codes the package has rules for, and the others. *)
Inductive Return :=
| SUCCESS
| ERROR_NOT_SUPPORTED
| ERROR_FUNCTION_NOT_FOUND
| ERROR_GPU_IS_LOST
| ERROR_CORRUPTED_INFOROM
| ERROR_ARGUMENT_VERSION_MISMATCH
| ERROR_LIBRARY_NOT_FOUND
| ERROR_TIMEOUT
| ERROR_OTHER (code : Z).

#[export] Instance Return_eq_dec : EqDecision Return.
Proof. solve_decision. Defined.

Inductive Outcome := Observed | NotObserved | FunctionMissing | GPULost | Unexpected.

#[export] Instance NvmlOutcome_eq_dec : EqDecision Outcome.
Proof. solve_decision. Defined.

Definition outcome (ret : Return) : Outcome :=
  match ret with
  | SUCCESS => Observed
  | ERROR_NOT_SUPPORTED => NotObserved
  | ERROR_FUNCTION_NOT_FOUND => FunctionMissing
  | ERROR_GPU_IS_LOST => GPULost
  | _ => Unexpected
  end.

(** ** Readings *)

(** [value] is 0 when the value was not observed, as in Go. *)
Record reading := mkReading { value : Z; ok : bool }.
Definition no_reading : reading := mkReading 0 false.

#[export] Instance reading_eq_dec : EqDecision reading.
Proof. solve_decision. Defined.

Record gpuReader := mkGpuReader { lost : bool; unexpected : list (string * Return) }.
Definition new_reader : gpuReader := mkGpuReader false [].

(** The outcome of a call, counted when there is no rule for its code. *)
Definition counted (call : string) (ret : Return) (r : gpuReader) : Outcome * gpuReader :=
  let o := outcome ret in
  (o, if decide (o = Unexpected) then mkGpuReader (lost r) (unexpected r ++ [(call, ret)]) else r).

Definition observe (call : string) (v : Z) (ret : Return) (r : gpuReader) : reading * gpuReader :=
  let '(o, r) := counted call ret r in
  match o with
  | Observed => (mkReading v true, r)
  | GPULost => (no_reading, mkGpuReader true (unexpected r))
  | _ => (no_reading, r)
  end.

(** The steps that read one GPU, in order, stopping at the first that finds it
    lost; [lost_value] is the result then. *)
Fixpoint run_steps {G} (lost_value : G) (steps : list (G → gpuReader → G * gpuReader)) (g : G)
    (r : gpuReader) : G * gpuReader :=
  match steps with
  | [] => (g, r)
  | step :: steps' =>
      let '(g, r) := step g r in
      if lost r then (lost_value, r) else run_steps lost_value steps' g r
  end.

Lemma run_steps_cons {G} (lost_value : G) step steps g r :
  run_steps lost_value (step :: steps) g r =
  let '(g, r) := step g r in
  if lost r then (lost_value, r) else run_steps lost_value steps g r.
Proof. done. Qed.

#[global] Arguments run_steps : simpl never.

(** ** Field values *)

Inductive ValueType :=
| VALUE_TYPE_DOUBLE
| VALUE_TYPE_UNSIGNED_INT
| VALUE_TYPE_UNSIGNED_LONG
| VALUE_TYPE_UNSIGNED_LONG_LONG
| VALUE_TYPE_SIGNED_LONG_LONG
| VALUE_TYPE_SIGNED_INT
| VALUE_TYPE_UNSIGNED_SHORT
| VALUE_TYPE_OTHER (n : Z).

(** The eight bytes of a value in memory order, each from 0 to 255. *)
Record FieldValue := mkFieldValue { fvType : ValueType; fvBytes : list Z; fvReturn : Return }.

(** [binary.NativeEndian] on the little-endian machines the agent is built for. *)
Definition le_value (bytes : list Z) : Z := foldr (λ b acc, b + 256 * acc) 0 bytes.

(** The two's-complement value of [w] bits. *)
Definition signed (w z : Z) : Z := if z <? 2 ^ (w - 1) then z else z - 2 ^ w.

Definition fieldValueUint (v : FieldValue) : option Z :=
  match fvType v with
  | VALUE_TYPE_UNSIGNED_SHORT => Some (le_value (take 2 (fvBytes v)))
  | VALUE_TYPE_UNSIGNED_INT => Some (le_value (take 4 (fvBytes v)))
  | VALUE_TYPE_UNSIGNED_LONG | VALUE_TYPE_UNSIGNED_LONG_LONG => Some (le_value (fvBytes v))
  | VALUE_TYPE_SIGNED_INT =>
      let n := signed 32 (le_value (take 4 (fvBytes v))) in if 0 <=? n then Some n else None
  | VALUE_TYPE_SIGNED_LONG_LONG =>
      let n := signed 64 (le_value (fvBytes v)) in if 0 <=? n then Some n else None
  | _ => None
  end.

(** One value of a field-values call: a reading when its own return code and its
    type allow it. *)
Definition observe_field (v : FieldValue) (r : gpuReader) : reading * gpuReader :=
  let '(got, r) := observe "nvmlDeviceGetFieldValues" (default 0 (fieldValueUint v)) (fvReturn v) r in
  (if ok got && bool_decide (is_Some (fieldValueUint v)) then got else no_reading, r).

(** The loop over the values: one reading each. *)
Fixpoint observe_fields (vs : list FieldValue) (r : gpuReader) : list reading * gpuReader :=
  match vs with
  | [] => ([], r)
  | v :: vs' =>
      let '(x, r) := observe_field v r in
      let '(xs, r) := observe_fields vs' r in
      (x :: xs, r)
  end.

(** ** Names of GPUs (devices.go) and conditions *)

Record gpuIdentity := mkIdentity { uuid : string; serial : string }.

Definition describeGPU (index : nat) (gpus : list gpuIdentity) : string :=
  let name := "GPU " +:+ Itoa (Z.of_nat index) in
  match gpus !! index with
  | None => name
  | Some g =>
      let ids := (if String.eqb (uuid g) EmptyString then [] else ["UUID " +:+ uuid g]) ++
                 (if String.eqb (serial g) EmptyString then [] else ["serial " +:+ serial g]) in
      match ids with
      | [] => name
      | _ => name +:+ " (" +:+ Join ids ", " +:+ ")"
      end
  end.

(** A snapshot with nothing observed. *)
Definition no_signals : NormalizedSignals :=
  mkSignals [] None None false false false false false false None None EmptyString None.

Definition set_message (msg : string) (c : Condition) : Condition :=
  mkCondition (Reason c) msg (CondSeverity c) (MinOccurrences c) (Resolved c).

Definition withMessage (s : NormalizedSignals) (msg : string) : list Condition :=
  set_message msg <$> Classify s.

Definition lostGPU (index : nat) (gpus : list gpuIdentity) : list Condition :=
  withMessage (mkSignals [79] None None false false false false false false None None EmptyString None)
    (describeGPU index gpus +:+ " has fallen off the bus: NVML returned GPU_IS_LOST").

(** ** levelReports (policy.go) *)

Abbreviation levelKey := (nat * string)%type.
Abbreviation levelReports := (gmap levelKey (Tracker unit)).

Definition report (l : levelReports) (now : Time) (key : levelKey) (observed over : bool)
    : bool * levelReports :=
  if negb observed then (false, l)
  else if negb over then (false, delete key l)
  else match l !! key with
       | Some tracker =>
           if negb (ShouldNotify tracker tt now) then (false, l)
           else (true, <[key := Notified tracker tt now]> l)
       | None =>
           (true, <[key := Notified (New tt WarningReNotifyInterval) tt now]> l)
       end.

(** *** What is reported over time *)

(** One reading of a level signal. *)
Record level := mkLevel { lvTime : Time; lvObserved : bool; lvOver : bool }.

Definition report_level (key : levelKey) (l : levelReports) (x : level) : bool * levelReports :=
  report l (lvTime x) key (lvObserved x) (lvOver x).

(** When the signal last reported in the current run of readings over the limit,
    the most recent first; readings that were not observed do not end a run. *)
Fixpoint last_report (xs : list level) : option Time :=
  match xs with
  | [] => None
  | x :: xs' =>
      if negb (lvObserved x) then last_report xs'
      else if negb (lvOver x) then None
      else match last_report xs' with
           | Some t => if lvTime x - t <? WarningReNotifyInterval then Some t else Some (lvTime x)
           | None => Some (lvTime x)
           end
  end.

Definition due (xs : list level) (x : level) : bool :=
  lvObserved x && lvOver x &&
  match last_report xs with
  | Some t => WarningReNotifyInterval <=? lvTime x - t
  | None => true
  end.

Definition tracks (l : levelReports) (key : levelKey) (last : option Time) : Prop :=
  l !! key = (λ t, mkTracker WarningReNotifyInterval tt t) <$> last.

Lemma report_tracks l key xs x :
  tracks l key (last_report xs) →
  (report_level key l x).1 = due xs x ∧ tracks (report_level key l x).2 key (last_report (x :: xs)).
Proof.
  unfold tracks, report_level, report, due. intros Hl. simpl.
  destruct (lvObserved x), (lvOver x); simpl; try (split; [done|]; first [done|apply lookup_delete_eq]).
  rewrite Hl. destruct (last_report xs) as [t|]; simpl.
  - assert (Hs : ShouldNotify (mkTracker WarningReNotifyInterval tt t) tt (lvTime x) =
      (WarningReNotifyInterval <=? lvTime x - t)).
    { unfold ShouldNotify; simpl. unfold Sub, WarningReNotifyInterval, min_int64, max_int64.
      apply eq_bool_prop_intro. rewrite !Is_true_true, !Z.leb_le.
      unfold Minute, Second, Millisecond, Microsecond, Nanosecond. lia. }
    rewrite Hs, (Z.ltb_antisym WarningReNotifyInterval). destruct (WarningReNotifyInterval <=? lvTime x - t);
      simpl; [split; [done|apply lookup_insert_eq]|by split].
  - split; [done|apply lookup_insert_eq].
Qed.

(** The readings of one signal in order, each with whether it reported. *)
Fixpoint report_all (key : levelKey) (l : levelReports) (xs : list level) : list bool * levelReports :=
  match xs with
  | [] => ([], l)
  | x :: xs' =>
      let '(b, l) := report_level key l x in
      let '(bs, l) := report_all key l xs' in
      (b :: bs, l)
  end.

Fixpoint dues (seen xs : list level) : list bool :=
  match xs with
  | [] => []
  | x :: xs' => due seen x :: dues (x :: seen) xs'
  end.

Lemma report_all_due key l seen xs :
  tracks l key (last_report seen) → (report_all key l xs).1 = dues seen xs.
Proof.
  revert l seen. induction xs as [|x xs IH]; intros l seen Hl; [done|]. simpl.
  destruct (report_tracks l key seen x Hl) as [H1 H2].
  destruct (report_level key l x) as [b l1]. simpl in *.
  specialize (IH l1 (x :: seen) H2). destruct (report_all key l1 xs) as [bs l2]. simpl in *. congruence.
Qed.

(** A level signal reports exactly when it is due: it is over its limit and has not
    reported in the last [WarningReNotifyInterval] of the current run of readings over
    the limit.  A reading within the limit ends the run, so the next violation
    reports at once; a reading that was not observed changes nothing. *)
Theorem level_reports_when_due key l xs :
  l !! key = None → (report_all key l xs).1 = dues [] xs.
Proof. intros Hl. by apply report_all_due. Qed.

Definition ex_levels : list level :=
  [mkLevel 0 true true; mkLevel (10 * Minute) true true; mkLevel (20 * Minute) false true;
   mkLevel (31 * Minute) true true; mkLevel (32 * Minute) true false; mkLevel (33 * Minute) true true].

Lemma level_reports_when_due_witness :
  (∅ : levelReports) !! (0%nat, "power") = None ∧
  (report_all (0%nat, "power") ∅ ex_levels).1 = [true; false; false; true; false; true].
Proof.
  split; [apply lookup_empty|].
  rewrite (level_reports_when_due (0%nat, "power") ∅ ex_levels (lookup_empty _)). reflexivity.
Defined.
