(* ===== verification/NvmlPolicy.v ===== *)
(** * NvmlPolicy: the signals behind DCGM's policies ([monitors/nvidia/nvml/policy.go]).

    One poll reads every GPU and turns the readings into conditions, with the
    counters' last readings as baselines. *)

From S2P Require Import Prelude GoStrings Monitor Reasons Renotify Classify Nvml.

Definition maxRetiredPages : Z := 10.
Definition maxTemperatureC : Z := 100.
Definition dcgmFieldPCIeReplays : Z := 202.
Definition dcgmFieldDBEDevice : Z := 319.
Definition maxUint32 : Z := 4294967295.

(** The DCGM fields of the NVLink error totals, in the order they are read. *)
Definition nvlinkErrorTotals : list Z := [409; 419; 429; 439].

Record gpuReadings := mkReadings {
  rdLost : bool;
  dbe : reading;
  pcieReplays : reading;
  retiredSBE : reading;
  retiredDBE : reading;
  temperatureC : reading;
  powerMW : reading;
  powerLimitMW : reading;
  nvlink : list reading
}.

Definition empty_readings (l : bool) (links : list reading) : gpuReadings :=
  mkReadings l no_reading no_reading no_reading no_reading no_reading no_reading no_reading links.

(** What the calls of [readGPU] answer for one GPU.  The retired pages are lists of
    which only the length matters; the field-values call answers one value per total. *)
Record Device := mkDevice {
  GetMemoryErrorCounter : Z * Return;
  GetPcieReplayCounter : Z * Return;
  GetRetiredPagesSBE : Z * Return;
  GetRetiredPagesDBE : Z * Return;
  GetTemperature : Z * Return;
  GetPowerUsage : Z * Return;
  GetEnforcedPowerLimit : Z * Return;
  GetNVLinkTotals : list FieldValue * Return
}.

(** The library: the GPU count, and a handle per index. *)
Record Library := mkLibrary {
  DeviceGetCount : nat * Return;
  DeviceGetHandleByIndex : nat → Device * Return
}.

(** A step that makes one call and stores its reading. *)
Definition read_step (call : string) (answer : Z * Return)
    (store : gpuReadings → reading → gpuReadings) (g : gpuReadings) (r : gpuReader)
    : gpuReadings * gpuReader :=
  let '(x, r) := observe call answer.1 answer.2 r in (store g x, r).

Definition policy_steps (dev : Device) (readLimit : bool)
    : list (gpuReadings → gpuReader → gpuReadings * gpuReader) :=
  [read_step "nvmlDeviceGetMemoryErrorCounter" (GetMemoryErrorCounter dev)
     (λ g x, mkReadings (rdLost g) x (pcieReplays g) (retiredSBE g) (retiredDBE g) (temperatureC g)
               (powerMW g) (powerLimitMW g) (nvlink g));
   read_step "nvmlDeviceGetPcieReplayCounter" (GetPcieReplayCounter dev)
     (λ g x, mkReadings (rdLost g) (dbe g) x (retiredSBE g) (retiredDBE g) (temperatureC g)
               (powerMW g) (powerLimitMW g) (nvlink g));
   read_step "nvmlDeviceGetRetiredPages" (GetRetiredPagesSBE dev)
     (λ g x, mkReadings (rdLost g) (dbe g) (pcieReplays g) x (retiredDBE g) (temperatureC g)
               (powerMW g) (powerLimitMW g) (nvlink g));
   read_step "nvmlDeviceGetRetiredPages" (GetRetiredPagesDBE dev)
     (λ g x, mkReadings (rdLost g) (dbe g) (pcieReplays g) (retiredSBE g) x (temperatureC g)
               (powerMW g) (powerLimitMW g) (nvlink g));
   read_step "nvmlDeviceGetTemperature" (GetTemperature dev)
     (λ g x, mkReadings (rdLost g) (dbe g) (pcieReplays g) (retiredSBE g) (retiredDBE g) x
               (powerMW g) (powerLimitMW g) (nvlink g));
   read_step "nvmlDeviceGetPowerUsage" (GetPowerUsage dev)
     (λ g x, mkReadings (rdLost g) (dbe g) (pcieReplays g) (retiredSBE g) (retiredDBE g)
               (temperatureC g) x (powerLimitMW g) (nvlink g));
   (λ g r, if readLimit then
             read_step "nvmlDeviceGetEnforcedPowerLimit" (GetEnforcedPowerLimit dev)
               (λ g x, mkReadings (rdLost g) (dbe g) (pcieReplays g) (retiredSBE g) (retiredDBE g)
                         (temperatureC g) (powerMW g) x (nvlink g)) g r
           else (g, r));
   (λ g r,
      let '(x, r) := observe "nvmlDeviceGetFieldValues" 0 (GetNVLinkTotals dev).2 r in
      if negb (ok x) then (g, r)
      else
        let '(xs, r) := observe_fields (GetNVLinkTotals dev).1 r in
        (mkReadings (rdLost g) (dbe g) (pcieReplays g) (retiredSBE g) (retiredDBE g)
           (temperatureC g) (powerMW g) (powerLimitMW g) xs, r))].

Definition readGPU (lib : Library) (index : nat) (readLimit : bool) : gpuReadings * gpuReader :=
  let '(dev, ret) := DeviceGetHandleByIndex lib index in
  let '(h, r) := observe "nvmlDeviceGetHandleByIndex" 0 ret new_reader in
  if negb (ok h) then (empty_readings (lost r) [], r)
  else run_steps (empty_readings true []) (policy_steps dev readLimit)
         (empty_readings false (replicate (length nvlinkErrorTotals) no_reading)) r.

(** [None] when the GPU count could not be read. *)
Definition readPolicySignals (lib : Library) (readLimit : bool) : option (list gpuReadings) :=
  let '(count, ret) := DeviceGetCount lib in
  if decide (outcome ret = Observed)
  then Some ((λ i, (readGPU lib i readLimit).1) <$> seq 0 count) else None.

(** ** Evaluation *)

Abbreviation counterKey := (nat * Z)%type.

Record Policies := mkPolicies {
  powerThresholdWatts : Z;
  baselines : gmap counterKey Z;
  notified : levelReports
}.

Definition NewPolicies : Policies := mkPolicies 0 ∅ ∅.

Definition SetPowerThresholdWatts (p : Policies) (watts : Z) : Policies :=
  mkPolicies watts (baselines p) (notified p).

Definition set_baselines (p : Policies) (b : gmap counterKey Z) : Policies :=
  mkPolicies (powerThresholdWatts p) b (notified p).
Definition set_notified (p : Policies) (n : levelReports) : Policies :=
  mkPolicies (powerThresholdWatts p) (baselines p) n.

Definition grew (p : Policies) (key : counterKey) (r : reading) : bool * Policies :=
  let prev := baselines p !! key in
  if negb (ok r) || (maxUint32 <? value r) then
    (false, set_baselines p (delete key (baselines p)))
  else
    (match prev with Some v => v <? value r | None => false end,
     set_baselines p (<[key := value r]> (baselines p))).

Definition clearBaselines (p : Policies) (gpu : nat) : Policies :=
  set_baselines p (filter (λ kv, kv.1.1 ≠ gpu) (baselines p)).

(** Watts drawn, whether it was observed, and whether it is over the limit. *)
Definition power (p : Policies) (s : gpuReadings) : Z * bool * bool :=
  if negb (ok (powerMW s)) then (0, false, false)
  else
    let limit := powerThresholdWatts p in
    if (limit =? 0) && negb (ok (powerLimitMW s)) then (0, false, false)
    else
      let limit := if limit =? 0 then value (powerLimitMW s) / 1000 else limit in
      let watts := value (powerMW s) / 1000 in
      (watts, true, limit <? watts).

Definition report_policy (p : Policies) (now : Time) (key : levelKey) (observed over : bool)
    : bool * Policies :=
  let '(b, n) := report (notified p) now key observed over in (b, set_notified p n).

Abbreviation u64arg z := (AInt "uint64" z).

(** The loop over the NVLink totals: every counter updates its baseline, the first
    that grew is reported. *)
Fixpoint nvlink_loop (gpu : nat) (fields : list Z) (rs : list reading) (reported : bool) (p : Policies)
    : list Condition * Policies :=
  match fields, rs with
  | field :: fields', r :: rs' =>
      let '(g, p) := grew p (gpu, field) r in
      let now_reported := g && negb reported in
      let out := if now_reported
                 then withMessage (mkSignals [] None None false true false false false false None None
                                     EmptyString None)
                        (Sprintf "detected %d NVLink errors on fieldId %d"
                           [u64arg (value r); AInt "uint16" field])
                 else [] in
      let '(outs, p) := nvlink_loop gpu fields' rs' (reported || now_reported) p in
      (out ++ outs, p)
  | _, _ => ([], p)
  end.

Definition when (b : bool) (l : list Condition) : list Condition := if b then l else [].

(** One GPU of [evaluate].  [clock] gives the time of the clock reading made for a
    level signal. *)
Definition evaluate_gpu (clock : levelKey → Time) (gpus : list gpuIdentity) (gpu : nat)
    (s : gpuReadings) (p : Policies) : list Condition * Policies :=
  if rdLost s then (lostGPU gpu gpus, clearBaselines p gpu)
  else
    let '(dbe_grew, p) := grew p (gpu, dcgmFieldDBEDevice) (dbe s) in
    let out1 := when dbe_grew
      (withMessage (mkSignals [] None None true false false false false false None None EmptyString None)
         (Sprintf "detected %d Nvidia Double Bit error(s) on location Device" [u64arg (value (dbe s))])) in
    let '(out2, p) := nvlink_loop gpu nvlinkErrorTotals (nvlink s) false p in
    let k3 := (gpu, "retiredPages") in
    let '(b3, p) := report_policy p (clock k3) k3 (ok (retiredSBE s) && ok (retiredDBE s))
                      (maxRetiredPages <? u64 (value (retiredSBE s) + value (retiredDBE s))) in
    let out3 := when b3
      (withMessage (mkSignals [] None None false false true false false false None None EmptyString None)
         (Sprintf "detected %d SBE, and %d DBE page retirements"
            [u64arg (value (retiredSBE s)); u64arg (value (retiredDBE s))])) in
    let k4 := (gpu, "thermal") in
    let '(b4, p) := report_policy p (clock k4) k4 (ok (temperatureC s))
                      (maxTemperatureC <? value (temperatureC s)) in
    let out4 := when b4
      (withMessage (mkSignals [] None None false false false false true false None None EmptyString None)
         (Sprintf "detected GPU thermals outside of thresholds with severity code %d"
            [u64arg (value (temperatureC s))])) in
    let '(watts, powerObserved, overPower) := power p s in
    let k5 := (gpu, "power") in
    let '(b5, p) := report_policy p (clock k5) k5 powerObserved overPower in
    let out5 := when b5
      (withMessage (mkSignals [] None None false false false true false false None None EmptyString None)
         (Sprintf "detected power usage outside of thresholds with severity code %d" [u64arg watts])) in
    let '(pcie_grew, p) := grew p (gpu, dcgmFieldPCIeReplays) (pcieReplays s) in
    let out6 := when pcie_grew
      (withMessage (mkSignals [] None None false false false false false true None None EmptyString None)
         (Sprintf "detected %d PCIe replays" [u64arg (value (pcieReplays s))])) in
    (out1 ++ out2 ++ out3 ++ out4 ++ out5 ++ out6, p).

Fixpoint evaluate_from (clock : levelKey → Time) (gpus : list gpuIdentity) (i : nat)
    (samples : list gpuReadings) (p : Policies) : list Condition * Policies :=
  match samples with
  | [] => ([], p)
  | s :: samples' =>
      let '(out, p) := evaluate_gpu clock gpus i s p in
      let '(outs, p) := evaluate_from clock gpus (S i) samples' p in
      (out ++ outs, p)
  end.

Definition evaluate (clock : levelKey → Time) (gpus : list gpuIdentity) (samples : list gpuReadings)
    (p : Policies) : list Condition * Policies := evaluate_from clock gpus 0 samples p.

(** [Poll]: [lib] is [None] until NVML is initialized, [stuck] when the check's run
    did not end in time.  [None] when the poll read nothing: the baselines stay. *)
Definition Poll (clock : levelKey → Time) (gpus : list gpuIdentity) (lib : option Library)
    (stuck : bool) (p : Policies) : option (list Condition) * Policies :=
  match lib with
  | None => (None, p)
  | Some lib =>
      match (if stuck then None else readPolicySignals lib (powerThresholdWatts p =? 0)) with
      | None => (None, p)
      | Some samples => let '(out, p) := evaluate clock gpus samples p in (Some out, p)
      end
  end.

(** ** Counters *)

Definition in_range (r : reading) : bool := ok r && (value r <=? maxUint32).

(** A counter grew: this reading and the one before it are both usable, and it is
    the larger. *)
Definition grew_since (prev r : reading) : bool :=
  in_range prev && in_range r && (value prev <? value r).

Fixpoint grew_all (key : counterKey) (p : Policies) (rs : list reading) : list bool :=
  match rs with
  | [] => []
  | r :: rs' => let '(b, p) := grew p key r in b :: grew_all key p rs'
  end.

Fixpoint growths (prev : reading) (rs : list reading) : list bool :=
  match rs with
  | [] => []
  | r :: rs' => grew_since prev r :: growths r rs'
  end.

Definition baseline_is (p : Policies) (key : counterKey) (prev : reading) : Prop :=
  baselines p !! key = if in_range prev then Some (value prev) else None.

Lemma grew_step p key prev r :
  baseline_is p key prev →
  (grew p key r).1 = grew_since prev r ∧ baseline_is (grew p key r).2 key r.
Proof.
  unfold baseline_is, grew, grew_since. intros Hb.
  assert (Hr : negb (ok r) || (maxUint32 <? value r) = negb (in_range r)).
  { unfold in_range. rewrite Z.leb_antisym. by destruct (ok r), (maxUint32 <? value r). }
  rewrite Hr, Hb. destruct (in_range r); simpl.
  - rewrite andb_true_r. split; [by destruct (in_range prev)|apply lookup_insert_eq].
  - rewrite andb_false_r. split; [done|apply lookup_delete_eq].
Qed.

Lemma grew_all_growths key p prev rs :
  baseline_is p key prev → grew_all key p rs = growths prev rs.
Proof.
  revert p prev. induction rs as [|r rs IH]; intros p prev Hb; [done|]. simpl.
  destruct (grew_step p key prev r Hb) as [H1 H2]. destruct (grew p key r) as [b p']. simpl in *.
  by rewrite H1, (IH _ _ H2).
Qed.

(** A policy counter reports exactly the polls whose reading is larger than that of
    the poll just before, both having been read and being within 32 bits: never on the
    first reading, after a failed read or an out-of-range value, or when it drops. *)
Theorem policy_counter_growth key p rs :
  baselines p !! key = None → grew_all key p rs = growths no_reading rs.
Proof. intros Hb. by apply grew_all_growths. Qed.

Lemma policy_counter_growth_witness :
  (baselines NewPolicies !! (0%nat, 202)) = None ∧
  grew_all (0%nat, 202) NewPolicies
    [mkReading 5 true; mkReading 7 true; no_reading; mkReading 9 true; mkReading 3 true;
     mkReading 4 true] = [false; true; false; false; false; true].
Proof.
  split; [apply lookup_empty|].
  rewrite (policy_counter_growth (0%nat, 202) NewPolicies _ (lookup_empty _)). reflexivity.
Defined.

(** ** Lost GPUs *)

Lemma run_steps_lost {G} (lv : G) steps step g r :
  step ∈ steps → (∀ g r, lost (step g r).2 = true) → (run_steps lv steps g r).1 = lv.
Proof.
  intros Hin Hstep. revert g r. induction steps as [|s steps IH]; intros g r;
    [by apply elem_of_nil in Hin|]. rewrite run_steps_cons. apply elem_of_cons in Hin as [<-|Hin].
  - specialize (Hstep g r). destruct (step g r) as [g' r']. simpl in Hstep. by rewrite Hstep.
  - destruct (s g r) as [g' r']. destruct (lost r'); [done|]. by apply IH.
Qed.

Lemma observe_lost call v r : lost (observe call v ERROR_GPU_IS_LOST r).2 = true.
Proof. done. Qed.

Lemma read_step_lost call v store g r :
  lost (read_step call (v, ERROR_GPU_IS_LOST) store g r).2 = true.
Proof. done. Qed.

(** Some call that [readGPU] makes answers that the GPU is lost. *)
Definition answers_lost (dev : Device) (readLimit : bool) : Prop :=
  (GetMemoryErrorCounter dev).2 = ERROR_GPU_IS_LOST ∨ (GetPcieReplayCounter dev).2 = ERROR_GPU_IS_LOST ∨
  (GetRetiredPagesSBE dev).2 = ERROR_GPU_IS_LOST ∨ (GetRetiredPagesDBE dev).2 = ERROR_GPU_IS_LOST ∨
  (GetTemperature dev).2 = ERROR_GPU_IS_LOST ∨ (GetPowerUsage dev).2 = ERROR_GPU_IS_LOST ∨
  (readLimit = true ∧ (GetEnforcedPowerLimit dev).2 = ERROR_GPU_IS_LOST) ∨
  (GetNVLinkTotals dev).2 = ERROR_GPU_IS_LOST.

(** The step at position [k] of the steps, which always ends with the GPU lost. *)
Local Ltac at_step k :=
  eexists; split; [by apply (list_elem_of_lookup_2 _ k)|intros g r; reflexivity].

Lemma answers_lost_step dev readLimit :
  answers_lost dev readLimit →
  ∃ step, step ∈ policy_steps dev readLimit ∧ ∀ g r, lost (step g r).2 = true.
Proof.
  destruct dev as [[a ra] [b rb] [c rc] [d rd] [e re] [f rf] [h rh] [i ri]].
  unfold answers_lost. cbn [fst snd GetMemoryErrorCounter GetPcieReplayCounter GetRetiredPagesSBE
    GetRetiredPagesDBE GetTemperature GetPowerUsage GetEnforcedPowerLimit GetNVLinkTotals].
  intros [H|[H|[H|[H|[H|[H|[[Hl H]|H]]]]]]]; subst.
  all: [> at_step 0%nat|at_step 1%nat|at_step 2%nat|at_step 3%nat|at_step 4%nat|at_step 5%nat
      |at_step 6%nat|at_step 7%nat].
Qed.

Lemma lostGPU_one gpu gpus :
  ∃ m, lostGPU gpu gpus = [mkCondition "NvidiaXID79Error" m SeverityFatal 0 false].
Proof. eexists. reflexivity. Qed.

(** A lost GPU yields one condition: when the handle or any call made for the GPU
    answers that it is lost, the poll reports exactly the fatal XID 79 reason for it,
    whatever else was read, and forgets its counters. *)
Theorem lost_gpu_reported_once lib i readLimit clock gpus p :
  (DeviceGetHandleByIndex lib i).2 = ERROR_GPU_IS_LOST ∨
  (DeviceGetHandleByIndex lib i).2 = SUCCESS ∧
    answers_lost (DeviceGetHandleByIndex lib i).1 readLimit →
  let '(out, p') := evaluate_gpu clock gpus i (readGPU lib i readLimit).1 p in
  (∃ m, out = [mkCondition "NvidiaXID79Error" m SeverityFatal 0 false]) ∧
  ∀ field, baselines p' !! (i, field) = None.
Proof.
  intros Hl. assert (Hlost : rdLost (readGPU lib i readLimit).1 = true).
  { unfold readGPU. destruct (DeviceGetHandleByIndex lib i) as [dev ret]. simpl in Hl.
    destruct Hl as [ -> |[ -> Ha]]; [done|].
    destruct (answers_lost_step dev readLimit Ha) as (step & Hin & Hs). simpl.
    by rewrite (run_steps_lost (empty_readings true []) _ step). }
  unfold evaluate_gpu. rewrite Hlost. split; [apply lostGPU_one|].
  intros field. simpl. apply map_lookup_filter_None. right. intros v _. simpl. naive_solver.
Qed.

Definition ex_library (ret : Return) : Library :=
  mkLibrary (1%nat, SUCCESS)
    (λ _, (mkDevice (3, SUCCESS) (0, SUCCESS) (0, ERROR_NOT_SUPPORTED) (0, SUCCESS) (120, ret)
             (90000, SUCCESS) (300000, SUCCESS) ([], SUCCESS), SUCCESS)).

Lemma lost_gpu_reported_once_witness :
  answers_lost (DeviceGetHandleByIndex (ex_library ERROR_GPU_IS_LOST) 0).1 true ∧
  ∃ m, (evaluate_gpu (λ _, 0) [] 0 (readGPU (ex_library ERROR_GPU_IS_LOST) 0 true).1 NewPolicies).1 =
         [mkCondition "NvidiaXID79Error" m SeverityFatal 0 false].
Proof.
  assert (Ha : answers_lost (DeviceGetHandleByIndex (ex_library ERROR_GPU_IS_LOST) 0).1 true).
  { unfold answers_lost. simpl. tauto. }
  split; [exact Ha|].
  exact (proj1 (lost_gpu_reported_once (ex_library ERROR_GPU_IS_LOST) 0 true (λ _, 0) [] NewPolicies
    (or_intror (conj eq_refl Ha)))).
Defined.

(** ** Reads that fail *)

(** The call neither returned a value nor said that the GPU is lost. *)
Definition fails (ret : Return) : Prop := outcome ret ≠ Observed ∧ outcome ret ≠ GPULost.

Definition answers_fail (dev : Device) : Prop :=
  fails (GetMemoryErrorCounter dev).2 ∧ fails (GetPcieReplayCounter dev).2 ∧
  fails (GetRetiredPagesSBE dev).2 ∧ fails (GetRetiredPagesDBE dev).2 ∧
  fails (GetTemperature dev).2 ∧ fails (GetPowerUsage dev).2 ∧
  fails (GetEnforcedPowerLimit dev).2 ∧
  (fails (GetNVLinkTotals dev).2 ∨
   (GetNVLinkTotals dev).2 = SUCCESS ∧ Forall (λ v, fails (fvReturn v)) (GetNVLinkTotals dev).1).

(** Nothing was read. *)
Definition unread (g : gpuReadings) : Prop :=
  rdLost g = false ∧ dbe g = no_reading ∧ pcieReplays g = no_reading ∧ retiredSBE g = no_reading ∧
  retiredDBE g = no_reading ∧ temperatureC g = no_reading ∧ powerMW g = no_reading ∧
  powerLimitMW g = no_reading ∧ Forall (λ x, x = no_reading) (nvlink g).

Lemma observe_fails call v ret r :
  fails ret → (observe call v ret r).1 = no_reading ∧ lost (observe call v ret r).2 = lost r.
Proof. intros [H1 H2]. unfold observe, counted. by destruct ret; simpl in *. Qed.

Lemma observe_fields_fail vs r :
  Forall (λ v, fails (fvReturn v)) vs →
  Forall (λ x, x = no_reading) (observe_fields vs r).1 ∧ lost (observe_fields vs r).2 = lost r.
Proof.
  intros Hvs. revert r. induction Hvs as [|v vs Hv _ IH]; intros r; [by split|].
  simpl. unfold observe_field.
  pose proof (observe_fails "nvmlDeviceGetFieldValues" (default 0 (fieldValueUint v)) _ r Hv) as [H1 H2].
  destruct (observe _ _ _ r) as [x r1]. simpl in *. subst x. simpl.
  destruct (IH r1) as [H3 H4]. destruct (observe_fields vs r1) as [xs r2]. simpl in *.
  split; [by constructor|congruence].
Qed.

Lemma run_steps_keep {G} (P : G → Prop) (lv : G) steps g r :
  Forall (λ step, ∀ g r, P g → P (step g r).1 ∧ lost (step g r).2 = lost r) steps →
  P g → lost r = false → P (run_steps lv steps g r).1.
Proof.
  intros Hs. revert g r. induction Hs as [|step steps Hstep _ IH]; intros g r Hg Hr; [done|].
  rewrite run_steps_cons. destruct (Hstep g r Hg) as [H1 H2]. destruct (step g r) as [g' r'].
  simpl in *. rewrite H2, Hr. apply IH; [done|congruence].
Qed.

Lemma read_step_unread call answer store g r :
  fails answer.2 → (∀ g, unread g → unread (store g no_reading)) → unread g →
  unread (read_step call answer store g r).1 ∧ lost (read_step call answer store g r).2 = lost r.
Proof.
  intros Hf Hst Hg. unfold read_step.
  destruct (observe_fails call answer.1 answer.2 r Hf) as [H1 H2].
  destruct (observe _ _ _ r) as [x r']. simpl in *. subst x. auto.
Qed.

Lemma policy_steps_unread dev readLimit :
  answers_fail dev →
  Forall (λ step, ∀ g r, unread g → unread (step g r).1 ∧ lost (step g r).2 = lost r)
    (policy_steps dev readLimit).
Proof.
  intros (H1 & H2 & H3 & H4 & H5 & H6 & H7 & H8). unfold policy_steps.
  repeat (apply Forall_cons; split); [..|apply Forall_nil_2].
  1-6: intros g r Hg; apply read_step_unread; auto; unfold unread; simpl; tauto.
  - intros g r Hg. destruct readLimit; [|done].
    apply read_step_unread; auto; unfold unread; simpl; tauto.
  - intros g r Hg. pose proof (observe_fails "nvmlDeviceGetFieldValues" 0 (GetNVLinkTotals dev).2 r) as Ho.
    destruct H8 as [H8|[H8 H9]].
    + destruct (Ho H8) as [Hx Hl]. destruct (observe _ _ _ r) as [x r1]. simpl in *. by subst x.
    + rewrite H8. simpl. destruct (observe_fields_fail _ r H9) as [Hxs Hl].
      destruct (observe_fields _ r) as [xs r2]. simpl in *. split; [|done].
      unfold unread in *. simpl. tauto.
Qed.

Lemma readGPU_unread lib i readLimit :
  fails (DeviceGetHandleByIndex lib i).2 ∨
  (DeviceGetHandleByIndex lib i).2 = SUCCESS ∧ answers_fail (DeviceGetHandleByIndex lib i).1 →
  unread (readGPU lib i readLimit).1.
Proof.
  unfold readGPU. destruct (DeviceGetHandleByIndex lib i) as [dev ret]. simpl.
  intros [Hf|[-> Hf]].
  - destruct (observe_fails "nvmlDeviceGetHandleByIndex" 0 ret new_reader Hf) as [Hx Hl].
    destruct (observe _ _ _ _) as [x r]. simpl in *. subst x. simpl. rewrite Hl.
    repeat split. constructor.
  - simpl. apply run_steps_keep; [by apply policy_steps_unread| |done].
    repeat split. repeat constructor.
Qed.

Lemma grew_unread p key : (grew p key no_reading).1 = false.
Proof. done. Qed.

Lemma nvlink_loop_unread gpu fields rs reported p :
  Forall (λ x, x = no_reading) rs → (nvlink_loop gpu fields rs reported p).1 = [].
Proof.
  revert rs reported p. induction fields as [|f fields IH]; intros rs reported p Hrs; [done|].
  destruct Hrs as [|r rs -> Hrs]; [done|]. simpl.
  specialize (IH rs (reported || false) (set_baselines p (delete (gpu, f) (baselines p))) Hrs).
  destruct (nvlink_loop _ _ _ _ _) as [outs p']. done.
Qed.

(** A read that fails is never a fault: when the calls for a GPU answer with errors
    other than that it is lost, the poll reports nothing for it, whatever was read
    before. *)
Theorem failed_reads_report_nothing lib i readLimit clock gpus p :
  fails (DeviceGetHandleByIndex lib i).2 ∨
  (DeviceGetHandleByIndex lib i).2 = SUCCESS ∧ answers_fail (DeviceGetHandleByIndex lib i).1 →
  (evaluate_gpu clock gpus i (readGPU lib i readLimit).1 p).1 = [].
Proof.
  intros H%(readGPU_unread lib i readLimit). destruct (readGPU lib i readLimit) as [g r].
  simpl in *. destruct g. destruct H as (H1 & H2 & H3 & H4 & H5 & H6 & H7 & H8 & H9).
  cbn in H1, H2, H3, H4, H5, H6, H7, H8, H9. subst. unfold evaluate_gpu.
  cbn [rdLost dbe nvlink grew ok no_reading negb orb].
  match goal with |- context [nvlink_loop ?a ?b ?c ?d ?e] =>
    pose proof (nvlink_loop_unread a b c d e H9) as Hn; destruct (nvlink_loop a b c d e) as [out2 p2] end.
  simpl in Hn. subst out2. done.
Qed.

Definition ex_dead : Library :=
  mkLibrary (1%nat, SUCCESS)
    (λ _, (mkDevice (0, ERROR_OTHER 999) (0, ERROR_NOT_SUPPORTED) (0, ERROR_OTHER 999)
             (0, ERROR_OTHER 999) (0, ERROR_OTHER 999) (0, ERROR_FUNCTION_NOT_FOUND)
             (0, ERROR_OTHER 999) ([], ERROR_OTHER 999), SUCCESS)).

Lemma failed_reads_report_nothing_witness :
  answers_fail (DeviceGetHandleByIndex ex_dead 0).1 ∧
  (evaluate_gpu (λ _, 0) [] 0 (readGPU ex_dead 0 true).1 NewPolicies).1 = [].
Proof.
  assert (Ha : answers_fail (DeviceGetHandleByIndex ex_dead 0).1).
  { repeat split; try discriminate. left. split; discriminate. }
  split; [exact Ha|]. apply failed_reads_report_nothing. right. split; [reflexivity|exact Ha].
Defined.
