(* ===== verification/NvmlHealth.v ===== *)
(** * NvmlHealth: DCGM's health codes read from NVML ([monitors/nvidia/nvml/health.go]).

    A poll reads every GPU and applies the health rules, in the order of the code,
    to the readings.  The rules are written in a monad that threads the state of
    [Health] and collects conditions, so that a rule reads like the closures
    [fatal], [warn] and [growth] it is made of.  The constants of the go-nvml
    package are the fields of a class: their values are not part of the
    repository. *)

From S2P Require Import Prelude GoStrings Monitor Reasons Renotify Classify Nvml.

(** ** Constants *)

Class NvmlConstants := {
  NVLINK_BER_MANTISSA_SHIFT : Z;
  NVLINK_BER_MANTISSA_WIDTH : Z;
  NVLINK_BER_EXP_SHIFT : Z;
  NVLINK_BER_EXP_WIDTH : Z;
  NVLINK_MAX_LINKS : Z;
  DEVICE_MIG_ENABLE : Z;
  FEATURE_DISABLED : Z;
  GPU_RECOVERY_ACTION_GPU_RESET : Z;
  GPU_RECOVERY_ACTION_NODE_REBOOT : Z;
  GPU_RECOVERY_ACTION_DRAIN_P2P : Z;
  GPU_RECOVERY_ACTION_DRAIN_AND_RESET : Z;
  (* the conversion to the type of the recovery actions *)
  DeviceGpuRecoveryAction : Z → Z
}.

Definition inforomInterval : Duration := Hour.

Definition maxRetiredPagesTotal : Z := 63.
Definition maxRetiredPagesDBE : Z := 15.
Definition maxUncorrectableRemaps : Z := 512.
Definition ampereComputeMajor : Z := 8.
Definition blackwellComputeMajor : Z := 10.
Definition berZeroMantissa : Z := 15.
Definition berZeroExponent : Z := 255.
Definition effectiveBERExponent : Z := 12.
Definition symbolBERFloorExponent : Z := 255.
Definition symbolBERFloorExponentSummed : Z := 238.

Definition codeVolatileDBE : Z := 4.
Definition codePendingRetirements : Z := 6.
Definition codeRetiredPagesLimit : Z := 7.
Definition codeRetiredPagesDBELimit : Z := 8.
Definition codeCorruptInforom : Z := 9.
Definition codeClocksThermal : Z := 10.
Definition codePowerUnreadable : Z := 11.
Definition codeClocksPower : Z := 12.
Definition codeNVLinkDown : Z := 14.
Definition codeFaultyMemory : Z := 52.
Definition codeNVLinkErrorCritical : Z := 71.
Definition codeRowRemapFailure : Z := 80.
Definition codeEffectiveBER : Z := 119.
Definition codeSymbolBER : Z := 121.
Definition codeRecoveryReset : Z := 125.
Definition codeRecoveryReboot : Z := 126.
Definition codeRecoveryDrainP2P : Z := 127.
Definition codeRecoveryDrainReset : Z := 128.
Definition codeUncorrectableRemaps : Z := 132.

(** The indexes into [healthFields]. *)
Definition fieldDBEVolatile : nat := 0.
Definition fieldRetiredPending : nat := 1.
Definition fieldRetiredSBE : nat := 2.
Definition fieldRetiredDBE : nat := 3.
Definition fieldRemapFailure : nat := 4.
Definition fieldRemapUncorrectable : nat := 5.
Definition fieldRecoveryAction : nat := 6.
Definition fieldThermalViolation : nat := 7.
Definition fieldPowerViolation : nat := 8.
Definition fieldNVLinkCount : nat := 9.
Definition fieldNVLinkSymbolErrors : nat := 10.
Definition fieldNVLinkMalformedPackets : nat := 11.
Definition fieldNVLinkBufferOverruns : nat := 12.
Definition fieldNVLinkReceiveErrors : nat := 13.
Definition fieldNVLinkRemoteErrors : nat := 14.
Definition fieldNVLinkGeneralErrors : nat := 15.
Definition fieldNVLinkIntegrityErrors : nat := 16.
Definition fieldNVLinkRecoveryEvents : nat := 17.
Definition fieldNVLinkEffectiveErrors : nat := 18.
Definition fieldNVLinkECCErrors : nat := 19.
Definition fieldNVLinkEffectiveBER : nat := 20.
Definition fieldNVLinkSymbolBER : nat := 21.
Definition fieldNVLinkRecoverySucceeded : nat := 22.
Definition fieldNVLinkRecoveryFailed : nat := 23.

(** An NVML field, named by its constant, and whether it is one of NVLink5. *)
Record healthField := mkHealthField { id : string; nvlink5 : bool }.

Definition healthFields : list healthField :=
  [mkHealthField "FI_DEV_ECC_DBE_VOL_TOTAL" false;
   mkHealthField "FI_DEV_RETIRED_PENDING" false;
   mkHealthField "FI_DEV_RETIRED_SBE" false;
   mkHealthField "FI_DEV_RETIRED_DBE" false;
   mkHealthField "FI_DEV_REMAPPED_FAILURE" false;
   mkHealthField "FI_DEV_REMAPPED_UNC" false;
   mkHealthField "FI_DEV_GET_GPU_RECOVERY_ACTION" false;
   mkHealthField "FI_DEV_PERF_POLICY_THERMAL" false;
   mkHealthField "FI_DEV_PERF_POLICY_POWER" false;
   mkHealthField "FI_DEV_NVLINK_LINK_COUNT" false;
   mkHealthField "FI_DEV_NVLINK_COUNT_SYMBOL_ERRORS" true;
   mkHealthField "FI_DEV_NVLINK_COUNT_MALFORMED_PACKET_ERRORS" true;
   mkHealthField "FI_DEV_NVLINK_COUNT_BUFFER_OVERRUN_ERRORS" true;
   mkHealthField "FI_DEV_NVLINK_COUNT_RCV_ERRORS" true;
   mkHealthField "FI_DEV_NVLINK_COUNT_RCV_REMOTE_ERRORS" true;
   mkHealthField "FI_DEV_NVLINK_COUNT_RCV_GENERAL_ERRORS" true;
   mkHealthField "FI_DEV_NVLINK_COUNT_LOCAL_LINK_INTEGRITY_ERRORS" true;
   mkHealthField "FI_DEV_NVLINK_COUNT_LINK_RECOVERY_EVENTS" true;
   mkHealthField "FI_DEV_NVLINK_COUNT_EFFECTIVE_ERRORS" true;
   mkHealthField "FI_DEV_NVLINK_ECC_DATA_ERROR_COUNT_TOTAL" false;
   mkHealthField "FI_DEV_NVLINK_COUNT_EFFECTIVE_BER" true;
   mkHealthField "FI_DEV_NVLINK_COUNT_SYMBOL_BER" true;
   mkHealthField "FI_DEV_NVLINK_COUNT_LINK_RECOVERY_SUCCESSFUL_EVENTS" true;
   mkHealthField "FI_DEV_NVLINK_COUNT_LINK_RECOVERY_FAILED_EVENTS" true].

Definition nvlinkErrorCounters : list (nat * string) :=
  [(fieldNVLinkSymbolErrors, "symbol errors");
   (fieldNVLinkMalformedPackets, "malformed packets");
   (fieldNVLinkBufferOverruns, "packets dropped on buffer overrun");
   (fieldNVLinkReceiveErrors, "receive errors");
   (fieldNVLinkRemoteErrors, "remote receive errors");
   (fieldNVLinkGeneralErrors, "general receive errors");
   (fieldNVLinkIntegrityErrors, "local link integrity errors");
   (fieldNVLinkRecoveryEvents, "link recovery events");
   (fieldNVLinkEffectiveErrors, "effective errors");
   (fieldNVLinkECCErrors, "ECC data errors")].

(** ** Readings of one GPU *)

Record gpuHealth := mkGpuHealth {
  hLost : bool;
  fields : list reading;
  powerUnreadable : reading;
  unrepairable : reading;
  computeMajor : reading;
  inforom : reading;
  mig : bool;
  linksDown : list nat
}.

Definition no_fields : list reading := replicate (length healthFields) no_reading.

Definition empty_health (l : bool) : gpuHealth :=
  mkGpuHealth l no_fields no_reading no_reading no_reading no_reading false [].

Definition field (g : gpuHealth) (f : nat) : reading := default no_reading (fields g !! f).

Definition set_fields g x := mkGpuHealth (hLost g) x (powerUnreadable g) (unrepairable g) (computeMajor g) (inforom g) (mig g) (linksDown g).
Definition set_powerUnreadable g x := mkGpuHealth (hLost g) (fields g) x (unrepairable g) (computeMajor g) (inforom g) (mig g) (linksDown g).
Definition set_unrepairable g x := mkGpuHealth (hLost g) (fields g) (powerUnreadable g) x (computeMajor g) (inforom g) (mig g) (linksDown g).
Definition set_computeMajor g x := mkGpuHealth (hLost g) (fields g) (powerUnreadable g) (unrepairable g) x (inforom g) (mig g) (linksDown g).
Definition set_inforom g x := mkGpuHealth (hLost g) (fields g) (powerUnreadable g) (unrepairable g) (computeMajor g) x (mig g) (linksDown g).
Definition set_mig g x := mkGpuHealth (hLost g) (fields g) (powerUnreadable g) (unrepairable g) (computeMajor g) (inforom g) x (linksDown g).
Definition set_linksDown g x := mkGpuHealth (hLost g) (fields g) (powerUnreadable g) (unrepairable g) (computeMajor g) (inforom g) (mig g) x.

(** What the calls for one GPU answer.  The field-values call fills in each of the
    values it is given, by field and scope. *)
Record Device := mkDevice {
  GetCudaComputeCapability : Z * Return;
  FieldValueOf : string → Z → FieldValue;
  GetFieldValues : Return;
  GetPowerUsage : Return;
  GetUnrepairableMemoryFlag_v1 : Z * Return;
  GetMigMode : Z * Return;
  GetNvLinkState : nat → Z * Return;
  ValidateInforom : Return
}.

Record Library := mkLibrary {
  DeviceGetCount : nat * Return;
  DeviceGetHandleByIndex : nat → Device * Return
}.

Section Health.
Context `{NvmlConstants}.

Definition is_blackwell (g : gpuHealth) : bool :=
  ok (computeMajor g) && (blackwellComputeMajor <=? value (computeMajor g)).

(** The requests of the field-values call, each with its index and scope. *)
Definition field_requests (g : gpuHealth) : list (nat * string * Z) :=
  omap (λ p, let '(i, f) := p in
             if nvlink5 f && negb (ok (computeMajor g)) then None
             else Some (i, id f, if nvlink5 f && is_blackwell g then max_uint32 else 0))
    (imap pair healthFields).

Fixpoint store_fields (dev : Device) (reqs : list (nat * string * Z)) (fs : list reading)
    (r : gpuReader) : list reading * gpuReader :=
  match reqs with
  | [] => (fs, r)
  | (i, f, scope) :: reqs' =>
      let v := FieldValueOf dev f scope in
      let '(got, r) := observe "nvmlDeviceGetFieldValues" (default 0 (fieldValueUint v)) (fvReturn v) r in
      store_fields dev reqs'
        (if ok got && bool_decide (is_Some (fieldValueUint v)) then <[i := got]> fs else fs) r
  end.

Fixpoint read_links (dev : Device) (links : list nat) (down : list nat) (r : gpuReader)
    : list nat * gpuReader :=
  match links with
  | [] => (down, r)
  | link :: links' =>
      let '(state, ret) := GetNvLinkState dev link in
      let '(x, r) := observe "nvmlDeviceGetNvLinkState" (u64 state) ret r in
      let down := if ok x && (state =? FEATURE_DISABLED) then down ++ [link] else down in
      if lost r then (down, r) else read_links dev links' down r
  end.

Definition health_steps (dev : Device) (hasUnrepairable validateInforom : bool)
    : list (gpuHealth → gpuReader → gpuHealth * gpuReader) :=
  [(λ g r, let '(major, ret) := GetCudaComputeCapability dev in
           let '(x, r) := observe "nvmlDeviceGetCudaComputeCapability" (u64 major) ret r in
           (set_computeMajor g x, r));
   (λ g r, let reqs := field_requests g in
           let '(x, r) := observe "nvmlDeviceGetFieldValues" 0 (GetFieldValues dev) r in
           if negb (ok x) then (g, r)
           else let '(fs, r) := store_fields dev reqs (fields g) r in (set_fields g fs, r));
   (λ g r, let '(o, r) := counted "nvmlDeviceGetPowerUsage" (GetPowerUsage dev) r in
           match o with
           | Observed | NotObserved => (set_powerUnreadable g (mkReading 0 true), r)
           | GPULost => (g, mkGpuReader true (unexpected r))
           | _ => (set_powerUnreadable g (mkReading 1 true), r)
           end);
   (λ g r, if hasUnrepairable then
             let '(status, ret) := GetUnrepairableMemoryFlag_v1 dev in
             let '(x, r) := observe "nvmlDeviceGetUnrepairableMemoryFlag_v1" (u64 status) ret r in
             (set_unrepairable g x, r)
           else (g, r));
   (λ g r, let '(current, ret) := GetMigMode dev in
           let '(mode, r) := observe "nvmlDeviceGetMigMode" (u64 current) ret r in
           (set_mig g (ok mode && (value mode =? DEVICE_MIG_ENABLE)), r));
   (λ g r, let count := field g fieldNVLinkCount in
           if mig g || negb (ok count) then (g, r)
           else
             let links := Z.to_nat (Z.min (value count) NVLINK_MAX_LINKS) in
             let '(down, r) := read_links dev (seq 0 links) (linksDown g) r in
             (set_linksDown g down, r));
   (λ g r, if negb validateInforom then (g, r)
           else match ValidateInforom dev with
                | ERROR_CORRUPTED_INFOROM => (set_inforom g (mkReading 1 true), r)
                | ret => let '(x, r) := observe "nvmlDeviceValidateInforom" 0 ret r in (set_inforom g x, r)
                end)].

Definition readGPUHealth (lib : Library) (index : nat) (hasUnrepairable validateInforom : bool)
    : gpuHealth * gpuReader :=
  let '(dev, ret) := DeviceGetHandleByIndex lib index in
  let '(h, r) := observe "nvmlDeviceGetHandleByIndex" 0 ret new_reader in
  if negb (ok h) then (empty_health (lost r), r)
  else run_steps (empty_health true) (health_steps dev hasUnrepairable validateInforom)
         (empty_health false) r.

(** ** Bit error rates *)

Definition berParts (v : Z) : Z * Z :=
  (Z.land (Z.shiftr v NVLINK_BER_MANTISSA_SHIFT) NVLINK_BER_MANTISSA_WIDTH,
   Z.land (Z.shiftr v NVLINK_BER_EXP_SHIFT) NVLINK_BER_EXP_WIDTH).

Definition effectiveBERExceeded (mantissa exponent : Z) : bool :=
  if (mantissa =? berZeroMantissa) && (exponent =? berZeroExponent) then false
  else if exponent =? effectiveBERExponent then 1 <? mantissa
  else if exponent =? effectiveBERExponent + 1 then 10 <? mantissa
  else exponent <? effectiveBERExponent.

Definition symbolBERExceeded (mantissa exponent floor : Z) : bool :=
  negb (mantissa =? 0) && (exponent <? floor).

(** ** State *)

Abbreviation healthCounterKey := (nat * nat)%type.

Record Health := mkHealth {
  inforomAt : Time;
  inforoms : list reading;
  baselines : gmap healthCounterKey Z;
  notified : levelReports
}.

Definition NewHealth : Health := mkHealth zero_time [] ∅ ∅.

Definition set_baselines (h : Health) (b : gmap healthCounterKey Z) : Health :=
  mkHealth (inforomAt h) (inforoms h) b (notified h).
Definition set_notified (h : Health) (n : levelReports) : Health :=
  mkHealth (inforomAt h) (inforoms h) (baselines h) n.

Definition grew (h : Health) (key : healthCounterKey) (r : reading) : Z * bool * Health :=
  let prev := baselines h !! key in
  if negb (ok r) then (0, false, set_baselines h (delete key (baselines h)))
  else
    let h := set_baselines h (<[key := value r]> (baselines h)) in
    match prev with
    | None => (0, false, h)
    | Some prev => if value r <? prev then (0, true, h) else (u64 (value r - prev), true, h)
    end.

Definition clearBaselines (h : Health) (gpu : nat) : Health :=
  set_baselines h (filter (λ kv, kv.1.1 ≠ gpu) (baselines h)).

Definition healthCondition (code : Z) (severity : Severity) (gpu detail : string) : Condition :=
  Build (WithSeverity (WithMessage (Builder DCGMHealthCode [AInt "int" code]) (gpu +:+ ": " +:+ detail))
           severity).

(** ** The rules *)

(** A computation of [evaluate]: it updates the state and appends to [out]. *)
Definition Eval (A : Type) : Type := Health → A * list Condition * Health.

Definition eret {A} (a : A) : Eval A := λ h, (a, [], h).
Definition ebind {A B} (m : Eval A) (k : A → Eval B) : Eval B :=
  λ h, let '(a, out1, h1) := m h in let '(b, out2, h2) := k a h1 in (b, out1 ++ out2, h2).
Definition ewhen (b : bool) (m : Eval unit) : Eval unit := if b then m else eret tt.
Definition eforeach {A} (l : list A) (body : A → Eval unit) : Eval unit :=
  foldr (λ a rest, ebind (body a) (λ _, rest)) (eret tt) l.

Section Gpu.
Variables (now : Time) (i : nat) (gpu : string) (s : gpuHealth).

Definition fatal (code : Z) (detail : string) : Eval unit :=
  λ h, (tt, [healthCondition code SeverityFatal gpu detail], h).

Definition warn (code : Z) (observed over : bool) (detail : string) : Eval unit :=
  λ h, let '(b, n) := report (notified h) now (i, Itoa code) observed over in
       (tt, if b then [healthCondition code SeverityWarning gpu detail] else [], set_notified h n).

Definition growth (f : nat) : Eval (Z * bool) :=
  λ h, let '(n, observed, h) := grew h (i, f) (field s f) in ((n, observed), [], h).

Abbreviation u64a z := (AInt "uint64" z).
Abbreviation inta z := (AInt "int" z).

Definition rule_dbe : Eval unit :=
  let dbe := field s fieldDBEVolatile in
  ewhen (ok dbe && (0 <? value dbe))
    (fatal codeVolatileDBE (Sprintf "%d uncorrected volatile ECC errors" [u64a (value dbe)])).

Definition rule_pending : Eval unit :=
  let pending := field s fieldRetiredPending in
  warn codePendingRetirements (ok pending) (negb (value pending =? 0)) "pages are pending retirement".

Definition rule_retired : Eval unit :=
  let sbe := field s fieldRetiredSBE in
  let dbe := field s fieldRetiredDBE in
  let total := u64 (value sbe + value dbe) in
  if maxRetiredPagesTotal <=? total then
    fatal codeRetiredPagesLimit
      (Sprintf "%d pages retired (%d single-bit, %d double-bit), at or above the limit of %d"
         [u64a total; u64a (value sbe); u64a (value dbe); inta maxRetiredPagesTotal])
  else
    ewhen (ok dbe && (maxRetiredPagesDBE <? value dbe))
      (fatal codeRetiredPagesDBELimit
         (Sprintf "%d pages retired after double-bit errors, above the limit of %d"
            [u64a (value dbe); inta maxRetiredPagesDBE])).

Definition rule_thermal : Eval unit :=
  ebind (growth fieldThermalViolation) (λ '(thermal, observed),
    warn codeClocksThermal observed (0 <? thermal)
      (Sprintf "clocks were slowed by a thermal limit for %s since the last check"
         [AStr (DurationString (i64 thermal))])).

Definition rule_power : Eval unit :=
  ebind (growth fieldPowerViolation) (λ '(power, observed),
    warn codeClocksPower observed (0 <? power)
      (Sprintf "clocks were slowed by a power limit for %s since the last check"
         [AStr (DurationString (i64 power))])).

Definition rule_links_down (anyMIG : bool) : Eval unit :=
  ewhen (negb anyMIG)
    (eforeach (linksDown s) (λ link,
       fatal codeNVLinkDown (Sprintf "NVLink %d is down" [inta (Z.of_nat link)]))).

Definition rule_counter (c : nat * string) : Eval unit :=
  ebind (growth c.1) (λ '(n, _),
    ewhen (0 <? n)
      (fatal codeNVLinkErrorCritical
         (Sprintf "NVLink %s grew by %d since the last check" [AStr c.2; u64a n]))).

Definition rule_recoveries : Eval unit :=
  ewhen (is_blackwell s)
    (let failed := field s fieldNVLinkRecoveryFailed in
     ebind (ewhen (ok failed && (0 <? value failed))
              (fatal codeNVLinkErrorCritical (Sprintf "failed NVLink recoveries: %d" [u64a (value failed)])))
       (λ _,
          let succeeded := field s fieldNVLinkRecoverySucceeded in
          warn codeNVLinkErrorCritical (ok succeeded) (0 <? value succeeded)
            (Sprintf "successful NVLink recoveries: %d" [u64a (value succeeded)]))).

Definition rule_effective_ber : Eval unit :=
  let ber := field s fieldNVLinkEffectiveBER in
  ewhen (ok ber)
    (let '(m, e) := berParts (value ber) in
     ewhen (effectiveBERExceeded m e)
       (fatal codeEffectiveBER (Sprintf "NVLink effective BER %de-%d, above 1e-%d"
          [u64a m; u64a e; inta effectiveBERExponent]))).

Definition rule_symbol_ber : Eval unit :=
  let ber := field s fieldNVLinkSymbolBER in
  ewhen (ok ber)
    (let floor := if is_blackwell s then symbolBERFloorExponentSummed else symbolBERFloorExponent in
     let '(m, e) := berParts (value ber) in
     ewhen (symbolBERExceeded m e floor)
       (fatal codeSymbolBER (Sprintf "NVLink symbol BER %de-%d, at or above 1e-%d"
          [u64a m; u64a e; u64a (floor - 1)]))).

Definition rule_remap_failure : Eval unit :=
  let failed := field s fieldRemapFailure in
  ewhen (ok failed && (0 <? value failed)) (fatal codeRowRemapFailure "row remapping failed").

Definition rule_remaps : Eval unit :=
  let unc := field s fieldRemapUncorrectable in
  warn codeUncorrectableRemaps (ok unc && ok (computeMajor s))
    ((ampereComputeMajor <=? value (computeMajor s)) && (maxUncorrectableRemaps <=? value unc))
    (Sprintf "%d uncorrectable row remaps, at or above the limit of %d"
       [u64a (value unc); inta maxUncorrectableRemaps]).

Definition rule_unrepairable : Eval unit :=
  ewhen (ok (unrepairable s) && negb (value (unrepairable s) =? 0))
    (fatal codeFaultyMemory "the GPU reports unrepairable memory").

Definition rule_inforom : Eval unit :=
  λ h, let inforom := default no_reading (inforoms h !! i) in
       warn codeCorruptInforom (ok inforom) (negb (value inforom =? 0)) "the InfoROM is corrupted" h.

Definition rule_power_unreadable : Eval unit :=
  warn codePowerUnreadable (ok (powerUnreadable s)) (negb (value (powerUnreadable s) =? 0))
    "power usage could not be read".

Definition rule_recovery_action : Eval unit :=
  let action := field s fieldRecoveryAction in
  ebind
    (ewhen (ok action)
       (let a := DeviceGpuRecoveryAction (value action) in
        if a =? GPU_RECOVERY_ACTION_GPU_RESET then
          fatal codeRecoveryReset "NVML recovery action: reset the GPU"
        else if a =? GPU_RECOVERY_ACTION_NODE_REBOOT then
          fatal codeRecoveryReboot "NVML recovery action: reboot the node"
        else if a =? GPU_RECOVERY_ACTION_DRAIN_AND_RESET then
          fatal codeRecoveryDrainReset
            "NVML recovery action: drain peer-to-peer traffic and reset the GPU"
        else eret tt))
    (λ _, warn codeRecoveryDrainP2P (ok action) (value action =? GPU_RECOVERY_ACTION_DRAIN_P2P)
            "NVML recovery action: drain peer-to-peer traffic").

(** The rules in the order of the code. *)
Definition rules (anyMIG : bool) : list (Eval unit) :=
  [rule_dbe; rule_pending; rule_retired; rule_thermal; rule_power; rule_links_down anyMIG] ++
  (rule_counter <$> nvlinkErrorCounters) ++
  [rule_recoveries; rule_effective_ber; rule_symbol_ber; rule_remap_failure; rule_remaps;
   rule_unrepairable; rule_inforom; rule_power_unreadable; rule_recovery_action].

End Gpu.

Fixpoint run_rules (l : list (Eval unit)) (h : Health) : list Condition * Health :=
  match l with
  | [] => ([], h)
  | m :: l' =>
      let '(_, out, h) := m h in
      let '(outs, h) := run_rules l' h in
      (out ++ outs, h)
  end.

(** One GPU of [evaluate]. *)
Definition evaluate_gpu (now : Time) (anyMIG : bool) (gpus : list gpuIdentity) (i : nat)
    (s : gpuHealth) (h : Health) : list Condition * Health :=
  if hLost s then (lostGPU i gpus, clearBaselines h i)
  else run_rules (rules now i (describeGPU i gpus) s anyMIG) h.

Fixpoint evaluate_from (now : Time) (anyMIG : bool) (gpus : list gpuIdentity) (i : nat)
    (samples : list gpuHealth) (h : Health) : list Condition * Health :=
  match samples with
  | [] => ([], h)
  | s :: samples' =>
      let '(out, h) := evaluate_gpu now anyMIG gpus i s h in
      let '(outs, h) := evaluate_from now anyMIG gpus (S i) samples' h in
      (out ++ outs, h)
  end.

Definition evaluate (now : Time) (samples : list gpuHealth) (gpus : list gpuIdentity) (h : Health)
    : list Condition * Health :=
  evaluate_from now (existsb mig samples) gpus 0 samples h.

(** [Poll]: [lib] is [None] until NVML is initialized, with whether it has the
    unrepairable-memory call; [stuck] when the run of the check did not end in time. *)
Definition Poll (now : Time) (gpus : list gpuIdentity) (lib : option (Library * bool)) (stuck : bool)
    (h : Health) : option (list Condition) * Health :=
  match lib with
  | None => (None, h)
  | Some (lib, hasUnrepairable) =>
      let validate := IsZero (inforomAt h) || (inforomInterval <=? Sub now (inforomAt h)) in
      let '(count, ret) := DeviceGetCount lib in
      if stuck || negb (bool_decide (outcome ret = Observed)) then (None, h)
      else
        let samples := (λ i, (readGPUHealth lib i hasUnrepairable validate).1) <$> seq 0 count in
        let h := if validate
                 then mkHealth now (inforom <$> samples) (baselines h) (notified h)
                 else h in
        let '(out, h) := evaluate now samples gpus h in
        (Some out, h)
  end.

End Health.

(** ** Bit error rates, in arithmetic *)

Lemma land_width v w k : 0 ≤ k → w = Z.ones k → 0 ≤ Z.land v w < 2 ^ k.
Proof. intros Hk ->. rewrite Z.land_ones by done. apply Z.mod_pos_bound. lia. Qed.

Lemma effectiveBERExceeded_iff m e :
  0 ≤ m ≤ 15 → 0 ≤ e →
  effectiveBERExceeded m e = true ↔ (m = 0 ∧ e < 12) ∨ 10 ^ e < m * 10 ^ 12.
Proof.
  intros Hm He. unfold effectiveBERExceeded, berZeroMantissa, berZeroExponent, effectiveBERExponent.
  change (12 + 1) with 13.
  assert (Hcases : e < 12 ∨ e = 12 ∨ e = 13 ∨ 14 ≤ e) by lia.
  destruct Hcases as [Hlt|[ -> |[ -> |Hge]]].
  - assert (10 ^ e < 10 ^ 12) by (apply Z.pow_lt_mono_r; lia).
    rewrite (proj2 (Z.eqb_neq e 255)), andb_false_r, (proj2 (Z.eqb_neq e 12)),
      (proj2 (Z.eqb_neq e 13)), Z.ltb_lt by lia. nia.
  - rewrite andb_false_r. simpl. rewrite Z.ltb_lt. lia.
  - rewrite andb_false_r. simpl. rewrite Z.ltb_lt. lia.
  - assert (10 ^ 14 ≤ 10 ^ e) by (apply Z.pow_le_mono_r; lia).
    rewrite (proj2 (Z.eqb_neq e 12)), (proj2 (Z.eqb_neq e 13)), (proj2 (Z.ltb_ge e 12)) by lia.
    destruct (_ && _); split; intros; nia.
Qed.

(** With the widths the library documents for a packed bit error rate, the
    effective rate [m x 10^-e] of a field value is reported exactly when it is above
    [10^-12], or when its mantissa is 0, a rate of zero, with an exponent below 12. *)
Theorem effective_ber_reported_iff `{NvmlConstants} v :
  NVLINK_BER_MANTISSA_WIDTH = 15 → NVLINK_BER_EXP_WIDTH = 255 →
  let '(m, e) := berParts v in
  effectiveBERExceeded m e = true ↔ 10 ^ e < m * 10 ^ 12 ∨ (m = 0 ∧ e < effectiveBERExponent).
Proof.
  intros Hm He. unfold berParts.
  pose proof (land_width (Z.shiftr v NVLINK_BER_MANTISSA_SHIFT) _ 4 ltac:(lia) Hm).
  pose proof (land_width (Z.shiftr v NVLINK_BER_EXP_SHIFT) _ 8 ltac:(lia) He).
  rewrite effectiveBERExceeded_iff by lia. unfold effectiveBERExponent. tauto.
Qed.

Definition ex_constants : NvmlConstants :=
  {| NVLINK_BER_MANTISSA_SHIFT := 8; NVLINK_BER_MANTISSA_WIDTH := 15; NVLINK_BER_EXP_SHIFT := 0;
     NVLINK_BER_EXP_WIDTH := 255; NVLINK_MAX_LINKS := 18; DEVICE_MIG_ENABLE := 1;
     FEATURE_DISABLED := 0; GPU_RECOVERY_ACTION_GPU_RESET := 1; GPU_RECOVERY_ACTION_NODE_REBOOT := 2;
     GPU_RECOVERY_ACTION_DRAIN_P2P := 3; GPU_RECOVERY_ACTION_DRAIN_AND_RESET := 4;
     DeviceGpuRecoveryAction := u32 |}.

(** 11e-13 is above 1e-12, 10e-13 is not, and a zero mantissa at 1e-5 is reported. *)
Lemma effective_ber_reported_iff_witness :
  (@berParts ex_constants 2829, @berParts ex_constants 2573, @berParts ex_constants 5) =
    ((11, 13), (10, 13), (0, 5)) ∧
  effectiveBERExceeded 11 13 = true ∧ effectiveBERExceeded 10 13 = false ∧
  effectiveBERExceeded 0 5 = true.
Proof.
  pose proof (@effective_ber_reported_iff ex_constants 5 eq_refl eq_refl) as H5.
  split; [reflexivity|]. split; [reflexivity|]. split; [reflexivity|].
  apply H5. right. split; reflexivity.
Defined.

(** ** When a poll reports a fatal code *)

Section Fatal.
Context `{NvmlConstants}.
Variables (now : Time) (i : nat) (gpu : string) (s : gpuHealth).

Abbreviation F f := (field s f).

(** A counter with the last reading [prev] grew. *)
Definition grown (prev : option Z) (r : reading) : Prop :=
  ok r = true ∧ ∃ v, prev = Some v ∧ v < value r.

(** The fatal rows of the table of health codes, for a GPU whose counters had the
    last readings [prev]. *)
Inductive fatal_verdict (anyMIG : bool) (prev : nat → option Z) : Z → Prop :=
| fv_dbe : ok (F fieldDBEVolatile) = true → 0 < value (F fieldDBEVolatile) →
    fatal_verdict anyMIG prev 4
| fv_retired : 63 ≤ u64 (value (F fieldRetiredSBE) + value (F fieldRetiredDBE)) →
    fatal_verdict anyMIG prev 7
| fv_retired_dbe : u64 (value (F fieldRetiredSBE) + value (F fieldRetiredDBE)) < 63 →
    ok (F fieldRetiredDBE) = true → 15 < value (F fieldRetiredDBE) →
    fatal_verdict anyMIG prev 8
| fv_link_down link : anyMIG = false → link ∈ linksDown s → fatal_verdict anyMIG prev 14
| fv_unrepairable : ok (unrepairable s) = true → value (unrepairable s) ≠ 0 →
    fatal_verdict anyMIG prev 52
| fv_counter c : c ∈ nvlinkErrorCounters → grown (prev c.1) (F c.1) → fatal_verdict anyMIG prev 71
| fv_recovery_failed : is_blackwell s = true → ok (F fieldNVLinkRecoveryFailed) = true →
    0 < value (F fieldNVLinkRecoveryFailed) → fatal_verdict anyMIG prev 71
| fv_remap : ok (F fieldRemapFailure) = true → 0 < value (F fieldRemapFailure) →
    fatal_verdict anyMIG prev 80
| fv_effective_ber m e : ok (F fieldNVLinkEffectiveBER) = true →
    berParts (value (F fieldNVLinkEffectiveBER)) = (m, e) → effectiveBERExceeded m e = true →
    fatal_verdict anyMIG prev 119
| fv_symbol_ber m e : ok (F fieldNVLinkSymbolBER) = true →
    berParts (value (F fieldNVLinkSymbolBER)) = (m, e) → m ≠ 0 →
    e < (if is_blackwell s then 238 else 255) → fatal_verdict anyMIG prev 121
| fv_action a : ok (F fieldRecoveryAction) = true →
    DeviceGpuRecoveryAction (value (F fieldRecoveryAction)) = a →
    a = GPU_RECOVERY_ACTION_GPU_RESET → fatal_verdict anyMIG prev 125
| fv_reboot a : ok (F fieldRecoveryAction) = true →
    DeviceGpuRecoveryAction (value (F fieldRecoveryAction)) = a →
    a = GPU_RECOVERY_ACTION_NODE_REBOOT → a ≠ GPU_RECOVERY_ACTION_GPU_RESET →
    fatal_verdict anyMIG prev 126
| fv_drain_reset a : ok (F fieldRecoveryAction) = true →
    DeviceGpuRecoveryAction (value (F fieldRecoveryAction)) = a →
    a = GPU_RECOVERY_ACTION_DRAIN_AND_RESET → a ≠ GPU_RECOVERY_ACTION_GPU_RESET →
    a ≠ GPU_RECOVERY_ACTION_NODE_REBOOT → fatal_verdict anyMIG prev 128.

(** The codes reported as fatal by a computation. *)
Definition reports {A} (m : Eval A) (h : Health) (code : Z) : Prop :=
  ∃ detail, healthCondition code SeverityFatal gpu detail ∈ (m h).1.2.

Lemma healthCondition_inj c1 d1 c2 s2 d2 :
  healthCondition c1 SeverityFatal gpu d1 = healthCondition c2 s2 gpu d2 → c1 = c2 ∧ s2 = SeverityFatal.
Proof.
  unfold healthCondition, Builder, WithMessage, WithSeverity, Build. simpl. intros [= Hc _ Hs].
  split; [|done]. rewrite !sapp_nil_r in Hc. by apply (inj pretty) in Hc.
Qed.

(** A rule that reads and writes the counters of [D] only, with the last readings
    [prev], and reports the codes of [P]. *)
Definition tidy {A} (m : Eval A) (prev : nat → option Z) (D : list nat) (P : Z → Prop) : Prop :=
  ∀ h, (∀ f, f ∈ D → baselines h !! (i, f) = prev f) →
    (∀ code, reports m h code ↔ P code) ∧
    ∀ f, f ∉ D → baselines (m h).2 !! (i, f) = baselines h !! (i, f).

Lemma tidy_ret {A} (a : A) prev : tidy (eret a) prev [] (λ _, False).
Proof. intros h _. split; [|done]. intros code. split; [|done]. intros [d Hd%elem_of_nil]. done. Qed.

Lemma tidy_fatal c d prev : tidy (fatal gpu c d) prev [] (λ code, code = c).
Proof.
  intros h _. split; [|done]. intros code. split.
  - intros [d' Hd%list_elem_of_singleton]. by apply healthCondition_inj in Hd as [? _].
  - intros ->. exists d. by apply list_elem_of_singleton.
Qed.

Lemma warn_not_fatal c o b d h code : ¬ reports (warn now i gpu c o b d) h code.
Proof.
  unfold reports, warn. destruct (report _ _ _ _ _) as [[] n]; intros [d' Hd]; simpl in Hd.
  - apply list_elem_of_singleton in Hd. by apply healthCondition_inj in Hd as [_ ?].
  - by apply elem_of_nil in Hd.
Qed.

Lemma warn_baselines c o b d h : baselines (warn now i gpu c o b d h).2 = baselines h.
Proof. unfold warn. by destruct (report _ _ _ _ _). Qed.

Lemma tidy_warn c o b d prev : tidy (warn now i gpu c o b d) prev [] (λ _, False).
Proof.
  intros h _. split; [|intros; by rewrite warn_baselines].
  intros code. split; [apply warn_not_fatal|done].
Qed.

Lemma tidy_iff {A} (m : Eval A) prev D P Q :
  (∀ code, P code ↔ Q code) → tidy m prev D P → tidy m prev D Q.
Proof. intros HPQ Hm h Hh. destruct (Hm h Hh) as [H1 H2]. split; [|done]. intros. by rewrite H1. Qed.

Lemma tidy_when b m prev P : tidy m prev [] P → tidy (ewhen b m) prev [] (λ code, b = true ∧ P code).
Proof.
  intros Hm. destruct b; simpl.
  - eapply tidy_iff; [|done]. naive_solver.
  - eapply tidy_iff; [|apply tidy_ret]. naive_solver.
Qed.

Lemma reports_bind {A B} (m : Eval A) (k : A → Eval B) h code :
  reports (ebind m k) h code ↔ reports m h code ∨ reports (k (m h).1.1) (m h).2 code.
Proof.
  unfold reports, ebind. destruct (m h) as [[a out1] h1]. simpl.
  destruct (k a h1) as [[b out2] h2]. simpl. setoid_rewrite elem_of_app. naive_solver.
Qed.

Lemma state_bind {A B} (m : Eval A) (k : A → Eval B) h : (ebind m k h).2 = (k (m h).1.1 (m h).2).2.
Proof. unfold ebind. destruct (m h) as [[a out1] h1]. simpl. by destruct (k a h1) as [[b out2] h2]. Qed.

Lemma tidy_bind {A B} (m : Eval A) (k : A → Eval B) prev P Q :
  tidy m prev [] P → (∀ a, tidy (k a) prev [] Q) →
  tidy (ebind m k) prev [] (λ code, P code ∨ Q code).
Proof.
  intros Hm Hk h Hh. destruct (Hm h Hh) as [H1 H2].
  destruct (Hk (m h).1.1 (m h).2) as [H3 H4]; [by intros ? ?%elem_of_nil|].
  split; [intros code; by rewrite reports_bind, H1, H3|].
  intros f Hf. by rewrite state_bind, H4, H2.
Qed.

Lemma tidy_foreach {A} (l : list A) body prev P :
  (∀ a, tidy (body a) prev [] (P a)) →
  tidy (eforeach l body) prev [] (λ code, ∃ a, a ∈ l ∧ P a code).
Proof.
  intros Hb. induction l as [|a l IH]; simpl.
  - eapply tidy_iff; [|apply tidy_ret]. intros code. split; [done|].
    intros (a & ?%elem_of_nil & _). done.
  - eapply tidy_iff; [|apply tidy_bind; [apply Hb|intros _; exact IH]].
    intros code. simpl. setoid_rewrite elem_of_cons. naive_solver.
Qed.

(** The result of [grew] from the last reading alone. *)
Definition grew_value (prev : option Z) (r : reading) : Z * bool :=
  if negb (ok r) then (0, false)
  else match prev with
       | None => (0, false)
       | Some v => if value r <? v then (0, true) else (u64 (value r - v), true)
       end.

Lemma growth_result f h :
  (growth i s f h).1 = (grew_value (baselines h !! (i, f)) (F f), []).
Proof.
  unfold growth, grew, grew_value. destruct (ok (F f)); simpl; [|done].
  destruct (baselines h !! (i, f)); simpl; [|done]. by destruct (_ <? _).
Qed.

Lemma growth_frame f f' h :
  f ≠ f' → baselines (growth i s f h).2 !! (i, f') = baselines h !! (i, f').
Proof.
  intros Hf. unfold growth, grew. destruct (ok (F f)); simpl.
  - destruct (baselines h !! (i, f)); simpl; [destruct (_ <? _); simpl|]; by rewrite lookup_insert_ne by congruence.
  - by rewrite lookup_delete_ne by congruence.
Qed.

Lemma tidy_growth f (k : Z * bool → Eval unit) prev Q :
  (∀ a, tidy (k a) prev [] (Q a)) →
  tidy (ebind (growth i s f) k) prev [f] (λ code, Q (grew_value (prev f) (F f)) code).
Proof.
  intros Hk h Hh. pose proof (growth_result f h) as Hg.
  rewrite (Hh f) in Hg by set_solver. split.
  - intros code. rewrite reports_bind. unfold reports at 1. rewrite Hg. cbn [fst snd].
    destruct (Hk (grew_value (prev f) (F f)) (growth i s f h).2) as [H1 _];
      [by intros ? ?%elem_of_nil|]. rewrite H1. split; [|by right].
    intros [[d Hd%elem_of_nil]|?]; done.
  - intros f' Hf'. rewrite state_bind, Hg. cbn [fst snd].
    destruct (Hk (grew_value (prev f) (F f)) (growth i s f h).2) as [_ H2];
      [by intros ? ?%elem_of_nil|]. rewrite H2 by apply not_elem_of_nil.
    apply growth_frame. set_solver.
Qed.

(** Every counter and its last reading fit in 64 bits. *)
Definition counters_ok (prev : nat → option Z) : Prop :=
  ∀ f, is_u64 (value (F f)) ∧ ∀ v, prev f = Some v → is_u64 v.

Lemma grew_value_pos prev f :
  counters_ok prev → 0 < (grew_value (prev f) (F f)).1 ↔ grown (prev f) (F f).
Proof.
  intros Hok. destruct (Hok f) as [Hr Hp]. unfold grew_value, grown.
  destruct (ok (F f)); simpl; [|naive_solver lia].
  destruct (prev f) as [v|] eqn:Hv; simpl; [|naive_solver lia].
  specialize (Hp v eq_refl). destruct (value (F f) <? v) eqn:Hlt; simpl.
  - apply Z.ltb_lt in Hlt. split; [lia|]. intros (_ & v' & [= <-] & ?). lia.
  - apply Z.ltb_ge in Hlt. rewrite u64_sub_ge by done. split; [|naive_solver lia].
    intros. split; [done|]. exists v. split; [done|lia].
Qed.

(** ** Each rule *)

Hint Resolve tidy_fatal tidy_warn tidy_when tidy_bind tidy_ret tidy_growth tidy_foreach : tidy.

(** Finds the codes of a rule by its shape, then compares them. *)
Local Ltac rule :=
  intros; eapply tidy_iff; [|eauto 8 with tidy]; simpl;
  repeat setoid_rewrite andb_true_iff; repeat setoid_rewrite Z.ltb_lt;
  repeat setoid_rewrite negb_true_iff; repeat setoid_rewrite Z.eqb_neq.

Lemma tidy_dbe prev :
  tidy (rule_dbe gpu s) prev [] (λ code, code = 4 ∧ ok (F fieldDBEVolatile) = true ∧
    0 < value (F fieldDBEVolatile)).
Proof. unfold rule_dbe. rule. unfold codeVolatileDBE. tauto. Qed.

Lemma tidy_retired prev :
  tidy (rule_retired gpu s) prev [] (λ code,
    (code = 7 ∧ 63 ≤ u64 (value (F fieldRetiredSBE) + value (F fieldRetiredDBE))) ∨
    (code = 8 ∧ u64 (value (F fieldRetiredSBE) + value (F fieldRetiredDBE)) < 63 ∧
     ok (F fieldRetiredDBE) = true ∧ 15 < value (F fieldRetiredDBE))).
Proof.
  unfold rule_retired, maxRetiredPagesTotal. destruct (63 <=? u64 _) eqn:Ht.
  - apply Z.leb_le in Ht. rule. unfold codeRetiredPagesLimit. naive_solver lia.
  - apply Z.leb_gt in Ht. rule. unfold codeRetiredPagesDBELimit, maxRetiredPagesDBE. naive_solver lia.
Qed.

Lemma tidy_links anyMIG prev :
  tidy (rule_links_down gpu s anyMIG) prev [] (λ code,
    code = 14 ∧ anyMIG = false ∧ ∃ link, link ∈ linksDown s).
Proof.
  unfold rule_links_down. eapply tidy_iff; [|apply tidy_when, tidy_foreach; intros; apply tidy_fatal].
  intros code. simpl. rewrite negb_true_iff. unfold codeNVLinkDown. naive_solver.
Qed.

Lemma tidy_counter c prev :
  counters_ok prev →
  tidy (rule_counter i gpu s c) prev [c.1] (λ code, code = 71 ∧ grown (prev c.1) (F c.1)).
Proof.
  intros Hok. unfold rule_counter.
  eapply tidy_iff; [|apply (tidy_growth c.1 _ prev (λ a code, (0 <? a.1) = true ∧ code = 71));
    intros [n o]; apply tidy_when, tidy_fatal].
  intros code. simpl. rewrite Z.ltb_lt, grew_value_pos by done. tauto.
Qed.

Lemma tidy_slowdown (rule_of : Z * bool → Eval unit) f prev :
  (∀ a, tidy (rule_of a) prev [] (λ _, False)) →
  tidy (ebind (growth i s f) rule_of) prev [f] (λ _, False).
Proof. intros Hk. exact (tidy_growth f rule_of prev (λ _ _, False) Hk). Qed.

Lemma tidy_recoveries prev :
  tidy (rule_recoveries now i gpu s) prev [] (λ code, code = 71 ∧ is_blackwell s = true ∧
    ok (F fieldNVLinkRecoveryFailed) = true ∧ 0 < value (F fieldNVLinkRecoveryFailed)).
Proof. unfold rule_recoveries. rule. unfold codeNVLinkErrorCritical. tauto. Qed.

Lemma tidy_effective_ber prev :
  tidy (rule_effective_ber gpu s) prev [] (λ code, code = 119 ∧ ok (F fieldNVLinkEffectiveBER) = true ∧
    ∃ m e, berParts (value (F fieldNVLinkEffectiveBER)) = (m, e) ∧ effectiveBERExceeded m e = true).
Proof.
  unfold rule_effective_ber. destruct (berParts _) as [m e]. rule.
  unfold codeEffectiveBER. naive_solver.
Qed.

Lemma tidy_symbol_ber prev :
  tidy (rule_symbol_ber gpu s) prev [] (λ code, code = 121 ∧ ok (F fieldNVLinkSymbolBER) = true ∧
    ∃ m e, berParts (value (F fieldNVLinkSymbolBER)) = (m, e) ∧ m ≠ 0 ∧
           e < (if is_blackwell s then 238 else 255)).
Proof.
  unfold rule_symbol_ber. destruct (berParts _) as [m e]. unfold symbolBERExceeded. rule.
  unfold codeSymbolBER, symbolBERFloorExponent, symbolBERFloorExponentSummed. naive_solver.
Qed.

Lemma tidy_remap_failure prev :
  tidy (rule_remap_failure gpu s) prev [] (λ code, code = 80 ∧ ok (F fieldRemapFailure) = true ∧
    0 < value (F fieldRemapFailure)).
Proof. unfold rule_remap_failure. rule. unfold codeRowRemapFailure. tauto. Qed.

Lemma tidy_unrepairable prev :
  tidy (rule_unrepairable gpu s) prev [] (λ code, code = 52 ∧ ok (unrepairable s) = true ∧
    value (unrepairable s) ≠ 0).
Proof. unfold rule_unrepairable. rule. unfold codeFaultyMemory. tauto. Qed.

Lemma tidy_inforom prev : tidy (rule_inforom now i gpu) prev [] (λ _, False).
Proof.
  intros h Hh. unfold rule_inforom. split.
  - intros code. split; [apply warn_not_fatal|done].
  - intros f _. by rewrite warn_baselines.
Qed.

Definition action_verdict (code : Z) : Prop :=
  ok (F fieldRecoveryAction) = true ∧
  let a := DeviceGpuRecoveryAction (value (F fieldRecoveryAction)) in
  (code = 125 ∧ a = GPU_RECOVERY_ACTION_GPU_RESET) ∨
  (code = 126 ∧ a = GPU_RECOVERY_ACTION_NODE_REBOOT ∧ a ≠ GPU_RECOVERY_ACTION_GPU_RESET) ∨
  (code = 128 ∧ a = GPU_RECOVERY_ACTION_DRAIN_AND_RESET ∧ a ≠ GPU_RECOVERY_ACTION_GPU_RESET ∧
   a ≠ GPU_RECOVERY_ACTION_NODE_REBOOT).

Lemma tidy_action prev : tidy (rule_recovery_action now i gpu s) prev [] action_verdict.
Proof.
  unfold rule_recovery_action, action_verdict.
  set (a := DeviceGpuRecoveryAction _).
  destruct (a =? GPU_RECOVERY_ACTION_GPU_RESET) eqn:H1;
    [apply Z.eqb_eq in H1|apply Z.eqb_neq in H1;
     destruct (a =? GPU_RECOVERY_ACTION_NODE_REBOOT) eqn:H2;
       [apply Z.eqb_eq in H2|apply Z.eqb_neq in H2;
        destruct (a =? GPU_RECOVERY_ACTION_DRAIN_AND_RESET) eqn:H3;
          [apply Z.eqb_eq in H3|apply Z.eqb_neq in H3]]];
    rule; unfold codeRecoveryReset, codeRecoveryReboot, codeRecoveryDrainReset; tauto.
Qed.

(** ** All the rules in a row *)

Record row := mkRow { rw_rule : Eval unit; rw_fields : list nat; rw_codes : Z → Prop }.

Lemma run_rules_rows prev (l : list row) h :
  Forall (λ r, tidy (rw_rule r) prev (rw_fields r) (rw_codes r)) l →
  NoDup (l ≫= rw_fields) →
  (∀ f, f ∈ l ≫= rw_fields → baselines h !! (i, f) = prev f) →
  ∀ code, (∃ d, healthCondition code SeverityFatal gpu d ∈ (run_rules (rw_rule <$> l) h).1) ↔
          ∃ r, r ∈ l ∧ rw_codes r code.
Proof.
  intros Hl. revert h. induction Hl as [|r l Hr Hl IH]; intros h Hnd Hh code; simpl.
  - split; [intros [d Hd%elem_of_nil]; done|intros (r & Hr%elem_of_nil & _); done].
  - simpl in Hnd, Hh. apply NoDup_app in Hnd as (_ & Hdisj & Hnd).
    destruct (Hr h) as [H1 H2]; [intros f Hf; apply Hh; set_solver|].
    specialize (H1 code). unfold reports in H1.
    specialize (IH (rw_rule r h).2 Hnd). destruct (rw_rule r h) as [[u out] h1]. simpl in *.
    specialize (IH ltac:(intros f Hf; rewrite H2 by set_solver; set_solver) code).
    destruct (run_rules _ h1) as [outs h2]. simpl in *.
    setoid_rewrite elem_of_app. setoid_rewrite elem_of_cons. naive_solver.
Qed.

Definition quiet (m : Eval unit) (D : list nat) : row := mkRow m D (λ _, False).

Definition rows (anyMIG : bool) (prev : nat → option Z) : list row :=
  [mkRow (rule_dbe gpu s) [] (λ code, code = 4 ∧ ok (F fieldDBEVolatile) = true ∧ 0 < value (F fieldDBEVolatile));
   quiet (rule_pending now i gpu s) [];
   mkRow (rule_retired gpu s) [] (λ code,
     (code = 7 ∧ 63 ≤ u64 (value (F fieldRetiredSBE) + value (F fieldRetiredDBE))) ∨
     (code = 8 ∧ u64 (value (F fieldRetiredSBE) + value (F fieldRetiredDBE)) < 63 ∧
      ok (F fieldRetiredDBE) = true ∧ 15 < value (F fieldRetiredDBE)));
   quiet (rule_thermal now i gpu s) [fieldThermalViolation];
   quiet (rule_power now i gpu s) [fieldPowerViolation];
   mkRow (rule_links_down gpu s anyMIG) [] (λ code,
     code = 14 ∧ anyMIG = false ∧ ∃ link, link ∈ linksDown s)] ++
  ((λ c, mkRow (rule_counter i gpu s c) [c.1] (λ code, code = 71 ∧ grown (prev c.1) (F c.1))) <$>
     nvlinkErrorCounters) ++
  [mkRow (rule_recoveries now i gpu s) [] (λ code, code = 71 ∧ is_blackwell s = true ∧
     ok (F fieldNVLinkRecoveryFailed) = true ∧ 0 < value (F fieldNVLinkRecoveryFailed));
   mkRow (rule_effective_ber gpu s) [] (λ code, code = 119 ∧ ok (F fieldNVLinkEffectiveBER) = true ∧
     ∃ m e, berParts (value (F fieldNVLinkEffectiveBER)) = (m, e) ∧ effectiveBERExceeded m e = true);
   mkRow (rule_symbol_ber gpu s) [] (λ code, code = 121 ∧ ok (F fieldNVLinkSymbolBER) = true ∧
     ∃ m e, berParts (value (F fieldNVLinkSymbolBER)) = (m, e) ∧ m ≠ 0 ∧
            e < (if is_blackwell s then 238 else 255));
   mkRow (rule_remap_failure gpu s) [] (λ code, code = 80 ∧ ok (F fieldRemapFailure) = true ∧
     0 < value (F fieldRemapFailure));
   quiet (rule_remaps now i gpu s) [];
   mkRow (rule_unrepairable gpu s) [] (λ code, code = 52 ∧ ok (unrepairable s) = true ∧
     value (unrepairable s) ≠ 0);
   quiet (rule_inforom now i gpu) [];
   quiet (rule_power_unreadable now i gpu s) [];
   mkRow (rule_recovery_action now i gpu s) [] action_verdict].

Lemma rows_rules anyMIG prev : rw_rule <$> rows anyMIG prev = rules now i gpu s anyMIG.
Proof. reflexivity. Qed.

Lemma rows_tidy anyMIG prev :
  counters_ok prev →
  Forall (λ r, tidy (rw_rule r) prev (rw_fields r) (rw_codes r)) (rows anyMIG prev).
Proof.
  intros Hok. unfold rows. rewrite !Forall_app, Forall_fmap. split; [|split].
  - repeat (apply Forall_cons; split); [..|apply Forall_nil_2]; cbn [rw_rule rw_fields rw_codes quiet];
      [apply tidy_dbe|apply tidy_warn|apply tidy_retired|apply tidy_slowdown; intros [? ?]; apply tidy_warn
      |apply tidy_slowdown; intros [? ?]; apply tidy_warn|apply tidy_links].
  - apply Forall_forall. intros c _. by apply tidy_counter.
  - repeat (apply Forall_cons; split); [..|apply Forall_nil_2]; cbn [rw_rule rw_fields rw_codes quiet];
      [apply tidy_recoveries|apply tidy_effective_ber|apply tidy_symbol_ber|apply tidy_remap_failure
      |apply tidy_warn|apply tidy_unrepairable|apply tidy_inforom|apply tidy_warn|apply tidy_action].
Qed.

Lemma rows_fields anyMIG prev : NoDup (rows anyMIG prev ≫= rw_fields).
Proof. apply (bool_decide_unpack _). vm_compute. exact I. Qed.

Lemma rows_verdict anyMIG prev code :
  (∃ r, r ∈ rows anyMIG prev ∧ rw_codes r code) ↔ fatal_verdict anyMIG prev code.
Proof.
  rewrite <- Exists_exists. unfold rows. rewrite !Exists_app, Exists_fmap,
    (Exists_exists _ nvlinkErrorCounters).
  rewrite !Exists_cons, !Exists_nil. cbn [rw_codes quiet compose]. unfold action_verdict. split.
  - intros Hc. destruct_or?; destruct_and?; simplify_eq; try done;
      repeat match goal with H : ∃ _, _ |- _ => destruct H end; destruct_or?; destruct_and?; subst;
      eauto using fatal_verdict.
  - destruct 1 as [| | |link Hm Hl| |c Hc Hg| | |m e Ho Hb He|m e Ho Hb Hm He| | |]; subst; try tauto.
    + assert (∃ link, link ∈ linksDown s) by eauto. tauto.
    + right. left. eauto.
    + assert (∃ m e, berParts (value (F fieldNVLinkEffectiveBER)) = (m, e) ∧
        effectiveBERExceeded m e = true) by eauto. tauto.
    + assert (∃ m e, berParts (value (F fieldNVLinkSymbolBER)) = (m, e) ∧ m ≠ 0 ∧
        e < (if is_blackwell s then 238 else 255)) by eauto. tauto.
Qed.

End Fatal.


(** The second reading of an NVLink counter, larger than the first. *)
Definition ex_sample (n : Z) : gpuHealth :=
  mkGpuHealth false (<[fieldNVLinkECCErrors := mkReading n true]> no_fields) no_reading no_reading
    no_reading no_reading false [2%nat].

Lemma field_cases n f :
  field (ex_sample n) f = mkReading n true ∨ field (ex_sample n) f = no_reading.
Proof. do 24 (destruct f as [|f]; [by vm_compute; auto|]). by right. Qed.

