(* ===== verification/Inflight.v ===== *)
(** * Inflight: one NVML call at a time ([monitors/nvidia/nvml/inflight.go]).

    [run] starts a goroutine that makes the call and waits for it up to a
    deadline; a call that outlives its deadline goes on in the background.  The
    model is a transition system: the caller, the goroutine of every call made so
    far, and the two fields they share, [pending] and [inDriverSince].  Each step
    is one operation on the shared state, so the runs of the system are the
    interleavings of the goroutines. *)

From S2P Require Import Prelude.

Definition DefaultTimeout : Duration := 10 * Second.
Definition stallDuration : Duration := 2 * Minute.

(** How far the goroutine of a call is: in [fn], [fn] has returned,
    [inDriverSince] is cleared, the result is sent, [done] is closed. *)
Inductive phase := InDriver | Returned | Cleared | Sent | Closed.

#[export] Instance phase_eq_dec : EqDecision phase.
Proof. solve_decision. Defined.

Record call := mkCall { started : Time; ph : phase }.

Record Check := mkCheck {
  calls : list call;          (* every call made, in order *)
  pending : option nat;       (* the call whose [done] the check holds *)
  inDriverSince : Time;       (* 0 when no call is in the driver *)
  waiting : option nat        (* the call the caller of [run] waits for *)
}.

Definition newCheck : Check := mkCheck [] None 0 None.

Inductive Status := Done | Stuck.

#[export] Instance Status_eq_dec : EqDecision Status.
Proof. solve_decision. Defined.

(** The part of [run] that starts a call. *)
Definition start_call (c : Check) (now : Time) : Check :=
  let k := length (calls c) in
  mkCheck (calls c ++ [mkCall now InDriver]) (Some k) now (Some k).

(** [run] up to its wait: [Some Stuck] when it returns at once. *)
Definition run_begin (c : Check) (now : Time) : option Status * Check :=
  match pending c with
  | Some k =>
      if decide (ph <$> calls c !! k = Some Closed) then (None, start_call c now)
      else (Some Stuck, c)
  | None => (None, start_call c now)
  end.

Definition set_phase (c : Check) (k : nat) (p : phase) : Check :=
  mkCheck (alter (λ w, mkCall (started w) p) k (calls c)) (pending c) (inDriverSince c) (waiting c).

Definition clear_since (c : Check) : Check := mkCheck (calls c) (pending c) 0 (waiting c).

(** What happens next: the caller enters [run], receives the result or sees the
    timer; a goroutine returns from [fn], clears, sends or closes. *)
Inductive event :=
| Run (now : Time)
| Receive
| Expire
| FnReturns (k : nat)
| Clear (k : nat)
| Send (k : nat)
| Close (k : nat).

(** One step with the status [run] returns, if it returns; [None] when the event
    cannot happen. *)
Definition exec (c : Check) (e : event) : option (option Status * Check) :=
  match e, waiting c with
  | Run now, None => Some (run_begin c now)
  | Receive, Some k =>
      if decide (ph <$> calls c !! k = Some Sent ∨ ph <$> calls c !! k = Some Closed)
      then Some (Some Done, mkCheck (calls c) None (inDriverSince c) None) else None
  | Expire, Some _ => Some (Some Stuck, mkCheck (calls c) (pending c) (inDriverSince c) None)
  | FnReturns k, _ =>
      if decide (ph <$> calls c !! k = Some InDriver) then Some (None, set_phase c k Returned) else None
  | Clear k, _ =>
      if decide (ph <$> calls c !! k = Some Returned)
      then Some (None, clear_since (set_phase c k Cleared)) else None
  | Send k, _ =>
      if decide (ph <$> calls c !! k = Some Cleared) then Some (None, set_phase c k Sent) else None
  | Close k, _ =>
      if decide (ph <$> calls c !! k = Some Sent) then Some (None, set_phase c k Closed) else None
  | _, _ => None
  end.

Inductive reachable : Check → Prop :=
| reach_new : reachable newCheck
| reach_step c e st c' : reachable c → exec c e = Some (st, c') → reachable c'.

Definition stalledFor (checks : list Check) (now : Time) (d : Duration) : bool :=
  match checks with
  | [] => false
  | _ => forallb (λ c, negb ((inDriverSince c =? 0) || (Sub now (inDriverSince c) <? d))) checks
  end.

(** ** The invariant *)

(** The call has left the shared state alone. *)
Definition sent (p : phase) : bool := bool_decide (p = Sent ∨ p = Closed).
(** The call has yet to clear [inDriverSince]. *)
Definition in_driver (p : phase) : bool := bool_decide (p = InDriver ∨ p = Returned).

(** Every call but the last has sent its result; the last is the pending one until
    it has; and [inDriverSince] is the start of the last while it is in the
    driver. *)
Record inv (c : Check) : Prop := mkInv {
  inv_old : ∀ k w, calls c !! k = Some w → (S k < length (calls c))%nat → sent (ph w) = true;
  inv_pending : ∀ k, pending c = Some k → S k = length (calls c);
  inv_idle : pending c = None → ∀ k w, calls c !! k = Some w → sent (ph w) = true;
  inv_waiting : ∀ k, waiting c = Some k → pending c = Some k;
  inv_since : inDriverSince c =
    match last (calls c) with Some w => if in_driver (ph w) then started w else 0 | None => 0 end
}.

Lemma inv_new : inv newCheck.
Proof. split; simpl; try done. Qed.

Lemma calls_set_phase c k p j :
  calls (set_phase c k p) !! j =
  if decide (j = k) then (λ w, mkCall (started w) p) <$> calls c !! k else calls c !! j.
Proof.
  simpl. rewrite list_lookup_alter. by destruct (decide (k = j)), (decide (j = k)); subst.
Qed.

Lemma length_set_phase c k p : length (calls (set_phase c k p)) = length (calls c).
Proof. apply length_alter. Qed.

(** A call whose result is not sent is the last one, and the check holds it. *)
Lemma unsent_last c k w :
  inv c → calls c !! k = Some w → sent (ph w) = false → S k = length (calls c) ∧ pending c = Some k.
Proof.
  intros Hi Hk Hs. pose proof (lookup_lt_Some _ _ _ Hk) as Hlt.
  assert (HS : S k = length (calls c)).
  { destruct (decide (S k < length (calls c))%nat) as [H|]; [|lia].
    rewrite (inv_old c Hi _ _ Hk H) in Hs. done. }
  split; [done|]. destruct (pending c) as [k'|] eqn:Hp.
  - apply (inv_pending c Hi) in Hp. f_equal. lia.
  - rewrite (inv_idle c Hi Hp _ _ Hk) in Hs. done.
Qed.

Lemma last_set_phase c k p :
  last (calls (set_phase c k p)) =
  if decide (S k = length (calls c)) then (λ w, mkCall (started w) p) <$> last (calls c)
  else last (calls c).
Proof.
  rewrite !last_lookup. rewrite calls_set_phase. cbn [calls set_phase]. rewrite length_alter.
  destruct (decide (S k = length (calls c))) as [<-|Hk]; [by rewrite decide_True|].
  destruct (decide (Nat.pred (length (calls c)) = k)) as [He|]; [|done].
  destruct (calls c) as [|w l]; [by destruct k|]. simpl in *. lia.
Qed.

(** A goroutine that moves on keeps the invariant, when the move keeps what
    [inDriverSince] says. *)
Lemma inv_set_phase c k w p :
  inv c → calls c !! k = Some w → (sent (ph w) = true → sent p = true) →
  in_driver (ph w) = in_driver p → inv (set_phase c k p).
Proof.
  intros Hi Hk Hs Hd. split.
  - intros j v. rewrite calls_set_phase, length_set_phase.
    destruct (decide (j = k)) as [-> |]; [|apply (inv_old c Hi)].
    rewrite Hk. intros [= <-] Hlt. simpl. apply Hs. by apply (inv_old c Hi k).
  - intros j. rewrite length_set_phase. apply (inv_pending c Hi).
  - intros Hp j v. rewrite calls_set_phase.
    destruct (decide (j = k)) as [-> |]; [|by apply (inv_idle c Hi)].
    rewrite Hk. intros [= <-]. simpl. apply Hs. by apply (inv_idle c Hi Hp k).
  - apply (inv_waiting c Hi).
  - change (inDriverSince (set_phase c k p)) with (inDriverSince c). rewrite (inv_since c Hi).
    rewrite last_set_phase. destruct (decide _) as [HS|]; [|done].
    rewrite last_lookup, <- HS. simpl. rewrite Hk. simpl. by rewrite Hd.
Qed.

Lemma fmap_phase c k p : ph <$> calls c !! k = Some p → ∃ w, calls c !! k = Some w ∧ ph w = p.
Proof. destruct (calls c !! k) as [w|]; simpl; [intros [= <-]; eauto|done]. Qed.

Lemma inv_clear c k w :
  inv c → calls c !! k = Some w → ph w = Returned → inv (clear_since (set_phase c k Cleared)).
Proof.
  intros Hi Hk Hw. destruct (unsent_last c k w Hi Hk) as [HS Hp]; [by rewrite Hw|].
  split; change (calls (clear_since ?x)) with (calls x).
  - intros j v. rewrite calls_set_phase, length_set_phase.
    destruct (decide (j = k)) as [-> |]; [intros; lia|apply (inv_old c Hi)].
  - intros j. rewrite length_set_phase. apply (inv_pending c Hi).
  - change (pending c = None → ∀ j v, calls (set_phase c k Cleared) !! j = Some v → sent (ph v) = true).
    by rewrite Hp.
  - apply (inv_waiting c Hi).
  - rewrite last_set_phase, decide_True, last_lookup, <- HS by done. simpl. by rewrite Hk.
Qed.

Lemma inv_start c now :
  inv c → (∀ k w, calls c !! k = Some w → sent (ph w) = true) → inv (start_call c now).
Proof.
  intros Hi Hall. split; cbn [calls start_call pending waiting inDriverSince]; try done.
  - intros k w Hk Hlt. rewrite length_app in Hlt. simpl in Hlt.
    rewrite lookup_app_l in Hk by lia. by apply Hall in Hk.
  - intros k [= <-]. rewrite length_app. simpl. lia.
  - by rewrite last_snoc.
Qed.

Lemma inv_step c e st c' : inv c → exec c e = Some (st, c') → inv c'.
Proof.
  intros Hi He. destruct e as [now| | |k|k|k|k]; simpl in He.
  - destruct (waiting c); [done|]. injection He as He. unfold run_begin in He.
    destruct (pending c) as [k|] eqn:Hp; [destruct (decide _) as [Hc|]|]; simplify_eq; try done.
    + apply inv_start; [done|]. intros j w Hj. pose proof (inv_pending c Hi _ Hp) as HS.
      destruct (decide (j = k)) as [-> |Hne].
      * destruct (fmap_phase _ _ _ Hc) as (w' & Hk & Hw'). simplify_eq. by rewrite Hw'.
      * apply (inv_old c Hi _ _ Hj). apply lookup_lt_Some in Hj. lia.
    + apply inv_start; [done|]. by apply (inv_idle c Hi).
  - destruct (waiting c) as [k|] eqn:Hw; [|done]. destruct (decide _) as [Hc|]; simplify_eq.
    pose proof (inv_pending c Hi _ (inv_waiting c Hi _ Hw)) as HS.
    split; cbn [calls pending waiting inDriverSince]; try done; [apply (inv_old c Hi)| |apply (inv_since c Hi)].
    intros _ j w Hj. destruct (decide (j = k)) as [-> |Hne].
    + destruct Hc as [Hc|Hc]; destruct (fmap_phase _ _ _ Hc) as (w' & Hk & Hw'); simplify_eq; by rewrite Hw'.
    + apply (inv_old c Hi _ _ Hj). apply lookup_lt_Some in Hj. lia.
  - destruct (waiting c); simplify_eq. destruct Hi. by split.
  - destruct (decide _) as [Hc|]; simplify_eq. destruct (fmap_phase _ _ _ Hc) as (w & Hk & Hw).
    apply (inv_set_phase c k w); [done|done|by rewrite Hw|by rewrite Hw].
  - destruct (decide _) as [Hc|]; simplify_eq. destruct (fmap_phase _ _ _ Hc) as (w & Hk & Hw).
    by apply (inv_clear c k w).
  - destruct (decide _) as [Hc|]; simplify_eq. destruct (fmap_phase _ _ _ Hc) as (w & Hk & Hw).
    apply (inv_set_phase c k w); [done|done|by rewrite Hw|by rewrite Hw].
  - destruct (decide _) as [Hc|]; simplify_eq. destruct (fmap_phase _ _ _ Hc) as (w & Hk & Hw).
    apply (inv_set_phase c k w); [done|done|by rewrite Hw|by rewrite Hw].
Qed.

Lemma reachable_inv c : reachable c → inv c.
Proof. induction 1; [apply inv_new|by eapply inv_step]. Qed.

(** ** What the invariant gives *)

Lemma in_driver_unsent p : in_driver p = true → sent p = false.
Proof. by destruct p. Qed.

Lemma since_in_driver c k w :
  inv c → calls c !! k = Some w → in_driver (ph w) = true → inDriverSince c = started w.
Proof.
  intros Hi Hk Hd. destruct (unsent_last c k w Hi Hk (in_driver_unsent _ Hd)) as [HS _].
  rewrite (inv_since c Hi), last_lookup, <- HS. simpl. by rewrite Hk, Hd.
Qed.

Lemma since_nonzero c :
  inv c → inDriverSince c ≠ 0 →
  ∃ k w, calls c !! k = Some w ∧ in_driver (ph w) = true ∧ started w = inDriverSince c.
Proof.
  intros Hi. rewrite (inv_since c Hi), last_lookup.
  destruct (calls c !! _) as [w|] eqn:Hk; [|done].
  destruct (in_driver (ph w)) eqn:Hd; [|done]. eauto.
Qed.

(** C23. A check has at most one call outstanding, however long its calls hang and
    however its goroutines interleave: of all calls ever started, at most one has not
    sent its result.  While that call is in the driver [inDriverSince] is its start,
    and a non-zero [inDriverSince] is the start of a call that has yet to clear it. *)
Theorem inflight_one_call c :
  reachable c →
  (∀ j k v w, calls c !! j = Some v → calls c !! k = Some w →
     sent (ph v) = false → sent (ph w) = false → j = k) ∧
  (∀ k w, calls c !! k = Some w → in_driver (ph w) = true → inDriverSince c = started w) ∧
  (inDriverSince c ≠ 0 →
     ∃ k w, calls c !! k = Some w ∧ in_driver (ph w) = true ∧ started w = inDriverSince c).
Proof.
  intros Hi%reachable_inv. split; [|split].
  - intros j k v w Hj Hk Hv Hw. destruct (unsent_last c j v Hi Hj Hv) as [H1 _].
    destruct (unsent_last c k w Hi Hk Hw) as [H2 _]. lia.
  - intros k w. by apply since_in_driver.
  - by apply since_nonzero.
Qed.

(** The events in order, [None] when one cannot happen. *)
Fixpoint exec_all (c : Check) (es : list event) : option Check :=
  match es with
  | [] => Some c
  | e :: es' => '(_, c') ← exec c e; exec_all c' es'
  end.

Lemma exec_all_reachable c es c' : reachable c → exec_all c es = Some c' → reachable c'.
Proof.
  revert c. induction es as [|e es IH]; intros c Hc He; simpl in He; [by simplify_eq|].
  destruct (exec c e) as [[st c1]|] eqn:Hs; simpl in He; [|done].
  eapply IH; [|done]. by eapply reach_step.
Qed.

(** A call that hangs past its deadline, two runs that skip, its late return, and a
    new call. *)
Definition ex_events : list event :=
  [Run 100; Expire; Run 200; Run 300; FnReturns 0; Clear 0; Send 0; Close 0; Run 400].

Lemma inflight_one_call_witness :
  ∃ c, exec_all newCheck ex_events = Some c ∧
    calls c = [mkCall 100 Closed; mkCall 400 InDriver] ∧ inDriverSince c = 400.
Proof.
  eexists. split; [reflexivity|]. split; [reflexivity|].
  destruct (inflight_one_call (mkCheck [mkCall 100 Closed; mkCall 400 InDriver] (Some 1%nat) 400 (Some 1%nat)))
    as (_ & H & _).
  - apply (exec_all_reachable newCheck ex_events); [constructor|reflexivity].
  - exact (H 1%nat (mkCall 400 InDriver) eq_refl eq_refl).
Defined.

(** One check of the stall. *)
Lemma stalled_check c now d :
  inv c → (∀ w, w ∈ calls c → started w ≠ 0) →
  negb ((inDriverSince c =? 0) || (Sub now (inDriverSince c) <? d)) = true ↔
  ∃ w, w ∈ calls c ∧ in_driver (ph w) = true ∧ d ≤ Sub now (started w).
Proof.
  intros Hi Hn. rewrite negb_true_iff, orb_false_iff, Z.eqb_neq, Z.ltb_ge. split.
  - intros [H0 Hd]. destruct (since_nonzero c Hi H0) as (k & w & Hk & Hw & Hs).
    exists w. rewrite Hs. eauto using list_elem_of_lookup_2.
  - intros (w & [k Hk]%list_elem_of_lookup & Hw & Hd).
    rewrite (since_in_driver c k w Hi Hk Hw). eauto using list_elem_of_lookup_2.
Qed.

Lemma forallb_Forall_iff {A} (f : A → bool) (P : A → Prop) l :
  Forall (λ x, f x = true ↔ P x) l → forallb f l = true ↔ Forall P l.
Proof.
  induction 1 as [|x l Hx _ IH]; simpl; [by split|].
  by rewrite andb_true_iff, Forall_cons, Hx, IH.
Qed.

(** The driver counts as stalled exactly when there is a check and every check
    has a call that started at least [d] ago and has not come back: a stall is never
    reported for a check whose driver answered, and never missed. *)
Theorem stalled_iff checks now d :
  Forall reachable checks → Forall (λ c, ∀ w, w ∈ calls c → started w ≠ 0) checks →
  stalledFor checks now d = true ↔
  checks ≠ [] ∧
  Forall (λ c, ∃ w, w ∈ calls c ∧ in_driver (ph w) = true ∧ d ≤ Sub now (started w)) checks.
Proof.
  intros Hr Hn. unfold stalledFor. destruct checks as [|c0 cs]; [naive_solver|].
  rewrite (forallb_Forall_iff _ (λ c, ∃ w, w ∈ calls c ∧ in_driver (ph w) = true ∧
    d ≤ Sub now (started w))); [naive_solver|].
  apply Forall_forall. intros c Hc. rewrite Forall_forall in Hr, Hn.
  apply stalled_check; [by apply reachable_inv, Hr|by apply Hn].
Qed.

Definition ex_hung : Check := mkCheck [mkCall 100 InDriver] (Some 0%nat) 100 None.

Lemma stalled_iff_witness :
  Forall reachable [ex_hung] ∧ stalledFor [ex_hung] (100 + stallDuration) stallDuration = true.
Proof.
  assert (Hr : Forall reachable [ex_hung]).
  { apply Forall_singleton. apply (exec_all_reachable newCheck [Run 100; Expire]);
      [constructor|reflexivity]. }
  split; [exact Hr|]. apply (stalled_iff [ex_hung] (100 + stallDuration) stallDuration Hr).
  - apply Forall_singleton. intros w ->%list_elem_of_singleton. discriminate.
  - split; [discriminate|]. apply Forall_singleton. exists (mkCall 100 InDriver).
    split; [by apply list_elem_of_singleton|]. split; [reflexivity|]. vm_compute. congruence.
Defined.
