(* ===== verification/NvmlReader.v ===== *)
(** * NvmlReader: loading NVML, its stalls and their escalation
    ([monitors/nvidia/nvml]: reader.go, library.go, escalation.go, the symbols of
    returncode.go).

    [Reconcile] is a state transformer over [Reader].  What it meets in one call is
    an [env]: the clock readings in the order it makes them, what the library at a
    path answers, how the bounded runs end, and the host's memory pressure. *)

From Stdlib Require Import QArith.
From S2P Require Import Prelude GoStrings Paths Monitor Reasons Renotify Classify Nvml Inflight.

Definition escalationWindow : Duration := 15 * Minute.
Definition maxHostMemoryPressure : Q := 10.

(** A float64 that [strconv.ParseFloat] returned, and its comparison with a number: none
    is greater or less than NaN. *)
Inductive float := NaN | Infinite (negative : bool) | Finite (q : Q).

Definition greater (f : float) (q : Q) : bool :=
  match f with NaN => false | Infinite negative => negb negative | Finite p => negb (Qle_bool p q) end.

(** ** library.go *)

Definition libraryName : string := "libnvidia-ml.so.1".

Definition libraryDirs : list string :=
  ["/usr/lib64"; "/usr/lib/x86_64-linux-gnu"; "/usr/lib/aarch64-linux-gnu";
   "/usr/share/.nvidia/*/lib64"].

Definition DefaultGPUOperatorDriverRoot : string := "/run/nvidia/driver".

(** [isDir] is [os.Stat] followed by [IsDir]. *)
Definition driverRoots (env : string → option string) (isDir : string → bool) : list string :=
  let override := NvidiaDriverRoot env in
  if negb (String.eqb override EmptyString) then [override]
  else
    (if isDir (ToHostPath env DefaultGPUOperatorDriverRoot) then [DefaultGPUOperatorDriverRoot] else []) ++
    ["/"].

(** [Glob] is [filepath.Glob], which has no matches for a bad pattern. *)
Definition libraryCandidates (env : string → option string) (isDir : string → bool)
    (Glob : string → list string) : list string :=
  (if String.eqb (HostRoot env) "/" then [libraryName] else []) ++
  (driverRoots env isDir ≫= λ root,
     libraryDirs ≫= λ dir, Glob (ToHostPath env (PathJoin [root; dir; libraryName]))).

(** What a library answers: the result of [Init], the GPUs' identities, and the
    symbols it exports. *)
Record NvmlLibrary := mkNvmlLibrary {
  Init : Return;
  DeviceGetCount : nat * Return;
  DeviceGetHandleByIndex : nat → Return;
  GetUUID : nat → string * Return;
  GetSerial : nat → string * Return;
  LookupSymbol : string → bool
}.

(** The path of the first candidate that loads, with the result of its [Init]. *)
Fixpoint openLibrary (candidates : list string) (newLibrary : string → NvmlLibrary)
    : option string * Return :=
  match candidates with
  | [] => (None, ERROR_LIBRARY_NOT_FOUND)
  | path :: rest =>
      let ret := Init (newLibrary path) in
      if decide (ret ≠ ERROR_LIBRARY_NOT_FOUND) then (Some path, ret) else openLibrary rest newLibrary
  end.

(** ** reader.go: identities and symbols *)

Definition observed_or_empty (answer : string * Return) : string :=
  if decide (outcome answer.2 = Observed) then answer.1 else EmptyString.

Definition readGPUIdentities (lib : NvmlLibrary) : list gpuIdentity :=
  let '(count, ret) := DeviceGetCount lib in
  if decide (outcome ret ≠ Observed) then []
  else (λ i, if decide (outcome (DeviceGetHandleByIndex lib i) ≠ Observed)
             then mkIdentity EmptyString EmptyString
             else mkIdentity (observed_or_empty (GetUUID lib i)) (observed_or_empty (GetSerial lib i)))
       <$> seq 0 count.

Record newerSymbols := mkSymbols { gpuFabricInfoV : bool; unrepairableMemoryFlag : bool }.

Definition lookupNewerSymbols (lib : NvmlLibrary) : newerSymbols :=
  mkSymbols (LookupSymbol lib "nvmlDeviceGetGpuFabricInfoV")
            (LookupSymbol lib "nvmlDeviceGetUnrepairableMemoryFlag_v1").

Record readyLibrary := mkReady { rlPath : string; symbols : newerSymbols; rlGpus : list gpuIdentity }.

Record initResult := mkInitResult { irRet : Return; irGpus : list gpuIdentity }.

Definition afterInit (lib : NvmlLibrary) (ret : Return) : initResult :=
  if decide (ret ≠ SUCCESS) then mkInitResult ret [] else mkInitResult ret (readGPUIdentities lib).

(** ** reader.go: the reader *)

(** The library handle [lib] is the path it was loaded from; the two gauges are
    the metrics of returncode.go. *)
Record Reader := mkReader {
  gracePeriod : Duration;
  rdStarted : Time;
  libraryWarnings : Tracker string;
  stuckWarnings : Tracker string;
  probeStuckSince : Time;
  held : string;
  lib : option string;
  ready : option readyLibrary;
  libraryLoaded : Z;
  driverNotResponding : Z
}.

Definition newReader (grace : Duration) (now : Time) : Reader :=
  mkReader grace now (New EmptyString WarningReNotifyInterval) (New EmptyString WarningReNotifyInterval)
    zero_time EmptyString None None 0 0.

Definition set_library_warnings r x := mkReader (gracePeriod r) (rdStarted r) x (stuckWarnings r) (probeStuckSince r) (held r) (lib r) (ready r) (libraryLoaded r) (driverNotResponding r).
Definition set_stuck r x g := mkReader (gracePeriod r) (rdStarted r) (libraryWarnings r) x (probeStuckSince r) (held r) (lib r) (ready r) (libraryLoaded r) g.
Definition set_probe r t h := mkReader (gracePeriod r) (rdStarted r) (libraryWarnings r) (stuckWarnings r) t h (lib r) (ready r) (libraryLoaded r) (driverNotResponding r).
Definition set_lib r x := mkReader (gracePeriod r) (rdStarted r) (libraryWarnings r) (stuckWarnings r) (probeStuckSince r) (held r) x (ready r) (libraryLoaded r) (driverNotResponding r).
Definition set_ready r x := mkReader (gracePeriod r) (rdStarted r) (libraryWarnings r) (stuckWarnings r) (probeStuckSince r) (held r) (lib r) x (libraryLoaded r) (driverNotResponding r).
Definition set_loaded r x := mkReader (gracePeriod r) (rdStarted r) (libraryWarnings r) (stuckWarnings r) (probeStuckSince r) (held r) (lib r) (ready r) x (driverNotResponding r).

Record env := mkEnv {
  eChecks : list Check;            (* the checks that read the GPUs *)
  eInitCheck : Check;              (* after the run of [initCheck], if any *)
  eGrace : Time;                   (* the clock for the grace period *)
  eStall : Time;                   (* for the stall *)
  eWarn : Time;                    (* for the warning's tracker *)
  eProbeStart : Time;              (* before and after the driver probe *)
  eProbeEnd : Time;
  eCandidates : list string;       (* [libraryCandidates] *)
  eLibrary : string → NvmlLibrary; (* the library at a path, as it answers now *)
  eInitRun : Status;               (* how the run of [initCheck] ends *)
  eProbeRun : Status;              (* how the run of [probe] ends *)
  ePressure : option float         (* [memoryPressure], [None] for an error *)
}.

Section Reconcile.
Variable ReturnString : Return → string. (* the name go-nvml gives a return code *)
Variable e : env.

Definition inGracePeriod (r : Reader) : bool :=
  Before (eGrace e) (TimeAdd (rdStarted r) (gracePeriod r)).

Definition notResponding (stuck : bool) (msg : string) (r : Reader) : list Condition * Reader :=
  if negb stuck then ([], set_stuck r (Reset EmptyString (stuckWarnings r)) 0)
  else
    let r := set_stuck r (stuckWarnings r) 1 in
    let key := "driver-not-responding" in
    if negb (ShouldNotify (stuckWarnings r) key (eWarn e)) then ([], r)
    else ([condition_of NvidiaDriverNotResponding [] msg],
          set_stuck r (Notified (stuckWarnings r) key (eWarn e)) 1).

Definition initStuck (r : Reader) : list Condition * Reader :=
  notResponding (negb (inGracePeriod r) && stalledFor [eInitCheck e] (eStall e) stallDuration)
    (Sprintf "NVML initialization has been in the NVIDIA driver for at least %s, so GPU health is not being read"
       [AStr (DurationString stallDuration)]) r.

Definition libraryNotFound (r : Reader) : list Condition * Reader :=
  if inGracePeriod r then ([], r)
  else
    let key := "library-not-found" in
    if negb (ShouldNotify (libraryWarnings r) key (eWarn e)) then ([], r)
    else ([condition_of NvidiaLibraryNotFound []
             (Sprintf "could not load %s from the host, so GPU health is not being monitored"
                [AStr libraryName])],
          set_library_warnings r (Notified (libraryWarnings r) key (eWarn e))).

Definition recordInit (path : string) (res : initResult) (r : Reader) : list Condition * Reader :=
  if decide (irRet res = SUCCESS) then
    ([], set_ready r (Some (mkReady path (lookupNewerSymbols (eLibrary e path)) (irGpus res))))
  else if inGracePeriod r then ([], r)
  else ([condition_of DCGMError []
           (Sprintf "failed to initialize NVML: %s" [AStr (ReturnString (irRet res))])], r).

Definition escalate (stalled : bool) (r : Reader) : list Condition * Reader :=
  if negb stalled then ([], set_probe r zero_time EmptyString)
  else match eProbeRun e with
       | Done => ([], set_probe r zero_time EmptyString)
       | Stuck =>
           let since := if IsZero (probeStuckSince r) then eProbeStart e else probeStuckSince r in
           if Sub (eProbeEnd e) since <? escalationWindow then ([], set_probe r since (held r))
           else
             let why := match ePressure e with
                        | None => "host memory pressure could not be read"
                        | Some p => if greater p maxHostMemoryPressure then "the host is under memory pressure"
                                    else EmptyString
                        end in
             if negb (String.eqb why EmptyString) then ([], set_probe r since why)
             else ([condition_of NvidiaDriverUnresponsive []
                      (Sprintf "a light driver read has been stuck in the NVIDIA driver for at least %s after the checks that read the GPUs stopped answering"
                         [AStr (DurationString escalationWindow)])],
                   set_probe r since EmptyString)
       end.

Definition Reconcile (r : Reader) : list Condition * Reader :=
  match ready r with
  | Some _ =>
      let stalled := stalledFor (eChecks e) (eStall e) stallDuration in
      let '(conds, r) := notResponding stalled
        (Sprintf "the NVML checks that read the GPUs have each had a call in the NVIDIA driver for at least %s, so GPU health is not being read"
           [AStr (DurationString stallDuration)]) r in
      let '(more, r) := escalate stalled r in
      (conds ++ more, r)
  | None =>
      match lib r, eInitRun e with
      | _, Stuck => initStuck r
      | None, Done =>
          let '(found, ret) := openLibrary (eCandidates e) (eLibrary e) in
          match found with
          | None => libraryNotFound (set_loaded r 0)
          | Some path =>
              let r := set_loaded r 1 in
              let r := set_library_warnings r (Reset EmptyString (libraryWarnings r)) in
              recordInit path (afterInit (eLibrary e path) ret) (set_lib r (Some path))
          end
      | Some path, Done =>
          recordInit path (afterInit (eLibrary e path) (Init (eLibrary e path))) r
      end
  end.

End Reconcile.

(** ** fullAvg60 (escalation.go) *)

Definition newline : Ascii.ascii := byte_of 10.

Fixpoint find_avg60 (fields : list string) : option string :=
  match fields with
  | [] => None
  | f :: rest => match CutPrefix f "avg60=" with Some v => Some v | None => find_avg60 rest end
  end.

Fixpoint full_line (lines : list string) : option string :=
  match lines with
  | [] => None
  | l :: rest =>
      match Fields l with
      | "full" :: fields => match find_avg60 fields with Some v => Some v | None => full_line rest end
      | _ => full_line rest
      end
  end.

(** [ParseFloat] is [strconv.ParseFloat]. *)
Definition fullAvg60 (ParseFloat : string → option float) (psi : string) : option float :=
  v ← full_line (Split psi newline); ParseFloat v.

(** ** When a stall becomes fatal *)

Definition stalled_now (e : env) : bool := stalledFor (eChecks e) (eStall e) stallDuration.

(** The checks are stalled and the probe did not come back. *)
Definition probe_stuck (e : env) : bool :=
  stalled_now e && match eProbeRun e with Stuck => true | Done => false end.

(** The start of the first probe of the unbroken run of stuck probes that ends with
    the most recent call, the most recent first. *)
Fixpoint stuck_since (hist : list env) : option Time :=
  match hist with
  | [] => None
  | e :: hist' => if probe_stuck e then Some (default (eProbeStart e) (stuck_since hist')) else None
  end.

Section Escalation.
Variable ReturnString : Return → string.

Fixpoint reconcile_all (r : Reader) (es : list env) : Reader :=
  match es with
  | [] => r
  | e :: es' => reconcile_all (Reconcile ReturnString e r).2 es'
  end.

(** What the reader remembers of the calls so far. *)
Definition remembers (r : Reader) (hist : list env) : Prop :=
  is_Some (ready r) ∧ probeStuckSince r = default zero_time (stuck_since hist).

Lemma notResponding_keeps e stuck msg r :
  let '(conds, r') := notResponding e stuck msg r in
  ready r' = ready r ∧ probeStuckSince r' = probeStuckSince r ∧ held r' = held r ∧
  Forall (λ c, CondSeverity c = SeverityWarning) conds.
Proof.
  unfold notResponding. destruct stuck; simpl; [|by repeat split].
  destruct (ShouldNotify _ _ _); simpl; repeat split; repeat constructor.
Qed.

Lemma stuck_since_nonzero hist t :
  Forall (λ e, eProbeStart e ≠ zero_time) hist → stuck_since hist = Some t → t ≠ zero_time.
Proof.
  revert t. induction hist as [|e hist IH]; intros t He; simpl; [done|].
  apply Forall_cons in He as [H1 H2]. destruct (probe_stuck e); [|done]. intros [= <-].
  destruct (stuck_since hist) as [t'|]; simpl; [by apply IH|done].
Qed.

(** The start of the current run of stuck probes, as [escalate] finds it. *)
Lemma since_of e r hist :
  remembers r hist → Forall (λ e, eProbeStart e ≠ zero_time) hist →
  (if IsZero (probeStuckSince r) then eProbeStart e else probeStuckSince r) =
  default (eProbeStart e) (stuck_since hist).
Proof.
  intros [_ ->] He. unfold IsZero. destruct (stuck_since hist) as [t|] eqn:Ht; simpl; [|done].
  by rewrite (proj2 (Z.eqb_neq _ _) (stuck_since_nonzero _ _ He Ht)).
Qed.

(** At most the number, or no number at all. *)
Definition not_above (f : float) (q : Q) : Prop :=
  match f with NaN => True | Infinite negative => negative = true | Finite p => (p <= q)%Q end.

Lemma greater_spec f q : greater f q = false ↔ not_above f q.
Proof.
  destruct f as [|[]|p]; simpl; [done|done|done|]. by rewrite negb_false_iff, Qle_bool_iff.
Qed.

(** The conditions under which a call escalates. *)
Definition escalates (e : env) (hist : list env) : Prop :=
  ∃ since p, stuck_since (e :: hist) = Some since ∧ escalationWindow ≤ eProbeEnd e - since ∧
             ePressure e = Some p ∧ not_above p maxHostMemoryPressure.

Lemma escalate_step e r hist :
  remembers r hist → Forall (λ e, eProbeStart e ≠ zero_time) hist →
  let '(conds, r') := escalate e (stalled_now e) r in
  ready r' = ready r ∧ probeStuckSince r' = default zero_time (stuck_since (e :: hist)) ∧
  ((∃ c, c ∈ conds ∧ CondSeverity c = SeverityFatal) ↔ escalates e hist).
Proof.
  intros Hr He. unfold escalate, escalates. cbn [stuck_since]. unfold probe_stuck.
  destruct (stalled_now e); cbn [negb andb];
    [|by repeat split; [intros (c & ?%elem_of_nil & _)|intros (? & ? & ? & _)]].
  destruct (eProbeRun e);
    [by repeat split; [intros (c & ?%elem_of_nil & _)|intros (? & ? & ? & _)]|].
  rewrite (since_of e r hist Hr He). set (since := default (eProbeStart e) (stuck_since hist)).
  destruct (Sub (eProbeEnd e) since <? escalationWindow) eqn:Hw.
  - apply Z.ltb_lt in Hw. rewrite Sub_lt_iff in Hw by (vm_compute; split; congruence).
    repeat split; [by intros (c & ?%elem_of_nil & _)|]. intros (s' & p & [= <-] & ? & _). lia.
  - apply Z.ltb_ge in Hw. rewrite Sub_le_iff in Hw by (vm_compute; split; congruence).
    destruct (ePressure e) as [p|]; [destruct (greater p maxHostMemoryPressure) eqn:Hp|];
      cbn [String.eqb negb].
    + split; [done|]. split; [done|]. split; [by intros (c & ?%elem_of_nil & _)|].
      intros (s' & p' & _ & _ & [= <-] & Hle%greater_spec). congruence.
    + split; [done|]. split; [done|]. split.
      * intros _. exists since, p. rewrite <- greater_spec. auto.
      * intros _. eexists. split; [by apply list_elem_of_singleton|]. by rewrite severity_of.
    + split; [done|]. split; [done|]. split; [by intros (c & ?%elem_of_nil & _)|].
      by intros (s' & p' & _ & _ & ? & _).
Qed.

Lemma reconcile_step e r hist :
  remembers r hist → Forall (λ e, eProbeStart e ≠ zero_time) hist →
  remembers (Reconcile ReturnString e r).2 (e :: hist) ∧
  ((∃ c, c ∈ (Reconcile ReturnString e r).1 ∧ CondSeverity c = SeverityFatal) ↔ escalates e hist).
Proof.
  intros [[rl Hrl] Hs] He. unfold Reconcile. rewrite Hrl. fold (stalled_now e).
  match goal with |- context [notResponding e ?b ?m r] =>
    pose proof (notResponding_keeps e b m r) as Hk; destruct (notResponding e b m r) as [conds r1] end.
  destruct Hk as (Hready & Hsince & _ & Hwarn).
  assert (Hr1 : remembers r1 hist) by (split; [rewrite Hready; eauto|congruence]).
  pose proof (escalate_step e r1 hist Hr1 He) as Hstep.
  destruct (escalate e (stalled_now e) r1) as [more r2]. destruct Hstep as (H1 & H2 & H3).
  cbn [fst snd]. split; [split; [rewrite H1, Hready; eauto|done]|].
  rewrite <- H3. setoid_rewrite elem_of_app. split; [|naive_solver].
  intros (c & [Hc|Hc] & Hf); [|eauto]. rewrite Forall_forall in Hwarn.
  apply Hwarn in Hc. by rewrite Hf in Hc.
Qed.

Lemma reconcile_all_remembers r hist es :
  remembers r hist → Forall (λ e, eProbeStart e ≠ zero_time) (hist ++ es) →
  remembers (reconcile_all r es) (reverse es ++ hist).
Proof.
  revert r hist. induction es as [|e es IH]; intros r hist Hr He; simpl; [done|].
  rewrite reverse_cons, <- (assoc_L (++)). apply (IH _ (e :: hist)).
  - apply reconcile_step; [done|]. by apply Forall_app in He as [? _].
  - rewrite Forall_app, !Forall_cons in *. naive_solver.
Qed.

(** C21. Once NVML is initialized, a call of [Reconcile] reports a fatal condition exactly
    when the driver has been unresponsive for the whole escalation window: the checks
    that read the GPUs stalled and the probe stuck on this call and on every call back
    to one whose probe started at least 15 minutes ago, and the host's memory pressure
    is known and at most 10%, or read as NaN.  One call in between with a probe that answers, or with
    checks that answer, starts the window over. *)
Theorem escalation_iff r es e :
  is_Some (ready r) → probeStuckSince r = zero_time →
  Forall (λ e, eProbeStart e ≠ zero_time) es →
  (∃ c, c ∈ (Reconcile ReturnString e (reconcile_all r es)).1 ∧ CondSeverity c = SeverityFatal) ↔
  ∃ since p, stuck_since (e :: reverse es) = Some since ∧ escalationWindow ≤ eProbeEnd e - since ∧
             ePressure e = Some p ∧ not_above p maxHostMemoryPressure.
Proof.
  intros Hr Hs He. pose proof (reconcile_all_remembers r [] es (conj Hr Hs) He) as Hrem.
  rewrite app_nil_r in Hrem. apply reconcile_step; [done|]. by apply Forall_reverse.
Qed.

End Escalation.

Definition ex_env (t : Time) (st : Status) (p : option float) : env :=
  mkEnv [mkCheck [mkCall 100 InDriver] (Some 0%nat) 100 None] newCheck t t t t (t + 10 * Second) []
    (λ _, mkNvmlLibrary SUCCESS (0%nat, SUCCESS) (λ _, SUCCESS) (λ _, (EmptyString, SUCCESS))
            (λ _, (EmptyString, SUCCESS)) (λ _, false)) Done st p.

Definition ex_reader : Reader :=
  set_ready (newReader Minute 1) (Some (mkReady "/usr/lib64/libnvidia-ml.so.1" (mkSymbols true true) [])).

(** Stuck probes from minute 3 to minute 18. *)
Lemma escalation_iff_witness :
  is_Some (ready ex_reader) ∧
  ∃ c, c ∈ (Reconcile (λ _, EmptyString) (ex_env (18 * Minute) Stuck (Some (Finite (1 # 2))))
             (reconcile_all (λ _, EmptyString) ex_reader
                [ex_env (3 * Minute) Stuck None; ex_env (10 * Minute) Stuck None])).1 ∧
       CondSeverity c = SeverityFatal.
Proof.
  assert (Hr : is_Some (ready ex_reader)) by (eexists; reflexivity).
  split; [exact Hr|].
  apply (escalation_iff (λ _, EmptyString) ex_reader
    [ex_env (3 * Minute) Stuck None; ex_env (10 * Minute) Stuck None]
    (ex_env (18 * Minute) Stuck (Some (Finite (1 # 2)))) Hr eq_refl).
  - repeat (apply Forall_cons; split); [vm_compute; discriminate..|apply Forall_nil_2].
  - exists (3 * Minute), (Finite (1 # 2)). repeat split; vm_compute; congruence.
Defined.
