(* ===== verification/NvmlDevices.v ===== *)
(** * NvmlDevices: the GPU count, the fabric and XID events
    ([monitors/nvidia/nvml]: devices.go, xid.go; [monitors/nvidia/devicefiles]).

    The answers of the driver during one poll or wait are arguments; how a bounded
    run ends is a [Status]. *)

From Stdlib Require Import Sorted.
From S2P Require Import Prelude GoStrings Paths Monitor Reasons Renotify Classify Nvml Inflight.

(** ** devicefiles.go *)

Definition DefaultGPUOperatorDriverRoot : string := "/run/nvidia/driver".

(** [isDir] is [os.Stat] followed by [IsDir]. *)
Definition dirs (env : string → option string) (isDir : string → bool) : list string :=
  let root := NvidiaDriverRoot env in
  if negb (String.eqb root EmptyString) then [ToHostPath env (PathJoin [root; "dev"])]
  else
    let gpuOpDir := ToHostPath env (PathJoin [DefaultGPUOperatorDriverRoot; "dev"]) in
    let standardDir := ToHostPath env "/dev" in
    if isDir gpuOpDir then [gpuOpDir; standardDir] else [standardDir].

(** [Glob] is [filepath.Glob], [None] for a bad pattern. *)
Fixpoint best_dir (Glob : string → option (list string)) (ds : list string) (best : nat * string)
    : result string (nat * string) :=
  match ds with
  | [] => Ok best
  | dir :: rest =>
      match Glob (PathJoin [dir; "nvidia[0-9]*"]) with
      | None => Err dir
      | Some paths =>
          best_dir Glob rest (if (best.1 <? length paths)%nat then (length paths, dir) else best)
      end
  end.

Definition Count (env : string → option string) (isDir : string → bool)
    (Glob : string → option (list string)) : result string (nat * string) :=
  let candidates := dirs env isDir in
  best <-? best_dir Glob candidates (0%nat, EmptyString);;
  Ok (if String.eqb best.2 EmptyString then (best.1, default EmptyString (last candidates)) else best).

(** ** devices.go *)

(** The constants of go-nvml for the fabric, and its conversion of a status to a
    return code. *)
Class FabricConstants := {
  GPU_FABRIC_STATE_NOT_SUPPORTED : Z;
  GPU_FABRIC_STATE_NOT_STARTED : Z;
  GPU_FABRIC_STATE_IN_PROGRESS : Z;
  GPU_FABRIC_STATE_COMPLETED : Z;
  ReturnOf : Z → Return
}.

Record FabricInfo := mkFabric { fiState : Z; fiStatus : Z; fiHealthMask : Z }.

(** One GPU's handle and its fabric info by struct version. *)
Record FabricDevice := mkFabricDevice {
  fdHandle : Return;
  fabricV3 : FabricInfo * Return;
  fabricV2 : FabricInfo * Return
}.

Record gpuDevice := mkGpuDevice { gdLost : bool; fmStatus : option Z; healthMask : option Z }.
Record devicesReading := mkDevicesReading { drCount : nat; drGpus : list gpuDevice }.

Section Devices.
Context `{FabricConstants}.

Definition readFabric (dev : FabricDevice) : FabricInfo * Return :=
  if decide ((fabricV3 dev).2 ≠ ERROR_ARGUMENT_VERSION_MISMATCH) then fabricV3 dev else fabricV2 dev.

Definition fabricManagerStatus (state status : Z) : Z :=
  if state =? GPU_FABRIC_STATE_NOT_SUPPORTED then DcgmFMStatusNotSupported
  else if state =? GPU_FABRIC_STATE_NOT_STARTED then DcgmFMStatusNotStarted
  else if state =? GPU_FABRIC_STATE_IN_PROGRESS then DcgmFMStatusInProgress
  else if state =? GPU_FABRIC_STATE_COMPLETED then
    (if decide (ReturnOf status = SUCCESS) then DcgmFMStatusSuccess else DcgmFMStatusFailure)
  else DcgmFMStatusUnrecognized.

Definition readGPU (dev : FabricDevice) (hasFabricInfo : bool) : gpuDevice :=
  match outcome (fdHandle dev) with
  | Observed =>
      if negb hasFabricInfo then mkGpuDevice false (Some DcgmFMStatusNvmlTooOld) None
      else
        let '(f, ret) := readFabric dev in
        match outcome ret with
        | Observed =>
            mkGpuDevice false (Some (fabricManagerStatus (fiState f) (fiStatus f))) (Some (fiHealthMask f))
        | GPULost => mkGpuDevice true None None
        | _ => mkGpuDevice false None None
        end
  | GPULost => mkGpuDevice true None None
  | _ => mkGpuDevice false None None
  end.

(** [None] when the GPU count could not be read. *)
Definition read (count : nat * Return) (devs : nat → FabricDevice) (hasFabricInfo : bool)
    : option devicesReading :=
  if decide (outcome count.2 = Observed)
  then Some (mkDevicesReading count.1 ((λ i, readGPU (devs i) hasFabricInfo) <$> seq 0 count.1))
  else None.

Definition presentGPUs (gpus : list gpuIdentity) : string :=
  Join (filter (λ u, u ≠ EmptyString) (uuid <$> gpus)) ", ".

Definition add_present (present : string) (c : Condition) : Condition :=
  set_message (Message c +:+ "; GPUs present: " +:+ present) c.

(** [files] is [devicefiles.Count]; [expected] the count of the instance type, when
    there is a provider and it knows the type. *)
Definition countConditions (count : Z) (files : result string (nat * string)) (expected : option Z)
    (gpus : list gpuIdentity) : list Condition :=
  let '(fileCount, path) :=
    match files with Ok (n, dir) => (Some (Z.of_nat n), dir) | Err _ => (None, EmptyString) end in
  let conds := Classify (mkSignals [] None None false false false false false false (Some count)
                           fileCount path expected) in
  let present := presentGPUs gpus in
  if String.eqb present EmptyString then conds else add_present present <$> conds.

Fixpoint gpu_conditions (i : nat) (rs : list gpuDevice) (gpus : list gpuIdentity) : list Condition :=
  match rs with
  | [] => []
  | g :: rs' =>
      (if gdLost g then lostGPU i gpus
       else Classify (mkSignals [] (healthMask g) (fmStatus g) false false false false false false None None
                        EmptyString None)) ++
      gpu_conditions (S i) rs' gpus
  end.

Definition evaluate (r : devicesReading) (files : result string (nat * string)) (expected : option Z)
    (gpus : list gpuIdentity) : list Condition :=
  let out := gpu_conditions 0 (drGpus r) gpus in
  if existsb gdLost (drGpus r) then out
  else out ++ countConditions (Z.of_nat (drCount r)) files expected gpus.

(** [Poll]: [reading] is [None] when NVML is not initialized, the run was stuck or
    the count could not be read. *)
Definition Poll (reading : option devicesReading) (now : Time) (files : result string (nat * string))
    (expected : option Z) (gpus : list gpuIdentity) (fabricWarnings : Tracker string)
    : option (list Condition) * Tracker string :=
  match reading with
  | None => (None, fabricWarnings)
  | Some r =>
      let '(out, t) := SuppressRepeatedWarnings fabricWarnings now (evaluate r files expected gpus)
        (λ c, String.eqb (Reason c) (Template FabricManagerNotRunningWarning)) in
      (Some out, t)
  end.

End Devices.

(** ** xid.go *)

Definition xidWaitTimeout : Duration := 5 * Second.
Definition policyRepeatFloor : Duration := 5 * Second.
Definition xidRetryInterval : Duration := 30 * Second.

Section XIDs.
(** The GPU handle of an event. *)
Context {Dev : Type} `{Countable Dev}.
Variable EventTypeXidCriticalError : Z.

(** [set] is the number of the event set created. *)
Record XIDs := mkXIDs {
  set : option nat;
  missing : list nat;
  retryAt : Time;
  lastSent : gmap Dev Time;
  unregisteredGPUs : Z
}.

Definition NewXIDs : XIDs := mkXIDs None [] zero_time ∅ 0.

(** The driver during one registration. *)
Record Registrar := mkRegistrar {
  EventSetCreate : nat * Return;
  rgCount : nat * Return;
  rgHandle : nat → Return;
  RegisterEvents : nat → Return
}.

(** A GPU that has to be tried again. *)
Definition register_fails (d : Registrar) (i : nat) : bool :=
  if decide (outcome (rgHandle d i) ≠ Observed) then true
  else bool_decide (RegisterEvents d i ≠ ERROR_NOT_SUPPORTED ∧ outcome (RegisterEvents d i) ≠ Observed).

Definition registerXIDEvents (d : Registrar) (s : option nat) (retry : list nat)
    : option nat * list nat :=
  match s with
  | Some _ => (s, filter (λ i, register_fails d i = true) retry)
  | None =>
      let '(created, ret) := EventSetCreate d in
      if decide (outcome ret ≠ Observed) then (None, [])
      else
        let '(count, ret) := rgCount d in
        if decide (outcome ret ≠ Observed) then (None, [])
        else (Some created, filter (λ i, register_fails d i = true) (seq 0 count))
  end.

(** [lib] is [None] until NVML is initialized; [status] how the run ends. *)
Definition register (now later : Time) (lib : option Registrar) (status : Status) (x : XIDs)
    : bool * XIDs :=
  let settled := bool_decide (missing x = []) || Before now (retryAt x) in
  if bool_decide (is_Some (set x)) && settled then (true, x)
  else match lib with
       | None => (false, x)
       | Some d =>
           match status, registerXIDEvents d (set x) (missing x) with
           | Done, (Some s, miss) =>
               (true, mkXIDs (Some s) miss (TimeAdd later xidRetryInterval) (lastSent x)
                        (Z.of_nat (length miss)))
           | _, _ => (bool_decide (is_Some (set x)), x)
           end
       end.

Record EventData := mkEventData { evType : Z; evDevice : Dev; evData : Z }.

(** The part of [Wait] after the registration: [None] for a wait that could not
    wait in the driver. *)
Definition take_event (now : Time) (status : Status) (ev : EventData * Return) (x : XIDs)
    : option (list Condition) * XIDs :=
  match status with
  | Stuck => (None, x)
  | Done =>
      if decide (ev.2 = ERROR_TIMEOUT) then (Some [], x)
      else if decide (outcome ev.2 ≠ Observed) then (None, x)
      else if Z.land (evType ev.1) EventTypeXidCriticalError =? 0 then (Some [], x)
      else
        let dev := evDevice ev.1 in
        let repeat := match lastSent x !! dev with
                      | Some last => Sub now last <? policyRepeatFloor
                      | None => false
                      end in
        if repeat then (Some [], x)
        else (Some (Classify (mkSignals [evData ev.1] None None false false false false false false None None
                      EmptyString None)),
              mkXIDs (set x) (missing x) (retryAt x) (<[dev := now]> (lastSent x)) (unregisteredGPUs x))
  end.

Definition Wait (t1 t2 t3 : Time) (lib : option Registrar) (regStatus waitStatus : Status)
    (ev : EventData * Return) (x : XIDs) : option (list Condition) * XIDs :=
  let '(registered, x) := register t1 t2 lib regStatus x in
  if negb registered then (None, x) else take_event t3 waitStatus ev x.

(** *** The repeat floor over time *)

(** The arguments of one [Wait]. *)
Record wait := mkWait {
  wTimes : Time * Time * Time;
  wLib : option Registrar;
  wReg : Status;
  wStatus : Status;
  wEvent : EventData * Return
}.

Definition do_wait (x : XIDs) (w : wait) : option (list Condition) * XIDs :=
  Wait (wTimes w).1.1 (wTimes w).1.2 (wTimes w).2 (wLib w) (wReg w) (wStatus w) (wEvent w) x.

(** A critical XID event arrives. *)
Definition arrives (x : XIDs) (w : wait) : bool :=
  (register (wTimes w).1.1 (wTimes w).1.2 (wLib w) (wReg w) x).1 &&
  bool_decide (wStatus w = Done ∧ (wEvent w).2 = SUCCESS) &&
  negb (Z.land (evType (wEvent w).1) EventTypeXidCriticalError =? 0).

(** Each event that arrives, its GPU and time, with whether it is reported. *)
Fixpoint event_log (x : XIDs) (ws : list wait) : list (Dev * Time * bool) :=
  match ws with
  | [] => []
  | w :: ws' =>
      let '(out, x') := do_wait x w in
      (if arrives x w
       then [(evDevice (wEvent w).1, (wTimes w).2, bool_decide (is_Some out ∧ out ≠ Some []))] else []) ++
      event_log x' ws'
  end.

(** An event is reported exactly when no report of its GPU is less than the floor
    old; [past] are the reports so far. *)
Fixpoint floor_kept (past : list (Dev * Time)) (l : list (Dev * Time * bool)) : Prop :=
  match l with
  | [] => True
  | (d, t, b) :: l' =>
      (b = true ↔ ∀ t', (d, t') ∈ past → policyRepeatFloor ≤ t - t') ∧
      floor_kept (if b then (d, t) :: past else past) l'
  end.

(** [lastSent] is the latest report of each GPU. *)
Definition last_reports (x : XIDs) (past : list (Dev * Time)) : Prop :=
  (∀ d t, lastSent x !! d = Some t → (d, t) ∈ past) ∧
  (∀ d t, (d, t) ∈ past → ∃ t', lastSent x !! d = Some t' ∧ t ≤ t').

Lemma register_lastSent t1 t2 l st x : lastSent (register t1 t2 l st x).2 = lastSent x.
Proof.
  unfold register. destruct (bool_decide _ && _); [done|]. destruct l as [d|]; [|done].
  destruct st; [|done]. by destruct (registerXIDEvents _ _ _) as [[s|] miss].
Qed.

Lemma do_wait_absent x w : arrives x w = false → lastSent (do_wait x w).2 = lastSent x.
Proof.
  unfold arrives, do_wait, Wait. pose proof (register_lastSent (wTimes w).1.1 (wTimes w).1.2 (wLib w) (wReg w) x) as Hr.
  destruct (register _ _ _ _ x) as [b x1]. cbn [fst snd] in *. destruct b; [|done]. cbn [negb andb].
  unfold take_event. destruct (wStatus w); [|done]. destruct (wEvent w) as [ev ret]. cbn [fst snd].
  destruct (decide (ret = ERROR_TIMEOUT)); [done|]. destruct (decide (outcome ret ≠ Observed)) as [|Ho]; [done|].
  assert (ret = SUCCESS) as -> by (destruct ret; simpl in Ho; try done; exfalso; by apply Ho).
  rewrite bool_decide_true by done. by destruct (_ =? 0).
Qed.

(** What an arriving event does. *)
Lemma do_wait_arrives x w :
  arrives x w = true →
  let d := evDevice (wEvent w).1 in
  let t := (wTimes w).2 in
  let fresh := match lastSent x !! d with Some last => negb (Sub t last <? policyRepeatFloor) | None => true end in
  bool_decide (is_Some (do_wait x w).1 ∧ (do_wait x w).1 ≠ Some []) = fresh ∧
  lastSent (do_wait x w).2 = if fresh then <[d := t]> (lastSent x) else lastSent x.
Proof.
  unfold arrives, do_wait, Wait. pose proof (register_lastSent (wTimes w).1.1 (wTimes w).1.2 (wLib w) (wReg w) x) as Hr.
  destruct (register _ _ _ _ x) as [b x1]. cbn [fst snd] in *. destruct b; [|done]. cbn [negb andb].
  intros [[Hs Ho]%bool_decide_eq_true Hc%negb_true_iff]%andb_true_iff.
  unfold take_event. rewrite Hs, Ho, Hc, Hr. cbn [outcome].
  rewrite decide_False by done. rewrite decide_False by (intros Hn; by apply Hn).
  destruct (lastSent x !! _) as [last|]; [destruct (_ <? _)|]; cbn [negb snd fst lastSent]; rewrite ?Hr;
    (split; [|done]).
  - apply bool_decide_eq_false. naive_solver.
  - apply bool_decide_eq_true. split; [eauto|discriminate].
  - apply bool_decide_eq_true. split; [eauto|discriminate].
Qed.

Lemma fresh_iff x past d t :
  last_reports x past →
  (match lastSent x !! d with Some last => negb (Sub t last <? policyRepeatFloor) | None => true end) = true ↔
  ∀ t', (d, t') ∈ past → policyRepeatFloor ≤ t - t'.
Proof.
  intros [H1 H2]. destruct (lastSent x !! d) as [last|] eqn:Hl.
  - rewrite negb_true_iff, Z.ltb_ge, Sub_le_iff by (vm_compute; split; congruence). split; [|eauto].
    intros Hd t' Ht'. destruct (H2 d t' Ht') as (t'' & ? & ?). simplify_eq. lia.
  - split; [|done]. intros _ t' Ht'. destruct (H2 d t' Ht') as (t'' & ? & ?). simplify_eq.
Qed.

Lemma last_reports_insert x x' past d0 t0 :
  last_reports x past → (∀ d t, (d, t) ∈ past → t ≤ t0) →
  lastSent x' = <[d0 := t0]> (lastSent x) → last_reports x' ((d0, t0) :: past).
Proof.
  intros [L1 L2] Ht Hx. unfold last_reports. rewrite Hx. split.
  - intros d t. rewrite lookup_insert_Some, elem_of_cons. intros [[<- <-]|[_ ?]]; auto.
  - intros d t. rewrite elem_of_cons. intros [[= -> ->]|Hin].
    + exists t0. rewrite lookup_insert_eq. split; [done|lia].
    + destruct (decide (d = d0)) as [->|]; [|rewrite lookup_insert_ne by done; eauto].
      exists t0. rewrite lookup_insert_eq. eauto.
Qed.

Lemma event_log_floor x past ws :
  last_reports x past → (∀ d t, (d, t) ∈ past → Forall (λ w, t ≤ (wTimes w).2) ws) →
  StronglySorted (λ w w', (wTimes w).2 ≤ (wTimes w').2) ws →
  floor_kept past (event_log x ws).
Proof.
  intros Hl Hp Hs. revert x past Hl Hp. induction Hs as [|w ws Hs IH Hw]; intros x past Hl Hp; [done|].
  simpl. destruct (arrives x w) eqn:Ha.
  - destruct (do_wait_arrives x w Ha) as [H1 H2].
    pose proof (fresh_iff x past (evDevice (wEvent w).1) (wTimes w).2 Hl) as Hf.
    destruct (do_wait x w) as [out x']. cbn [fst snd] in *. rewrite H1.
    set (fresh := match lastSent x !! _ with Some _ => _ | None => _ end) in *.
    cbn [app floor_kept]. split; [done|]. apply IH.
    + destruct fresh; [|unfold last_reports; by rewrite H2]. eapply last_reports_insert; [done| |done].
      intros d t Hin. by apply Hp, Forall_cons in Hin as [? _].
    + intros d t Hin. assert (Hin' : (d, t) = (evDevice (wEvent w).1, (wTimes w).2) ∨ (d, t) ∈ past)
        by (destruct fresh; [by apply elem_of_cons in Hin|by right]).
      destruct Hin' as [[= -> ->]|Hin']; [done|]. by apply Hp, Forall_cons in Hin' as [_ ?].
  - pose proof (do_wait_absent x w Ha) as H1. destruct (do_wait x w) as [out x'].
    cbn [fst snd app] in *. apply IH; [unfold last_reports in *; by rewrite H1|].
    intros d t Hin. by apply Hp, Forall_cons in Hin as [_ ?].
Qed.

(** C33. Over any sequence of waits, with registrations that fail and waits that are
    stuck or time out among them, a critical XID event that arrives is reported exactly
    when no report of the same GPU is less than five seconds old; a repeat never
    extends the window. *)
Theorem xid_repeat_floor ws :
  StronglySorted (λ w w', (wTimes w).2 ≤ (wTimes w').2) ws →
  floor_kept [] (event_log NewXIDs ws).
Proof.
  intros Hs. apply event_log_floor; [|by intros ? ? ?%elem_of_nil|done].
  split; [intros d t; cbn; by rewrite lookup_empty|by intros ? ? ?%elem_of_nil].
Qed.

End XIDs.

Definition ex_wait (t : Time) (dev : nat) : wait :=
  mkWait (t, t, t)
    (Some (mkRegistrar (1%nat, SUCCESS) (2%nat, SUCCESS) (λ _, SUCCESS) (λ _, SUCCESS))) Done Done
    (mkEventData 8 dev 48, SUCCESS).

Definition ex_waits : list wait :=
  [ex_wait (10 * Second) 0; ex_wait (12 * Second) 1; ex_wait (14 * Second) 0; ex_wait (15 * Second) 0].

Lemma xid_repeat_floor_witness :
  floor_kept [] (event_log 8 NewXIDs ex_waits) ∧
  (event_log 8 NewXIDs ex_waits).*2 = [true; true; false; true].
Proof.
  split; [|vm_compute; reflexivity]. apply xid_repeat_floor.
  repeat first [apply SSorted_nil|apply SSorted_cons|apply Forall_nil_2|apply Forall_cons_2];
    vm_compute; congruence.
Defined.
