(* ===== verification/NvmlSetup.v ===== *)
(** * NvmlSetup: how the NVML reader and its checks are put together, and the probe of the
    driver ([monitors/nvidia/nvml]: the constructors of reader.go and devices.go, [probeDriver]
    and [hostMemoryPressure] of escalation.go).

    [NvmlReader.Reconcile] takes the end of the probe's run as an answer; here it is what the
    calls of the probe make of it. *)

From Stdlib Require Import QArith.
From S2P Require Import Prelude GoStrings Paths Monitor Reasons Renotify Classify Nvml Inflight NvmlReader NvmlDevices.

(** ** reader.go *)

Record Config := mkReaderConfig { GracePeriod : Duration }.

Definition NewReader (cfg : Config) (now : Time) : Reader := newReader (GracePeriod cfg) now.

(** A check with its name and timeout; those that are registered are the reader's. *)
Record namedCheck := mkNamed { checkName : string; checkTimeout : Duration; checkState : Check }.

Definition NewCheck (name : string) (timeout : Duration) (checks : list namedCheck) : list namedCheck :=
  checks ++ [mkNamed name timeout newCheck].

(** The initialized library, as the path it was loaded from. *)
Definition Library (r : Reader) : option (string * newerSymbols) := (λ s, (rlPath s, symbols s)) <$> ready r.

(** [None] is the panic of a call before the library is there. *)
Definition gpuIdentities (r : Reader) : option (list gpuIdentity) := rlGpus <$> ready r.

Lemma identities_after_library r : is_Some (Library r) ↔ is_Some (gpuIdentities r).
Proof. unfold Library, gpuIdentities. by rewrite !fmap_is_Some. Qed.

(** ** devices.go *)

Definition DevicesInterval : Duration := 5 * Minute.

(** What [Devices] keeps: its check, by its place among those of the reader, and the tracker
    of the fabric warnings. *)
Record Devices := mkDevices { devicesCheck : nat; fabricWarnings : Tracker string }.

Definition NewDevices (checks : list namedCheck) : list namedCheck * Devices :=
  (NewCheck "devices" DefaultTimeout checks, mkDevices (length checks) (New EmptyString WarningReNotifyInterval)).

Lemma NewDevices_check checks :
  let '(checks', d) := NewDevices checks in
  checks' !! devicesCheck d = Some (mkNamed "devices" DefaultTimeout newCheck) ∧
  ∀ k c, checks !! k = Some c → checks' !! k = Some c.
Proof.
  simpl. unfold NewCheck. split; [by rewrite list_lookup_middle|]. intros k c Hk.
  rewrite lookup_app_l; [done|by eapply lookup_lt_Some].
Qed.

(** ** escalation.go *)

(** [file] is the content of [/proc/pressure/memory] on the host, or the error of reading
    it, which like a text that does not parse is [None]. *)
Definition hostMemoryPressure (ParseFloat : string → option float) (file : result string string) : option float :=
  match file with Err _ => None | Ok data => fullAvg60 ParseFloat data end.

(** What the driver does of a call: it answers, or the call stays in the driver. *)
Inductive answer (A : Type) := Answers (a : A) | Hangs.
Arguments Answers {A} a.
Arguments Hangs {A}.

(** The probe's calls from device [i] on, [n] of them: how the run ends, if nothing else
    ends the wait, and the devices whose counter was asked for. *)
Fixpoint probe_devices (handle : nat → answer Return) (counter : nat → answer (Z * Return)) (n i : nat) : Status * list nat :=
  match n with
  | O => (Done, [])
  | S n' =>
      match handle i with
      | Hangs => (Stuck, [])
      | Answers ret =>
          if decide (ret = SUCCESS) then
            match counter i with
            | Hangs => (Stuck, [i])
            | Answers _ => let '(s, asked) := probe_devices handle counter n' (S i) in (s, i :: asked)
            end
          else probe_devices handle counter n' (S i)
      end
  end.

Definition probeDriver (count : answer (nat * Return)) (handle : nat → answer Return)
    (counter : nat → answer (Z * Return)) : Status * list nat :=
  match count with
  | Hangs => (Stuck, [])
  | Answers (n, ret) => if decide (ret = SUCCESS) then probe_devices handle counter n 0 else (Done, [])
  end.

Definition hangs {A} (a : answer A) : Prop := match a with Hangs => True | Answers _ => False end.

Lemma probe_devices_stuck handle counter n i :
  (probe_devices handle counter n i).1 = Stuck ↔
  ∃ k, (i ≤ k < i + n)%nat ∧ (hangs (handle k) ∨ handle k = Answers SUCCESS ∧ hangs (counter k)).
Proof.
  revert i. induction n as [|n IH]; intros i; simpl; [split; [done|intros (k & ? & _); lia]|].
  assert (Hrest : (∃ k, (S i ≤ k < S i + n)%nat ∧ (hangs (handle k) ∨ handle k = Answers SUCCESS ∧ hangs (counter k))) →
                  ∃ k, (i ≤ k < i + S n)%nat ∧ (hangs (handle k) ∨ handle k = Answers SUCCESS ∧ hangs (counter k))).
  { intros (k & ? & ?). exists k. split; [lia|done]. }
  assert (Hsplit : ¬ (hangs (handle i) ∨ handle i = Answers SUCCESS ∧ hangs (counter i)) →
                   (∃ k, (i ≤ k < i + S n)%nat ∧ (hangs (handle k) ∨ handle k = Answers SUCCESS ∧ hangs (counter k))) →
                   ∃ k, (S i ≤ k < S i + n)%nat ∧ (hangs (handle k) ∨ handle k = Answers SUCCESS ∧ hangs (counter k))).
  { intros Hno (k & ? & Hk). exists k. split; [|done]. destruct (decide (k = i)) as [->|]; [done|lia]. }
  destruct (handle i) as [ret|] eqn:Eh.
  - case_decide as Hs.
    + subst ret. destruct (counter i) as [v|] eqn:Ec.
      * specialize (IH (S i)). destruct (probe_devices _ _ n (S i)) as [s asked]. simpl in *. rewrite IH.
        split; [exact Hrest|]. apply Hsplit. simpl. naive_solver.
      * split; [|done]. intros _. exists i. split; [lia|]. right. by rewrite Eh, Ec.
    + rewrite IH. split; [exact Hrest|]. apply Hsplit. simpl. naive_solver.
  - split; [|done]. intros _. exists i. split; [lia|]. left. by rewrite Eh.
Qed.

(** The probe is stuck iff the count, or a device, or the counter of a device hangs: one
    wedged GPU is enough, whichever it is. *)
Lemma probe_stuck_iff n handle counter :
  (probeDriver (Answers (n, SUCCESS)) handle counter).1 = Stuck ↔
  ∃ k, (k < n)%nat ∧ (hangs (handle k) ∨ handle k = Answers SUCCESS ∧ hangs (counter k)).
Proof.
  unfold probeDriver. rewrite decide_True by done. rewrite probe_devices_stuck.
  split; intros (k & ? & ?); exists k; (split; [lia|done]).
Qed.
