(* ===== verification/Config.v ===== *)
(** * Config: what the agent is configured with ([pkg/config]: monitor.go, context.go).

    A map is a [gmap]; where the code ranges over a map, whose order Go leaves open,
    the order is an argument.  The YAML decoder is an argument too, and so is the
    syntax check of regular expressions. *)

From stdpp Require Import sorting.
From S2P Require Import Prelude GoStrings Paths.

(** ** monitor.go *)

(** A nil pointer or slice is [None]. *)
Record MonitorSettings := mkSettings {
  Enabled : option bool;
  AllowedIPTablesChains : list string;
  DCGMPowerThresholdWatts : option Z;
  ExcludedInterfaceNameRegexps : option (list string)
}.

(** [Monitors] is [None] for a nil map, and so is the config for a nil pointer. *)
Record MonitorConfig := mkMonitorConfig { Monitors : option (gmap string MonitorSettings) }.

Definition IsEnabled (ms : MonitorSettings) : bool := default true (Enabled ms).

(** The settings of a plugin, when the config has any. *)
Definition settings_of (mc : option MonitorConfig) (plugin : string) : option MonitorSettings :=
  mc ← mc; m ← Monitors mc; m !! plugin.

Definition IsMonitorEnabled (mc : option MonitorConfig) (pluginName : string) : bool :=
  match settings_of mc pluginName with None => true | Some s => IsEnabled s end.

Definition GetAllowedIPTablesChains (mc : option MonitorConfig) : list string :=
  match settings_of mc "networking" with None => [] | Some s => AllowedIPTablesChains s end.

Definition GetNvidiaDCGMPowerThresholdWatts (mc : option MonitorConfig) : option Z :=
  s ← settings_of mc "nvidia"; DCGMPowerThresholdWatts s.

Definition DefaultExcludedInterfaceNameRegexps : list string :=
  ["^gre[0-9]+$"; "^gretap[0-9]+$"; "^erspan[0-9]+$"; "^ip6gre[0-9]+$"; "^ip6gretap[0-9]+$";
   "^tunl[0-9]+$"; "^sit[0-9]+$"; "^ip6tnl[0-9]+$"; "^ib[0-9]+$"; "^ibp[0-9]+s[0-9]+(f[0-9]+)?$"].

Definition GetExcludedInterfaceNameRegexps (mc : option MonitorConfig) : list string :=
  match settings_of mc "networking" with
  | None => DefaultExcludedInterfaceNameRegexps
  | Some s => default DefaultExcludedInterfaceNameRegexps (ExcludedInterfaceNameRegexps s)
  end.

(** The errors of [Validate], by their format and arguments. *)
Inductive ConfigError :=
| UnknownPlugins (names : list string)
| PowerThresholdNotNvidia (name : string)
| PowerThresholdZero
| ChainsNotNetworking (name : string)
| ChainWhitespace (chain : string)
| ChainFormat (chain : string)
| RegexpsNotNetworking (name : string)
| RegexpBlank
| RegexpInvalid (expr err : string).

Definition slash_byte : Ascii.ascii := byte_of 47.

Section Validate.
(** [regexp.Compile]: the error of an expression it refuses. *)
Variable Compile : string → option string.

Definition check (b : bool) (e : ConfigError) : result ConfigError unit := if b then Ok tt else Err e.

Definition blank (s : string) : bool := String.eqb (TrimSpace s) EmptyString.

Definition validate_chain (chain : string) : result ConfigError unit :=
  check (String.eqb (TrimSpace chain) chain) (ChainWhitespace chain);;?
  check match Cut chain slash_byte with
        | None => false
        | Some (table, chainName) =>
            (CountByte chain slash_byte =? 1)%nat && negb (blank table) && negb (blank chainName)
        end (ChainFormat chain).

Definition validate_regexp (expr : string) : result ConfigError unit :=
  check (negb (blank expr)) RegexpBlank;;?
  match Compile expr with Some err => Err (RegexpInvalid expr err) | None => Ok tt end.

(** The first error of a list, in order. *)
Fixpoint first_error {A} (f : A → result ConfigError unit) (l : list A) : result ConfigError unit :=
  match l with
  | [] => Ok tt
  | x :: l' => f x;;? first_error f l'
  end.

(** The body of the loop over the monitors. *)
Definition validate_settings (entry : string * MonitorSettings) : result ConfigError unit :=
  let '(name, s) := entry in
  match DCGMPowerThresholdWatts s with
  | None => Ok tt
  | Some w => check (String.eqb name "nvidia") (PowerThresholdNotNvidia name);;?
              check (negb (w =? 0)) PowerThresholdZero
  end;;?
  match AllowedIPTablesChains s with
  | [] => Ok tt
  | chains => check (String.eqb name "networking") (ChainsNotNetworking name);;?
              first_error validate_chain chains
  end;;?
  match ExcludedInterfaceNameRegexps s with
  | None | Some [] => Ok tt
  | Some exprs => check (String.eqb name "networking") (RegexpsNotNetworking name);;?
                  first_error validate_regexp exprs
  end.

(** [order] is the order in which the second loop meets the monitors. *)
Definition Validate (mc : option MonitorConfig) (order : list (string * MonitorSettings))
    (knownPluginNames : list string) : result ConfigError unit :=
  match mc ≫= Monitors with
  | None => Ok tt
  | Some m =>
      let unknown := filter (λ name, name ∉ knownPluginNames) (map_to_list m).*1 in
      match unknown with
      | [] => first_error validate_settings order
      | _ => Err (UnknownPlugins (merge_sort String.le unknown))
      end
  end.

Inductive LoadError := ReadingConfig (err : string) | ParsingConfig (err : string) | InvalidConfig (e : ConfigError).

(** [os.ReadFile]: a file, a file that does not exist, or another error. *)
Inductive FileRead := FileData (data : string) | FileNotExist | FileError (err : string).

(** The config and whether the file was found. *)
Definition LoadMonitorConfig (UnmarshalStrict : string → result string MonitorConfig)
    (file : FileRead) (order : gmap string MonitorSettings → list (string * MonitorSettings))
    (knownPluginNames : list string) : result LoadError (MonitorConfig * bool) :=
  match file with
  | FileNotExist => Ok (mkMonitorConfig None, false)
  | FileError err => Err (ReadingConfig err)
  | FileData EmptyString => Ok (mkMonitorConfig None, true)
  | FileData data =>
      match UnmarshalStrict data with
      | Err err => Err (ParsingConfig err)
      | Ok cfg =>
          match Validate (Some cfg) (default [] (order <$> Monitors cfg)) knownPluginNames with
          | Err e => Err (InvalidConfig e)
          | Ok _ => Ok (cfg, true)
          end
      end
  end.

End Validate.

(** ** context.go *)

Record RuntimeContext := mkRuntimeContext {
  osDistro : string;
  acceleratedHardware : string;
  tags : list string
}.

Definition AddTags (rc : RuntimeContext) (more : list string) : RuntimeContext :=
  mkRuntimeContext (osDistro rc) (acceleratedHardware rc) (tags rc ++ more).

Definition AcceleratedHardwareNvidia : string := "nvidia".
Definition AcceleratedHardwareNeuron : string := "neuron".

(** [devices] is the content of the PCI devices file, [None] when it cannot be
    read. *)
Definition hasDeviceType (devices : option string) (deviceName : string) : bool :=
  match devices with Some d => Contains d deviceName | None => false end.

(** [strings.FieldsFunc] at commas. *)
Definition comma_fields (s : string) : list string :=
  filter (λ f, f ≠ EmptyString) (Split s (byte_of 44)).

Fixpoint trim_quotes_left (s : string) : string :=
  match s with
  | String c s' => if Ascii.eqb c dquote then trim_quotes_left s' else s
  | EmptyString => EmptyString
  end.

Fixpoint trim_quotes_right (s : string) : string :=
  match s with
  | EmptyString => EmptyString
  | String c s' =>
      match trim_quotes_right s' with
      | EmptyString => if Ascii.eqb c dquote then EmptyString else String c EmptyString
      | t => String c t
      end
  end.

(** The match of the multi-line expression for [ID=]: the rest of the first line that
    starts with it. *)
Fixpoint os_release_id (lines : list string) : option string :=
  match lines with
  | [] => None
  | l :: rest => match CutPrefix l "ID=" with Some v => Some v | None => os_release_id rest end
  end.

Definition generateRuntimeContext (env : string → option string) (devices : option string)
    (osRelease : FileRead) : result string RuntimeContext :=
  let distro := default "linux" (env "OSDistro") in
  let hardware := if hasDeviceType devices "nvidia" then AcceleratedHardwareNvidia
                  else if hasDeviceType devices "neuron" then AcceleratedHardwareNeuron
                  else "none" in
  let ts := comma_fields (default EmptyString (env "TAGS")) in
  match osRelease with
  | FileError err => Err err
  | _ =>
      let info := match osRelease with FileData d => d | _ => EmptyString end in
      let ts := match os_release_id (Split info (byte_of 10)) with
                | Some v => ts ++ [trim_quotes_right (trim_quotes_left v)]
                | None => ts
                end in
      Ok (mkRuntimeContext distro hardware ts)
  end.

Example os_release_ex :
  os_release_id (Split (string_of_codes [78; 61; 49; 10; 73; 68; 61; 34; 98; 34; 10; 88]%nat) (byte_of 10)) =
    Some (string_of_codes [34; 98; 34]%nat) ∧
  trim_quotes_right (trim_quotes_left (string_of_codes [34; 98; 34]%nat)) = "b".
Proof. split; reflexivity. Qed.

(** ** What a valid config is *)

Section Valid.
Variable Compile : string → option string.

(** An entry [table/chain] with one slash and two parts that are not blank. *)
Definition chain_ok (chain : string) : Prop :=
  TrimSpace chain = chain ∧
  ∃ table name, Cut chain slash_byte = Some (table, name) ∧ CountByte chain slash_byte = 1%nat ∧
    blank table = false ∧ blank name = false.

Definition regexp_ok (expr : string) : Prop := blank expr = false ∧ Compile expr = None.

(** Only the nvidia monitor has a power threshold, and it is not zero; only the
    networking monitor has chains and expressions, all well-formed. *)
Definition settings_ok (name : string) (s : MonitorSettings) : Prop :=
  (∀ w, DCGMPowerThresholdWatts s = Some w → name = "nvidia" ∧ w ≠ 0) ∧
  (AllowedIPTablesChains s ≠ [] → name = "networking" ∧ Forall chain_ok (AllowedIPTablesChains s)) ∧
  (∀ exprs, ExcludedInterfaceNameRegexps s = Some exprs → exprs ≠ [] →
     name = "networking" ∧ Forall regexp_ok exprs).

Lemma check_ok b e : check b e = Ok tt ↔ b = true.
Proof. by destruct b. Qed.

Lemma seq_ok (r k : result ConfigError unit) : (r;;? k) = Ok tt ↔ r = Ok tt ∧ k = Ok tt.
Proof. destruct r as [[]|]; simpl; naive_solver. Qed.

Lemma first_error_ok {A} (f : A → result ConfigError unit) P l :
  (∀ x, f x = Ok tt ↔ P x) → first_error f l = Ok tt ↔ Forall P l.
Proof.
  intros Hf. induction l as [|x l IH]; simpl; [by split|].
  by rewrite seq_ok, Hf, IH, Forall_cons.
Qed.

Lemma validate_chain_ok chain : validate_chain chain = Ok tt ↔ chain_ok chain.
Proof.
  unfold validate_chain, chain_ok. rewrite seq_ok, !check_ok, String.eqb_eq.
  apply and_iff_compat_l. destruct (Cut chain slash_byte) as [[t n]|]; [|naive_solver].
  rewrite !andb_true_iff, !negb_true_iff, Nat.eqb_eq. naive_solver.
Qed.

Lemma validate_regexp_ok expr : validate_regexp Compile expr = Ok tt ↔ regexp_ok expr.
Proof.
  unfold validate_regexp, regexp_ok. rewrite seq_ok, check_ok, negb_true_iff.
  apply and_iff_compat_l. by destruct (Compile expr).
Qed.

Lemma and_iff (A A' B B' : Prop) : (A ↔ A') → (B ↔ B') → A ∧ B ↔ A' ∧ B'.
Proof. tauto. Qed.

Lemma validate_settings_ok name s :
  validate_settings Compile (name, s) = Ok tt ↔ settings_ok name s.
Proof.
  unfold validate_settings, settings_ok. rewrite !seq_ok. apply and_iff; [|apply and_iff].
  - destruct (DCGMPowerThresholdWatts s) as [w|]; [|naive_solver].
    rewrite seq_ok, !check_ok, String.eqb_eq, negb_true_iff, Z.eqb_neq. naive_solver.
  - destruct (AllowedIPTablesChains s) as [|c cs]; [naive_solver|].
    rewrite seq_ok, check_ok, String.eqb_eq, (first_error_ok _ chain_ok _ validate_chain_ok). naive_solver.
  - destruct (ExcludedInterfaceNameRegexps s) as [[|e es]|]; [naive_solver| |naive_solver].
    rewrite seq_ok, check_ok, String.eqb_eq, (first_error_ok _ regexp_ok _ validate_regexp_ok). naive_solver.
Qed.

Lemma unknown_nil (names known : list string) :
  filter (λ name, name ∉ known) names = [] ↔ Forall (λ name, name ∈ known) names.
Proof.
  induction names as [|n ns IH]; simpl; [by split|]. rewrite Forall_cons, <- IH.
  destruct (decide (n ∈ known)) as [Hn|Hn].
  - rewrite filter_cons_False by naive_solver. naive_solver.
  - rewrite filter_cons_True by done. naive_solver.
Qed.

(** Validation accepts a config exactly when every monitor it names is known and
    the settings of each are valid, whatever the order in which Go ranges over the
    map: an order can change which error is reported, never whether one is. *)
Theorem validate_accepts_iff m order known :
  order ≡ₚ map_to_list m →
  Validate Compile (Some (mkMonitorConfig (Some m))) order known = Ok tt ↔
  ∀ name s, m !! name = Some s → name ∈ known ∧ settings_ok name s.
Proof.
  intros Ho. unfold Validate. cbn [mbind option_bind Monitors].
  assert (Hk : filter (λ name, name ∉ known) (map_to_list m).*1 = [] ↔
               ∀ name s, m !! name = Some s → name ∈ known).
  { rewrite unknown_nil, Forall_fmap, Forall_forall. split.
    - intros H name s Hs%elem_of_map_to_list. exact (H _ Hs).
    - intros H [name s] Hs%elem_of_map_to_list. exact (H _ _ Hs). }
  assert (Hs : first_error (validate_settings Compile) order = Ok tt ↔
               ∀ name s, m !! name = Some s → settings_ok name s).
  { rewrite (first_error_ok _ (λ p, settings_ok p.1 p.2)) by (intros []; apply validate_settings_ok).
    rewrite Ho, Forall_forall. split.
    - intros H name s Hs%elem_of_map_to_list. exact (H _ Hs).
    - intros H [name s] Hs%elem_of_map_to_list. exact (H _ _ Hs). }
  destruct (filter _ _) as [|n ns] eqn:Hf; [rewrite Hs; naive_solver|].
  split; [done|]. intros H. assert (n :: ns = []) by (apply Hk; naive_solver). done.
Qed.

End Valid.

Definition ex_settings : gmap string MonitorSettings :=
  {["networking" := mkSettings None ["filter/MY-CHAIN"] None (Some ["^eth1$"])]}.

Lemma validate_accepts_iff_witness :
  Validate (λ _, None) (Some (mkMonitorConfig (Some ex_settings))) (map_to_list ex_settings)
    ["kernel-monitor"; "networking"] = Ok tt ∧
  chain_ok "filter/MY-CHAIN".
Proof.
  assert (Hv : Validate (λ _, None) (Some (mkMonitorConfig (Some ex_settings))) (map_to_list ex_settings)
    ["kernel-monitor"; "networking"] = Ok tt) by (vm_compute; reflexivity).
  split; [exact Hv|].
  pose proof (proj1 (validate_accepts_iff (λ _, None) ex_settings _ _ (Permutation_refl _)) Hv
    "networking" _ (lookup_singleton_eq _ _)) as (_ & _ & H & _).
  exact (Forall_inv (proj2 (H ltac:(discriminate)))).
Defined.
