(* ===== verification/ContextLock.v ===== *)
(** * ContextLock: the runtime context shared by the goroutines of the agent
    ([pkg/config/context.go]: the variable, its lock and the methods).

    A transition system: goroutines call the methods in any order, and a method does its work
    in small steps (the header of the slice is read, cells of its array are read or written
    one at a time, the header is stored), any of which may be interleaved with those of the
    others.  [runtimeCtxLock] is held from the first to the last step of a method.

    The theorem is that the methods behave as if each ran at once, in the order in which they
    returned, on the value [RuntimeContext] of [Config]; and that a snapshot of the tags is
    the caller's own: it never changes unless the caller changes it. *)

From S2P Require Import Prelude GoStrings Config.

(** ** Arrays, slices and the state *)

Record slice := mkSlice { array : nat; len : nat }.

(** [runtimeCtx], when it is set. *)
Record shared := mkShared { sharedDistro : string; sharedHardware : string; sharedTags : slice }.

Inductive method := GetRuntimeContext | OSDistro | AcceleratedHardware | Tags | AddingTags (more : list string).

(** What a call returns: for [Tags] the contents of the slice and its array. *)
Inductive returned := Done | Text (s : string) | Snapshot (l : list string) (a : nat) | Panicked (e : string).

(** Where a goroutine is: outside, at the start of a method, copying the tags into its own
    array, writing tags into an array, or about to unlock. *)
Inductive position :=
| Outside
| Entered (m : method)
| Cloning (a k : nat)
| Writing (a k : nat) (rest : list string) (m : method)
| Leaving (m : method) (r : returned).

Record state := mkState {
  heap : list (list string);      (* the arrays, each with the cells of its capacity *)
  ctx : option shared;
  lock : option nat;
  goroutines : list position;
  snapshots : list nat;           (* the arrays that were handed out *)
  history : list (method * returned)
}.

Definition cells (h : list (list string)) (a : nat) : list string := default [] (h !! a).
Definition contents (h : list (list string)) (s : slice) : list string := take (len s) (cells h (array s)).

Definition set_cell (h : list (list string)) (a k : nat) (x : string) : list (list string) :=
  alter (λ c, <[k := x]> c) a h.

Definition at_position (s : state) (t : nat) (p : position) : state :=
  mkState (heap s) (ctx s) (lock s) (<[t := p]> (goroutines s)) (snapshots s) (history s).
Definition with_heap (s : state) (h : list (list string)) : state :=
  mkState h (ctx s) (lock s) (goroutines s) (snapshots s) (history s).
Definition with_ctx (s : state) (c : option shared) : state :=
  mkState (heap s) c (lock s) (goroutines s) (snapshots s) (history s).

(** The capacity that the runtime gives an array that [append] has to move. *)
Section Steps.
Context (grow : nat → nat → nat).

Definition not_nil (c : option shared) : bool := match c with Some _ => true | None => false end.

(** One step of goroutine [t] inside a method; [gen] is what generating the context answers,
    if the step does that. *)
Definition work (gen : result string RuntimeContext) (s : state) (t : nat) : option state :=
  p ← goroutines s !! t;
  match p with
  | Entered GetRuntimeContext =>
      match ctx s with
      | Some _ => Some (at_position s t (Leaving GetRuntimeContext Done))
      | None =>
          match gen with
          | Err e =>
              Some (at_position s t (Leaving GetRuntimeContext (Panicked ("failed to generate runtime context: " +:+ e))))
          | Ok rc =>
              let a := length (heap s) in
              Some (at_position (with_ctx (with_heap s (heap s ++ [tags rc]))
                      (Some (mkShared (osDistro rc) (acceleratedHardware rc) (mkSlice a (length (tags rc))))))
                      t (Leaving GetRuntimeContext Done))
          end
      end
  | Entered OSDistro => c ← ctx s; Some (at_position s t (Leaving OSDistro (Text (sharedDistro c))))
  | Entered AcceleratedHardware => c ← ctx s; Some (at_position s t (Leaving AcceleratedHardware (Text (sharedHardware c))))
  | Entered Tags =>
      c ← ctx s;
      let a := length (heap s) in
      Some (at_position (with_heap s (heap s ++ [replicate (len (sharedTags c)) EmptyString])) t (Cloning a 0))
  | Cloning a k =>
      c ← ctx s;
      match contents (heap s) (sharedTags c) !! k with
      | Some x => Some (at_position (with_heap s (set_cell (heap s) a k x)) t (Cloning a (S k)))
      | None => Some (at_position s t (Leaving Tags (Snapshot (cells (heap s) a) a)))
      end
  | Entered (AddingTags more) =>
      c ← ctx s;
      let h := sharedTags c in
      if (len h + length more <=? length (cells (heap s) (array h)))%nat then
        Some (at_position s t (Writing (array h) (len h) more (AddingTags more)))
      else
        let a := length (heap s) in
        let room := Nat.max (len h + length more) (grow (length (cells (heap s) (array h))) (len h + length more)) in
        Some (at_position (with_heap s (heap s ++ [contents (heap s) h ++ replicate (room - len h) EmptyString]))
                t (Writing a (len h) more (AddingTags more)))
  | Writing a k rest m =>
      match rest with
      | x :: rest' => Some (at_position (with_heap s (set_cell (heap s) a k x)) t (Writing a (S k) rest' m))
      | [] =>
          c ← ctx s;
          Some (at_position (with_ctx s (Some (mkShared (sharedDistro c) (sharedHardware c) (mkSlice a k)))) t (Leaving m Done))
      end
  | _ => None
  end.

Inductive event :=
| Enter (t : nat) (m : method)
| Work (t : nat) (gen : result string RuntimeContext)
| Leave (t : nat)
| Scribble (a k : nat) (x : string).

(** Entering takes the lock; a method other than [GetRuntimeContext] is called on the context
    that it returned.  The holder of a snapshot writes into its array when it likes. *)
Definition step (s : state) (e : event) : option state :=
  match e with
  | Enter t m =>
      match lock s, goroutines s !! t with
      | None, Some Outside =>
          if match m with GetRuntimeContext => true | _ => not_nil (ctx s) end
          then Some (mkState (heap s) (ctx s) (Some t) (<[t := Entered m]> (goroutines s)) (snapshots s) (history s))
          else None
      | _, _ => None
      end
  | Work t gen => work gen s t
  | Leave t =>
      match goroutines s !! t with
      | Some (Leaving m r) =>
          Some (mkState (heap s) (ctx s) None (<[t := Outside]> (goroutines s))
                  (match r with Snapshot _ a => [a] | _ => [] end ++ snapshots s) (history s ++ [(m, r)]))
      | _ => None
      end
  | Scribble a k x => if bool_decide (a ∈ snapshots s) then Some (with_heap s (set_cell (heap s) a k x)) else None
  end.

Definition initial (n : nat) : state := mkState [] None None (replicate n Outside) [] [].

Inductive reachable (n : nat) : state → Prop :=
| reachable_start : reachable n (initial n)
| reachable_step s e s' : reachable n s → step s e = Some s' → reachable n s'.

(** ** The methods, each at once *)

(** The context and what the call returns: [generateRuntimeContext] is run by the first call
    of [GetRuntimeContext] whose context it gives. *)
Definition runs (gen : result string RuntimeContext) (rc : option RuntimeContext) (m : method) : option RuntimeContext * returned → Prop :=
  λ o, match m, rc with
       | GetRuntimeContext, Some c => o = (Some c, Done)
       | GetRuntimeContext, None =>
           match gen with
           | Ok c => o = (Some c, Done)
           | Err e => o = (None, Panicked ("failed to generate runtime context: " +:+ e))
           end
       | OSDistro, Some c => o = (Some c, Text (osDistro c))
       | AcceleratedHardware, Some c => o = (Some c, Text (acceleratedHardware c))
       | Tags, Some c => ∃ a, o = (Some c, Snapshot (tags c) a)
       | AddingTags more, Some c => o = (Some (AddTags c more), Done)
       | _, None => False
       end.

Inductive sequential : list (method * returned) → option RuntimeContext → Prop :=
| sequential_nil : sequential [] None
| sequential_snoc gen hist rc m r rc' :
    sequential hist rc → runs gen rc m (rc', r) → sequential (hist ++ [(m, r)]) rc'.

(** ** Arrays *)

Lemma cells_old h x a : (a < length h)%nat → cells (h ++ [x]) a = cells h a.
Proof. intros H. unfold cells. by rewrite lookup_app_l. Qed.

Lemma cells_new h x : cells (h ++ [x]) (length h) = x.
Proof. unfold cells. by rewrite list_lookup_middle. Qed.

Lemma cells_other h a b k x : a ≠ b → cells (set_cell h a k x) b = cells h b.
Proof. intros H. unfold cells, set_cell. by rewrite list_lookup_alter_ne. Qed.

Lemma cells_set h a k x : (a < length h)%nat → cells (set_cell h a k x) a = <[k := x]> (cells h a).
Proof.
  intros H. unfold cells, set_cell. rewrite list_lookup_alter. rewrite decide_True by done.
  by destruct (lookup_lt_is_Some_2 h a H) as [c ->].
Qed.

Lemma length_set_cell h a k x : length (set_cell h a k x) = length h.
Proof. apply length_alter. Qed.

(** ** What holds of the state *)

(** The variable holds the value [rc]. *)
Definition holds (h : list (list string)) (c : option shared) (rc : option RuntimeContext) : Prop :=
  match c with
  | None => rc = None
  | Some sh =>
      rc = Some (mkRuntimeContext (sharedDistro sh) (sharedHardware sh) (contents h (sharedTags sh))) ∧
      (array (sharedTags sh) < length h)%nat ∧ (len (sharedTags sh) ≤ length (cells h (array (sharedTags sh))))%nat
  end.

(** The array [a] is in use, but not by the variable and not by a snapshot. *)
Definition own (s : state) (a : nat) : Prop :=
  (a < length (heap s))%nat ∧ a ∉ snapshots s ∧ ∀ sh, ctx s = Some sh → array (sharedTags sh) ≠ a.

(** What holds of the goroutine that has the lock. *)
Definition position_ok (s : state) (rc : option RuntimeContext) (p : position) : Prop :=
  match p with
  | Outside => False
  | Entered m => holds (heap s) (ctx s) rc ∧ (m = GetRuntimeContext ∨ is_Some (ctx s))
  | Cloning a k =>
      holds (heap s) (ctx s) rc ∧ own s a ∧
      ∃ c, rc = Some c ∧ length (cells (heap s) a) = length (tags c) ∧ (k ≤ length (tags c))%nat ∧
           take k (cells (heap s) a) = take k (tags c)
  | Writing a k rest m =>
      holds (heap s) (ctx s) rc ∧ (a < length (heap s))%nat ∧ a ∉ snapshots s ∧
      ∃ c written, rc = Some c ∧ m = AddingTags (written ++ rest) ∧ k = length (tags c ++ written) ∧
           take k (cells (heap s) a) = tags c ++ written ∧ (k + length rest ≤ length (cells (heap s) a))%nat
  | Leaving m r =>
      ∃ gen rc', runs gen rc m (rc', r) ∧ holds (heap s) (ctx s) rc' ∧
                 match r with Snapshot _ a => own s a | _ => True end
  end.

Record state_ok (s : state) (rc : option RuntimeContext) : Prop := {
  ok_history : sequential (history s) rc;
  ok_snapshots : Forall (λ a, (a < length (heap s))%nat ∧ ∀ sh, ctx s = Some sh → array (sharedTags sh) ≠ a) (snapshots s);
  ok_distinct : NoDup (snapshots s);
  ok_free : lock s = None → holds (heap s) (ctx s) rc;
  ok_holder : ∀ t p, goroutines s !! t = Some p → if decide (lock s = Some t) then position_ok s rc p else p = Outside;
  ok_locked : ∀ t, lock s = Some t → is_Some (goroutines s !! t)
}.

(** A step of the goroutine with the lock: what is left to show of the state after it. *)
Lemma work_ok s s1 t p0 p rc :
  state_ok s rc → goroutines s !! t = Some p0 → p0 ≠ Outside →
  snapshots s1 = snapshots s → history s1 = history s → goroutines s1 = goroutines s → lock s1 = lock s →
  (length (heap s) ≤ length (heap s1))%nat →
  (∀ a, a ∈ snapshots s → ∀ sh, ctx s1 = Some sh → array (sharedTags sh) ≠ a) →
  position_ok s1 rc p → state_ok (at_position s1 t p) rc.
Proof.
  intros [Hh Hsn Hd Hf Hg Hl] Ht Hp0 Es Eh Eg El Hlen Hc Hp.
  assert (Hlock : lock s = Some t) by (specialize (Hg t p0 Ht); by case_decide).
  constructor; simpl; rewrite ?Es, ?Eh, ?Eg, ?El; try done.
  - apply Forall_forall. intros a Ha. split; [|by apply Hc].
    pose proof (proj1 (Forall_forall _ _) Hsn a Ha) as [? _]. lia.
  - by rewrite Hlock.
  - intros t' p'. rewrite list_lookup_insert. case_decide as Hn; [|].
    + destruct Hn as [<- _]. intros [= <-]. rewrite decide_True by done. exact Hp.
    + intros Hp'. assert (t ≠ t').
      { intros ->. apply Hn. split; [done|]. by eapply lookup_lt_Some. }
      specialize (Hg t' p' Hp'). rewrite Hlock in *. rewrite decide_False in * by congruence. exact Hg.
  - intros t'. rewrite Hlock. intros [= <-]. rewrite list_lookup_insert.
    rewrite decide_True; [by eexists|]. split; [done|]. by eapply lookup_lt_Some.
Qed.

(** The variable's value survives a new array, and a write elsewhere or past its end. *)
Lemma holds_new h x c rc : holds h c rc → holds (h ++ [x]) c rc.
Proof.
  destruct c as [sh|]; [|done]. intros (-> & Ha & Hl). unfold holds, contents.
  rewrite !cells_old, length_app by done. split_and!; [done|simpl; lia|done].
Qed.

Lemma holds_set h a k x c rc :
  holds h c rc → (a < length h)%nat → (∀ sh, c = Some sh → array (sharedTags sh) = a → (len (sharedTags sh) ≤ k)%nat) →
  holds (set_cell h a k x) c rc.
Proof.
  destruct c as [sh|]; [|done]. intros (-> & Ha & Hl) Hlt Hk. unfold holds, contents. rewrite length_set_cell.
  destruct (decide (array (sharedTags sh) = a)) as [E|E].
  - rewrite E, cells_set by done. rewrite E in Hl. rewrite length_insert, take_insert_ge by (by apply (Hk sh)).
    split_and!; [done|lia|done].
  - rewrite cells_other by done. done.
Qed.

Lemma contents_length h s : (len s ≤ length (cells h (array s)))%nat → length (contents h s) = len s.
Proof. intros H. unfold contents. rewrite length_take. lia. Qed.

(** The value that a new array and header hold. *)
Lemma holds_fresh h rc :
  holds (h ++ [tags rc]) (Some (mkShared (osDistro rc) (acceleratedHardware rc) (mkSlice (length h) (length (tags rc))))) (Some rc).
Proof.
  unfold holds, contents. simpl. rewrite cells_new, take_ge, length_app by done.
  split_and!; [by destruct rc|simpl; lia|done].
Qed.

(** A new array is the goroutine's own. *)
Lemma own_new s x rc :
  state_ok s rc → holds (heap s) (ctx s) rc → own (with_heap s (heap s ++ [x])) (length (heap s)).
Proof.
  intros Hs Hh. unfold own. simpl. rewrite length_app. simpl. split_and!; [lia| |].
  - intros Hin. destruct (proj1 (Forall_forall _ _) (ok_snapshots _ _ Hs) _ Hin). lia.
  - intros sh E. rewrite E in Hh. destruct Hh as (_ & ? & _). lia.
Qed.

Lemma snapshots_apart s rc : state_ok s rc → ∀ a, a ∈ snapshots s → ∀ sh, ctx s = Some sh → array (sharedTags sh) ≠ a.
Proof. intros Hs a Ha. apply (proj1 (Forall_forall _ _) (ok_snapshots _ _ Hs) a Ha). Qed.

(** ** Each step keeps it *)

Lemma work_keeps gen s t s' rc : state_ok s rc → work gen s t = Some s' → state_ok s' rc.
Proof.
  intros Hs Hw. unfold work in Hw. destruct (goroutines s !! t) as [p|] eqn:Et; [|done]. simpl in Hw.
  assert (Hp : p ≠ Outside) by (by intros ->).
  assert (Hlock : lock s = Some t).
  { pose proof (ok_holder _ _ Hs t p Et). by case_decide. }
  pose proof (ok_holder _ _ Hs t p Et) as Hpos. rewrite decide_True in Hpos by done.
  pose proof (snapshots_apart _ _ Hs) as Hap.
  destruct p as [|m|a k|a k rest m|]; try done.
  - destruct Hpos as [Hh Hm]. destruct m as [| | | |more].
    + destruct (ctx s) as [sh|] eqn:Ec; [|destruct gen as [rc'|e]]; simplify_eq.
      * eapply work_ok; try done; [by rewrite Ec|]. exists (Err EmptyString), rc. rewrite Ec.
        split; [|done]. by destruct Hh as [-> _].
      * eapply work_ok; try done; simpl; [rewrite length_app; lia| |].
        -- intros a Ha sh [= <-]. simpl. intros <-. destruct (proj1 (Forall_forall _ _) (ok_snapshots _ _ Hs) _ Ha). lia.
        -- exists (Ok rc'), (Some rc'). simpl in Hh. rewrite Hh. split; [done|split; [apply holds_fresh|done]].
      * eapply work_ok; try done; [by rewrite Ec|]. exists (Err e), None. simpl in Hh. rewrite Hh, Ec. by split_and!.
    + destruct (ctx s) as [sh|] eqn:Ec; [|done]. simpl in Hw. simplify_eq. eapply work_ok; try done; [by rewrite Ec|].
      exists (Err EmptyString), rc. rewrite Ec. split; [|done]. by destruct Hh as [-> _].
    + destruct (ctx s) as [sh|] eqn:Ec; [|done]. simpl in Hw. simplify_eq. eapply work_ok; try done; [by rewrite Ec|].
      exists (Err EmptyString), rc. rewrite Ec. split; [|done]. by destruct Hh as [-> _].
    + destruct (ctx s) as [sh|] eqn:Ec; [|done]. simpl in Hw. simplify_eq. eapply work_ok; try done; simpl; [rewrite length_app; lia| |].
      * by rewrite Ec.
      * rewrite Ec. split; [by apply holds_new|]. split; [rewrite <-Ec in Hh; by eapply own_new|].
        destruct Hh as (-> & Ha & Hl). eexists. split; [done|]. simpl. rewrite cells_new, length_replicate, contents_length by done.
        split_and!; [done|lia|done].
    + destruct (ctx s) as [sh|] eqn:Ec; [|done]. simpl in Hw. case_match eqn:Eb; simplify_eq.
      * apply Nat.leb_le in Eb. eapply work_ok; try done; [by rewrite Ec|]. simpl. rewrite Ec.
        split; [done|]. destruct Hh as (-> & Ha & Hl). split; [done|]. split; [intros Hin; by apply (Hap _ Hin sh)|].
        exists (mkRuntimeContext (sharedDistro sh) (sharedHardware sh) (contents (heap s) (sharedTags sh))), []. rewrite app_nil_r. simpl. rewrite contents_length by done. split_and!; try done; lia.
      * apply Nat.leb_gt in Eb. eapply work_ok; try done; simpl; [rewrite length_app; lia|by rewrite Ec|].
        rewrite Ec. pose proof Hh as Hh'. rewrite <-Ec in Hh'. destruct (own_new s (contents (heap s) (sharedTags sh) ++ replicate (Nat.max (len (sharedTags sh) + length more) (grow (length (cells (heap s) (array (sharedTags sh)))) (len (sharedTags sh) + length more)) - len (sharedTags sh)) EmptyString) rc Hs Hh') as (Ho & Hn & _). split; [by apply holds_new|].
        split; [exact Ho|]. split; [exact Hn|]. destruct Hh as (-> & Ha & Hl).
        exists (mkRuntimeContext (sharedDistro sh) (sharedHardware sh) (contents (heap s) (sharedTags sh))), []. rewrite app_nil_r, cells_new. simpl. rewrite length_app, length_replicate, contents_length by done.
        split_and!; [done..| |lia]. rewrite take_app_le by (rewrite contents_length; done). by rewrite take_ge by (rewrite contents_length; done).
  - destruct Hpos as (Hh & (Hlt & Hno & Hne) & c & -> & Hlen & Hk & Htake). destruct (ctx s) as [sh|] eqn:Ec; [|done].
    pose proof Hh as (Hc & Ha & Hl). simpl in Hw. apply (inj Some) in Hc. subst c.
    simpl in Hlen, Hk, Htake. rewrite contents_length in Hk, Hlen by done.
    destruct (contents _ _ !! k) as [x|] eqn:Ex; simplify_eq.
    + eapply work_ok; try done; simpl; [by rewrite length_set_cell|by rewrite Ec|]. rewrite Ec.
      split; [apply holds_set; [done..|]; intros sh' [= <-] E; by destruct (Hne sh eq_refl)|].
      split; [by unfold own; simpl; rewrite length_set_cell, Ec|].
      eexists. split; [done|]. simpl. rewrite cells_set, length_insert, contents_length by done.
      assert (k < length (contents (heap s) (sharedTags sh)))%nat by (by eapply lookup_lt_Some).
      rewrite contents_length in * by done. split_and!; [done|lia|].
      erewrite !take_S_r; [|exact Ex|by rewrite list_lookup_insert, decide_True by (split; [done|lia])].
      by rewrite take_insert_ge, Htake by lia.
    + eapply work_ok; try done; simpl; [by rewrite Ec|]. apply lookup_ge_None in Ex. rewrite contents_length in Ex by done.
      eexists (Err EmptyString), _. rewrite Ec. split; [|split; [exact Hh|by unfold own; rewrite Ec]].
      exists a. rewrite <-(take_ge (cells (heap s) a) k), Htake, take_ge by (rewrite ?contents_length; lia). done.
  - destruct Hpos as (Hh & Hlt & Hno & c & written & -> & -> & -> & Htake & Hroom).
    destruct (ctx s) as [sh|] eqn:Ec; [|done]. pose proof Hh as (Hc & Ha & Hl). simpl in Hw. apply (inj Some) in Hc. subst c.
    simpl in Hroom, Htake. destruct rest as [|x rest]; simplify_eq.
    + eapply work_ok; try done; simpl; [by intros b Hb sh' [= <-] <-|].
      eexists (Err EmptyString), _. split; [done|split; [|done]]. unfold holds, AddTags. unfold contents in *. simpl.
      rewrite app_nil_r, Htake. split_and!; [done|done|simpl in *; lia].
    + eapply work_ok; try done; simpl; [by rewrite length_set_cell|by rewrite Ec|]. rewrite Ec.
      rewrite length_app in *. simpl in Hroom. rewrite length_set_cell.
      split; [apply holds_set; [done..|]; intros sh' [= <-] _; rewrite contents_length by done; lia|].
      split; [done|]. split; [done|]. eexists _, (written ++ [x]). split; [done|]. simpl.
      rewrite cells_set, length_insert, !length_app, <-(assoc_L app) by done. simpl. split_and!; [done|lia| |lia].
      erewrite take_S_r by (rewrite list_lookup_insert, decide_True; [done|split; [done|lia]]).
      by rewrite take_insert_ge, Htake, (assoc_L app) by lia.
Qed.

(** The goroutines after goroutine [t] moved, when it alone may be inside. *)
Lemma moved_ok (l : option nat) (gs : list position) t p0 p :
  (∀ t' p', gs !! t' = Some p' → t' ≠ t → p' = Outside) → gs !! t = Some p0 →
  ∀ t' p', <[t := p]> gs !! t' = Some p' → if decide (t' = t) then p' = p else p' = Outside.
Proof.
  intros Hg Ht t' p'. rewrite list_lookup_insert. case_decide as Hn.
  - destruct Hn as [<- _]. intros [= <-]. by rewrite decide_True.
  - intros Hp'. case_decide as E; [|by eapply Hg]. subst. destruct Hn. split; [done|]. by eapply lookup_lt_Some.
Qed.

Lemma enter_keeps s t m s' rc : state_ok s rc → step s (Enter t m) = Some s' → state_ok s' rc.
Proof.
  intros Hs. simpl. destruct (lock s) eqn:El; [done|]. destruct (goroutines s !! t) as [[]|] eqn:Et; try done.
  intros E. pose proof Hs as [Hh Hsn Hd Hf Hg _]. specialize (Hf El).
  case_match eqn:Em; simplify_eq. constructor; simpl; try done.
  - intros t' p' Hp'. pose proof (moved_ok None (goroutines s) t Outside (Entered m)) as H.
    specialize (H ltac:(intros t1 p1 H1 _; specialize (Hg t1 p1 H1); case_decide; [congruence|done]) Et t' p' Hp').
    destruct (decide (t' = t)) as [->|Hn].
    + rewrite decide_True by done. subst p'. split; [done|].
      destruct m; [by left|right..]; by destruct (ctx s).
    + rewrite decide_False by congruence. exact H.
  - intros t' [= <-]. rewrite list_lookup_insert, decide_True; [by eexists|]. split; [done|]. by eapply lookup_lt_Some.
Qed.

Lemma leave_keeps s t s' rc : state_ok s rc → step s (Leave t) = Some s' → ∃ rc', state_ok s' rc'.
Proof.
  intros Hs. simpl. destruct (goroutines s !! t) as [[]|] eqn:Et; try done. intros E. simplify_eq.
  pose proof Hs as [Hh Hsn Hd Hf Hg Hl]. pose proof (Hg t _ Et) as Hp.
  case_decide as El; [|done]. destruct Hp as (gen & rc' & Hr & Hold & Ho). exists rc'. constructor; simpl.
  - by econstructor.
  - apply Forall_app. split; [|done]. destruct r; constructor; [|done]. destruct Ho as (? & _ & ?). done.
  - destruct r; try done. apply NoDup_cons. split; [by destruct Ho as (_ & ? & _)|done].
  - done.
  - intros t' p' Hp'.
    pose proof (moved_ok None (goroutines s) t (Leaving m r) Outside) as H.
    specialize (H ltac:(intros t1 p1 H1 Hn; specialize (Hg t1 p1 H1); case_decide; [congruence|done]) Et t' p' Hp').
    by case_decide.
  - done.
Qed.

Lemma scribble_keeps s a k x s' rc : state_ok s rc → step s (Scribble a k x) = Some s' → state_ok s' rc.
Proof.
  intros Hs. simpl. case_bool_decide as Ha; [|done]. intros E. simplify_eq.
  pose proof Hs as [Hh Hsn Hd Hf Hg Hl]. pose proof (proj1 (Forall_forall _ _) Hsn a Ha) as [Hlt Hne].
  assert (Hhold : ∀ c rc0, (∀ sh, c = Some sh → ctx s = Some sh) → holds (heap s) c rc0 → holds (set_cell (heap s) a k x) c rc0).
  { intros c rc0 Hc H. apply holds_set; [done..|]. intros sh E1 E2. by destruct (Hne sh (Hc sh E1)). }
  assert (Hother : ∀ b, b ∉ snapshots s → cells (set_cell (heap s) a k x) b = cells (heap s) b).
  { intros b Hb. apply cells_other. by intros ->. }
  constructor; simpl; try done.
  - eapply Forall_impl; [exact Hsn|]. intros b. by rewrite length_set_cell.
  - intros El. apply Hhold; [done|by apply Hf].
  - intros t p Ht. specialize (Hg t p Ht). case_decide; [|done].
    destruct p as [|m|b j|b j rest m|m r]; unfold position_ok, own in *; simpl; rewrite ?length_set_cell; try done.
    + destruct Hg as [? ?]. split; [by apply Hhold|done].
    + destruct Hg as (? & (? & Hb & ?) & ?). rewrite Hother by done. split; [by apply Hhold|done].
    + destruct Hg as (? & ? & Hb & ?). rewrite Hother by done. split; [by apply Hhold|done].
    + destruct Hg as (gen & rc' & ? & ? & ?). exists gen, rc'. split_and!; [done|by apply Hhold|done].
Qed.

Lemma step_keeps s e s' rc : state_ok s rc → step s e = Some s' → ∃ rc', state_ok s' rc'.
Proof.
  destruct e as [t m|t gen|t|a k x]; intros Hs E.
  - exists rc. by eapply enter_keeps.
  - exists rc. by eapply work_keeps.
  - by eapply leave_keeps.
  - exists rc. by eapply scribble_keeps.
Qed.

Lemma reachable_ok n s : reachable n s → ∃ rc, state_ok s rc.
Proof.
  induction 1 as [|s e s' _ [rc IH] E]; [|by eapply step_keeps].
  exists None. constructor; simpl; try done; [constructor..|].
  intros t p Hp. by apply lookup_replicate in Hp as [-> _].
Qed.

(** A step other than the caller's own writes leaves a snapshot alone. *)
Lemma snapshot_kept s rc e s' a :
  state_ok s rc → step s e = Some s' → a ∈ snapshots s → (∀ k x, e ≠ Scribble a k x) →
  a ∈ snapshots s' ∧ cells (heap s') a = cells (heap s) a.
Proof.
  intros Hs E Ha He. pose proof (proj1 (Forall_forall _ _) (ok_snapshots _ _ Hs) a Ha) as [Hlt _].
  destruct e as [t m|t gen|t|b k x]; simpl in E.
  - repeat case_match; by simplify_eq.
  - unfold work in E. destruct (goroutines s !! t) as [p|] eqn:Et; [|done]. simpl in E.
    pose proof (ok_holder _ _ Hs t p Et) as Hp.
    assert (Hout : ∀ b, own s b ∨ b ∉ snapshots s → a ≠ b) by (intros b Hb ->; by destruct Hb as [(_ & ? & _)|?]).
    case_decide; [|by subst p].
    destruct p as [|[]|b k|b k [|x rest] m|m r]; try done; simpl in E; try (destruct (ctx s) as [sh|]; [|done]; simpl in E);
      repeat (case_match; simpl in E; try done); simplify_eq; simpl; (split; [exact Ha|]);
      rewrite ?cells_old by done; try done; apply cells_other; intros ->.
    + by apply (Hout a); [left; apply Hp|].
    + by apply (Hout a); [right; apply Hp|].
  - destruct (goroutines s !! t) as [[]|]; try done. simplify_eq. simpl. split; [apply elem_of_app; by right|done].
  - case_bool_decide; [|done]. simplify_eq. simpl. split; [done|]. apply cells_other. intros ->. by apply (He k x).
Qed.

(** The goroutine with the lock can go on. *)
Lemma holder_goes_on s rc t :
  state_ok s rc → lock s = Some t → ∃ e s', (e = Leave t ∨ ∃ gen, e = Work t gen) ∧ step s e = Some s'.
Proof.
  intros Hs El. destruct (ok_locked _ _ Hs t El) as [p Et]. pose proof (ok_holder _ _ Hs t p Et) as Hp.
  rewrite decide_True in Hp by done.
  assert (Hw : is_Some (work (Err EmptyString) s t) → ∃ e s', (e = Leave t ∨ ∃ gen, e = Work t gen) ∧ step s e = Some s').
  { intros [s' E]. exists (Work t (Err EmptyString)), s'. split; [right; by eexists|done]. }
  assert (Hc : ∀ c, holds (heap s) (ctx s) (Some c) → is_Some (ctx s)) by (intros c H; by destruct (ctx s)).
  destruct p as [|m|a k|a k rest m|m r]; [done|..].
  - destruct Hp as [Hh Hm]. apply Hw. unfold work. rewrite Et. simpl.
    destruct m; [by destruct (ctx s)|..]; (destruct Hm as [|[sh ->]]; [done|]); simpl; try by eexists.
    case_match; by eexists.
  - destruct Hp as (Hh & _ & c & -> & _). apply Hw. unfold work. rewrite Et. simpl.
    destruct (Hc c Hh) as [sh ->]. simpl. case_match; by eexists.
  - destruct Hp as (Hh & _ & _ & c & w & -> & _). apply Hw. unfold work. rewrite Et. simpl.
    destruct (Hc c Hh) as [sh ->]. destruct rest; by eexists.
  - eexists (Leave t), _. split; [by left|]. simpl. by rewrite Et.
Qed.

End Steps.

(** C8. However the goroutines interleave, the methods of the runtime context behave as if
    each ran at once in the order in which they returned: the context is generated for the
    first caller and then only extended, no tag that was added is lost and every call sees
    all that earlier calls added.  A snapshot of the tags has an array of its own, which only
    its holder writes, and whoever has the lock can always go on. *)
Theorem context_linearizable grow n s :
  reachable grow n s →
  ∃ rc, sequential (history s) rc ∧ (lock s = None → holds (heap s) (ctx s) rc) ∧ NoDup (snapshots s) ∧
  (∀ e s' a, step grow s e = Some s' → a ∈ snapshots s → (∀ k x, e ≠ Scribble a k x) →
             a ∈ snapshots s' ∧ cells (heap s') a = cells (heap s) a) ∧
  (∀ t, lock s = Some t → ∃ e s', (e = Leave t ∨ ∃ gen, e = Work t gen) ∧ step grow s e = Some s').
Proof.
  intros H. destruct (reachable_ok grow n s H) as [rc Hs]. exists rc.
  split_and!; [apply (ok_history _ _ Hs)|apply (ok_free _ _ Hs)|apply (ok_distinct _ _ Hs)| |].
  - intros e s' a. by eapply snapshot_kept.
  - intros t. by eapply holder_goes_on.
Qed.

(** ** An instance *)

Fixpoint steps (grow : nat → nat → nat) (s : state) (es : list event) : option state :=
  match es with [] => Some s | e :: es' => s' ← step grow s e; steps grow s' es' end.

Lemma steps_reachable grow n es s s' : reachable grow n s → steps grow s es = Some s' → reachable grow n s'.
Proof.
  revert s. induction es as [|e es IH]; simpl; intros s Hs E; [by simplify_eq|].
  destruct (step grow s e) as [s1|] eqn:E1; [|done]. eapply IH; [by eapply reachable_step|done].
Qed.

(** The first call generates; a second goroutine takes a snapshot between two additions and
    writes into it while the first goroutine goes on. *)
Definition ex_events : list event :=
  let w t := Work t (Ok (mkRuntimeContext "linux" "none" ["al2023"])) in
  [Enter 0 GetRuntimeContext; w 0; Leave 0; Enter 0 (AddingTags ["hybrid"]); w 0; w 0; w 0; Leave 0;
   Enter 1 Tags; w 1; w 1; w 1; w 1; Leave 1;
   Enter 0 (AddingTags ["x"]); Scribble 2 1 "mine"; w 0; w 0; w 0; Leave 0; Enter 1 Tags; w 1; w 1; w 1; w 1; w 1; Leave 1]%nat.

Lemma context_linearizable_witness :
  ∃ s rc, steps (λ c n, c + c + n)%nat (initial 2) ex_events = Some s ∧ sequential (history s) rc ∧ NoDup (snapshots s) ∧
    snd <$> history s = [Done; Done; Snapshot ["al2023"; "hybrid"] 2; Done; Snapshot ["al2023"; "hybrid"; "x"] 3]%nat ∧
    cells (heap s) 2 = ["al2023"; "mine"].
Proof.
  destruct (steps (λ c n, c + c + n)%nat (initial 2) ex_events) as [s|] eqn:E; [|vm_compute in E; discriminate].
  destruct (context_linearizable (λ c n, c + c + n)%nat 2 s (steps_reachable _ _ _ _ _ (reachable_start _ _) E)) as (rc & H1 & _ & H2 & _).
  exists s, rc. split_and!; [done|exact H1|exact H2|..]; vm_compute in E; injection E as <-; reflexivity.
Defined.
