(* ===== verification/NodeDiag.v ===== *)
(** * NodeDiag: the NodeDiagnostic controller ([pkg/controllers/nodediagnostic.go]) and the
    capture statuses of its resource ([api/v1alpha1]).

    A handler of the controller works on the resource it was given and publishes its
    status with patches; a [world] is what it meets: the results of the patches in
    the order they are made, of the collection, the file system and the upload, and
    the clock.  A packet capture blocks in the middle of its handler while informer
    events arrive, so its handler is modelled in parts between which they may, with the
    event handlers as operations of their own on the shared controller. *)

From S2P Require Import Prelude GoStrings Paths.

(** ** api/v1alpha1 *)

Abbreviation CaptureType := string.
Definition CaptureTypeLog : CaptureType := "Log".
Definition CaptureTypePacket : CaptureType := "Packet".

Record CaptureStateRunning := mkRunning { runStartedAt : Time; runCaptureID : string }.

Record CaptureStateCompleted := mkCompleted {
  Reason : string;
  Message : string;
  StartedAt : Time;
  FinishedAt : Time;
  CaptureID : string;
  ObservedGeneration : Z
}.

Record CaptureState := mkState {
  Running : option CaptureStateRunning;
  Completed : option CaptureStateCompleted
}.

Record CaptureStatus := mkStatus { Type_ : CaptureType; State : CaptureState }.

Definition CaptureStateFailure : string := "Failure".
Definition CaptureStateSuccess : string := "Success".
Definition CaptureStateSuccessWithErrors : string := "SuccessWithErrors".

Fixpoint GetCaptureStatus (statuses : list CaptureStatus) (t : CaptureType) : option CaptureStatus :=
  match statuses with
  | [] => None
  | s :: rest => if String.eqb (Type_ s) t then Some s else GetCaptureStatus rest t
  end.

Fixpoint SetCaptureStatus (statuses : list CaptureStatus) (new : CaptureStatus) : list CaptureStatus :=
  match statuses with
  | [] => [new]
  | s :: rest =>
      if String.eqb (Type_ s) (Type_ new) then mkStatus (Type_ s) (State new) :: rest
      else s :: SetCaptureStatus rest new
  end.

Record LogCapture := mkLogCapture { UploadDestination : string; Categories : list string }.

Record PacketCapture := mkPacketCapture {
  Interface : string;
  PcDuration : string;
  Filter : string;
  ChunkSizeMB : Z;
  UploadURL : string;
  UploadFields : list (string * string)
}.

Record NodeDiagnostic := mkNodeDiagnostic {
  Name : string;
  Generation : Z;
  LogSpec : option LogCapture;
  PacketSpec : option PacketCapture;
  CaptureStatuses : list CaptureStatus
}.

Definition with_statuses (nd : NodeDiagnostic) (l : list CaptureStatus) : NodeDiagnostic :=
  mkNodeDiagnostic (Name nd) (Generation nd) (LogSpec nd) (PacketSpec nd) l.

(** ** The world of a handler *)

Record world := mkWorld {
  wPatch : nat → option string;          (* the error of the n-th patch *)
  wNow : nat → Time;                     (* the n-th reading of the clock *)
  wHostRoot : string;
  wCollect : result string (string * Z); (* [collectLogsBounded]: an archive and the issue count *)
  wMkdir : option string;                (* errors of the file system *)
  wCreate : option string;
  wCopy : option string;
  wUpload : option string;               (* error of the upload request *)
  wParseDuration : string → option Duration; (* [time.ParseDuration] *)
  wCaptureID : string                    (* [uuid.New] *)
}.

(** The resource as the handler has it, and the statuses published so far. *)
Record run := mkRun { nd : NodeDiagnostic; published : list (list CaptureStatus); patches : nat }.

(** Sets a status on the resource and patches it: the error, if any. *)
Definition publish (w : world) (st : CaptureStatus) (r : run) : option string * run :=
  let nd' := with_statuses (nd r) (SetCaptureStatus (CaptureStatuses (nd r)) st) in
  match wPatch w (patches r) with
  | Some err => (Some err, mkRun nd' (published r) (S (patches r)))
  | None => (None, mkRun nd' (published r ++ [CaptureStatuses nd']) (S (patches r)))
  end.

Definition running_status (t : CaptureType) (at_ : Time) (captureID : string) : CaptureStatus :=
  mkStatus t (mkState (Some (mkRunning at_ captureID)) None).

Definition completed_status (t : CaptureType) (c : CaptureStateCompleted) : CaptureStatus :=
  mkStatus t (mkState None (Some c)).

(** ** handleLogCapture *)

Definition log_path (w : world) (nodeName : string) : string :=
  PathJoin [PathJoin [wHostRoot w; "var/log/support"]; nodeName +:+ "-logs.tar.gz"].

(** The status that a capture ends with, and with or without issues. *)
Definition complete_log (w : world) (reason msg : string) (r : run) : option string * run :=
  publish w (completed_status CaptureTypeLog (mkCompleted reason msg (wNow w 0) (wNow w 1) EmptyString 0)) r.

Definition finish_log (w : world) (issueCount : Z) (ok withErrors : string) (r : run) : option string * run :=
  if 0 <? issueCount then complete_log w CaptureStateSuccessWithErrors withErrors r
  else complete_log w CaptureStateSuccess ok r.

(** The archive saved on the node, and the archive uploaded. *)
Definition save_logs (w : world) (nodeName : string) (issueCount : Z) (r : run) : option string * run :=
  match wMkdir w, wCreate w, wCopy w with
  | Some _, _, _ => complete_log w CaptureStateFailure "failed to create support directory" r
  | None, Some _, _ => complete_log w CaptureStateFailure "failed to create log file" r
  | None, None, Some _ => complete_log w CaptureStateFailure "failed to write logs to file" r
  | None, None, None =>
      let destPath := log_path w nodeName in
      finish_log w issueCount (Sprintf "successfully saved logs to %s" [AStr destPath])
        (Sprintf "successfully saved logs to %s with some errors" [AStr destPath]) r
  end.

Definition upload_logs (w : world) (issueCount : Z) (r : run) : option string * run :=
  match wUpload w with
  | Some err => complete_log w CaptureStateFailure ("fatal error during log upload process" +:+ err) r
  | None => finish_log w issueCount "successfully uploaded logs with no errors"
              "successfully uploaded logs with some errors" r
  end.

Definition handleLogCapture (w : world) (nodeName : string) (r : run) : option string * run :=
  match LogSpec (nd r) with
  | None => (None, r)
  | Some spec =>
      let '(err, r) := publish w (running_status CaptureTypeLog (wNow w 0) EmptyString) r in
      match err with
      | Some err => (Some err, r)
      | None =>
          match wCollect w with
          | Err err =>
              complete_log w CaptureStateFailure
                (Sprintf "fatal error during log collection process: %s" [AStr err]) r
          | Ok (_, issueCount) =>
              if String.eqb (UploadDestination spec) "node" then save_logs w nodeName issueCount r
              else upload_logs w issueCount r
          end
      end
  end.

(** ** The controller and its packet captures *)

Definition MaxCaptureDuration : Duration := 1 * Hour.

(** [packetCancelFunc] is the number of the capture whose context it cancels;
    [canceled] the captures whose context has been cancelled. *)
Record controller := mkController {
  nodeName : string;
  packetCancelFunc : option nat;
  canceled : list nat;
  captures : nat
}.

Definition set_cancel (c : controller) (f : option nat) : controller :=
  mkController (nodeName c) f (canceled c) (captures c).

Definition cancel (c : controller) (k : nat) : controller :=
  mkController (nodeName c) (packetCancelFunc c) (k :: canceled c) (captures c).

(** A capture in progress: its number, its ID, its start and the note on the capture
    it replaces. *)
Record capture := mkCapture { number : nat; capID : string; startTime : Time; cancelNote : string }.

(** [handlePacketCapture] up to the running status: either it has returned, or a capture is
    about to start. *)
Definition packet_begin (w : world) (c : controller) (r : run)
    : (option string + capture) * controller * run :=
  match PacketSpec (nd r) with
  | None => (inl None, c, r)
  | Some spec =>
      let existing := GetCaptureStatus (CaptureStatuses (nd r)) CaptureTypePacket in
      let completed := existing ≫= λ s, Completed (State s) in
      let running := existing ≫= λ s, Running (State s) in
      if match completed with Some d => ObservedGeneration d =? Generation (nd r) | None => false end
      then (inl None, c, r)
      else
        let cancelledID := match running with Some x => runCaptureID x | None => EmptyString end in
        let c := match packetCancelFunc c with Some k => set_cancel (cancel c k) None | None => c end in
        let duration := wParseDuration w (PcDuration spec) in
        if match duration with Some d => MaxCaptureDuration <? d | None => true end then
          let msg := Sprintf "invalid or excessive duration %s (max %s). Delete this resource with: kubectl delete nodediagnostic %s"
                       [AStr (Quote (PcDuration spec));
                        AStr (DurationString MaxCaptureDuration); AStr (Name (nd r))] in
          let '(err, r) := publish w (completed_status CaptureTypePacket
            (mkCompleted CaptureStateFailure msg (wNow w 2) (wNow w 3) EmptyString (Generation (nd r)))) r in
          (inl err, c, r)
        else
          let id := wCaptureID w in
          let '(err, r) := publish w (running_status CaptureTypePacket (wNow w 2) id) r in
          match err with
          | Some err => (inl (Some err), c, r)
          | None =>
              let note := if String.eqb cancelledID EmptyString then EmptyString
                          else Sprintf " Previous capture %s was cancelled." [AStr cancelledID] in
              (inr (mkCapture (captures c) id (wNow w 2) note), c, r)
          end
  end.

(** The context of the capture, and the store of the function that cancels it. *)
Definition packet_start (c : controller) : controller :=
  mkController (nodeName c) (Some (captures c)) (canceled c) (S (captures c)).

(** What follows [captureFunc], from the store that clears the function: [res] are the upload errors, or the fatal error,
    of [captureFunc]. *)
Definition packet_end (w : world) (cap : capture) (res : result string (list string))
    (c : controller) (r : run) : option string * controller * run :=
  let c := set_cancel c None in
  if decide (number cap ∈ canceled c) then (None, c, r)
  else
    let complete (reason msg : string) :=
      let '(err, r) := publish w (completed_status CaptureTypePacket
        (mkCompleted reason (msg +:+ cancelNote cap) (startTime cap) (wNow w 3) (capID cap)
           (Generation (nd r)))) r in
      (err, c, r) in
    match res with
    | Err _ => complete CaptureStateFailure "packet capture failed."
    | Ok [] => complete CaptureStateSuccess "packet capture completed successfully."
    | Ok errs => complete CaptureStateFailure
                   (Sprintf "packet capture completed but %d file uploads failed." [AInt "int" (Z.of_nat (length errs))])
    end.

(** ** Event handlers, outside the queue of the controller *)

Definition cancel_active (c : controller) : controller :=
  match packetCancelFunc c with Some k => cancel c k | None => c end.

Definition handleSpecChange (old new : NodeDiagnostic) (c : controller) : controller :=
  if negb (String.eqb (Name new) (nodeName c)) then c
  else if Generation old =? Generation new then c
  else cancel_active c.

Definition handleDelete (obj : NodeDiagnostic) (c : controller) : controller :=
  if negb (String.eqb (Name obj) (nodeName c)) then c else cancel_active c.

Inductive event := SpecChange (old new : NodeDiagnostic) | Delete (obj : NodeDiagnostic).

Definition handle (e : event) (c : controller) : controller :=
  match e with
  | SpecChange old new => handleSpecChange old new c
  | Delete obj => handleDelete obj c
  end.

(** What the API server tells the controller of a resource; and [Register]: which of it is
    queued for [Reconcile], and which handler of the informer it runs meanwhile. *)
Inductive watchEvent := Created (obj : NodeDiagnostic) | Updated (old new : NodeDiagnostic) | Deleted (obj : NodeDiagnostic) | Resync (obj : NodeDiagnostic).

Definition event_filter (nodeName : string) (e : watchEvent) : bool :=
  match e with
  | Created obj | Resync obj => String.eqb (Name obj) nodeName
  | Updated old new => String.eqb (Name new) nodeName && negb (Generation new =? Generation old)
  | Deleted _ => false
  end.

Definition informer_event (e : watchEvent) : option event :=
  match e with
  | Updated old new => Some (SpecChange old new)
  | Deleted obj => Some (Delete obj)
  | _ => None
  end.

Definition handle_all (es : list event) (c : controller) : controller := foldl (λ c e, handle e c) c es.

(** The events that arrive during a [handlePacketCapture]: between the running status and the
    store of the cancel function, while [captureFunc] runs, and between its return and the
    store that clears the function. *)
Record arrivals := mkArrivals { before : list event; during : list event; after : list event }.

(** The result of [captureFunc] depends on whether its context was cancelled. *)
Definition handlePacketCapture (w : world) (es : arrivals)
    (captureFunc : bool → result string (list string)) (c : controller) (r : run)
    : option string * controller * run :=
  let '(step, c, r) := packet_begin w c r in
  match step with
  | inl err => (err, c, r)
  | inr cap =>
      let c := packet_start (handle_all (before es) c) in
      let c := handle_all (during es) c in
      let res := captureFunc (bool_decide (number cap ∈ canceled c)) in
      packet_end w cap res (handle_all (after es) c) r
  end.

(** ** captureAndUploadPackets: the form fields of the upload *)

Definition S3PresignedFilenamePlaceholder : string := "${filename}".

(** [strings.ReplaceAll] for a pattern that is not empty. *)
Fixpoint replace_from (fuel : nat) (s old new : string) : string :=
  match fuel, s with
  | O, _ => s
  | _, EmptyString => EmptyString
  | S fuel', String c s' =>
      if HasPrefix s old then new +:+ replace_from fuel' (drop_bytes (String.length old) s) old new
      else String c (replace_from fuel' s' old new)
  end.

Definition ReplaceAll (s old new : string) : string := replace_from (String.length s) s old new.

Definition upload_fields (captureID : string) (fields : list (string * string)) : list (string * string) :=
  (λ kv, if String.eqb kv.1 "key"
         then (kv.1, ReplaceAll kv.2 S3PresignedFilenamePlaceholder
                       (captureID +:+ "/" +:+ S3PresignedFilenamePlaceholder))
         else kv) <$> fields.

Example upload_fields_ex :
  upload_fields "id" [("key", "p/${filename}"); ("acl", "${filename}")] =
  [("key", "p/id/${filename}"); ("acl", "${filename}")].
Proof. reflexivity. Qed.

(** ** collectLogs: the collectors of the categories, one after the other *)

(** The report of the collectors that failed and their number. *)
Fixpoint run_collectors (collectors : list (string * option string)) : string * Z :=
  match collectors with
  | [] => (EmptyString, 0)
  | (name, res) :: rest =>
      let '(buf, failed) := run_collectors rest in
      match res with
      | None => (buf, failed)
      | Some err =>
          ("--- Errors in collector " +:+ Quote name +:+ " ---" +:+
             String (byte_of 10) EmptyString +:+ err +:+ String (byte_of 10) EmptyString +:+ buf, failed + 1)
      end
  end.

(** The result of each collector, of writing the report, and of the archive. *)
Definition collectLogs (mkdirTemp accessor : option string) (collectors : list (string * option string))
    (writeReport : option string) (archive : result string string) : result string (string * Z) :=
  match mkdirTemp, accessor with
  | Some err, _ => Err (Sprintf "failed creating temp directory due to: %s" [AStr err])
  | None, Some err => Err (Sprintf "failed to create accessor: %s" [AStr err])
  | None, None =>
      let '(buf, failed) := run_collectors collectors in
      match (if String.eqb buf EmptyString then None else writeReport), archive with
      | Some err, _ => Err (Sprintf "failed to write capture summary: %s" [AStr err])
      | None, Err err => Err (Sprintf "failed archiving logs due to: %s" [AStr err])
      | None, Ok a => Ok (a, failed)
      end
  end.

(** ** collectLogsBounded: one collection at a time *)

Definition LogCaptureTimeout : Duration := 20 * Minute.

(** The goroutine of a collection: in [collectFn], its slot released, its result
    sent. *)
Inductive collection := Collecting | Released | Published.

#[export] Instance collection_eq_dec : EqDecision collection.
Proof. solve_decision. Defined.

Record slot := mkSlot {
  captureRunning : bool;
  captureStartedAt : Time;
  collections : list collection
}.

(** How the wait ends: with the result, or because the context is done, by its own
    deadline or by its parent's error. *)
Inductive wait_end := Received (res : result string (string * Z)) | TimedOut | Stopped (err : string).

(** [time.Duration.Truncate] to seconds. *)
Definition TruncateSecond (d : Duration) : Duration := d - Z.rem d Second.

(** The claim of the slot: the refusal, or a collection started. *)
Definition claim_slot (s : slot) (now : Time) : option string * slot :=
  if captureRunning s then
    (Some (if captureStartedAt s =? 0 then
             "log collection from a previous NodeDiagnostic has not returned and is still blocked on host I/O; not starting another until it does"
           else
             Sprintf "log collection from a previous NodeDiagnostic has not returned after %s and is still blocked on host I/O; not starting another until it does"
               [AStr (DurationString (TruncateSecond (Sub now (captureStartedAt s))))]), s)
  else (None, mkSlot true now (collections s ++ [Collecting])).

Definition collectLogsBounded (timeoutOverride : Duration) (now : Time) (end_ : wait_end) (s : slot)
    : result string (string * Z) * slot :=
  let timeout := if timeoutOverride <=? 0 then LogCaptureTimeout else timeoutOverride in
  match claim_slot s now with
  | (Some err, s) => (Err err, s)
  | (None, s) =>
      (match end_ with
       | Received res => res
       | Stopped err => Err (Sprintf "log collection stopped: %s" [AStr err])
       | TimedOut => Err (Sprintf "log collection timed out after %s, a collector is blocked on host I/O"
                            [AStr (DurationString timeout)])
       end, s)
  end.

(** What the goroutine of collection [k] does next. *)
Definition collection_step (s : slot) (k : nat) : option slot :=
  match collections s !! k with
  | Some Collecting => Some (mkSlot false (captureStartedAt s) (<[k := Released]> (collections s)))
  | Some Released => Some (mkSlot (captureRunning s) (captureStartedAt s) (<[k := Published]> (collections s)))
  | _ => None
  end.

Inductive slot_reachable : slot → Prop :=
| slot_new : slot_reachable (mkSlot false 0 [])
| slot_collect s t now e : slot_reachable s → slot_reachable (collectLogsBounded t now e s).2
| slot_goroutine s k s' : slot_reachable s → collection_step s k = Some s' → slot_reachable s'.

(** The errors of the two handlers, [None] when both succeed. *)
Definition Reconcile (w : world) (es : arrivals) (captureFunc : bool → result string (list string))
    (c : controller) (r : run) : option (option string * option string) * controller * run :=
  if bool_decide (LogSpec (nd r) = None ∧ PacketSpec (nd r) = None) then (None, c, r)
  else
    let '(logErr, r) := handleLogCapture w (nodeName c) r in
    let '(packetErr, c, r) := handlePacketCapture w es captureFunc c r in
    (if bool_decide (logErr = None ∧ packetErr = None) then None else Some (logErr, packetErr), c, r).

(** ** Capture statuses *)

Lemma Get_Set_same l s : GetCaptureStatus (SetCaptureStatus l s) (Type_ s) = Some s.
Proof.
  induction l as [|x l IH]; simpl; [by rewrite String.eqb_refl; destruct s|].
  destruct (String.eqb_spec (Type_ x) (Type_ s)) as [Ht|Ht]; simpl.
  - rewrite Ht, String.eqb_refl. by destruct s.
  - by rewrite (proj2 (String.eqb_neq _ _) Ht).
Qed.

Lemma Get_Set_other l s t : t ≠ Type_ s → GetCaptureStatus (SetCaptureStatus l s) t = GetCaptureStatus l t.
Proof.
  intros Hne. induction l as [|x l IH]; simpl.
  - by rewrite (proj2 (String.eqb_neq _ _) (not_eq_sym Hne)).
  - destruct (String.eqb_spec (Type_ x) (Type_ s)) as [Ht|Ht]; simpl; [|by rewrite IH].
    by rewrite Ht, (proj2 (String.eqb_neq _ _) (not_eq_sym Hne)).
Qed.

(** The status of a type on the resource of a run. *)
Definition status_of (r : run) (t : CaptureType) : option CaptureStatus :=
  GetCaptureStatus (CaptureStatuses (nd r)) t.

Lemma publish_ok w st r :
  (∀ n, wPatch w n = None) →
  let '(err, r') := publish w st r in
  err = None ∧ status_of r' (Type_ st) = Some st ∧
  (∀ t, t ≠ Type_ st → status_of r' t = status_of r t) ∧
  published r' = published r ++ [CaptureStatuses (nd r')] ∧
  LogSpec (nd r') = LogSpec (nd r) ∧ PacketSpec (nd r') = PacketSpec (nd r) ∧
  Generation (nd r') = Generation (nd r) ∧ Name (nd r') = Name (nd r).
Proof.
  intros Hw. unfold publish, status_of. rewrite Hw. simpl. rewrite Get_Set_same.
  repeat split. intros t Ht. by apply Get_Set_other.
Qed.

(** Publishing rewritten by what [publish_ok] says of it. *)
Local Ltac published Hw :=
  match goal with |- context [publish ?w ?st ?r] =>
    let H := fresh "Hpub" in
    pose proof (publish_ok w st r Hw) as H; destruct (publish w st r) as [? ?];
    destruct H as (-> & H & ? & ? & ? & ? & ? & ?); cbn [Type_ running_status completed_status] in *
  end.

(** ** Log captures conclude *)

(** The archive reached its destination. *)
Definition delivered (w : world) (spec : LogCapture) : bool :=
  if String.eqb (UploadDestination spec) "node"
  then bool_decide (wMkdir w = None ∧ wCreate w = None ∧ wCopy w = None)
  else bool_decide (wUpload w = None).

(** The reason a capture ends with. *)
Definition log_reason (w : world) (spec : LogCapture) : string :=
  match wCollect w with
  | Err _ => CaptureStateFailure
  | Ok (_, issueCount) =>
      if negb (delivered w spec) then CaptureStateFailure
      else if 0 <? issueCount then CaptureStateSuccessWithErrors else CaptureStateSuccess
  end.

(** After the running status, every branch publishes one completed status. *)
Lemma log_capture_shape w name r spec r1 :
  LogSpec (nd r) = Some spec →
  publish w (running_status CaptureTypeLog (wNow w 0) EmptyString) r = (None, r1) →
  ∃ msg, handleLogCapture w name r =
    publish w (completed_status CaptureTypeLog
      (mkCompleted (log_reason w spec) msg (wNow w 0) (wNow w 1) EmptyString 0)) r1.
Proof.
  intros Hs Hp. unfold handleLogCapture, save_logs, upload_logs, finish_log, complete_log. rewrite Hs, Hp. unfold log_reason, delivered.
  destruct (wCollect w) as [[a n]|err]; [|eexists; reflexivity].
  destruct (String.eqb (UploadDestination spec) "node").
  - destruct (wMkdir w), (wCreate w), (wCopy w); try (eexists; reflexivity).
    destruct (0 <? n); eexists; reflexivity.
  - destruct (wUpload w); [eexists; reflexivity|]. destruct (0 <? n); eexists; reflexivity.
Qed.

(** C28. A log capture always concludes: when the API server takes its patches,
    [handleLogCapture] publishes the status twice, as running and then as completed;
    the reason is a success only if the logs were collected and delivered, with errors
    if some collector failed, and a failure in every other case; and the status of the
    packet capture is left alone. *)
Theorem log_capture_concludes w name r spec :
  LogSpec (nd r) = Some spec → (∀ n, wPatch w n = None) →
  let '(err, r') := handleLogCapture w name r in
  err = None ∧
  (∃ s1 s2 c, published r' = published r ++ [s1; s2] ∧
     GetCaptureStatus s1 CaptureTypeLog = Some (running_status CaptureTypeLog (wNow w 0) EmptyString) ∧
     GetCaptureStatus s2 CaptureTypeLog = Some (completed_status CaptureTypeLog c) ∧
     s2 = CaptureStatuses (nd r') ∧
     Reason c = log_reason w spec ∧ StartedAt c = wNow w 0) ∧
  ∀ t, t ≠ CaptureTypeLog → status_of r' t = status_of r t.
Proof.
  intros Hs Hw.
  pose proof (publish_ok w (running_status CaptureTypeLog (wNow w 0) EmptyString) r Hw) as H1.
  destruct (publish w _ r) as [e1 r1] eqn:Hp. destruct H1 as (-> & H1 & H1o & H1p & _).
  destruct (log_capture_shape w name r spec r1 Hs Hp) as [msg ->].
  pose proof (publish_ok w (completed_status CaptureTypeLog
    (mkCompleted (log_reason w spec) msg (wNow w 0) (wNow w 1) EmptyString 0)) r1 Hw) as H2.
  destruct (publish w _ r1) as [e2 r2]. destruct H2 as (-> & H2 & H2o & H2p & _).
  split; [done|]. split.
  - exists (CaptureStatuses (nd r1)), (CaptureStatuses (nd r2)). eexists.
    rewrite H2p, H1p, <- (assoc_L (++)).
    split; [reflexivity|]. split; [exact H1|]. split; [exact H2|]. by repeat split.
  - intros t Ht. by rewrite H2o, H1o.
Qed.

Definition ex_world (collect : result string (string * Z)) : world :=
  mkWorld (λ _, None) (λ n, 100 + Z.of_nat n) "/host" collect None None None None
    (λ s, if String.eqb s "5m" then Some (5 * Minute) else None) "cap-1".

Definition ex_nd (statuses : list CaptureStatus) : NodeDiagnostic :=
  mkNodeDiagnostic "node-1" 2 (Some (mkLogCapture "node" ["All"]))
    (Some (mkPacketCapture EmptyString "5m" EmptyString 10 "https://b" [])) statuses.

Lemma log_capture_concludes_witness :
  LogSpec (nd (mkRun (ex_nd []) [] 0)) = Some (mkLogCapture "node" ["All"]) ∧
  (handleLogCapture (ex_world (Ok ("tgz", 1))) "node-1" (mkRun (ex_nd []) [] 0)).1 = None ∧
  log_reason (ex_world (Ok ("tgz", 1))) (mkLogCapture "node" ["All"]) = "SuccessWithErrors".
Proof.
  split; [reflexivity|]. split; [|reflexivity].
  exact (proj1 (log_capture_concludes (ex_world (Ok ("tgz", 1))) "node-1" (mkRun (ex_nd []) [] 0)
    (mkLogCapture "node" ["All"]) eq_refl (λ _, eq_refl))).
Defined.

(** ** Packet captures *)

(** An event that concerns the node: a new generation of its resource, or its
    deletion. *)
Definition concerns (node : string) (e : event) : bool :=
  match e with
  | SpecChange old new => String.eqb (Name new) node && negb (Generation old =? Generation new)
  | Delete obj => String.eqb (Name obj) node
  end.

(** A change of the specification that cancels a running capture is queued as well, so that
    the new specification is acted on; a deletion only cancels; and a change of the status,
    which keeps the generation, does neither. *)
Lemma cancelled_then_reconciled node e ev :
  informer_event e = Some ev → concerns node ev = true → event_filter node e = match e with Deleted _ => false | _ => true end.
Proof. destruct e; intros [= <-]; simpl; [|done]. by rewrite (Z.eqb_sym (Generation new)). Qed.

Lemma status_change_ignored node old new :
  Generation old = Generation new →
  event_filter node (Updated old new) = false ∧ ∀ c, nodeName c = node → handleSpecChange old new c = c.
Proof.
  intros Hg. simpl. rewrite Hg, Z.eqb_refl, andb_false_r. split; [done|]. intros c _.
  unfold handleSpecChange. rewrite Hg, Z.eqb_refl. by destruct (String.eqb _ _).
Qed.

(** Captures are numbered from the counter up, so no context is cancelled before its
    capture starts. *)
Definition numbered (c : controller) : Prop := ∀ k, k ∈ canceled c → (k < captures c)%nat.

Lemma handle_keeps e c :
  nodeName (handle e c) = nodeName c ∧ packetCancelFunc (handle e c) = packetCancelFunc c ∧
  captures (handle e c) = captures c ∧
  canceled (handle e c) =
    (if concerns (nodeName c) e then match packetCancelFunc c with Some k => [k] | None => [] end else [])
    ++ canceled c.
Proof.
  destruct e as [old new|obj]; simpl; unfold handleSpecChange, handleDelete, cancel_active.
  - destruct (String.eqb (Name new) (nodeName c)); simpl; [|done].
    destruct (Generation old =? Generation new); simpl; [done|]. by destruct (packetCancelFunc c) eqn:Hk; simpl; rewrite ?Hk.
  - destruct (String.eqb (Name obj) (nodeName c)); simpl; [|done]. by destruct (packetCancelFunc c) eqn:Hk; simpl; rewrite ?Hk.
Qed.

Lemma handle_all_keeps es c :
  nodeName (handle_all es c) = nodeName c ∧
  packetCancelFunc (handle_all es c) = packetCancelFunc c ∧ captures (handle_all es c) = captures c ∧
  ∀ k, k ∈ canceled (handle_all es c) ↔
       k ∈ canceled c ∨ (existsb (concerns (nodeName c)) es = true ∧ packetCancelFunc c = Some k).
Proof.
  revert c. induction es as [|e es IH]; intros c; simpl; [naive_solver|].
  destruct (handle_keeps e c) as (H1 & H2 & H3 & H4).
  destruct (IH (handle e c)) as (I1 & I2 & I3 & I4). rewrite H1 in *. rewrite H2 in *. rewrite H3 in *.
  unfold handle_all in *. rewrite I1, I2, I3.
  split; [done|]. split; [done|]. split; [done|]. intros k.
  rewrite I4, H4, elem_of_app, orb_true_iff.
  destruct (concerns (nodeName c) e), (packetCancelFunc c) as [k'|];
    rewrite ?list_elem_of_singleton, ?elem_of_nil; naive_solver.
Qed.

(** The reason an uncancelled capture ends with. *)
Definition packet_reason (res : result string (list string)) : string :=
  match res with Ok [] => CaptureStateSuccess | _ => CaptureStateFailure end.

(** A capture of the current generation is due, and its duration is allowed. *)
Definition capture_due (w : world) (r : run) (spec : PacketCapture) : Prop :=
  PacketSpec (nd r) = Some spec ∧
  (∀ s d, status_of r CaptureTypePacket = Some s → Completed (State s) = Some d →
     ObservedGeneration d ≠ Generation (nd r)) ∧
  ∃ d, wParseDuration w (PcDuration spec) = Some d ∧ d ≤ MaxCaptureDuration.

Lemma capture_not_done w r spec :
  capture_due w r spec →
  match GetCaptureStatus (CaptureStatuses (nd r)) CaptureTypePacket ≫= λ s, Completed (State s) with
  | Some d => ObservedGeneration d =? Generation (nd r) | None => false end = false.
Proof.
  intros (_ & Hc & _). destruct (GetCaptureStatus _ _) as [s|] eqn:Hg; [|done]. simpl.
  destruct (Completed (State s)) as [d'|] eqn:Hd'; [|done]. apply Z.eqb_neq. by apply (Hc s d').
Qed.

(** The statuses with that of the packet capture set. *)
Definition with_packet (l : list CaptureStatus) (st : CaptureState) : list CaptureStatus :=
  SetCaptureStatus l (mkStatus CaptureTypePacket st).
Definition running_packet (w : world) (r : run) : list CaptureStatus :=
  with_packet (CaptureStatuses (nd r)) (mkState (Some (mkRunning (wNow w 2) (wCaptureID w))) None).

(** A due capture publishes that it runs, or fails with the error of the patch. *)
Lemma packet_begin_due w c r spec :
  capture_due w r spec →
  ∃ cap c1, packet_begin w c r =
    (match wPatch w (patches r) with Some e => inl (Some e) | None => inr cap end, c1,
     mkRun (with_statuses (nd r) (running_packet w r))
       (published r ++ match wPatch w (patches r) with Some _ => [] | None => [running_packet w r] end) (S (patches r))) ∧
    number cap = captures c ∧ nodeName c1 = nodeName c ∧ packetCancelFunc c1 = None ∧ captures c1 = captures c ∧
    (∀ k, k ∈ canceled c1 → k ∈ canceled c ∨ packetCancelFunc c = Some k).
Proof.
  intros Hdue. pose proof (capture_not_done w r spec Hdue) as Hdone. destruct Hdue as (Hs & _ & d & Hd & Hmax).
  unfold packet_begin. rewrite Hs, Hd, (proj2 (Z.ltb_ge _ _) Hmax), Hdone. unfold publish.
  assert (Hcan : ∀ k j, packetCancelFunc c = Some k → j ∈ k :: canceled c → j ∈ canceled c ∨ Some k = Some j)
    by (intros k j _ [->|?]%elem_of_cons; auto).
  destruct (wPatch w (patches r)) as [e|], (packetCancelFunc c) as [k|] eqn:Hk.
  - exists (mkCapture (captures c) EmptyString 0 EmptyString). eexists. rewrite app_nil_r. split; [reflexivity|].
    simpl. split_and!; try done. intros j. by apply Hcan.
  - exists (mkCapture (captures c) EmptyString 0 EmptyString). eexists. rewrite app_nil_r. split; [reflexivity|].
    split_and!; try done. by left.
  - eexists _, _. split; [reflexivity|]. simpl. split_and!; try done. intros j. by apply Hcan.
  - eexists _, _. split; [reflexivity|]. split_and!; try done. by left.
Qed.

(** The end of a capture that was not cancelled. *)
Lemma packet_end_due w cap res c r :
  number cap ∉ canceled c →
  ∃ d, Reason d = packet_reason res ∧ ObservedGeneration d = Generation (nd r) ∧
    let done := with_packet (CaptureStatuses (nd r)) (mkState None (Some d)) in
    packet_end w cap res c r =
      (wPatch w (patches r), set_cancel c None,
       mkRun (with_statuses (nd r) done)
         (published r ++ match wPatch w (patches r) with Some _ => [] | None => [done] end) (S (patches r))).
Proof.
  intros Hn. unfold packet_end. cbn [canceled set_cancel]. rewrite decide_False by done. unfold publish.
  destruct res as [[|e es]|err]; destruct (wPatch w (patches r)) as [er|];
    eexists (mkCompleted _ _ _ _ _ _); rewrite ?app_nil_r; split_and!; try reflexivity; done.
Qed.

(** A capture already completed for the generation is not repeated. *)
Lemma packet_begin_done w c r l d :
  CaptureStatuses (nd r) = with_packet l (mkState None (Some d)) →
  ObservedGeneration d = Generation (nd r) →
  packet_begin w c r = (inl None, c, r).
Proof.
  unfold packet_begin. intros Hl Hg. destruct (PacketSpec (nd r)); [|done].
  unfold with_packet in Hl. pose proof (Get_Set_same l (mkStatus CaptureTypePacket (mkState None (Some d)))) as Hget.
  rewrite <-Hl in Hget. cbn [Type_] in Hget. rewrite Hget.
  cbn [mbind option_bind State Completed]. by rewrite Hg, Z.eqb_refl.
Qed.

(** A resource that says that its capture runs is due. *)
Lemma running_due w r r' spec :
  capture_due w r spec → nd r' = with_statuses (nd r) (running_packet w r) → capture_due w r' spec.
Proof.
  intros (Hs & _ & Hd) Hr. unfold capture_due, status_of. rewrite Hr. simpl. split; [done|]. split; [|done].
  intros s d. unfold running_packet, with_packet.
  rewrite (Get_Set_same _ (mkStatus CaptureTypePacket _)). by intros [= <-].
Qed.

(** C11. A packet capture that is due runs once per generation, as far as the API server
    takes the patches of its status.  If it does not take the first, the error is returned
    and nothing is captured.  If a new generation of the node's resource, or its deletion,
    arrives from the store of the cancel function to the store that clears it, the context
    is cancelled and nothing more is published; no other event cancels it, and not one that
    arrives between the running status and the first store.  Otherwise its end is published
    for the generation it ran for, a success exactly when the capture and every upload
    succeeded; once that is stored, handling the same generation again changes nothing; and
    if the patch fails, the error is returned and the capture is due again. *)
Theorem packet_capture_once w es f c r spec :
  capture_due w r spec → numbered c → (∀ k, packetCancelFunc c = Some k → (k < captures c)%nat) →
  let '(err, c', r') := handlePacketCapture w es f c r in
  match wPatch w (patches r) with
  | Some e => err = Some e ∧ published r' = published r ∧ captures c' = captures c
  | None =>
      packetCancelFunc c' = None ∧ captures c' = S (captures c) ∧
      if existsb (concerns (nodeName c)) (during es ++ after es) then
        err = None ∧ published r' = published r ++ [running_packet w r]
      else
        ∃ d, Reason d = packet_reason (f false) ∧ ObservedGeneration d = Generation (nd r) ∧
          let done := with_packet (running_packet w r) (mkState None (Some d)) in
          err = wPatch w (S (patches r)) ∧
          match err with
          | None =>
              published r' = published r ++ [running_packet w r; done] ∧
              ∀ w2 es2 f2 c2 r2, nd r2 = with_statuses (nd r) done → handlePacketCapture w2 es2 f2 c2 r2 = (None, c2, r2)
          | Some _ =>
              published r' = published r ++ [running_packet w r] ∧
              ∀ r2, nd r2 = with_statuses (nd r) (running_packet w r) → capture_due w r2 spec
          end
  end.
Proof.
  intros Hdue Hn Hp. destruct (packet_begin_due w c r spec Hdue) as (cap & c1 & Hb & Hnum & Hname & Hpc & Hcap & Hcan).
  unfold handlePacketCapture at 1. rewrite Hb. destruct (wPatch w (patches r)) as [e|]; [by rewrite app_nil_r|].
  set (r1 := mkRun _ _ _) in *.
  destruct (handle_all_keeps (before es) c1) as (Hb1 & Hb2 & Hb3 & Hb4). set (c2 := handle_all (before es) c1) in *.
  destruct (handle_all_keeps (during es) (packet_start c2)) as (Hd1 & Hd2 & Hd3 & Hd4). set (c3 := handle_all (during es) _) in *.
  destruct (handle_all_keeps (after es) c3) as (Ha1 & Ha2 & Ha3 & Ha4). set (c4 := handle_all (after es) c3) in *.
  assert (Hno : number cap ∉ canceled c2).
  { rewrite Hb4, Hpc, Hnum. intros [Hin|[_ ?]]; [|done]. destruct (Hcan _ Hin) as [Hk|Hk]; [specialize (Hn _ Hk)|specialize (Hp _ Hk)]; lia. }
  assert (Hin : number cap ∈ canceled c4 ↔ existsb (concerns (nodeName c)) (during es ++ after es) = true).
  { rewrite Ha4, Hd4, Hd1, Hd2. simpl. rewrite Hb1, Hb3, Hcap, Hnum, Hname, existsb_app, orb_true_iff.
    rewrite Hnum in Hno. naive_solver. }
  assert (Hnd : existsb (concerns (nodeName c)) (during es ++ after es) = false → number cap ∉ canceled c3).
  { intros Hf Hc. rewrite Hf in Hin. assert (number cap ∈ canceled c4) as H%Hin by (rewrite Ha4; by left). done. }
  assert (Hcaptures : captures c4 = S (captures c)) by (rewrite Ha3, Hd3; simpl; by rewrite Hb3, Hcap).
  destruct (existsb _ (during es ++ after es)).
  - unfold packet_end. cbn [canceled set_cancel]. rewrite decide_True by (by apply Hin). by split_and!.
  - rewrite bool_decide_false by (by apply Hnd).
    assert (Hnot : number cap ∉ canceled c4) by (rewrite Hin; done).
    destruct (packet_end_due w cap (f false) c4 r1 Hnot) as (d & Hr & Hg & E). cbv zeta in E. rewrite E.
    split; [done|]. split; [done|]. exists d. split; [done|]. split; [done|]. simpl. split; [done|].
    destruct (wPatch w (S (patches r))) as [e|]; rewrite <-(assoc_L app); (split; [done|]).
    + intros r2. by apply running_due.
    + intros w2 es2 f2 k2 r2 Hr2. unfold handlePacketCapture.
      by rewrite (packet_begin_done w2 k2 r2 (running_packet w r) d) by (by rewrite Hr2).
Qed.

Definition ex_controller : controller := mkController "node-1" None [] 0.

(** A deletion that arrives before the cancel function is stored does not cancel. *)
Example early_event_missed :
  let es := mkArrivals [Delete (ex_nd [])] [] [] in
  let '(err, c, r) := handlePacketCapture (ex_world (Ok ("tgz", 0))) es (λ b, if b then Err "cancelled" else Ok []) ex_controller (mkRun (ex_nd []) [] 0) in
  existsb (concerns "node-1") (before es) = true ∧ length (published r) = 2%nat.
Proof. by split. Qed.

Lemma packet_capture_once_witness :
  let w e := mkWorld (λ n, if decide (n = 1%nat) then e else None) (λ n, 100 + Z.of_nat n) "/host" (Ok ("tgz", 0)) None None None None
    (λ s, if String.eqb s "5m" then Some (5 * Minute) else None) "cap-1" in
  let result e es := handlePacketCapture (w e) es (λ _, Ok []) ex_controller (mkRun (ex_nd []) [] 0) in
  (result None (mkArrivals [] [Delete (ex_nd [])] [])).1.1 = None ∧
  length (published (result None (mkArrivals [] [] [])).2) = 2%nat ∧
  (result (Some "conflict") (mkArrivals [] [] [])).1.1 = Some "conflict".
Proof.
  intros w result.
  assert (Hd : ∀ e, capture_due (w e) (mkRun (ex_nd []) [] 0) (mkPacketCapture EmptyString "5m" EmptyString 10 "https://b" [])).
  { intros e. split; [reflexivity|]. split; [intros s d; discriminate|].
    exists (5 * Minute). split; [reflexivity|vm_compute; congruence]. }
  pose proof (λ e es, packet_capture_once (w e) es (λ _, Ok []) ex_controller (mkRun (ex_nd []) [] 0) _ (Hd e)
    (λ k Hk, match not_elem_of_nil k Hk with end) (λ k Hk, ltac:(discriminate Hk))) as H.
  split; [|split].
  - destruct (H None (mkArrivals [] [Delete (ex_nd [])] [])) as (_ & _ & Hr & _). exact Hr.
  - destruct (H None (mkArrivals [] [] [])) as (_ & _ & d & _ & _ & _ & Hr & _). exact (f_equal length Hr).
  - destruct (H (Some "conflict") (mkArrivals [] [] [])) as (_ & _ & d & _ & _ & Hr & _). exact Hr.
Defined.

(** ** Log collections *)

(** The slot is taken exactly while a collection is in [collectFn], and then by one
    only. *)
Definition slot_inv (s : slot) : Prop :=
  (captureRunning s = true ↔ Collecting ∈ collections s) ∧
  ∀ j k, collections s !! j = Some Collecting → collections s !! k = Some Collecting → j = k.

Lemma slot_claim_inv s now : slot_inv s → slot_inv (claim_slot s now).2.
Proof.
  intros [H1 H2]. unfold claim_slot. destruct (captureRunning s) eqn:Hr;
    [cbn [snd]; split; [by rewrite Hr|done]|].
  assert (Hno : ∀ k, collections s !! k ≠ Some Collecting).
  { intros k Hk. assert (false = true) by (apply H1; by eapply list_elem_of_lookup_2). done. }
  assert (Hlast : ∀ k, (collections s ++ [Collecting]) !! k = Some Collecting → k = length (collections s)).
  { intros k [Hk|[Hge Hk]]%lookup_app_Some; [by apply Hno in Hk|].
    apply list_lookup_singleton_Some in Hk as [? _]. lia. }
  split; simpl; [split; [intros _; set_solver|done]|].
  intros j k Hj%Hlast Hk%Hlast. congruence.
Qed.

Lemma slot_bounded_inv s t now e : slot_inv s → slot_inv (collectLogsBounded t now e s).2.
Proof.
  intros Hs%(slot_claim_inv s now). unfold collectLogsBounded.
  by destruct (claim_slot s now) as [[err|] s'].
Qed.

Lemma slot_step_inv s k s' : slot_inv s → collection_step s k = Some s' → slot_inv s'.
Proof.
  intros [H1 H2] Hstep. unfold collection_step in Hstep.
  destruct (collections s !! k) as [c|] eqn:Hk; [|done].
  pose proof (lookup_lt_Some _ _ _ Hk) as Hlt. destruct c; simplify_eq.
  - assert (Hno : ∀ j, <[k:=Released]> (collections s) !! j ≠ Some Collecting).
    { intros j Hj. destruct (decide (j = k)) as [->|Hne]; [by rewrite list_lookup_insert_eq in Hj|].
      rewrite list_lookup_insert_ne in Hj by done. apply Hne. by apply H2. }
    split; simpl; [split; [done|]|naive_solver].
    intros [j Hj]%list_elem_of_lookup. by apply Hno in Hj.
  - assert (Hsame : ∀ j, <[k:=Published]> (collections s) !! j = Some Collecting ↔
                         collections s !! j = Some Collecting).
    { intros j. destruct (decide (j = k)) as [->|Hne]; [by rewrite list_lookup_insert_eq, Hk|].
      by rewrite list_lookup_insert_ne. }
    split; simpl; [|intros i j; rewrite !Hsame; apply H2].
    rewrite H1, !list_elem_of_lookup. by setoid_rewrite Hsame.
Qed.

(** C29. However the goroutines of collections and the requests for new ones interleave,
    at most one collection is ever in progress, even if it never returns; a request is
    refused exactly while one is, and a refused request starts none. *)
Theorem one_log_collection s now :
  slot_reachable s →
  (∀ j k, collections s !! j = Some Collecting → collections s !! k = Some Collecting → j = k) ∧
  (is_Some (claim_slot s now).1 ↔ Collecting ∈ collections s) ∧
  (is_Some (claim_slot s now).1 → (claim_slot s now).2 = s).
Proof.
  intros Hr. assert (Hi : slot_inv s).
  { induction Hr; [|by apply slot_bounded_inv|by eapply slot_step_inv].
    split; simpl; [split; [done|by intros ?%elem_of_nil]|done]. }
  destruct Hi as [H1 H2]. split; [done|]. rewrite <- H1. unfold claim_slot.
  destruct (captureRunning s); cbn [fst snd].
  - split; [split; [reflexivity|by eexists]|reflexivity].
  - split; [split; [intros [? ?]|]; discriminate|by intros [? ?]].
Qed.

Definition ex_slot : slot := (collectLogsBounded 0 100 TimedOut (mkSlot false 0 [])).2.

Lemma one_log_collection_witness :
  slot_reachable ex_slot ∧ collections ex_slot = [Collecting] ∧
  is_Some (claim_slot ex_slot 200).1.
Proof.
  assert (Hr : slot_reachable ex_slot) by (apply slot_collect; constructor).
  split; [exact Hr|]. split; [reflexivity|].
  apply (one_log_collection ex_slot 200 Hr). by apply list_elem_of_singleton.
Defined.
