(* ===== verification/DeepCopy.v ===== *)
(** * DeepCopy: the resource in memory ([api/v1alpha1/zz_generated.deepcopy.go] and the
    methods of [nodediagnostic_status.go] that write to it).

    [NodeDiag] treats a resource as a value.  In the program it is a graph of structs,
    slices and maps behind pointers, and a patch is computed from a deep copy taken before
    the status is written.  This file has the graph, its copy and the write, and shows that
    the copy shares nothing with what it copies, so that the values of [NodeDiag] are what
    the program computes. *)

From S2P Require Import Prelude NodeDiag.

(** ** The memory *)

Abbreviation loc := positive.

(** A slice that is not nil: its array and its length; what the array has more is capacity. *)
Record slice := mkSlice { arr : loc; len : nat }.

Record stateV := mkStateV { pRunning : option loc; pCompleted : option loc }.
Record statusV := mkStatusV { sType : CaptureType; sState : stateV }.
Record logV := mkLogV { lDestination : string; lCategories : option slice }.
Record uploadV := mkUploadV { uURL : string; uFields : option loc }.
Record packetV := mkPacketV {
  kMode : string; kUpload : uploadV; kInterface : string; kDuration : string; kFilter : string; kChunkSizeMB : Z
}.
Record specV := mkSpecV { pLog : option loc; pPacket : option loc }.
Record statusesV := mkStatusesV { pStatuses : option slice; pConditions : option slice }.

Section Memory.
(** The metadata of an object and a condition are types of the API machinery, with a deep
    copy of their own: they are values here. *)
Context {M C : Type} (metaName : M → string) (metaGeneration : M → Z).

Record diagV := mkDiagV { dMeta : M; dSpec : specV; dStatus : statusesV }.

(** What a location holds. *)
Inductive obj :=
| ORunning (x : CaptureStateRunning)
| OCompleted (x : CaptureStateCompleted)
| OStatuses (xs : list statusV)
| OConditions (xs : list C)
| OCategories (xs : list string)
| OFields (m : gmap string string)
| OLog (x : logV)
| OPacket (x : packetV)
| ODiag (x : diagV)
| ODiags (xs : list diagV).

Definition as_running (o : obj) := match o with ORunning x => Some x | _ => None end.
Definition as_completed (o : obj) := match o with OCompleted x => Some x | _ => None end.
Definition as_statuses (o : obj) := match o with OStatuses x => Some x | _ => None end.
Definition as_conditions (o : obj) := match o with OConditions x => Some x | _ => None end.
Definition as_categories (o : obj) := match o with OCategories x => Some x | _ => None end.
Definition as_fields (o : obj) := match o with OFields x => Some x | _ => None end.
Definition as_log (o : obj) := match o with OLog x => Some x | _ => None end.
Definition as_packet (o : obj) := match o with OPacket x => Some x | _ => None end.
Definition as_diag (o : obj) := match o with ODiag x => Some x | _ => None end.
Definition as_diags (o : obj) := match o with ODiags x => Some x | _ => None end.

Abbreviation heap := (gmap loc obj).

(** A computation on the memory; [None] is a panic. *)
Definition cmd (A : Type) : Type := heap → option (A * heap).
#[local] Instance cmd_ret : MRet cmd := λ A a h, Some (a, h).
#[local] Instance cmd_bind : MBind cmd := λ A B k r h, match r h with Some (a, h') => k a h' | None => None end.

Definition load {A} (as_ : obj → option A) (l : loc) : cmd A :=
  λ h, match h !! l ≫= as_ with Some a => Some (a, h) | None => None end.
Definition alloc (o : obj) : cmd loc := λ h, let l := fresh (dom h) in Some (l, <[l := o]> h).
Definition store (l : loc) (o : obj) : cmd () := λ h, match h !! l with Some _ => Some (tt, <[l := o]> h) | None => None end.

(** ** Deep copies

    [DeepCopyInto] gives what it writes to its argument.  A field that is a pointer, or a
    slice, is copied as [DeepCopy] copies its receiver: nil stays nil, and otherwise a new
    object is filled with the copy. *)

Definition copy_ptr {A} (as_ : obj → option A) (mk : A → obj) (into : A → cmd A) (p : option loc) : cmd (option loc) :=
  match p with
  | None => mret None
  | Some l => x ← load as_ l; x' ← into x; l' ← alloc (mk x'); mret (Some l')
  end.

Definition copy_slice {A} (as_ : obj → option (list A)) (mk : list A → obj) (into : A → cmd A) (s : option slice)
    : cmd (option slice) :=
  match s with
  | None => mret None
  | Some s => xs ← load as_ (arr s); ys ← mapM into (take (len s) xs); l' ← alloc (mk ys); mret (Some (mkSlice l' (len s)))
  end.

Definition CaptureStateRunning_DeepCopyInto (v : CaptureStateRunning) : cmd CaptureStateRunning := mret v.
Definition CaptureStateCompleted_DeepCopyInto (v : CaptureStateCompleted) : cmd CaptureStateCompleted := mret v.
Definition CaptureStateRunning_DeepCopy := copy_ptr as_running ORunning CaptureStateRunning_DeepCopyInto.
Definition CaptureStateCompleted_DeepCopy := copy_ptr as_completed OCompleted CaptureStateCompleted_DeepCopyInto.

Definition CaptureState_DeepCopyInto (v : stateV) : cmd stateV :=
  r ← CaptureStateRunning_DeepCopy (pRunning v); c ← CaptureStateCompleted_DeepCopy (pCompleted v); mret (mkStateV r c).

Definition CaptureStatus_DeepCopyInto (v : statusV) : cmd statusV :=
  s ← CaptureState_DeepCopyInto (sState v); mret (mkStatusV (sType v) s).

Definition LogCapture_DeepCopyInto (v : logV) : cmd logV :=
  c ← copy_slice as_categories OCategories mret (lCategories v); mret (mkLogV (lDestination v) c).

Definition PacketCaptureUpload_DeepCopyInto (v : uploadV) : cmd uploadV :=
  f ← copy_ptr as_fields OFields mret (uFields v); mret (mkUploadV (uURL v) f).

Definition PacketCapture_DeepCopyInto (v : packetV) : cmd packetV :=
  u ← PacketCaptureUpload_DeepCopyInto (kUpload v);
  mret (mkPacketV (kMode v) u (kInterface v) (kDuration v) (kFilter v) (kChunkSizeMB v)).

Definition LogCapture_DeepCopy := copy_ptr as_log OLog LogCapture_DeepCopyInto.
Definition PacketCapture_DeepCopy := copy_ptr as_packet OPacket PacketCapture_DeepCopyInto.

Definition NodeDiagnosticSpec_DeepCopyInto (v : specV) : cmd specV :=
  l ← LogCapture_DeepCopy (pLog v);
  k ← PacketCapture_DeepCopy (pPacket v);
  mret (mkSpecV l k).

Definition NodeDiagnosticStatus_DeepCopyInto (v : statusesV) : cmd statusesV :=
  s ← copy_slice as_statuses OStatuses CaptureStatus_DeepCopyInto (pStatuses v);
  c ← copy_slice as_conditions OConditions mret (pConditions v);
  mret (mkStatusesV s c).

Definition NodeDiagnostic_DeepCopyInto (v : diagV) : cmd diagV :=
  sp ← NodeDiagnosticSpec_DeepCopyInto (dSpec v);
  st ← NodeDiagnosticStatus_DeepCopyInto (dStatus v);
  mret (mkDiagV (dMeta v) sp st).

Definition NodeDiagnostic_DeepCopy := copy_ptr as_diag ODiag NodeDiagnostic_DeepCopyInto.

(** The items of a [NodeDiagnosticList]. *)
Definition NodeDiagnosticList_DeepCopyInto := copy_slice as_diags ODiags NodeDiagnostic_DeepCopyInto.

(** ** The write of a status *)

Definition zero_status : statusV := mkStatusV EmptyString (mkStateV None None).

Definition with_slice (d : diagV) (s : slice) : diagV :=
  mkDiagV (dMeta d) (dSpec d) (mkStatusesV (Some s) (pConditions (dStatus d))).

(** [grow] is the spare capacity that [append] gives an array it allocates. *)
Definition SetCaptureStatus (grow : nat → nat) (p : loc) (new : statusV) : cmd () :=
  d ← load as_diag p;
  match pStatuses (dStatus d) with
  | None => a ← alloc (OStatuses (new :: replicate (grow 0%nat) zero_status)); store p (ODiag (with_slice d (mkSlice a 1)))
  | Some s =>
      xs ← load as_statuses (arr s);
      match list_find (λ x, sType x = sType new) (take (len s) xs) with
      | Some (i, x) => store (arr s) (OStatuses (<[i := mkStatusV (sType x) (sState new)]> xs))
      | None =>
          if (len s <? length xs)%nat then
            _ ← store (arr s) (OStatuses (<[len s := new]> xs));
            store p (ODiag (with_slice d (mkSlice (arr s) (S (len s)))))
          else
            a ← alloc (OStatuses (take (len s) xs ++ new :: replicate (grow (len s)) zero_status));
            store p (ODiag (with_slice d (mkSlice a (S (len s)))))
      end
  end.

(** What every handler does before it patches: the copy that the patch is taken from, then
    the write. *)
Definition stored_then_set (grow : nat → nat) (p : loc) (new : statusV) : cmd (option loc) :=
  stored ← NodeDiagnostic_DeepCopy (Some p); _ ← SetCaptureStatus grow p new; mret stored.

(** ** The values that a graph stands for *)

Definition rd_ptr {A T} (as_ : obj → option A) (rd : heap → A → option T) (h : heap) (p : option loc) : option (option T) :=
  match p with None => Some None | Some l => x ← h !! l ≫= as_; Some <$> rd h x end.

Definition rd_slice {A T} (as_ : obj → option (list A)) (rd : heap → A → option T) (h : heap) (s : option slice)
    : option (option (list T)) :=
  match s with
  | None => Some None
  | Some s => xs ← h !! arr s ≫= as_; if (len s <=? length xs)%nat then Some <$> mapM (rd h) (take (len s) xs) else None
  end.

Definition rd_val {A} (h : heap) (x : A) : option A := Some x.

Definition rd_state (h : heap) (v : stateV) : option CaptureState :=
  r ← rd_ptr as_running rd_val h (pRunning v); c ← rd_ptr as_completed rd_val h (pCompleted v); Some (mkState r c).

Definition rd_status (h : heap) (v : statusV) : option CaptureStatus := mkStatus (sType v) <$> rd_state h (sState v).

(** A tree: nil pointers, slices and maps are [None]. *)
Record logT := mkLogT { tDestination : string; tCategories : option (list string) }.
Record packetT := mkPacketT {
  tMode : string; tURL : string; tFields : option (gmap string string);
  tInterface : string; tDuration : string; tFilter : string; tChunkSizeMB : Z
}.
Record tree := mkTree {
  tMeta : M; tLog : option logT; tPacket : option packetT;
  tStatuses : option (list CaptureStatus); tConditions : option (list C)
}.

Definition rd_log (h : heap) (v : logV) : option logT :=
  mkLogT (lDestination v) <$> rd_slice as_categories rd_val h (lCategories v).
Definition rd_packet (h : heap) (v : packetV) : option packetT :=
  (λ f, mkPacketT (kMode v) (uURL (kUpload v)) f (kInterface v) (kDuration v) (kFilter v) (kChunkSizeMB v)) <$>
    rd_ptr as_fields rd_val h (uFields (kUpload v)).

Definition rd_spec (h : heap) (v : specV) : option (option logT * option packetT) :=
  l ← rd_ptr as_log rd_log h (pLog v); k ← rd_ptr as_packet rd_packet h (pPacket v); Some (l, k).
Definition rd_statuses (h : heap) (v : statusesV) : option (option (list CaptureStatus) * option (list C)) :=
  s ← rd_slice as_statuses rd_status h (pStatuses v); c ← rd_slice as_conditions rd_val h (pConditions v); Some (s, c).

Definition rd_diag (h : heap) (v : diagV) : option tree :=
  sp ← rd_spec h (dSpec v); st ← rd_statuses h (dStatus v);
  Some (mkTree (dMeta v) sp.1 sp.2 st.1 st.2).

Definition rd_resource (h : heap) (p : loc) : option tree := x ← h !! p ≫= as_diag; rd_diag h x.

(** The resource of [NodeDiag]. *)
Definition as_resource (t : tree) : NodeDiagnostic :=
  mkNodeDiagnostic (metaName (tMeta t)) (metaGeneration (tMeta t))
    ((λ x, mkLogCapture (tDestination x) (default [] (tCategories x))) <$> tLog t)
    ((λ x, mkPacketCapture (tInterface x) (tDuration x) (tFilter x) (tChunkSizeMB x) (tURL x)
             (map_to_list (default ∅ (tFields x)))) <$> tPacket t)
    (default [] (tStatuses t)).

Definition with_tree_statuses (t : tree) (l : list CaptureStatus) : tree :=
  mkTree (tMeta t) (tLog t) (tPacket t) (Some l) (tConditions t).

(** ** What a copy is *)

(** A reader only looks at locations that [R] keeps. *)
Definition mono {V T} (R : heap → heap → Prop) (rd : heap → V → option T) : Prop :=
  ∀ h h' v t, R h h' → rd h v = Some t → rd h' v = Some t.

Definition keeps {A} (R : heap → heap → Prop) (as_ : obj → option A) : Prop :=
  ∀ h h' l x, R h h' → h !! l ≫= as_ = Some x → h' !! l ≫= as_ = Some x.

(** A copier makes, in new locations only, a graph that stands for the same: whatever the
    memory is that still has the new locations. *)
Definition has_new (h h' h2 : heap) : Prop := ∀ l o, h' !! l = Some o → h !! l = None → h2 !! l = Some o.

Definition copies {V T} (rd : heap → V → option T) (cp : V → cmd V) : Prop :=
  ∀ h v t, rd h v = Some t → ∃ v' h', cp v h = Some (v', h') ∧ h ⊆ h' ∧ ∀ h2, has_new h h' h2 → rd h2 v' = Some t.

Lemma has_new_trans h h1 h' h2 : h ⊆ h1 → h1 ⊆ h' → has_new h h' h2 → has_new h h1 h2 ∧ has_new h1 h' h2.
Proof.
  intros H1 H2 Hn. split; intros l o Hl Hnone; apply Hn; [by eapply lookup_weaken|done..|].
  by eapply lookup_weaken_None.
Qed.

Lemma has_new_sub h h' h2 : h' ⊆ h2 → has_new h h' h2.
Proof. intros Hs l o Hl _. by eapply lookup_weaken. Qed.

Lemma run_bind {A B} (m : cmd A) (k : A → cmd B) h a h' : m h = Some (a, h') → (m ≫= k) h = k a h'.
Proof. intros E. unfold mbind, cmd_bind. by rewrite E. Qed.

Lemma mono_val {A} R : mono R (@rd_val A).
Proof. by intros h h' v t _ H. Qed.

Lemma copies_val {A} : copies (@rd_val A) mret.
Proof. intros h v t [= ->]. by exists t, h. Qed.

Lemma keeps_sub {A} (as_ : obj → option A) : keeps (⊆) as_.
Proof. intros h h' l x Hs (o & Ho & Hx)%bind_Some. by rewrite (lookup_weaken _ _ _ _ Ho Hs). Qed.

Lemma mono_ptr {A T} R (as_ : obj → option A) (rd : heap → A → option T) :
  keeps R as_ → mono R rd → mono R (rd_ptr as_ rd).
Proof.
  intros Hk Hm h h' [l|] t Hs; [|done]. simpl. intros (x & Hx & (y & Hy & ->)%fmap_Some)%bind_Some.
  rewrite (Hk h h' l x) by done. simpl. by rewrite (Hm h h' x y).
Qed.

Lemma mono_mapM {A T} R (rd : heap → A → option T) : mono R rd → mono R (λ h, mapM (rd h)).
Proof.
  intros Hm h h' l t Hs H. apply mapM_Some. apply mapM_Some in H.
  induction H; constructor; [by eapply Hm|done].
Qed.

Lemma mono_slice {A T} R (as_ : obj → option (list A)) (rd : heap → A → option T) :
  keeps R as_ → mono R rd → mono R (rd_slice as_ rd).
Proof.
  intros Hk Hm h h' [s|] t Hs; [|done]. simpl. intros (xs & Hx & Ht)%bind_Some.
  rewrite (Hk h h' _ xs) by done. simpl. destruct (_ <=? _)%nat; [|done].
  apply fmap_Some in Ht as (y & Hy & ->). by rewrite (mono_mapM R rd Hm h h' _ y).
Qed.

(** Readers of structs with one and with two fields to follow. *)
Lemma mono_field {V V1 T1 T} R (rd1 : heap → V1 → option T1) (proj : V → V1) (k : V → T1 → T) :
  mono R rd1 → mono R (λ h v, k v <$> rd1 h (proj v)).
Proof. intros Hm h h' v t Hs (x & Hx & ->)%fmap_Some. by rewrite (Hm h h' _ x). Qed.

Lemma mono_fields {V V1 V2 T1 T2 T} R (rd1 : heap → V1 → option T1) (rd2 : heap → V2 → option T2)
    (p1 : V → V1) (p2 : V → V2) (k : V → T1 → T2 → T) :
  mono R rd1 → mono R rd2 → mono R (λ h v, a ← rd1 h (p1 v); b ← rd2 h (p2 v); Some (k v a b)).
Proof.
  intros H1 H2 h h' v t Hs (a & Ha & (b & Hb & [= <-])%bind_Some)%bind_Some.
  rewrite (H1 h h' _ a) by done. simpl. by rewrite (H2 h h' _ b).
Qed.

Lemma load_run {A} (as_ : obj → option A) l h x : h !! l ≫= as_ = Some x → load as_ l h = Some (x, h).
Proof. intros E. unfold load. by rewrite E. Qed.

(** The new object is not one that was there. *)
Lemma alloc_spec (o : obj) h :
  ∃ l, alloc o h = Some (l, <[l := o]> h) ∧ h !! l = None ∧ h ⊆ <[l := o]> h.
Proof.
  exists (fresh (dom h)). pose proof (is_fresh (dom h)) as Hf. apply not_elem_of_dom in Hf.
  split; [done|]. split; [done|]. by apply insert_subseteq.
Qed.

Lemma copies_alloc {A T} (mk : A → obj) (rd : heap → A → option T) h h1 x' t :
  h ⊆ h1 → (∀ h2, has_new h h1 h2 → rd h2 x' = Some t) →
  ∃ l h', alloc (mk x') h1 = Some (l, h') ∧ h1 ⊆ h' ∧
    ∀ h2, has_new h h' h2 → h2 !! l = Some (mk x') ∧ rd h2 x' = Some t.
Proof.
  intros Hs Hr. destruct (alloc_spec (mk x') h1) as (l & E & Hn & Hs'). exists l, (<[l := mk x']> h1).
  split; [done|]. split; [done|]. intros h2 H2. split.
  - apply H2; [apply lookup_insert_eq|by eapply lookup_weaken_None].
  - apply Hr. by destruct (has_new_trans h h1 (<[l := mk x']> h1) h2).
Qed.

Lemma copies_ptr {A T} (as_ : obj → option A) (mk : A → obj) (rd : heap → A → option T) (into : A → cmd A) :
  (∀ x, as_ (mk x) = Some x) → copies rd into → copies (rd_ptr as_ rd) (copy_ptr as_ mk into).
Proof.
  intros Hmk Hc h [l|] t; simpl; [|intros [= <-]; by exists None, h].
  intros (x & Hx & (y & Hy & ->)%fmap_Some)%bind_Some.
  rewrite (run_bind _ _ _ _ _ (load_run _ _ _ _ Hx)).
  destruct (Hc h x y Hy) as (x' & h1 & E & Hs & Hr). rewrite (run_bind _ _ _ _ _ E).
  destruct (copies_alloc mk rd h h1 x' y Hs Hr) as (l' & h' & Ea & Hs' & Hr'). rewrite (run_bind _ _ _ _ _ Ea).
  exists (Some l'), h'. split; [done|]. split; [by etrans|]. intros h2 H2. destruct (Hr' h2 H2) as [El Ex].
  simpl. rewrite El. simpl. rewrite Hmk. simpl. by rewrite Ex.
Qed.

Lemma copies_mapM {A T} (rd : heap → A → option T) (into : A → cmd A) :
  mono (⊆) rd → copies rd into → copies (λ h, mapM (rd h)) (mapM into).
Proof.
  intros Hm Hc h l t H. apply mapM_Some in H. revert h t H. induction l as [|x l IH]; intros h t H.
  { apply Forall2_nil_inv_l in H as ->. by exists [], h. }
  apply Forall2_cons_inv_l in H as (y & ts & Hx & Hl & ->).
  destruct (Hc h x y Hx) as (x' & h1 & E1 & Hs1 & Hr1).
  destruct (IH h1 ts) as (l' & h' & E2 & Hs2 & Hr2).
  { eapply Forall2_impl; [done|]. intros. by eapply Hm. }
  exists (x' :: l'), h'. split.
  { simpl. rewrite (run_bind _ _ _ _ _ E1). by rewrite (run_bind _ _ _ _ _ E2). }
  split; [by etrans|]. intros h2 H2. destruct (has_new_trans h h1 h' h2) as [Ha Hb]; [done..|].
  simpl. rewrite (Hr1 h2 Ha). simpl. by rewrite (Hr2 h2 Hb).
Qed.

Lemma copies_slice {A T} (as_ : obj → option (list A)) (mk : list A → obj) (rd : heap → A → option T) (into : A → cmd A) :
  (∀ x, as_ (mk x) = Some x) → mono (⊆) rd → copies rd into → copies (rd_slice as_ rd) (copy_slice as_ mk into).
Proof.
  intros Hmk Hm Hc h [[a n]|] t; simpl; [|intros [= <-]; by exists None, h].
  intros (xs & Hx & Ht)%bind_Some. destruct (Nat.leb_spec n (length xs)) as [Hn|]; [|done].
  apply fmap_Some in Ht as (ts & Hts & ->).
  rewrite (run_bind _ _ _ _ _ (load_run _ _ _ _ Hx)).
  destruct (copies_mapM rd into Hm Hc h _ ts Hts) as (ys & h1 & E & Hs & Hr). rewrite (run_bind _ _ _ _ _ E).
  destruct (copies_alloc mk (λ h, mapM (rd h)) h h1 ys ts Hs Hr) as (l' & h' & Ea & Hs' & Hr').
  rewrite (run_bind _ _ _ _ _ Ea). exists (Some (mkSlice l' n)), h'. split; [done|]. split; [by etrans|].
  intros h2 H2. destruct (Hr' h2 H2) as [El Ey]. simpl. rewrite El. simpl. rewrite Hmk. simpl.
  assert (Hlen : length ys = n).
  { rewrite (length_mapM _ _ _ Ey), <- (length_mapM _ _ _ Hts), length_take. lia. }
  by rewrite (proj2 (Nat.leb_le _ _)), take_ge, Ey by lia.
Qed.

Lemma copies_field {V V1 T1 T} (rd1 : heap → V1 → option T1) (cp1 : V1 → cmd V1) (proj : V → V1) (mk : V → V1 → V)
    (k : V → T1 → T) :
  (∀ v x, proj (mk v x) = x) → (∀ v x, k (mk v x) = k v) → copies rd1 cp1 →
  copies (λ h v, k v <$> rd1 h (proj v)) (λ v, x ← cp1 (proj v); mret (mk v x)).
Proof.
  intros Hp Hk Hc h v t (x & Hx & ->)%fmap_Some. destruct (Hc h _ x Hx) as (x' & h' & E & Hs & Hr).
  exists (mk v x'), h'. rewrite (run_bind _ _ _ _ _ E). split; [done|]. split; [done|].
  intros h2 H2. by rewrite Hp, Hk, (Hr h2 H2).
Qed.

Lemma copies_fields {V V1 V2 T1 T2 T} (rd1 : heap → V1 → option T1) (cp1 : V1 → cmd V1)
    (rd2 : heap → V2 → option T2) (cp2 : V2 → cmd V2) (p1 : V → V1) (p2 : V → V2)
    (mk : V → V1 → V2 → V) (k : V → T1 → T2 → T) :
  (∀ v x y, p1 (mk v x y) = x) → (∀ v x y, p2 (mk v x y) = y) → (∀ v x y, k (mk v x y) = k v) →
  copies rd1 cp1 → mono (⊆) rd2 → copies rd2 cp2 →
  copies (λ h v, a ← rd1 h (p1 v); b ← rd2 h (p2 v); Some (k v a b))
         (λ v, x ← cp1 (p1 v); y ← cp2 (p2 v); mret (mk v x y)).
Proof.
  intros Hp1 Hp2 Hk Hc1 Hm2 Hc2 h v t (a & Ha & (b & Hb & [= <-])%bind_Some)%bind_Some.
  destruct (Hc1 h _ a Ha) as (x & h1 & E1 & Hs1 & Hr1).
  destruct (Hc2 h1 (p2 v) b) as (y & h' & E2 & Hs2 & Hr2); [by eapply Hm2|].
  exists (mk v x y), h'. split.
  { rewrite (run_bind _ _ _ _ _ E1). by rewrite (run_bind _ _ _ _ _ E2). }
  split; [by etrans|]. intros h2 H2. destruct (has_new_trans h h1 h' h2) as [Ha' Hb']; [done..|].
  rewrite Hp1, Hp2, Hk, (Hr1 h2 Ha'). simpl. by rewrite (Hr2 h2 Hb').
Qed.

(** *** The types of the resource *)

(** What a write of statuses leaves alone: all but the arrays of statuses and the resources. *)
Definition leaves_kept (R : heap → heap → Prop) : Prop :=
  keeps R as_running ∧ keeps R as_completed ∧ keeps R as_categories ∧ keeps R as_fields ∧ keeps R as_log ∧
  keeps R as_packet ∧ keeps R as_conditions.

Lemma leaves_kept_sub : leaves_kept (⊆).
Proof. repeat split; apply keeps_sub. Qed.

Lemma mono_state R : leaves_kept R → mono R rd_state.
Proof. intros (? & ? & _). by apply (mono_fields _ _ _ pRunning pCompleted (λ _, mkState)); apply mono_ptr, mono_val. Qed.

Lemma copies_state : copies rd_state CaptureState_DeepCopyInto.
Proof.
  apply (copies_fields _ _ _ _ pRunning pCompleted (λ _, mkStateV) (λ _, mkState)); try done;
    [apply copies_ptr|apply mono_ptr|apply copies_ptr]; done || apply copies_val || apply mono_val || apply keeps_sub.
Qed.

Lemma mono_status R : leaves_kept R → mono R rd_status.
Proof. intros. by apply (mono_field _ _ sState (λ v, mkStatus (sType v))), mono_state. Qed.

Lemma copies_status : copies rd_status CaptureStatus_DeepCopyInto.
Proof. by apply (copies_field _ _ sState (λ v, mkStatusV (sType v)) (λ v, mkStatus (sType v))), copies_state. Qed.

Lemma mono_log R : leaves_kept R → mono R rd_log.
Proof.
  intros (_ & _ & ? & _). by apply (mono_field _ _ lCategories (λ v, mkLogT (lDestination v))), mono_slice, mono_val.
Qed.

Lemma copies_log : copies rd_log LogCapture_DeepCopyInto.
Proof.
  by apply (copies_field _ _ lCategories (λ v, mkLogV (lDestination v)) (λ v, mkLogT (lDestination v))),
    copies_slice; [..|apply mono_val|apply copies_val].
Qed.

Lemma mono_packet R : leaves_kept R → mono R rd_packet.
Proof.
  intros (_ & _ & _ & ? & _).
  by apply (mono_field _ _ (λ v, uFields (kUpload v)) (λ v f, mkPacketT (kMode v) (uURL (kUpload v)) f (kInterface v) (kDuration v)
    (kFilter v) (kChunkSizeMB v))), mono_ptr, mono_val.
Qed.

Lemma copies_packet : copies rd_packet PacketCapture_DeepCopyInto.
Proof.
  assert (Hu : copies (λ h u, (λ f, (uURL u, f)) <$> rd_ptr as_fields rd_val h (uFields u)) PacketCaptureUpload_DeepCopyInto).
  { by apply (copies_field _ _ uFields (λ u, mkUploadV (uURL u)) (λ u f, (uURL u, f))), copies_ptr; [..|apply copies_val]. }
  intros h v t (f & Hf & ->)%fmap_Some.
  destruct (Hu h (kUpload v) (uURL (kUpload v), f)) as (u & h' & E & Hs & Hr); [by rewrite Hf|].
  exists (mkPacketV (kMode v) u (kInterface v) (kDuration v) (kFilter v) (kChunkSizeMB v)), h'.
  unfold PacketCapture_DeepCopyInto. rewrite (run_bind _ _ _ _ _ E). split; [done|]. split; [done|].
  intros h2 H2. apply Hr in H2. apply fmap_Some in H2 as (f' & Hf' & [= Hurl ->]).
  unfold rd_packet. simpl. by rewrite Hf', Hurl.
Qed.

Lemma mono_spec R : leaves_kept R → mono R rd_spec.
Proof.
  intros HR. pose proof HR as (_ & _ & _ & _ & ? & ? & _).
  by apply (mono_fields _ _ _ pLog pPacket (λ _, pair)); apply mono_ptr; [|apply mono_log| |apply mono_packet].
Qed.

Lemma copies_spec : copies rd_spec NodeDiagnosticSpec_DeepCopyInto.
Proof.
  apply (copies_fields _ _ _ _ pLog pPacket (λ _, mkSpecV) (λ _, pair)); try done.
  - apply copies_ptr; [done|apply copies_log].
  - apply mono_ptr; [apply keeps_sub|apply mono_packet, leaves_kept_sub].
  - apply copies_ptr; [done|apply copies_packet].
Qed.

Lemma mono_statuses : mono (⊆) rd_statuses.
Proof.
  apply (mono_fields _ _ _ pStatuses pConditions (λ _, pair)); apply mono_slice;
    apply keeps_sub || apply mono_val || apply mono_status, leaves_kept_sub.
Qed.

Lemma copies_statuses : copies rd_statuses NodeDiagnosticStatus_DeepCopyInto.
Proof.
  apply (copies_fields _ _ _ _ pStatuses pConditions (λ _, mkStatusesV) (λ _, pair)); try done.
  - apply copies_slice; [done|apply mono_status, leaves_kept_sub|apply copies_status].
  - apply mono_slice; [apply keeps_sub|apply mono_val].
  - apply copies_slice; [done|apply mono_val|apply copies_val].
Qed.

Lemma mono_diag : mono (⊆) rd_diag.
Proof.
  apply (mono_fields _ _ _ dSpec dStatus (λ v a b, mkTree (dMeta v) a.1 a.2 b.1 b.2));
    [apply mono_spec, leaves_kept_sub|apply mono_statuses].
Qed.

Lemma copies_diag : copies rd_diag NodeDiagnostic_DeepCopyInto.
Proof.
  apply (copies_fields _ _ _ _ dSpec dStatus (λ v, mkDiagV (dMeta v)) (λ v a b, mkTree (dMeta v) a.1 a.2 b.1 b.2)); try done.
  - apply copies_spec.
  - apply mono_statuses.
  - apply copies_statuses.
Qed.

(** The copy of a list of resources, item by item. *)
Lemma copies_diags : copies (rd_slice as_diags rd_diag) NodeDiagnosticList_DeepCopyInto.
Proof. apply copies_slice; [done|apply mono_diag|apply copies_diag]. Qed.

(** *** The write *)

(** What a write of statuses keeps: a location holds what it held, or still an array of
    statuses, or a resource. *)
Definition status_write (h h' : heap) : Prop :=
  ∀ l o, h !! l = Some o → h' !! l = Some o ∨ is_Some (as_statuses o) ∨ is_Some (as_diag o).

Lemma leaves_kept_write : leaves_kept status_write.
Proof.
  assert (H : ∀ A (as_ : obj → option A),
    (∀ o x, as_ o = Some x → as_statuses o = None ∧ as_diag o = None) → keeps status_write as_).
  { intros A as_ Ha h h' l x Hw (o & Ho & Hx)%bind_Some. destruct (Ha o x Hx) as [H1 H2].
    destruct (Hw l o Ho) as [-> |[[? ?]|[? ?]]]; [done|congruence..]. }
  repeat split; apply H; by intros [].
Qed.

Lemma status_write_refl h : status_write h h.
Proof. intros l o. auto. Qed.

Lemma status_write_alloc h h' l o : h !! l = None → status_write h h' → status_write h (<[l := o]> h').
Proof. intros Hl Hw l' o' Ho. destruct (decide (l = l')) as [->|]; [congruence|]. rewrite lookup_insert_ne by done. auto. Qed.

Lemma status_write_at {A} (as_ : obj → option A) h h' l x o :
  (∀ o x, as_ o = Some x → is_Some (as_statuses o) ∨ is_Some (as_diag o)) →
  h !! l ≫= as_ = Some x → status_write h h' → status_write h (<[l := o]> h').
Proof.
  intros Ha (o0 & Ho0 & Hx)%bind_Some Hw l' o' Ho. destruct (decide (l = l')) as [->|]; [|rewrite lookup_insert_ne by done; auto].
  rewrite Ho in Ho0. injection Ho0 as ->. right. by eapply Ha.
Qed.

Lemma is_statuses o (xs : list statusV) : as_statuses o = Some xs → is_Some (as_statuses o) ∨ is_Some (as_diag o).
Proof. eauto. Qed.

Lemma is_diag o (d : diagV) : as_diag o = Some d → is_Some (as_statuses o) ∨ is_Some (as_diag o).
Proof. eauto. Qed.

Lemma diag_not_statuses (h : heap) l l' (d : diagV) (xs : list statusV) :
  h !! l ≫= as_diag = Some d → h !! l' ≫= as_statuses = Some xs → l ≠ l'.
Proof. intros (o & Ho & Hd)%bind_Some (o' & Ho' & Hx)%bind_Some ->. rewrite Ho in Ho'. injection Ho' as ->. by destruct o'. Qed.

Lemma store_run {A} (as_ : obj → option A) (h : heap) l o x : h !! l ≫= as_ = Some x → store l o h = Some (tt, <[l := o]> h).
Proof. intros (o' & Ho & _)%bind_Some. unfold store. by rewrite Ho. Qed.

(** The new state in the list, and at its end. *)
Lemma set_found h (xs : list statusV) sts new S i x :
  mapM (rd_status h) xs = Some sts → rd_state h (sState new) = Some S →
  list_find (λ x, sType x = sType new) xs = Some (i, x) →
  mapM (rd_status h) (<[i := mkStatusV (sType x) (sState new)]> xs) = Some (NodeDiag.SetCaptureStatus sts (mkStatus (sType new) S)).
Proof.
  intros H HS. apply mapM_Some in H. intros Hf. apply mapM_Some. revert i Hf.
  induction H as [|y st xs sts Hy H IH]; intros i Hf; [done|]. simpl in Hf.
  apply fmap_Some in Hy as (s & Hs & ->). simpl. destruct (decide (sType y = sType new)) as [E|E].
  - injection Hf as <- <-. rewrite E, String.eqb_refl. simpl. constructor; [|done]. unfold rd_status. simpl. by rewrite HS.
  - apply fmap_Some in Hf as ([j z] & Hf & [= -> ->]). simpl. apply String.eqb_neq in E. rewrite E.
    constructor; [by unfold rd_status; rewrite Hs|by apply IH].
Qed.

Lemma set_missing h (xs : list statusV) sts new S :
  mapM (rd_status h) xs = Some sts → rd_state h (sState new) = Some S →
  list_find (λ x, sType x = sType new) xs = None →
  mapM (rd_status h) (xs ++ [new]) = Some (NodeDiag.SetCaptureStatus sts (mkStatus (sType new) S)).
Proof.
  intros H HS. apply mapM_Some in H. intros Hf. apply mapM_Some.
  induction H as [|y st xs sts Hy H IH]; simpl in *.
  - constructor; [|done]. unfold rd_status. by rewrite HS.
  - apply fmap_Some in Hy as (s & Hs & ->). simpl. destruct (decide (sType y = sType new)) as [E|E]; [done|].
    apply fmap_None in Hf. apply String.eqb_neq in E. rewrite E. constructor; [by unfold rd_status; rewrite Hs|auto].
Qed.

(** A resource reads as before, with the statuses of the slice it then has. *)
Lemma rd_after h h' p d s ys sts t :
  status_write h h' → rd_diag h d = Some t →
  h' !! p ≫= as_diag = Some (with_slice d s) → h' !! arr s ≫= as_statuses = Some ys → (len s <= length ys)%nat →
  mapM (rd_status h) (take (len s) ys) = Some sts →
  rd_resource h' p = Some (with_tree_statuses t sts).
Proof.
  intros Hw (sp & Hsp & ([s0 cs] & Hst & [= <-])%bind_Some)%bind_Some Hp Ha Hn Hm.
  pose proof leaves_kept_write as (HR & HR2). unfold rd_resource. rewrite Hp. simpl. unfold rd_diag. simpl.
  rewrite (mono_spec _ leaves_kept_write h h' _ sp) by done. simpl.
  apply bind_Some in Hst as (s1 & Hs1 & (c & Hc & [= -> ->])%bind_Some).
  unfold rd_statuses. simpl. rewrite Ha. simpl. rewrite (proj2 (Nat.leb_le _ _)) by done.
  rewrite (mono_mapM _ _ (mono_status _ leaves_kept_write) h h' _ sts) by done. simpl.
  rewrite (mono_slice status_write as_conditions rd_val) with (h := h) (t := cs); [done|apply leaves_kept_write|apply mono_val|done..].
Qed.

Definition status_array (d : diagV) (l : loc) : Prop := ∃ s, pStatuses (dStatus d) = Some s ∧ l = arr s.

(** A status appended to an array that is new. *)
Lemma set_grown h p d l n old new spare t sts :
  h !! p ≫= as_diag = Some d → rd_diag h d = Some t → h !! l = None →
  mapM (rd_status h) (old ++ [new]) = Some sts → length old = n →
  ∃ h', store p (ODiag (with_slice d (mkSlice l (Datatypes.S n)))) (<[l := OStatuses (old ++ new :: spare)]> h) = Some (tt, h') ∧
    (∀ l', h' !! l' = h !! l' ∨ h !! l' = None ∨ l' = p ∨ status_array d l') ∧
    rd_resource h' p = Some (with_tree_statuses t sts).
Proof.
  intros Hd Ht Hl Hm Hn. assert (Hne : l ≠ p) by (intros ->; by rewrite Hl in Hd).
  assert (Hd' : <[l:=OStatuses (old ++ new :: spare)]> h !! p ≫= as_diag = Some d) by by rewrite lookup_insert_ne.
  rewrite (store_run _ _ _ _ _ Hd'). eexists. split; [done|]. split.
  { intros l'. destruct (decide (l' = p)) as [->|]; [auto|]. destruct (decide (l' = l)) as [->|]; [auto|].
    left. by rewrite !lookup_insert_ne. }
  eapply (rd_after h _ p d (mkSlice l (Datatypes.S n))); [|done|by rewrite lookup_insert_eq| | |].
  - eapply status_write_at; [apply is_diag|exact Hd|]. by apply status_write_alloc, status_write_refl.
  - by rewrite lookup_insert_ne, lookup_insert_eq.
  - rewrite length_app. simpl. lia.
  - simpl len. rewrite (cons_middle new old spare), app_assoc, take_app_length' by (rewrite length_app; simpl; lia). done.
Qed.

Lemma set_spec grow h p new d t S :
  h !! p ≫= as_diag = Some d → rd_diag h d = Some t → rd_state h (sState new) = Some S →
  ∃ h', SetCaptureStatus grow p new h = Some (tt, h') ∧
    (∀ l, h' !! l = h !! l ∨ h !! l = None ∨ l = p ∨ status_array d l) ∧
    rd_resource h' p =
      Some (with_tree_statuses t (NodeDiag.SetCaptureStatus (default [] (tStatuses t)) (mkStatus (sType new) S))).
Proof.
  intros Hd Ht HS. unfold SetCaptureStatus. rewrite (run_bind _ _ _ _ _ (load_run _ _ _ _ Hd)).
  pose proof Ht as (sp & _ & ([s0 cs] & Hst & [= Et])%bind_Some)%bind_Some.
  apply bind_Some in Hst as (s1 & Hs1 & (c & _ & [= -> ->])%bind_Some). simpl in *.
  replace (tStatuses t) with s0 by by rewrite <- Et.
  destruct (pStatuses (dStatus d)) as [[a n]|] eqn:Es; simpl in Hs1 |- *.
  - apply bind_Some in Hs1 as (xs & Hxs & Hts). destruct (Nat.leb_spec n (length xs)) as [Hn|]; [|done].
    apply fmap_Some in Hts as (sts & Hts & ->). simpl. pose proof (diag_not_statuses _ _ _ _ _ Hd Hxs) as Hne.
    rewrite (run_bind _ _ _ _ _ (load_run _ _ _ _ Hxs)).
    destruct (list_find _ _) as [[i x]|] eqn:Hf.
    + rewrite (store_run _ _ _ _ _ Hxs). eexists. split; [done|]. split.
      { intros l. destruct (decide (l = a)) as [->|]; [unfold status_array; eauto 6|]. left. by rewrite lookup_insert_ne. }
      pose proof (set_found h _ sts new S i x Hts HS Hf) as Hset.
      eapply (rd_after h _ p d (mkSlice a n)); [|done| |by rewrite lookup_insert_eq| |].
      * by eapply status_write_at, status_write_refl; [apply is_statuses|].
      * rewrite lookup_insert_ne, Hd by done. destruct d as [? ? []]. simpl in Es. by subst.
      * by rewrite length_insert.
      * simpl. apply list_find_Some in Hf as (Hi & _ & _). apply lookup_lt_Some in Hi. rewrite length_take in Hi.
        rewrite take_insert_lt by lia. exact Hset.
    + pose proof (set_missing h _ sts new S Hts HS Hf) as Hset. destruct (Nat.ltb_spec n (length xs)) as [Hlt|Hge].
      * rewrite (run_bind _ _ _ _ _ (store_run _ _ _ _ _ Hxs)).
        assert (Hd' : <[a:=OStatuses (<[n:=new]> xs)]> h !! p ≫= as_diag = Some d) by by rewrite lookup_insert_ne.
        rewrite (store_run _ _ _ _ _ Hd'). eexists. split; [done|]. split.
        { intros l. destruct (decide (l = a)) as [->|]; [unfold status_array; eauto 6|]. destruct (decide (l = p)) as [->|]; [auto|].
          left. by rewrite !lookup_insert_ne. }
        eapply (rd_after h _ p d (mkSlice a (Datatypes.S n))); [|done|by rewrite lookup_insert_eq| | |].
        -- eapply status_write_at; [apply is_diag|exact Hd|]. eapply status_write_at, status_write_refl; [apply is_statuses|exact Hxs].
        -- by rewrite lookup_insert_ne, lookup_insert_eq.
        -- rewrite length_insert. simpl. lia.
        -- simpl len. by erewrite take_S_r, take_insert_ge by (try apply list_lookup_insert_eq; lia).
      * destruct (alloc_spec (OStatuses (take n xs ++ new :: replicate (grow n) zero_status)) h) as (l & El & Hl & _).
        rewrite (run_bind _ _ _ _ _ El). eapply (set_grown h p d l n (take n xs)); [done..|]. rewrite length_take. lia.
  - injection Hs1 as <-. simpl. destruct (alloc_spec (OStatuses (new :: replicate (grow 0%nat) zero_status)) h) as (l & El & Hl & _).
    rewrite (run_bind _ _ _ _ _ El). eapply (set_grown h p d l 0 []); try done. simpl. unfold rd_status at 1. by rewrite HS.
Qed.

(** C12. A deep copy shares nothing with what it copies.  For a resource of any shape the
    copy is made without a panic and without a write to what was there, and stands for the
    same resource in every memory that still has the copy's own locations, whatever is
    written to all others. *)
Theorem deep_copy_isolated h p t :
  rd_resource h p = Some t →
  ∃ p' h', NodeDiagnostic_DeepCopy (Some p) h = Some (Some p', h') ∧ h ⊆ h' ∧
    ∀ h2, has_new h h' h2 → rd_resource h2 p' = Some t.
Proof.
  intros H. assert (Hc : copies (rd_ptr as_diag rd_diag) NodeDiagnostic_DeepCopy) by (apply copies_ptr; [done|apply copies_diag]).
  destruct (Hc h (Some p) (Some t)) as (v & h' & E & Hs & Hr).
  { simpl. apply bind_Some in H as (x & Hx & Ht). rewrite Hx. simpl. by rewrite Ht. }
  destruct v as [p'|]; [|by specialize (Hr h' (has_new_sub h h' h' (reflexivity _)))].
  exists p', h'. split; [done|]. split; [done|]. intros h2 H2. specialize (Hr h2 H2). simpl in Hr.
  unfold rd_resource. apply bind_Some in Hr as (x & Hx & (y & Hy & [= ->])%fmap_Some). by rewrite Hx.
Qed.

(** C13. The write of a status, as it is done before every patch, is the one of [NodeDiag] on
    values: the copy that the patch is computed from still is the resource before, and the
    resource has the new status where [NodeDiag.SetCaptureStatus] puts it and is otherwise
    the same, whatever spare capacity its slices have. *)
Theorem stored_then_set_refines grow h p new t S :
  rd_resource h p = Some t → rd_state h (sState new) = Some S →
  ∃ p' h' t', stored_then_set grow p new h = Some (Some p', h') ∧
    rd_resource h' p' = Some t ∧ rd_resource h' p = Some t' ∧ tConditions t' = tConditions t ∧
    as_resource t' = with_statuses (as_resource t)
      (NodeDiag.SetCaptureStatus (CaptureStatuses (as_resource t)) (mkStatus (sType new) S)).
Proof.
  intros Ht HS. assert (Hc : copies (rd_ptr as_diag rd_diag) NodeDiagnostic_DeepCopy) by (apply copies_ptr; [done|apply copies_diag]).
  pose proof Ht as (d & Hd & Hdt)%bind_Some.
  destruct (Hc h (Some p) (Some t)) as (v & h1 & E & Hs & Hr); [simpl; rewrite Hd; simpl; by rewrite Hdt|].
  destruct v as [p'|]; [|by specialize (Hr h1 (has_new_sub h h1 h1 (reflexivity _)))].
  destruct (set_spec grow h1 p new d t S) as (h' & E' & Hkeep & Hrd).
  { by eapply keeps_sub. } { by eapply mono_diag. } { by eapply mono_state; [apply leaves_kept_sub|..]. }
  eexists p', h', _. split.
  { unfold stored_then_set. rewrite (run_bind _ _ _ _ _ E). by rewrite (run_bind _ _ _ _ _ E'). }
  split; [|by split].
  assert (Hnew : has_new h h1 h').
  { intros l o Hl Hnone. destruct (Hkeep l) as [->|[?|[->|(s & Es & ->)]]]; [done|congruence|..].
    - by rewrite Hnone in Hd.
    - apply bind_Some in Hdt as (? & _ & (? & Hst & _)%bind_Some). unfold rd_statuses in Hst. rewrite Es in Hst. simpl in Hst.
      by rewrite Hnone in Hst. }
  specialize (Hr h' Hnew). simpl in Hr. apply bind_Some in Hr as (x & Hx & (y & Hy & [= ->])%fmap_Some).
  unfold rd_resource. by rewrite Hx.
Qed.
End Memory.

(** ** Concrete memories *)

(** A resource with a running log capture, whose array of statuses has room for one more. *)
Definition ex_memory : gmap loc (obj (M := string * Z) (C := ())) :=
  list_to_map
    [(1%positive, ODiag (mkDiagV ("node", 2) (mkSpecV (Some 4%positive) None) (mkStatusesV (Some (mkSlice 2 1)) None)));
     (2%positive, OStatuses [mkStatusV CaptureTypeLog (mkStateV (Some 3%positive) None); zero_status]);
     (3%positive, ORunning (mkRunning 5 EmptyString));
     (4%positive, OLog (mkLogV "node" (Some (mkSlice 5 1))));
     (5%positive, OCategories ["Base"]);
     (6%positive, ORunning (mkRunning 7 "id"))].

Definition ex_resource : tree (M := string * Z) (C := ()) :=
  mkTree ("node", 2) (Some (mkLogT "node" (Some ["Base"]))) None
    (Some [mkStatus CaptureTypeLog (mkState (Some (mkRunning 5 EmptyString)) None)]) None.

Lemma deep_copy_isolated_witness : rd_resource ex_memory 1 = Some ex_resource ∧
  ∃ p' h', NodeDiagnostic_DeepCopy (Some 1%positive) ex_memory = Some (Some p', h') ∧
    rd_resource (delete 1%positive (delete 2%positive (delete 3%positive (delete 4%positive (delete 5%positive (delete 6%positive h')))))) p'
    = Some ex_resource.
Proof.
  assert (H : rd_resource ex_memory 1 = Some ex_resource) by reflexivity. split; [exact H|].
  destruct (deep_copy_isolated ex_memory 1 ex_resource H) as (p' & h' & E & _ & Hr). exists p', h'. split; [exact E|].
  apply Hr. intros l o Hl Hnone.
  assert (Hne : ∀ k, is_Some (ex_memory !! k) → k ≠ l) by (intros k [? Hk] ->; congruence).
  rewrite !lookup_delete_ne; [exact Hl|apply Hne; eexists; reflexivity ..].
Defined.

Lemma stored_then_set_refines_witness : ∃ p' h' t',
  stored_then_set (λ _, 0%nat) 1 (mkStatusV CaptureTypePacket (mkStateV (Some 6%positive) None)) ex_memory = Some (Some p', h') ∧
  rd_resource h' p' = Some ex_resource ∧ rd_resource h' 1 = Some t' ∧
  CaptureStatuses (as_resource fst snd t') =
    [mkStatus CaptureTypeLog (mkState (Some (mkRunning 5 EmptyString)) None);
     mkStatus CaptureTypePacket (mkState (Some (mkRunning 7 "id")) None)].
Proof.
  destruct (stored_then_set_refines fst snd (λ _, 0%nat) ex_memory 1
    (mkStatusV CaptureTypePacket (mkStateV (Some 6%positive) None)) ex_resource (mkState (Some (mkRunning 7 "id")) None))
    as (p' & h' & t' & E & H1 & H2 & _ & H3); [reflexivity|reflexivity|].
  exists p', h', t'. split; [exact E|]. split; [exact H1|]. split; [exact H2|]. rewrite H3. reflexivity.
Defined.
