(* ===== verification/Controller.v ===== *)
(** * Controller: how the NodeDiagnostic controller is set up, and the archives it leaves on
    the node ([pkg/controllers/nodediagnostic.go]: [NewNodeDiagnosticController], [Register]
    and the goroutine that [handleLogCapture] starts after saving an archive).

    [NodeDiag] models what the controller does with a resource and with the events of the
    watch. *)

From S2P Require Import Prelude GoStrings Paths NodeDiag.

(** ** The controller *)

(** The controller, with no capture and no collection outstanding. *)
Definition NewNodeDiagnosticController (name : string) : controller * slot :=
  (mkController name None [] 0, mkSlot false 0 []).

Definition MaxConcurrentReconciles : nat := 1.

(** [complete] is the error of building the controller, [add] that of adding the runnable. *)
Definition Register (complete add : option string) : option string :=
  match complete with Some err => Some err | None => add end.

(** The runnable that cancels captures: the error it returns at once, [None] when it watches
    until the agent stops. *)
Definition watcher (informer handler : option string) : option string :=
  match informer, handler with
  | Some err, _ => Some (prefixed "failed to get informer for NodeDiagnostic" err)
  | None, Some err => Some (prefixed "failed to add event handler" err)
  | None, None => None
  end.

(** What the watch of a controller does with an event: the reconciler's queue may take it,
    and the runnable, when it watches, hands it to the handler for its kind. *)
Definition watch (watching : bool) (e : watchEvent) (c : controller) : bool * controller :=
  (event_filter (nodeName c) e,
   if watching then match informer_event e with Some ev => handle ev c | None => c end else c).

(** Without the runnable a deletion cancels nothing, and is not reconciled either. *)
Lemma unwatched_deletion obj c : watch false (Deleted obj) c = (false, c).
Proof. done. Qed.

(** A new controller has nothing to cancel. *)
Lemma new_idle name e : snd (watch true e (fst (NewNodeDiagnosticController name))) = fst (NewNodeDiagnosticController name).
Proof.
  unfold watch. simpl. destruct e as [obj|old new|obj|obj]; simpl; try done.
  - unfold handleSpecChange. by repeat case_match.
  - unfold handleDelete. by repeat case_match.
Qed.

(** ** The archive on the node *)

Definition deleteAfter : Duration := 600 * Second.

(** What the file of the archives holds, with the time of the save: a whole archive, or what
    a save that failed wrote. *)
Inductive saved := Archive (t : Time) | Partial (t : Time).

(** [timers] are the times at which the goroutines of earlier saves delete the file. *)
Record support := mkSupport { file : option saved; timers : list Time }.

Definition no_archive : support := mkSupport None [].

Inductive supportEvent := Save (now : Time) | SaveFailed (now : Time) | Fire (due : Time).

(** [Remove] of a file that is not there is no error. *)
Definition support_step (s : support) (e : supportEvent) : option support :=
  match e with
  | Save now => Some (mkSupport (Some (Archive now)) (now + deleteAfter :: timers s))
  | SaveFailed now => Some (mkSupport (Some (Partial now)) (timers s))
  | Fire due => if bool_decide (due ∈ timers s) then Some (mkSupport None (list_difference (timers s) [due])) else None
  end.

Fixpoint support_run (s : support) (es : list supportEvent) : option support :=
  match es with [] => Some s | e :: es' => s' ← support_step s e; support_run s' es' end.

Definition archive_ok (s : support) : Prop := ∀ t, file s = Some (Archive t) → t + deleteAfter ∈ timers s.

Lemma archive_ok_run s es s' : archive_ok s → support_run s es = Some s' → archive_ok s'.
Proof.
  revert s. induction es as [|e es IH]; simpl; intros s Hs; [by intros [= <-]|].
  destruct (support_step s e) as [s1|] eqn:E; [|done]. apply IH. revert E.
  destruct e as [now|now|due]; simpl; [| |case_bool_decide; [|done]]; intros [= <-] t; simpl; try done.
  intros [= <-]. apply list_elem_of_here.
Qed.

(** An archive does not outlive its ten minutes: when no timer is overdue it is younger. *)
Lemma archive_deleted es s now t :
  support_run no_archive es = Some s → (∀ due, due ∈ timers s → now < due) →
  file s = Some (Archive t) → now < t + deleteAfter.
Proof. intros Hr Hd Hf. apply Hd. by apply (archive_ok_run no_archive es s). Qed.

(** It may be deleted earlier: a second archive has the name of the first, whose goroutine
    deletes it; here after 100 seconds. *)
Example archive_deleted_early :
  support_run no_archive [Save 0; Save (500 * Second); Fire (600 * Second)]
  = Some (mkSupport None [1100 * Second]).
Proof. vm_compute. reflexivity. Qed.

(** What a failed save wrote stays. *)
Lemma partial_stays now : support_run no_archive [SaveFailed now] = Some (mkSupport (Some (Partial now)) []).
Proof. done. Qed.
