(* ===== verification/GoFloat.v ===== *)
(** * GoFloat: the float64 arithmetic of the monitors.

    A float64 is a [spec_float] of 53 bits of precision and exponents up to 1024, with
    the rounding of IEEE 754; [%f] prints the exact value rounded to the digits asked
    for, halves to even, as [strconv] does. *)

From S2P Require Import Prelude GoStrings.
From Stdlib Require Import SpecFloat.

Abbreviation float64 := spec_float.

Definition of_int (z : Z) : float64 := binary_normalize 53 1024 z 0 false.
Definition fdiv (a b : float64) : float64 := SFdiv 53 1024 a b.
Definition fmul (a b : float64) : float64 := SFmul 53 1024 a b.
Definition flt (a b : float64) : bool := SFltb a b.

(** [m * 10 ^ e], rounded once. *)
Definition round_decimal (negative : bool) (m e : Z) : float64 :=
  match m with
  | Zpos _ => fdiv (S754_finite negative (Z.to_pos (m * 10 ^ Z.max e 0)) 0) (S754_finite false (Z.to_pos (10 ^ Z.max (- e) 0)) 0)
  | _ => S754_zero negative
  end.

Definition is_infinite (f : float64) : bool := match f with S754_infinity _ => true | _ => false end.

(** The constants 0.7 and 0.10. *)
Definition f0_7 : float64 := fdiv (of_int 7) (of_int 10).
Definition f0_1 : float64 := fdiv (of_int 1) (of_int 10).

(** [n / d] rounded to the nearest integer, halves to even. *)
Definition round_even (n d : Z) : Z :=
  let q := n / d in
  let r := n mod d in
  if 2 * r <? d then q else if d <? 2 * r then q + 1 else if Z.even q then q else q + 1.

(** The digits of [z], at least [width] of them. *)
Definition pad_digits (width : nat) (z : Z) : string :=
  let s := Itoa z in
  string_of_codes (replicate (width - String.length s) 48%nat) +:+ s.

(** [%.nf]. *)
Definition FormatFixed (prec : nat) (f : float64) : string :=
  let sign (b : bool) s := if b then "-" +:+ s else s in
  let fixed (z : Z) :=
    let p := 10 ^ Z.of_nat prec in
    match prec with
    | O => Itoa z
    | _ => Itoa (z / p) +:+ "." +:+ pad_digits prec (z mod p)
    end in
  match f with
  | S754_nan => "NaN"
  | S754_infinity b => if b then "-Inf" else "+Inf"
  | S754_zero b => sign b (fixed 0)
  | S754_finite b m e =>
      let n := Zpos m * 10 ^ Z.of_nat prec in
      sign b (fixed (if 0 <=? e then n * 2 ^ e else round_even n (2 ^ (- e))))
  end.

Example format_ex :
  (FormatFixed 1 (fmul (fdiv (of_int 3) (of_int 4)) (of_int 100)), FormatFixed 0 (of_int 12345),
   FormatFixed 1 (fdiv (of_int 1) (of_int 4)), FormatFixed 1 (fdiv (of_int 5) (of_int 100)),
   FormatFixed 1 (fdiv (of_int 1) (of_int 0))) = ("75.0", "12345", "0.2", "0.1", "+Inf").
Proof. vm_compute. reflexivity. Qed.

Example f0_7_ex : (f0_7, f0_1) = (S754_finite false 6305039478318694 (-53), S754_finite false 7205759403792794 (-56)).
Proof. vm_compute. reflexivity. Qed.

Example round_decimal_ex :
  (round_decimal false 7 (-1), round_decimal false 10 (-2), round_decimal false 5 (-324), is_infinite (round_decimal false 1 309),
   flt (round_decimal false 1599 (-2)) (of_int 16)) = (f0_7, f0_1, S754_finite false 1 (-1074), true, true).
Proof. vm_compute. reflexivity. Qed.
