(* ===== verification/GoRegexp.v ===== *)
(** * GoRegexp: the regular expressions of the monitors ([regexp]).

    An expression is a sequence of literals, alternatives of literals, classes of bytes and
    repetitions of a class.  The strings are taken to be ASCII where a class is read once.  A greedy repetition takes as many bytes as it can and gives them
    back one by one, a lazy one takes as few as it can; a search takes the leftmost
    match, and there the first that backtracking finds, which is what
    [FindStringSubmatch] returns.  The lemmas state that the search finds a match when
    there is one, and what the groups of a line of known shape are. *)

From S2P Require Import Prelude GoStrings.

Inductive atom :=
| Lit (s : string)
| Or (alternatives : list string)
| One (f : Ascii.ascii → bool)
| Rep (least : nat) (f : Ascii.ascii → bool) (greedy group : bool).

Abbreviation regex := (list atom).

(** The classes [.], [\s], [\d] and [\w]. *)
Definition dot (c : Ascii.ascii) : bool := negb (Ascii.eqb c (byte_of 10)).
Definition blankbyte (c : Ascii.ascii) : bool :=
  bool_decide (Ascii.nat_of_ascii c ∈ [9; 10; 12; 13; 32]%nat).
Definition digitbyte (c : Ascii.ascii) : bool :=
  let n := Ascii.nat_of_ascii c in ((48 <=? n) && (n <=? 57))%nat.
Definition wordbyte (c : Ascii.ascii) : bool :=
  let n := Ascii.nat_of_ascii c in
  ((48 <=? n) && (n <=? 57) || (65 <=? n) && (n <=? 90) || (97 <=? n) && (n <=? 122) || (n =? 95))%nat.

(** [.*] *)
Definition any : atom := Rep 0 dot true false.

(** The number of bytes of the class at the start of [s]. *)
Fixpoint run_length (f : Ascii.ascii → bool) (s : string) : nat :=
  match s with
  | String c s' => if f c then S (run_length f s') else O
  | EmptyString => O
  end.

(** The lengths a repetition tries, in order. *)
Definition lengths (greedy : bool) (least most : nat) : list nat :=
  let l := seq least (S most - least) in if greedy then rev l else l.

Fixpoint first_of {A B} (k : A → option B) (l : list A) : option B :=
  match l with
  | [] => None
  | a :: l' => match k a with Some b => Some b | None => first_of k l' end
  end.

(** The groups of the match at the start of [s]. *)
Fixpoint match_at (r : regex) (s : string) : option (list string) :=
  match r with
  | [] => Some []
  | Lit p :: r' => match CutPrefix s p with Some s' => match_at r' s' | None => None end
  | Or ps :: r' => first_of (λ p, match CutPrefix s p with Some s' => match_at r' s' | None => None end) ps
  | One f :: r' => match s with String c s' => if f c then match_at r' s' else None | EmptyString => None end
  | Rep least f greedy group :: r' =>
      first_of
        (λ n, match match_at r' (drop_bytes n s) with
              | Some caps => Some (if group then take_bytes n s :: caps else caps)
              | None => None
              end)
        (lengths greedy least (run_length f s))
  end.

(** [FindStringSubmatch], without the whole match. *)
Fixpoint FindSubmatch (r : regex) (s : string) : option (list string) :=
  match match_at r s with
  | Some caps => Some caps
  | None => match s with EmptyString => None | String _ s' => FindSubmatch r s' end
  end.

Definition MatchString (r : regex) (s : string) : bool :=
  match FindSubmatch r s with Some _ => true | None => false end.

(** ** What the search finds *)

Fixpoint all_bytes (f : Ascii.ascii → bool) (s : string) : bool :=
  match s with EmptyString => true | String c s' => f c && all_bytes f s' end.

(** The expression denotes [s] with groups [caps]. *)
Inductive denotes : regex → string → list string → Prop :=
| denotes_nil : denotes [] EmptyString []
| denotes_lit p r s caps : denotes r s caps → denotes (Lit p :: r) (p +:+ s) caps
| denotes_or p ps r s caps : p ∈ ps → denotes r s caps → denotes (Or ps :: r) (p +:+ s) caps
| denotes_one f r c s caps : f c = true → denotes r s caps → denotes (One f :: r) (String c s) caps
| denotes_rep least f greedy (group : bool) r w s caps :
    all_bytes f w = true → (least ≤ String.length w)%nat → denotes r s caps →
    denotes (Rep least f greedy group :: r) (w +:+ s) (if group then w :: caps else caps).

Lemma run_length_app f w s : all_bytes f w = true → (String.length w ≤ run_length f (w +:+ s))%nat.
Proof.
  induction w as [|c w IH]; simpl; [lia|]. intros [-> H]%andb_true_iff. specialize (IH H). lia.
Qed.

Lemma run_length_all f w : all_bytes f w = true → run_length f w = String.length w.
Proof. induction w as [|c w IH]; simpl; [done|]. intros [-> H]%andb_true_iff. by rewrite IH. Qed.

Lemma take_run f s n :
  (n ≤ run_length f s)%nat → all_bytes f (take_bytes n s) = true ∧ String.length (take_bytes n s) = n.
Proof.
  revert s. induction n as [|n IH]; intros [|c s]; simpl; try done; [lia|].
  destruct (f c); [|lia]. intros Hn. destruct (IH s) as [-> ->]; [lia|done].
Qed.

Lemma first_of_some {A B} (k : A → option B) l b : first_of k l = Some b → ∃ a, a ∈ l ∧ k a = Some b.
Proof.
  induction l as [|a l IH]; simpl; [done|]. destruct (k a) eqn:E.
  - intros [= <-]. exists a. split; [left|done].
  - intros (a' & ? & ?)%IH. exists a'. split; [by right|done].
Qed.

Lemma first_of_none {A B} (k : A → option B) l : first_of k l = None ↔ ∀ a, a ∈ l → k a = None.
Proof.
  induction l as [|a l IH]; simpl.
  - split; [intros _ a Ha; by apply not_elem_of_nil in Ha|done].
  - destruct (k a) eqn:E.
    + split; [done|]. intros H. rewrite (H a) in E; [done|left].
    + rewrite IH. split.
      * intros H a' [->|]%elem_of_cons; auto.
      * intros H a' ?. apply H. by right.
Qed.

Lemma first_of_app {A B} (k : A → option B) l a l' b :
  (∀ x, x ∈ l → k x = None) → k a = Some b → first_of k (l ++ a :: l') = Some b.
Proof.
  intros Hl Ha. induction l as [|x l IH]; simpl; [by rewrite Ha|].
  rewrite (Hl x) by left. apply IH. intros y ?. apply Hl. by right.
Qed.

Lemma elem_of_lengths g least most n : n ∈ lengths g least most ↔ (least ≤ n ≤ most)%nat.
Proof.
  unfold lengths. destruct g; rewrite ?list_elem_of_In, <- ?in_rev, ?in_seq, ?list_elem_of_In, ?in_seq; lia.
Qed.

(** A greedy repetition takes the longest length that works. *)
Lemma first_of_longest {B} (k : nat → option B) least most n b :
  (least ≤ n ≤ most)%nat → k n = Some b → (∀ i, (n < i ≤ most)%nat → k i = None) →
  first_of k (lengths true least most) = Some b.
Proof.
  intros Hn Hb Hi. unfold lengths.
  replace (S most - least)%nat with ((n - least) + S (most - n))%nat by lia.
  rewrite seq_app, rev_app_distr. replace (least + (n - least))%nat with n by lia.
  cbn [seq rev]. rewrite <- app_assoc. apply first_of_app; [|done].
  intros x Hx. rewrite list_elem_of_In, <- in_rev, in_seq in Hx. apply Hi. lia.
Qed.

(** A lazy one the shortest. *)
Lemma first_of_shortest {B} (k : nat → option B) least most n b :
  (least ≤ n ≤ most)%nat → k n = Some b → (∀ i, (least ≤ i < n)%nat → k i = None) →
  first_of k (lengths false least most) = Some b.
Proof.
  intros Hn Hb Hi. unfold lengths.
  replace (S most - least)%nat with ((n - least) + S (most - n))%nat by lia.
  rewrite seq_app. replace (least + (n - least))%nat with n by lia.
  cbn [seq]. apply first_of_app; [|done].
  intros x Hx. rewrite list_elem_of_In, in_seq in Hx. apply Hi. lia.
Qed.

Lemma CutPrefix_app p s : CutPrefix (p +:+ s) p = Some s.
Proof. by apply CutPrefix_spec. Qed.

Lemma match_at_sound r s caps : match_at r s = Some caps → ∃ u v, s = u +:+ v ∧ denotes r u caps.
Proof.
  revert s caps. induction r as [|[p|ps|f|least f gr g] r IH]; intros s caps; cbn [match_at].
  - intros [= <-]. exists EmptyString, s. split; [done|constructor].
  - destruct (CutPrefix s p) as [t|] eqn:E; [|done]. apply CutPrefix_spec in E as ->.
    intros (u & v & -> & Hd)%IH. exists (p +:+ u), v. split; [apply sapp_assoc|by constructor].
  - intros (p & Hp & Hk)%first_of_some.
    destruct (CutPrefix s p) as [t|] eqn:E; [|done]. apply CutPrefix_spec in E as ->.
    apply IH in Hk as (u & v & -> & Hd). exists (p +:+ u), v. split; [apply sapp_assoc|by constructor].
  - destruct s as [|c s]; [done|]. destruct (f c) eqn:Hc; [|done].
    intros (u & v & -> & Hd)%IH. exists (String c u), v. split; [done|by constructor].
  - intros (m & Hm%elem_of_lengths & Hk)%first_of_some.
    destruct (match_at r (drop_bytes m s)) as [caps'|] eqn:E; [|done]. injection Hk as <-.
    apply IH in E as (u & v & Huv & Hd). destruct (take_run f s m) as [Ha Hl]; [lia|].
    exists (take_bytes m s +:+ u), v. split.
    + rewrite <- sapp_assoc, <- Huv. apply take_drop_bytes.
    + constructor; [done|rewrite Hl; lia|done].
Qed.

Lemma match_at_complete r u v caps : denotes r u caps → match_at r (u +:+ v) ≠ None.
Proof.
  intros Hd. revert v.
  induction Hd as [|p r s caps Hd IH|p ps r s caps Hp Hd IH|f r c s caps Hc Hd IH|least f gr g r w s caps Hw Hl Hd IH];
    intros v; cbn [match_at]; rewrite <- ?sapp_assoc; [done|..].
  - rewrite CutPrefix_app. apply IH.
  - intros Hn. rewrite first_of_none in Hn. specialize (Hn p Hp). rewrite CutPrefix_app in Hn. by apply (IH v).
  - cbn [String.append]. rewrite Hc. apply IH.
  - intros Hn. rewrite first_of_none in Hn. specialize (Hn (String.length w)).
    rewrite drop_bytes_app, elem_of_lengths in Hn. destruct (match_at r (s +:+ v)) eqn:E; [|by apply (IH v)].
    discriminate Hn. split; [done|]. by apply run_length_app.
Qed.

Lemma FindSubmatch_sound r s caps :
  FindSubmatch r s = Some caps → ∃ a u v, s = a +:+ u +:+ v ∧ denotes r u caps.
Proof.
  induction s as [|c s IH]; cbn [FindSubmatch]; destruct (match_at r _) eqn:E; try done.
  - intros [= <-]. apply match_at_sound in E as (u & v & -> & Hd). by exists EmptyString, u, v.
  - intros [= <-]. apply match_at_sound in E as (u & v & -> & Hd). by exists EmptyString, u, v.
  - intros (a & u & v & -> & Hd)%IH. by exists (String c a), u, v.
Qed.

(** The search succeeds exactly on the strings with a part the expression denotes. *)
Lemma MatchString_spec r s :
  MatchString r s = true ↔ ∃ a u v caps, s = a +:+ u +:+ v ∧ denotes r u caps.
Proof.
  unfold MatchString. split.
  - destruct (FindSubmatch r s) as [caps|] eqn:E; [|done]. intros _.
    apply FindSubmatch_sound in E as (a & u & v & -> & Hd). by exists a, u, v, caps.
  - intros (a & u & v & caps & -> & Hd). induction a as [|c a IH].
    + change (EmptyString +:+ u +:+ v) with (u +:+ v). pose proof (match_at_complete r u v caps Hd).
      destruct (u +:+ v) eqn:E; cbn [FindSubmatch]; by destruct (match_at r _).
    + cbn [String.append FindSubmatch]. by destruct (match_at r _).
Qed.

(** *** Lines of known shape *)

Lemma denotes_lit_occurs r s caps p : denotes r s caps → Lit p ∈ r → Contains s p = true.
Proof.
  intros Hd Hp. apply Contains_spec. induction Hd as [|q r s caps Hd IH|q ps r s caps _ Hd IH|f r c s caps _ Hd IH|least f gr g r w s caps _ _ Hd IH].
  - by apply not_elem_of_nil in Hp.
  - apply elem_of_cons in Hp as [[= ->]|Hp]; [by exists EmptyString, s|].
    destruct (IH Hp) as (a & b & ->). exists (q +:+ a), b. apply sapp_assoc.
  - apply elem_of_cons in Hp as [[=]|Hp].
    destruct (IH Hp) as (a & b & ->). exists (q +:+ a), b. apply sapp_assoc.
  - apply elem_of_cons in Hp as [[=]|Hp].
    destruct (IH Hp) as (a & b & ->). by exists (String c a), b.
  - apply elem_of_cons in Hp as [[=]|Hp].
    destruct (IH Hp) as (a & b & ->). exists (w +:+ a), b. apply sapp_assoc.
Qed.

Lemma Contains_trans s p q : Contains s p = true → Contains p q = true → Contains s q = true.
Proof.
  intros (a & b & ->)%Contains_spec (c & d & ->)%Contains_spec. apply Contains_spec.
  exists (a +:+ c), (d +:+ b). by rewrite !sapp_assoc.
Qed.

(** A line without a literal of the expression does not match. *)
Lemma FindSubmatch_none r s p q :
  Lit p ∈ r → Contains p q = true → Contains s q = false → FindSubmatch r s = None.
Proof.
  intros Hp Hq Hs. destruct (FindSubmatch r s) as [caps|] eqn:E; [|done].
  apply FindSubmatch_sound in E as (a & u & v & -> & Hd).
  apply (denotes_lit_occurs _ _ _ p) in Hd; [|done].
  rewrite (Contains_trans _ p q) in Hs; [done| |done].
  apply (Contains_trans _ u); [|done]. apply Contains_spec. by exists a, v.
Qed.

Lemma FindSubmatch_at_start r s caps : match_at r s = Some caps → FindSubmatch r s = Some caps.
Proof. intros H. destruct s; cbn [FindSubmatch]; by rewrite H. Qed.

Lemma match_at_lit p r s : match_at (Lit p :: r) (p +:+ s) = match_at r s.
Proof. cbn [match_at]. by rewrite CutPrefix_app. Qed.

Lemma drop_bytes_add n m s : drop_bytes (n + m) s = drop_bytes m (drop_bytes n s).
Proof. revert s. induction n as [|n IH]; intros [|c s]; simpl; try done. by destruct m. Qed.

(** Dropping more than [w] from [w ++ p ++ t] leaves a string where [p] does not start,
    when [p] does not occur again. *)
Lemma no_later_prefix w p t n :
  Contains (drop_bytes 1 (p +:+ t)) p = false → (String.length w < n)%nat →
  CutPrefix (drop_bytes n (w +:+ p +:+ t)) p = None.
Proof.
  intros Hc Hn. replace n with (String.length w + (1 + (n - String.length w - 1)))%nat by lia.
  rewrite drop_bytes_add, drop_bytes_app, drop_bytes_add.
  set (s := drop_bytes 1 (p +:+ t)) in *. set (m := (n - _ - 1)%nat).
  destruct (CutPrefix (drop_bytes m s) p) as [u|] eqn:E; [|done]. apply CutPrefix_spec in E.
  assert (Contains s p = true) as Hs; [|congruence].
  apply Contains_spec. exists (take_bytes m s), u. rewrite <- E. apply take_drop_bytes.
Qed.

(** A group before a literal that does not occur again ends at that literal. *)
Lemma match_at_rep_lit f (g : bool) p r w t caps :
  all_bytes f w = true → w ≠ EmptyString → Contains (drop_bytes 1 (p +:+ t)) p = false →
  match_at r t = Some caps →
  match_at (Rep 1 f true g :: Lit p :: r) (w +:+ p +:+ t) = Some (if g then w :: caps else caps).
Proof.
  intros Hw Hne Hc Hr. cbn [match_at].
  apply (first_of_longest _ _ _ (String.length w)).
  - split; [destruct w; [done|simpl; lia]|by apply run_length_app].
  - by rewrite drop_bytes_app, CutPrefix_app, Hr, take_bytes_app.
  - intros i Hi. by rewrite no_later_prefix by (done || lia).
Qed.

(** A group at the end takes the rest of a line of its class. *)
Lemma match_at_rep_end f (g : bool) w :
  all_bytes f w = true → w ≠ EmptyString →
  match_at [Rep 1 f true g] w = Some (if g then [w] else []).
Proof.
  intros Hw Hne. cbn [match_at]. apply (first_of_longest _ _ _ (String.length w)).
  - rewrite run_length_all by done. destruct w; [done|simpl; lia].
  - rewrite <- (sapp_nil_r w) at 2. by rewrite take_bytes_app.
  - intros i. rewrite run_length_all by done. lia.
Qed.

Lemma run_length_stop f w c s :
  all_bytes f w = true → f c = false → run_length f (w +:+ String c s) = String.length w.
Proof.
  intros Hw Hc. induction w as [|d w IH]; simpl in *; [by rewrite Hc|].
  apply andb_true_iff in Hw as [-> Hw]. by rewrite IH.
Qed.

(** A group before a byte outside its class takes all the bytes before it. *)
Lemma match_at_rep_stop f (g : bool) r w c s caps :
  all_bytes f w = true → w ≠ EmptyString → f c = false → match_at r (String c s) = Some caps →
  match_at (Rep 1 f true g :: r) (w +:+ String c s) = Some (if g then w :: caps else caps).
Proof.
  intros Hw Hne Hc Hr. cbn [match_at]. rewrite run_length_stop by done.
  apply (first_of_longest _ _ _ (String.length w)).
  - destruct w; [done|simpl; lia].
  - by rewrite drop_bytes_app, Hr, take_bytes_app.
  - intros i. lia.
Qed.

Lemma match_at_rep_stop_lit f (g : bool) p r w s caps :
  all_bytes f w = true → w ≠ EmptyString → match p with String c _ => f c = false | _ => False end →
  match_at r s = Some caps →
  match_at (Rep 1 f true g :: Lit p :: r) (w +:+ p +:+ s) = Some (if g then w :: caps else caps).
Proof.
  intros Hw Hne Hc Hr. destruct p as [|c p]; [done|]. cbn [String.append].
  apply match_at_rep_stop; try done. change (String c (p +:+ s)) with (String c p +:+ s).
  by rewrite match_at_lit.
Qed.

(** The first alternative that starts the string is taken when the rest matches. *)
Lemma match_at_or ps p qs r s caps :
  (∀ q, q ∈ ps → CutPrefix (p +:+ s) q = None) → match_at r s = Some caps →
  match_at (Or (ps ++ p :: qs) :: r) (p +:+ s) = Some caps.
Proof.
  intros Hps Hr. cbn [match_at]. apply first_of_app.
  - intros q Hq. by rewrite Hps.
  - by rewrite CutPrefix_app.
Qed.
