(* ===== verification/Osext.v ===== *)
(** * Osext: numbers read from the files of the kernel ([pkg/osext]: procfs.go, sysfs.go).

    The content of a file is an argument: its bytes or the error of the read. *)

From S2P Require Import Prelude GoStrings.

(** The integer a string spells, of any size, and the errors of [strconv]. *)
Definition spelled (s : string) : option Z :=
  match s with
  | String c s' =>
      if Ascii.eqb c (byte_of 45) then Z.opp <$> digits s'
      else if Ascii.eqb c (byte_of 43) then digits s'
      else digits s
  | EmptyString => None
  end.

Inductive NumErr := ErrSyntax | ErrRange.

Definition num_error (fn s : string) (e : NumErr) : string :=
  "strconv." +:+ fn +:+ ": parsing " +:+ Quote s +:+ ": " +:+
  match e with ErrSyntax => "invalid syntax" | ErrRange => "value out of range" end.

(** [strconv.ParseInt(s, 10, 64)]: the value, which is the nearest one of the range on a
    range error, and the error. *)
Definition ParseInt (s : string) : Z * option NumErr :=
  match spelled s with
  | None => (0, Some ErrSyntax)
  | Some z => if z <? min_int64 then (min_int64, Some ErrRange)
              else if max_int64 <? z then (max_int64, Some ErrRange)
              else (z, None)
  end.

(** A conversion by [fn], [Atoi] or [ParseInt], whose error is returned. *)
Definition parse_number (fn s : string) : result string Z :=
  match ParseInt s with
  | (z, None) => Ok z
  | (_, Some e) => Err (num_error fn s e)
  end.

Definition ParseSysctl {A} (file : result string string) (parser : string → result string A) : result string A :=
  raw <-? file ;; parser (TrimSpace raw).

Definition ReadInt (file : result string string) : result string Z :=
  raw <-? file ;; parse_number "Atoi" (TrimSpace raw).

(** The two readings of an integer agree. *)
Lemma parse_number_Atoi fn s z : parse_number fn s = Ok z ↔ Atoi s = Some z.
Proof.
  assert (Atoi s = (z ← spelled s; if (min_int64 <=? z) && (z <=? max_int64) then Some z else None)) as ->.
  { unfold Atoi, spelled. by destruct s. }
  unfold parse_number, ParseInt. destruct (spelled s) as [n|]; simpl; [|split; discriminate].
  destruct (Z.ltb_spec n min_int64), (Z.ltb_spec max_int64 n), (Z.leb_spec min_int64 n), (Z.leb_spec n max_int64);
    simpl; try lia; split; intros H'; inversion H'; subst; try done; unfold min_int64, max_int64 in *; lia.
Qed.
