(* ===== verification/IPRoutes.v ===== *)
(** * IPRoutes: the check of the rules and routes of pod addresses
    ([monitors/networking/monitor.go], [handleIPRulesAndRoutes] and
    [checkIPRulesAndRoutes]; [monitors/networking/exec/ip.go]).

    The order in which Go ranges over a map is not specified: [range] is an argument,
    a permutation of the map's entries.  The theorem reads the check on the lines that
    [ip rule] and [ip route] print: which conditions it reports, for every listing. *)

From S2P Require Import Prelude GoStrings GoNet GoRegexp Monitor Reasons.

Definition Hybrid : string := "hybrid".
Definition EKSAuto : string := "eks-auto".

(** ** exec/ip.go *)

(** The lines of the commands whose output was read, [None] for one that failed; the
    error is lost. *)
Definition command_lines (outs : list (option string)) : list string :=
  outs ≫= λ o, match o with Some out => Split out (byte_of 10) | None => [] end.

(** [ip rule show] and [ip -6 rule show]. *)
Definition GetRules (v4 v6 : option string) : list string := command_lines [v4; v6].
(** [ip route show table all] and [ip -6 route show table all]. *)
Definition GetRoutes (v4 v6 : option string) : list string := command_lines [v4; v6].

(** ** The addresses of the node *)

Definition ModeIPv4 : Z := 0.
Definition ModeIPv6 : Z := 1.

(** The fields of an address of the [enis] endpoint of IPAMD. *)
Record AddressInfo := mkAddress {
  Address : string; ContainerID : string; IfName : string; NetworkName : string }.
Record ENI := mkENI { IsPrimary : bool; AvailableIPv4Cidrs : list (list AddressInfo) }.

(** [ipMetadata] is [primary]. *)
Definition add_address (primary : bool) (m : gmap string bool) (addr : AddressInfo) : gmap string bool :=
  if String.eqb (ContainerID addr) EmptyString || String.eqb (IfName addr) EmptyString ||
     String.eqb (NetworkName addr) EmptyString then m
  else match m !! Address addr with Some _ => m | None => <[Address addr := primary]> m end.

(** [enis] in the order Go ranges over them. *)
Definition ip_meta (enis : list ENI) : gmap string bool :=
  foldl (λ m eni, foldl (foldl (add_address (IsPrimary eni))) m (AvailableIPv4Cidrs eni)) ∅ enis.

(** [net.ParseIP(ip).To4() == nil]; an IPv6 address that maps an IPv4 one has one. *)
Definition not_ipv4 (ip : string) : bool :=
  match ParseIP ip with
  | None => true
  | Some (IPv4 _) => false
  | Some (IPv6 bs) => negb (bool_decide (take 12 bs = replicate 10 0 ++ [255; 255]))
  end.

(** ** The check *)

Record ipData := mkIPData { ipRuleExistsErr : option string; ipRouteExistsErr : option string }.
Abbreviation ipMap := (gmap string ipData).
(** The error that a table has no default route. *)
Abbreviation tableMap := (gmap string (option string)).

Definition primaryEniRuleRegex : regex :=
  [Lit "512:"; Rep 1 blankbyte true false; Lit "from all to "; Rep 1 dot true true; Lit " lookup main"].
Definition secondaryEniRuleRegex : regex :=
  [Lit "1536:"; Rep 1 blankbyte true false; Lit "from "; Rep 1 dot true true; Lit " lookup "; Rep 1 dot true true].
Definition podIpIpv4 : regex := [Rep 1 dot true true; Lit " dev "; Rep 1 dot true false; Lit " scope link"].
Definition podIpIpv6 : regex :=
  [Rep 1 dot true true; Lit " dev "; Rep 1 dot true false; Lit " metric 1024 pref medium"].
Definition defaultRouteRegex : regex :=
  [Lit "default via "; Rep 1 dot true false; Lit " dev "; Rep 1 dot true false; Lit " table ";
   Rep 1 wordbyte true true].

Definition rule_err (ip : string) : string :=
  Sprintf "Expected entry like `from all to %s lookup main`" [AStr ip].
Definition route_err (mode : Z) (ip : string) : string :=
  if mode =? ModeIPv4 then Sprintf "Expected entry like `%s dev <dev> scope link`" [AStr ip]
  else Sprintf "Expected entry like `%s dev <dev> metric 1024 pref medium`" [AStr ip].
Definition default_err (table : string) : string :=
  Sprintf "Expected entry like `default via <gateway-ip> dev <dev> table %s`" [AStr table].

Definition initial_data (mode : Z) (ip : string) : ipData :=
  mkIPData (Some (rule_err ip)) (Some (route_err mode ip)).

Definition rule_found (d : ipData) : ipData := mkIPData None (ipRouteExistsErr d).
Definition route_found (d : ipData) : ipData := mkIPData (ipRuleExistsErr d) None.

(** What the loop over the rules reads of a line: the address, and the table of a
    rule of a secondary interface. *)
Definition rule_match (rule : string) : option (string * option string) :=
  match FindSubmatch primaryEniRuleRegex rule with
  | Some (ip :: _) => Some (ip, None)
  | _ => match FindSubmatch secondaryEniRuleRegex rule with
         | Some (ip :: table :: _) => Some (ip, Some table)
         | _ => None
         end
  end.

Definition rule_step (st : ipMap * tableMap) (rule : string) : ipMap * tableMap :=
  let '(ips, tables) := st in
  match rule_match rule with
  | None => st
  | Some (ip, table) =>
      (alter rule_found ip ips,
       match table with
       | None => tables
       | Some t => match tables !! t with
                   | Some _ => tables
                   | None => <[t := Some (default_err t)]> tables
                   end
       end)
  end.

Definition group_of (r : regex) (line : string) : option string :=
  match FindSubmatch r line with Some (g :: _) => Some g | _ => None end.

Definition found_route (r : regex) (route : string) (ips : ipMap) : ipMap :=
  match group_of r route with Some ip => alter route_found ip ips | None => ips end.

Definition found_default (route : string) (tables : tableMap) : tableMap :=
  match group_of defaultRouteRegex route with
  | Some t => alter (λ _, None) t tables
  | None => tables
  end.

Definition route_step (mode : Z) (st : ipMap * tableMap) (route : string) : result string (ipMap * tableMap) :=
  let '(ips, tables) := st in
  if mode =? ModeIPv4 then Ok (found_route podIpIpv4 route ips, found_default route tables)
  else if mode =? ModeIPv6 then Ok (found_route podIpIpv6 route ips, tables)
  else Err "invalid ip mode".

Fixpoint route_loop (mode : Z) (routes : list string) (st : ipMap * tableMap)
    : result string (ipMap * tableMap) :=
  match routes with
  | [] => Ok st
  | route :: routes' => st <-? route_step mode st route ;; route_loop mode routes' st
  end.

Definition missing_rules (ip : string) (primary : bool) (err : string) : Condition :=
  condition_of MissingIPRules []
    (Sprintf "Pod IP %s is missing %s: %s"
       [AStr ip; AStr ((if primary then "secondary " else EmptyString) +:+ "rules"); AStr err]).
Definition missing_routes (ip : string) (primary : bool) (err : string) : Condition :=
  condition_of MissingIPRoutes []
    (Sprintf "Pod IP %s is missing %s: %s"
       [AStr ip; AStr ((if primary then "secondary " else EmptyString) +:+ "routes"); AStr err]).
Definition missing_default (table err : string) : Condition :=
  condition_of MissingDefaultRoutes []
    (Sprintf "Missing default route rules for table %s: %s" [AStr table; AStr err]).

Definition ip_conditions (ipMeta : gmap string bool) (e : string * ipData) : list Condition :=
  let '(ip, d) := e in
  let primary := default false (ipMeta !! ip) in
  match ipRuleExistsErr d, ipRouteExistsErr d with
  | Some err, _ => [missing_rules ip primary err]
  | None, Some err => [missing_routes ip primary err]
  | None, None => []
  end.

Definition table_conditions (e : string * option string) : list Condition :=
  let '(table, err) := e in match err with Some err => [missing_default table err] | None => [] end.

Section Range.
Context (range : ∀ A, gmap string A → list (string * A)).

Definition checkIPRulesAndRoutes (mode : Z) (ipMeta : gmap string bool) (rules routes : list string)
    : result string (list Condition) :=
  if negb (bool_decide (ipMeta = ∅)) && negb (mode =? ModeIPv4) && negb (mode =? ModeIPv6)
  then Err "invalid ip mode"
  else
    let ips : ipMap := map_imap (λ ip _, Some (initial_data mode ip)) ipMeta in
    let st := foldl rule_step (ips, ∅) rules in
    st <-? route_loop mode routes st ;;
    Ok ((range _ (fst st) ≫= ip_conditions ipMeta) ++ (range _ (snd st) ≫= table_conditions)).

(** [installed] is the answer of [isVPCCNIInstalled], [enis] that of IPAMD. *)
Definition handleIPRulesAndRoutes (ts : list string) (installed : result string bool)
    (enis : result string (list ENI)) (rules4 rules6 routes4 routes6 : option string)
    : result string (list Condition) :=
  if bool_decide (Hybrid ∈ ts) then Ok []
  else
    go <-? (if bool_decide (EKSAuto ∈ ts) then Ok true
          else match installed with
               | Err err => Err ("failed to check if the VPC CNI is installed: " +:+ err)
               | Ok b => Ok b
               end) ;;
    if negb go then Ok []
    else
      enis <-? enis ;;
      let ipMeta := ip_meta enis in
      match range _ ipMeta with
      | [] => Ok []
      | (ip, _) :: _ =>
          let mode := if not_ipv4 ip then ModeIPv6 else ModeIPv4 in
          checkIPRulesAndRoutes mode ipMeta (GetRules rules4 rules6) (GetRoutes routes4 routes6)
      end.

End Range.

(** ** The listings *)

(** A field of a line: not empty, without spaces and line ends, and none of the words
    that separate fields. *)
Definition separators : list string :=
  ["to"; "from"; "lookup"; "dev"; "via"; "scope"; "metric"; "table"; "default"].
Definition field (w : string) : bool :=
  negb (String.eqb w EmptyString) && bool_decide (IndexByte w (byte_of 32) = None) && all_bytes dot w &&
  negb (bool_decide (w ∈ separators)).

Inductive rule_line :=
| PrimaryRule (ip : string)
| SecondaryRule (ip table : string)
| OtherRule (line : string).

Definition tab : string := String (byte_of 9) EmptyString.

Definition render_rule (r : rule_line) : string :=
  match r with
  | PrimaryRule ip => "512:" +:+ tab +:+ "from all to " +:+ ip +:+ " lookup main"
  | SecondaryRule ip table => "1536:" +:+ tab +:+ "from " +:+ ip +:+ " lookup " +:+ table
  | OtherRule line => line
  end.

Definition rule_ok (r : rule_line) : Prop :=
  match r with
  | PrimaryRule ip => field ip = true
  | SecondaryRule ip table => field ip = true ∧ field table = true
  | OtherRule line => FindSubmatch primaryEniRuleRegex line = None ∧ FindSubmatch secondaryEniRuleRegex line = None
  end.

Inductive route_line :=
| PodRoute4 (ip dev : string)
| PodRoute6 (ip dev : string)
| DefaultRoute (gateway dev table : string)
| OtherRoute (line : string).

Definition render_route (r : route_line) : string :=
  match r with
  | PodRoute4 ip dev => ip +:+ " dev " +:+ dev +:+ " scope link"
  | PodRoute6 ip dev => ip +:+ " dev " +:+ dev +:+ " metric 1024 pref medium"
  | DefaultRoute gw dev table => "default via " +:+ gw +:+ " dev " +:+ dev +:+ " table " +:+ table
  | OtherRoute line => line
  end.

Definition route_ok (r : route_line) : Prop :=
  match r with
  | PodRoute4 ip dev | PodRoute6 ip dev => field ip = true ∧ field dev = true
  | DefaultRoute gw dev table =>
      field gw = true ∧ field dev = true ∧ field table = true ∧ all_bytes wordbyte table = true
  | OtherRoute line => ∀ r, r ∈ [podIpIpv4; podIpIpv6; defaultRouteRegex] → FindSubmatch r line = None
  end.

(** What the listings hold. *)
Definition rule_ip (r : rule_line) : option string :=
  match r with PrimaryRule ip | SecondaryRule ip _ => Some ip | OtherRule _ => None end.
Definition rule_table (r : rule_line) : option string :=
  match r with SecondaryRule _ t => Some t | _ => None end.
Definition route_ip (mode : Z) (r : route_line) : option string :=
  match r with
  | PodRoute4 ip _ => if mode =? ModeIPv4 then Some ip else None
  | PodRoute6 ip _ => if mode =? ModeIPv6 then Some ip else None
  | _ => None
  end.
Definition default_table (r : route_line) : option string :=
  match r with DefaultRoute _ _ t => Some t | _ => None end.

(** *** Reading a line *)

Lemma field_spec w :
  field w = true → w ≠ EmptyString ∧ IndexByte w (byte_of 32) = None ∧ all_bytes dot w = true ∧ w ∉ separators.
Proof.
  unfold field. rewrite !andb_true_iff, !negb_true_iff, String.eqb_neq, bool_decide_eq_true, bool_decide_eq_false.
  tauto.
Qed.

Definition spaceless (w : string) : Prop := IndexByte w (byte_of 32) = None.

Lemma Split_words ws : ws ≠ [] → Forall spaceless ws → Split (Join ws " ") (byte_of 32) = ws.
Proof.
  induction ws as [|w ws IH]; intros Hne Hws; [done|]. inversion_clear Hws as [|?? Hw Hws'].
  destruct ws as [|w' ws]; [by apply Split_elem|].
  change (Join (w :: w' :: ws) " ") with (w +:+ String (byte_of 32) (Join (w' :: ws) " ")).
  rewrite Split_app, IH, Split_elem by done. done.
Qed.

(** A line of words holds a word between spaces only when it is one after the first. *)
Lemma not_between ws w :
  Forall spaceless ws → spaceless w → w ∉ tail ws →
  Contains (Join ws " ") (String (byte_of 32) (w +:+ String (byte_of 32) EmptyString)) = false.
Proof.
  intros Hws Hw Hn. destruct ws as [|w' ws]; [done|].
  destruct (Contains _ _) eqn:Hc; [|done]. exfalso. apply Hn.
  apply Contains_between in Hc; [|done]. by rewrite Split_words in Hc.
Qed.

Lemma rule_match_primary ip : field ip = true → rule_match (render_rule (PrimaryRule ip)) = Some (ip, None).
Proof.
  intros (Hne & _ & Hd & _)%field_spec. unfold rule_match, render_rule, primaryEniRuleRegex.
  rewrite (FindSubmatch_at_start _ _ [ip]); [done|]. rewrite match_at_lit.
  apply (match_at_rep_stop_lit blankbyte false); [done..|].
  by apply (match_at_rep_lit dot true " lookup main" [] ip EmptyString).
Qed.

Lemma rule_match_secondary ip table :
  field ip = true → field table = true → rule_match (render_rule (SecondaryRule ip table)) = Some (ip, Some table).
Proof.
  intros (Hne & Hs & Hd & Hw)%field_spec (Hne' & Hs' & Hd' & Hw')%field_spec.
  unfold rule_match, render_rule.
  rewrite (FindSubmatch_none primaryEniRuleRegex _ "from all to " " to ");
    [|unfold primaryEniRuleRegex; set_solver|done|].
  - rewrite (FindSubmatch_at_start secondaryEniRuleRegex _ [ip; table]); [done|].
    unfold secondaryEniRuleRegex. rewrite match_at_lit.
    apply (match_at_rep_stop_lit blankbyte false); [done..|].
    apply (match_at_rep_lit dot true " lookup "); [done..| |by apply match_at_rep_end].
    apply (not_between ["lookup"; table] "lookup"); [|done|set_solver].
    repeat constructor; done.
  - apply (not_between ["1536:" +:+ tab +:+ "from"; ip; "lookup"; table] "to"); [|done|set_solver].
    repeat constructor; done.
Qed.

Lemma rule_match_render r :
  rule_ok r → rule_match (render_rule r) = match rule_ip r with Some ip => Some (ip, rule_table r) | None => None end.
Proof.
  destruct r as [ip|ip t|line]; cbn [rule_ok].
  - apply rule_match_primary.
  - intros [??]. by apply rule_match_secondary.
  - intros [H1 H2]. cbn [rule_ip render_rule]. unfold rule_match. by rewrite H1, H2.
Qed.

Lemma pod_route_group ip dev ending words :
  field ip = true → field dev = true → Contains (drop_bytes 1 (ending +:+ EmptyString)) ending = false →
  drop_bytes 1 (" dev " +:+ dev +:+ ending +:+ EmptyString) = Join ("dev" :: dev :: words) " " →
  Forall spaceless words → "dev" ∉ words →
  group_of [Rep 1 dot true true; Lit " dev "; Rep 1 dot true false; Lit ending]
    (ip +:+ " dev " +:+ dev +:+ ending) = Some ip.
Proof.
  intros (Hne & Hs & Hd & Hw)%field_spec (Hne' & Hs' & Hd' & Hw')%field_spec He Hj Hws Hn.
  unfold group_of. rewrite (FindSubmatch_at_start _ _ [ip]); [done|].
  rewrite <- (sapp_nil_r ending) at 2. apply (match_at_rep_lit dot true " dev "); [done..| |].
  - rewrite Hj. apply (not_between ("dev" :: dev :: words) "dev"); [by repeat constructor|done|].
    unfold separators in *. set_solver.
  - by apply (match_at_rep_lit dot false ending).
Qed.

Lemma group_none r line p w words :
  Lit p ∈ r → Contains p (String (byte_of 32) (w +:+ String (byte_of 32) EmptyString)) = true →
  line = Join words " " → Forall spaceless words → spaceless w → w ∉ tail words → group_of r line = None.
Proof.
  intros Hp Hc -> Hws Hw Hn. unfold group_of.
  by rewrite (FindSubmatch_none r _ p (String (byte_of 32) (w +:+ String (byte_of 32) EmptyString)))
    by (done || by apply not_between).
Qed.

Ltac fields :=
  repeat match goal with H : field _ = true |- _ => apply field_spec in H as (? & ? & ? & ?) end;
  unfold separators in *; repeat constructor; done || set_solver.

Lemma pod4_group r : route_ok r → group_of podIpIpv4 (render_route r) = route_ip ModeIPv4 r.
Proof.
  destruct r as [ip dev|ip dev|gw dev t|line]; cbn [route_ok render_route route_ip].
  - intros [Hi Hd]. apply (pod_route_group ip dev " scope link" ["scope"; "link"]); done || fields.
  - intros [Hi Hd].
    apply (group_none _ _ " scope link" "scope" [ip; "dev"; dev; "metric"; "1024"; "pref"; "medium"]); done || fields.
  - intros (Hg & Hd & Ht & _).
    apply (group_none _ _ " scope link" "scope" ["default"; "via"; gw; "dev"; dev; "table"; t]); done || fields.
  - intros H. unfold group_of. rewrite H by set_solver. done.
Qed.

Lemma pod6_group r : route_ok r → group_of podIpIpv6 (render_route r) = route_ip ModeIPv6 r.
Proof.
  destruct r as [ip dev|ip dev|gw dev t|line]; cbn [route_ok render_route route_ip].
  - intros [Hi Hd].
    apply (group_none _ _ " metric 1024 pref medium" "metric" [ip; "dev"; dev; "scope"; "link"]); done || fields.
  - intros [Hi Hd].
    apply (pod_route_group ip dev " metric 1024 pref medium" ["metric"; "1024"; "pref"; "medium"]); done || fields.
  - intros (Hg & Hd & Ht & _).
    apply (group_none _ _ " metric 1024 pref medium" "metric" ["default"; "via"; gw; "dev"; dev; "table"; t]);
      done || fields.
  - intros H. unfold group_of. rewrite H by set_solver. done.
Qed.

Lemma default_group r : route_ok r → group_of defaultRouteRegex (render_route r) = default_table r.
Proof.
  destruct r as [ip dev|ip dev|gw dev t|line]; cbn [route_ok render_route default_table].
  - intros [Hi Hd].
    apply (group_none _ _ "default via " "via" [ip; "dev"; dev; "scope"; "link"]); done || fields.
  - intros [Hi Hd].
    apply (group_none _ _ "default via " "via" [ip; "dev"; dev; "metric"; "1024"; "pref"; "medium"]);
      done || fields.
  - intros (Hg & Hd & Ht & Hb). unfold group_of.
    rewrite (FindSubmatch_at_start defaultRouteRegex _ [t]); [done|]. unfold defaultRouteRegex.
    rewrite match_at_lit. apply field_spec in Hg as (?&?&?&?), Hd as (?&?&?&?), Ht as (?&?&?&?).
    apply (match_at_rep_lit dot false " dev "); [done..| |apply (match_at_rep_lit dot false " table "); [done..| |]].
    + apply (not_between ["dev"; dev; "table"; t] "dev"); fields.
    + apply (not_between ["table"; t] "table"); fields.
    + by apply match_at_rep_end.
  - intros H. unfold group_of. rewrite H by set_solver. done.
Qed.

(** *** The loops *)

Section Fold.
Context {A : Type} (f : A → A) (f_idemp : ∀ a, f (f a) = f a).

(** Marking the entries of a list of keys. *)
Definition mark (m : gmap string A) (k : option string) : gmap string A :=
  match k with Some k => alter f k m | None => m end.

Lemma mark_lookup ks m i :
  foldl mark m ks !! i = if bool_decide (Some i ∈ ks) then f <$> m !! i else m !! i.
Proof using f_idemp.
  revert m. induction ks as [|[k|] ks IH]; intros m; cbn [foldl mark]; [done|..]; rewrite IH.
  - destruct (decide (k = i)) as [->|Hne].
    + rewrite lookup_alter_eq, (bool_decide_eq_true_2 (Some i ∈ Some i :: ks)) by set_solver.
      case_bool_decide; [|done]. by destruct (m !! i); simpl; rewrite ?f_idemp.
    + rewrite lookup_alter_ne by done.
      by rewrite (bool_decide_ext (Some i ∈ Some k :: ks) (Some i ∈ ks)) by set_solver.
  - by rewrite (bool_decide_ext (Some i ∈ None :: ks) (Some i ∈ ks)) by set_solver.
Qed.
End Fold.

Definition note_table (m : tableMap) (t : option string) : tableMap :=
  match t with
  | None => m
  | Some t => match m !! t with Some _ => m | None => <[t := Some (default_err t)]> m end
  end.

Lemma note_table_lookup ts m t :
  (∀ u e, m !! u = Some e → e = Some (default_err u)) →
  foldl note_table m ts !! t =
    if bool_decide (Some t ∈ ts) then Some (Some (default_err t)) else m !! t.
Proof.
  revert m. induction ts as [|[u|] ts IH]; intros m Hm; cbn [foldl note_table]; [done|..].
  - destruct (m !! u) as [e|] eqn:Hu.
    + rewrite IH by done. destruct (decide (u = t)) as [->|].
      * rewrite (bool_decide_eq_true_2 (Some t ∈ Some t :: ts)) by set_solver.
        case_bool_decide; [done|]. rewrite Hu. f_equal. by apply Hm.
      * by rewrite (bool_decide_ext (Some t ∈ Some u :: ts) (Some t ∈ ts)) by set_solver.
    + rewrite IH.
      * destruct (decide (u = t)) as [->|].
        -- rewrite (bool_decide_eq_true_2 (Some t ∈ Some t :: ts)) by set_solver. rewrite lookup_insert_eq.
           by case_bool_decide.
        -- rewrite lookup_insert_ne by done.
           by rewrite (bool_decide_ext (Some t ∈ Some u :: ts) (Some t ∈ ts)) by set_solver.
      * intros v e [[<- <-]|[_ ?]]%lookup_insert_Some; [done|by apply Hm].
  - rewrite IH by done. by rewrite (bool_decide_ext (Some t ∈ None :: ts) (Some t ∈ ts)) by set_solver.
Qed.

Lemma rule_loop rs ips tables :
  Forall rule_ok rs →
  foldl rule_step (ips, tables) (render_rule <$> rs) =
    (foldl (mark rule_found) ips (rule_ip <$> rs), foldl note_table tables (rule_table <$> rs)).
Proof.
  intros Hrs. revert ips tables. induction Hrs as [|r rs Hr Hrs IH]; intros ips tables; [done|].
  cbn [fmap list_fmap foldl]. rewrite <- IH. f_equal. unfold rule_step. rewrite rule_match_render by done.
  by destruct r.
Qed.

(** The default routes are read in IPv4 mode only. *)
Definition default_read (mode : Z) (r : route_line) : option string :=
  if mode =? ModeIPv4 then default_table r else None.

Lemma default_read_none mode (rs : list route_line) (table : string) :
  mode = ModeIPv4 ∨ mode = ModeIPv6 →
  Some table ∉ default_read mode <$> rs ↔ mode = ModeIPv6 ∨ Some table ∉ default_table <$> rs.
Proof.
  intros [-> | ->].
  - split; [by right|by intros [?|?]].
  - split; [by left|]. intros _ (? & ? & _)%list_elem_of_fmap. done.
Qed.

Lemma route_loop_ok mode rs ips tables :
  Forall route_ok rs → mode = ModeIPv4 ∨ mode = ModeIPv6 →
  route_loop mode (render_route <$> rs) (ips, tables) =
    Ok (foldl (mark route_found) ips (route_ip mode <$> rs),
        foldl (mark (λ _, None)) tables (default_read mode <$> rs)).
Proof.
  intros Hrs Hm. revert ips tables. induction Hrs as [|r rs Hr Hrs IH]; intros ips tables; [done|].
  rewrite !fmap_cons. cbn [foldl route_loop]. unfold route_step.
  destruct Hm as [-> | ->].
  - change (ModeIPv4 =? ModeIPv4) with true. cbn [rbind]. unfold found_route, found_default.
    rewrite pod4_group, default_group by done. by rewrite IH by auto.
  - change (ModeIPv6 =? ModeIPv4) with false. change (ModeIPv6 =? ModeIPv6) with true.
    cbn [rbind]. unfold found_route. rewrite pod6_group by done. rewrite IH by auto.
    done.
Qed.

(** The address table after both loops. *)
Lemma ips_after mode ipMeta rules routes ip :
  foldl (mark route_found)
    (foldl (mark rule_found) (map_imap (λ ip (_ : bool), Some (initial_data mode ip)) ipMeta) (rule_ip <$> rules))
    (route_ip mode <$> routes) !! ip =
  (λ _ : bool, mkIPData
    (if bool_decide (Some ip ∈ rule_ip <$> rules) then None else Some (rule_err ip))
    (if bool_decide (Some ip ∈ route_ip mode <$> routes) then None else Some (route_err mode ip)))
    <$> ipMeta !! ip.
Proof.
  rewrite !mark_lookup by done. rewrite map_lookup_imap.
  destruct (ipMeta !! ip) as [p|]; simpl; repeat case_bool_decide; done.
Qed.

Lemma tables_after mode rules routes table :
  foldl (mark (λ _, None)) (foldl note_table ∅ (rule_table <$> rules)) (default_read mode <$> routes) !! table =
  if bool_decide (Some table ∈ rule_table <$> rules)
  then Some (if bool_decide (Some table ∈ default_read mode <$> routes) then None else Some (default_err table))
  else None.
Proof.
  rewrite mark_lookup, note_table_lookup by done. by repeat case_bool_decide.
Qed.

Section Exact.
Context (range : ∀ A, gmap string A → list (string * A)).
Hypothesis range_entries : ∀ A (m : gmap string A), range A m ≡ₚ map_to_list m.

Lemma elem_of_range {A} (m : gmap string A) k a : (k, a) ∈ range A m ↔ m !! k = Some a.
Proof. by rewrite range_entries, elem_of_map_to_list. Qed.

(** C27. For every set of pod addresses and every listing of rules and routes in the
    format of [ip], in either IP mode, the check succeeds and reports exactly: missing
    rules for an address without a rule, missing routes for one with a rule and without
    a route of the mode, and a missing default route for a table that a rule of a
    secondary interface names and that in IPv4 mode has none; whatever the order of the
    lines and of Go's maps.  In IPv6 mode the default routes are not read, and such a table
    is reported though the listing have its default route. *)
Theorem ip_conditions_exact mode ipMeta rules routes :
  mode = ModeIPv4 ∨ mode = ModeIPv6 → Forall rule_ok rules → Forall route_ok routes →
  ∃ out,
    checkIPRulesAndRoutes range mode ipMeta (render_rule <$> rules) (render_route <$> routes) = Ok out ∧
    ∀ c, c ∈ out ↔
      (∃ ip primary, ipMeta !! ip = Some primary ∧ Some ip ∉ rule_ip <$> rules ∧
         c = missing_rules ip primary (rule_err ip)) ∨
      (∃ ip primary, ipMeta !! ip = Some primary ∧ Some ip ∈ rule_ip <$> rules ∧
         Some ip ∉ route_ip mode <$> routes ∧ c = missing_routes ip primary (route_err mode ip)) ∨
      (∃ table, Some table ∈ rule_table <$> rules ∧
         (mode = ModeIPv6 ∨ Some table ∉ default_table <$> routes) ∧
         c = missing_default table (default_err table)).
Proof using range_entries.
  intros Hm Hr Ht. unfold checkIPRulesAndRoutes.
  assert (negb (mode =? ModeIPv4) && negb (mode =? ModeIPv6) = false) as Hv by (by destruct Hm as [-> | ->]).
  rewrite <- andb_assoc, Hv, andb_false_r. rewrite rule_loop by done.
  rewrite (route_loop_ok mode routes) by done. cbn [rbind fst snd]. eexists. split; [reflexivity|].
  intros c. rewrite elem_of_app, !list_elem_of_bind. split.
  - intros [([ip d] & Hc & Hd%elem_of_range)|([table e] & Hc & He%elem_of_range)].
    + rewrite ips_after in Hd. apply fmap_Some in Hd as (primary & Hp & ->).
      unfold ip_conditions in Hc. rewrite Hp in Hc. cbn [ipRuleExistsErr ipRouteExistsErr default] in Hc.
      repeat case_bool_decide; try (by apply not_elem_of_nil in Hc);
        apply list_elem_of_singleton in Hc as ->; eauto 10.
    + rewrite tables_after in He. case_bool_decide; [|done]. injection He as <-.
      unfold table_conditions in Hc. case_bool_decide as Hd; [by apply not_elem_of_nil in Hc|].
      apply list_elem_of_singleton in Hc as ->. apply default_read_none in Hd; eauto 10.
  - intros [(ip & p & Hp & Hn & ->)|[(ip & p & Hp & Hi & Hn & ->)|(table & Hi & Hn & ->)]].
    + left. eexists (ip, _). rewrite elem_of_range, ips_after, Hp. split; [|reflexivity].
      unfold ip_conditions. rewrite Hp, bool_decide_eq_false_2 by done. left.
    + left. eexists (ip, _). rewrite elem_of_range, ips_after, Hp. split; [|reflexivity].
      unfold ip_conditions. rewrite Hp, bool_decide_eq_true_2, bool_decide_eq_false_2 by done. left.
    + right. eexists (table, _). rewrite elem_of_range, tables_after, bool_decide_eq_true_2 by done.
      split; [|reflexivity]. unfold table_conditions.
      rewrite bool_decide_eq_false_2 by (by apply default_read_none). left.
Qed.

(** When [ip rule show] fails, its error is lost and every pod address is reported. *)
Theorem failed_listing_reports_all mode ipMeta ip primary routes :
  mode = ModeIPv4 ∨ mode = ModeIPv6 → Forall route_ok routes → ipMeta !! ip = Some primary →
  ∃ out,
    checkIPRulesAndRoutes range mode ipMeta (GetRules None None) (render_route <$> routes) = Ok out ∧
    missing_rules ip primary (rule_err ip) ∈ out.
Proof using range_entries.
  intros Hm Hr Hp. unfold checkIPRulesAndRoutes.
  assert (negb (mode =? ModeIPv4) && negb (mode =? ModeIPv6) = false) as Hv by (by destruct Hm as [-> | ->]).
  rewrite <- andb_assoc, Hv, andb_false_r. cbn [GetRules command_lines mbind list_bind app foldl].
  rewrite (route_loop_ok mode routes) by done. cbn [rbind fst snd]. eexists. split; [reflexivity|].
  rewrite elem_of_app, !list_elem_of_bind. left. eexists (ip, _).
  rewrite elem_of_range, (ips_after mode ipMeta []), Hp. split; [|reflexivity].
  unfold ip_conditions. rewrite Hp, bool_decide_eq_false_2; [left|]. apply not_elem_of_nil.
Qed.

End Exact.

Definition ex_meta : gmap string bool := <["10.0.0.5" := true]> (<["10.0.1.7" := false]> ∅).
Definition ex_rules : list rule_line :=
  [OtherRule "0: from all lookup local"; PrimaryRule "10.0.0.5"; SecondaryRule "10.0.1.9" "2"].
Definition ex_routes : list route_line :=
  [DefaultRoute "10.0.1.1" "eth1" "3"; PodRoute4 "10.0.0.6" "eni1"; OtherRoute "broadcast 10.0.0.0 table local"].

(** In IPv6 mode a table is reported to have no default route that has one. *)
Example ipv6_default_unread :
  let rules := [PrimaryRule "2001:db8::5"; SecondaryRule "2001:db8::7" "2"] in
  let routes := [PodRoute6 "2001:db8::5" "eni1"; DefaultRoute "fe80::1" "eth1" "2"] in
  checkIPRulesAndRoutes (λ A, map_to_list) ModeIPv6 {["2001:db8::5" := true]}
    (render_rule <$> rules) (render_route <$> routes) = Ok [missing_default "2" (default_err "2")].
Proof. vm_compute. reflexivity. Qed.

Lemma ip_conditions_exact_witness :
  ∃ out, checkIPRulesAndRoutes (λ A, map_to_list) ModeIPv4 ex_meta
           (render_rule <$> ex_rules) (render_route <$> ex_routes) = Ok out ∧
         missing_routes "10.0.0.5" true (route_err ModeIPv4 "10.0.0.5") ∈ out.
Proof.
  destruct (ip_conditions_exact (λ A, map_to_list) (λ A m, Permutation_refl _) ModeIPv4 ex_meta ex_rules ex_routes)
    as (out & He & Hiff).
  - by left.
  - by repeat (constructor; [try (split; vm_compute; reflexivity); vm_compute; reflexivity|]).
  - constructor; [repeat split; vm_compute; reflexivity|].
    constructor; [split; vm_compute; reflexivity|]. constructor; [|constructor].
    intros r Hr. repeat (apply elem_of_cons in Hr as [->|Hr]; [vm_compute; reflexivity|]).
    by apply not_elem_of_nil in Hr.
  - exists out. split; [exact He|]. apply Hiff. right. left. exists "10.0.0.5", true.
    split; [vm_compute; reflexivity|]. split; [|split; [|reflexivity]]; vm_compute.
    + right. left.
    + intros H. repeat (apply elem_of_cons in H as [?|H]; [discriminate|]). by apply not_elem_of_nil in H.
Defined.
