(* ===== verification/Iptables.v ===== *)
(** * Iptables: rules of iptables-save ([monitors/networking/iptables/parser.go], and
    [handleIPTables] and [checkIPTables] of [monitors/networking/monitor.go]).

    The fields of [IPTablesRule] are enumerated: a rule maps each string field and
    each flag to its value, so that an option of the parser is the field it sets. *)

From S2P Require Import Prelude GoStrings Monitor Reasons.

(** ** The rule *)

(** The string fields an option sets. *)
Inductive StrField :=
| table | source | comment | Jump | gotoChain | rejectWith | destination | mark | protocol
| tcpFlagsMask | tcpFlagsSet | connectionState | mode | probability | DestinationPort
| destinationType | sourceType | toDestination | destinationPorts | setXMark | toSource
| nfMask | ctMask | ifc | queueNum | state | outInterface | sourcePort | name | mask | seconds
| nfacctName.

#[export] Instance StrField_eq_dec : EqDecision StrField.
Proof. solve_decision. Defined.

Inductive FlagField :=
| restoreMark | queueBypass | random | limitIfcIn | fragment | rdest | rsource | set_ | reap | rttl
| rcheck | update.

#[export] Instance FlagField_eq_dec : EqDecision FlagField.
Proof. solve_decision. Defined.

Record MatchSet := mkMatchSet { msName : string; msArgs : string }.
Record Match := mkMatch { mName : string; mSet : list MatchSet }.

Record IPTablesRule := mkRule {
  IptablesTable : string;
  raw : string;
  matches : list Match;
  str : StrField → string;
  flag : FlagField → bool
}.

Definition no_rule (line : string) : IPTablesRule :=
  mkRule EmptyString line [] (λ _, EmptyString) (λ _, false).

Definition set_str (f : StrField) (v : string) (r : IPTablesRule) : IPTablesRule :=
  mkRule (IptablesTable r) (raw r) (matches r) (λ g, if decide (g = f) then v else str r g) (flag r).
Definition set_flag (f : FlagField) (r : IPTablesRule) : IPTablesRule :=
  mkRule (IptablesTable r) (raw r) (matches r) (str r) (λ g, if decide (g = f) then true else flag r g).
Definition add_match (m : Match) (r : IPTablesRule) : IPTablesRule :=
  mkRule (IptablesTable r) (raw r) (matches r ++ [m]) (str r) (flag r).
Definition set_table (t : string) (r : IPTablesRule) : IPTablesRule :=
  mkRule t (raw r) (matches r) (str r) (flag r).

(** ** splitQuoted *)

Definition space : Ascii.ascii := byte_of 32.

(** The fields between spaces outside quotes; [cur] is the field being read. *)
Fixpoint split_quoted_from (s : string) (quoted : bool) (cur : string) : list string :=
  match s with
  | EmptyString => flush cur []
  | String c s' =>
      let quoted := if Ascii.eqb c dquote then negb quoted else quoted in
      if negb quoted && Ascii.eqb c space then flush cur (split_quoted_from s' quoted EmptyString)
      else split_quoted_from s' quoted (cur +:+ String c EmptyString)
  end.

Definition splitQuoted (line : string) : list string := split_quoted_from line false EmptyString.

(** ** Options *)

(** What an option does: set the field with the next segment, set two, set a flag,
    add a match, read a match set, invert the next option, or nothing. *)
Inductive action :=
| SetStr (f : StrField)
| SetTwo (f g : StrField)
| SetFlag (f : FlagField)
| AddMatch
| AddMatchSet
| Invert
| Ignore.

Definition options : list (string * action) :=
  [("!", Invert);
   ("-i", SetStr ifc); ("--in-interface", SetStr ifc);
   ("-A", SetStr table);
   ("-s", SetStr source); ("--source", SetStr source);
   ("-d", SetStr destination); ("--destination", SetStr destination);
   ("-m", AddMatch); ("--match", AddMatch);
   ("-j", SetStr Jump); ("--jump", SetStr Jump);
   ("-g", SetStr gotoChain); ("--goto", SetStr gotoChain);
   ("-p", SetStr protocol); ("--protocol", SetStr protocol);
   ("--name", SetStr name); ("--comment", SetStr comment); ("--mask", SetStr mask);
   ("--mark", SetStr mark); ("--reject-with", SetStr rejectWith);
   ("--tcp-flags", SetTwo tcpFlagsMask tcpFlagsSet);
   ("--match-set", AddMatchSet);
   ("--ctstate", SetStr connectionState); ("--nfacct-name", SetStr nfacctName);
   ("--nfmask", SetStr nfMask); ("--ctmask", SetStr ctMask); ("--mode", SetStr mode);
   ("--probability", SetStr probability);
   ("--sport", SetStr sourcePort); ("--source-port", SetStr sourcePort);
   ("--dport", SetStr DestinationPort); ("--destination-port", SetStr DestinationPort);
   ("--dst-type", SetStr destinationType); ("--src-type", SetStr sourceType);
   ("--to-destination", SetStr toDestination); ("--to-source", SetStr toSource);
   ("--dports", SetStr destinationPorts); ("--set-xmark", SetStr setXMark);
   ("--restore-mark", SetFlag restoreMark); ("--queue-num", SetStr queueNum);
   ("--queue-bypass", SetFlag queueBypass);
   ("--random-fully", SetFlag random); ("--random", SetFlag random);
   ("--state", SetStr state);
   ("-f", SetFlag fragment); ("--fragement", SetFlag fragment);
   ("-o", SetStr outInterface); ("--out-interface", SetStr outInterface);
   ("--seconds", SetStr seconds); ("--limit-iface-in", SetFlag limitIfcIn);
   ("--set", SetFlag set_); ("--rcheck", SetFlag rcheck); ("--update", SetFlag update);
   ("--rsource", SetFlag rsource); ("--rdest", SetFlag rdest); ("--reap", SetFlag reap);
   ("--rttl", SetFlag rttl)].

Fixpoint assoc (l : list (string * action)) (opt : string) : action :=
  match l with
  | [] => Ignore
  | (o, a) :: l' => if String.eqb o opt then a else assoc l' opt
  end.

Definition action_of (opt : string) : action := assoc options opt.

(** ** ParseIPTablesRule *)

(** [getSeg]: the segment, empty past the end. *)
Definition getSeg (rest : list string) (i : nat) (invert : bool) : string :=
  let seg := default EmptyString (rest !! i) in
  if invert then "!" +:+ seg else seg.

(** The last match is copied, and the set is appended to the copy, which is dropped:
    the rule keeps the match without it. *)
Definition append_match_set (s : MatchSet) (r : IPTablesRule) : IPTablesRule :=
  match last (matches r) with
  | Some m => let _copy := mkMatch (mName m) (mSet m ++ [s]) in r
  | None => r
  end.

(** The loop over the segments. *)
Fixpoint parse_segs (segs : list string) (invert : bool) (r : IPTablesRule) : IPTablesRule :=
  match segs with
  | [] => r
  | opt :: rest =>
      match action_of opt with
      | Invert => parse_segs rest true r
      | Ignore => parse_segs rest false r
      | SetFlag f => parse_segs rest false (set_flag f r)
      | SetStr f =>
          let r := set_str f (getSeg rest 0 invert) r in
          match rest with [] => r | _ :: rest' => parse_segs rest' false r end
      | AddMatch =>
          let r := add_match (mkMatch (getSeg rest 0 invert) []) r in
          match rest with [] => r | _ :: rest' => parse_segs rest' false r end
      | SetTwo f g =>
          let r := set_str g (getSeg rest 1 invert) (set_str f (getSeg rest 0 invert) r) in
          match rest with _ :: _ :: rest' => parse_segs rest' false r | _ => r end
      | AddMatchSet =>
          let r := append_match_set (mkMatchSet (getSeg rest 0 invert) (getSeg rest 1 invert)) r in
          match rest with _ :: _ :: rest' => parse_segs rest' false r | _ => r end
      end
  end.

Definition ParseIPTablesRule (line : string) : result string IPTablesRule :=
  let line := TrimSpace line in
  if negb (HasPrefix line "-A") then Err line
  else Ok (parse_segs (splitQuoted line) false (no_rule line)).

(** ** What is expected *)

Definition IsReject (r : IPTablesRule) : bool :=
  String.eqb (str r Jump) "REJECT" || String.eqb (str r Jump) "DROP" ||
  String.eqb (str r gotoChain) "REJECT" || String.eqb (str r gotoChain) "DROP" ||
  negb (String.eqb (str r rejectWith) EmptyString).

Definition slash_byte : Ascii.ascii := byte_of 47.

(** An allowed chain, when its entry has the format [table/chain]. *)
Definition allowed_entry (entry : string) : option (string * string) :=
  '(t, c) ← Cut entry slash_byte;
  if (CountByte entry slash_byte =? 1)%nat && negb (String.eqb (TrimSpace t) EmptyString) &&
     negb (String.eqb (TrimSpace c) EmptyString)
  then Some (t, c) else None.

Definition chain_allowed (r : IPTablesRule) (entry : string) : bool :=
  match allowed_entry entry with
  | Some (t, c) => String.eqb (IptablesTable r) t && String.eqb (str r table) c
  | None => false
  end.

Definition IsExpectedRejectRule (r : IPTablesRule) (allowedChains : list string) : bool :=
  let chain := str r table in
  if String.eqb chain "KUBE-FORWARD" && existsb (λ m, String.eqb (mName m) "conntrack") (matches r) &&
     String.eqb (str r connectionState) "INVALID" then true
  else if String.eqb chain "KUBE-FIREWALL" &&
          Contains (str r comment) "block incoming localnet connections" then true
  else if String.eqb chain "KUBE-FIREWALL" &&
          Contains (str r comment) "kubernetes firewall for dropping marked packets" then true
  else if (String.eqb chain "KUBE-SERVICES" || String.eqb chain "KUBE-EXTERNAL-SERVICES") &&
          (Contains (str r comment) "has no endpoints" || Contains (str r comment) "has no local endpoints" ||
           Contains (str r rejectWith) "icmp-port-unreachable") then true
  else if String.eqb chain "KUBE-IPVS-FILTER" || String.eqb chain "KUBE-IPVS-OUT-FILTER" then true
  else if String.eqb chain "KUBE-SOURCE-RANGES-FIREWALL" then true
  else if HasPrefix chain "cali-" then true
  else if String.eqb chain "FORWARD" && Contains (str r comment) "Block Node Local Pod access" then true
  else existsb (chain_allowed r) allowedChains.

Example parse_ex :
  let line := "-A KUBE-SERVICES ! -s 10.0.0.0/8 -m comment --comment " +:+
              String dquote ("has no endpoints" +:+ String dquote " -j REJECT --reject-with icmp-port-unreachable") in
  match ParseIPTablesRule line with
  | Ok r => (str r table, str r source, str r Jump, IsReject r, IsExpectedRejectRule r []) =
            ("KUBE-SERVICES", "!10.0.0.0/8", "REJECT", true, true)
  | Err _ => False
  end.
Proof. vm_compute. reflexivity. Qed.

(** ** The lines of iptables-save *)

Definition star : Ascii.ascii := byte_of 42.

(** One line of the output: a table, a rule, or something else. *)
Definition save_line (st : string * list IPTablesRule) (line : string) : string * list IPTablesRule :=
  let '(currentTable, rules) := st in
  if HasPrefix line (String star EmptyString) then (TrimSpace (drop_bytes 1 line), rules)
  else if negb (HasPrefix line "-A") then st
  else match ParseIPTablesRule line with
       | Err _ => st
       | Ok r => (currentTable, rules ++ [set_table currentTable r])
       end.

Definition parse_save (out : string) (rules : list IPTablesRule) : list IPTablesRule :=
  (foldl save_line (EmptyString, rules) (Split out (byte_of 10))).2.

(** The rules of both commands; a command that fails is skipped. *)
Definition all_rules (outs : list (result string string)) : list IPTablesRule :=
  foldl (λ rules out, match out with Ok o => parse_save o rules | Err _ => rules end) [] outs.

(** ** checkIPTables *)

Definition kubelet_port : Z := 10250.


(** The conditions of one rule; a port that is not a number is an error and none. *)
Definition check_port_conflict (r : IPTablesRule) : list Condition :=
  if String.eqb (str r DestinationPort) EmptyString then []
  else match Atoi (str r DestinationPort) with
       | None => []
       | Some dport =>
           if (dport =? kubelet_port) && String.eqb (str r Jump) "DNAT" then
             [condition_of PortConflict []
                (Sprintf "Potential iptables rule conflict on port %s" [AStr (str r DestinationPort)])]
           else []
       end.

Definition check_reject_rule (allowedChains : list string) (r : IPTablesRule) : list Condition :=
  if IsReject r && negb (IsExpectedRejectRule r allowedChains) then
    [condition_of UnexpectedRejectRule []
       (Sprintf "Found an unexpected iptables reject rule: %s" [AStr (Quote (raw r))])]
  else [].

Definition checkIPTables (hybrid : bool) (allowedChains : list string) (rules : list IPTablesRule)
    : list Condition :=
  rules ≫= λ r, check_port_conflict r ++ (if hybrid then [] else check_reject_rule allowedChains r).

(** ** Rendered rules are read back *)

(** An option of a rule as iptables describes it: a value, plain or negated, under one of
    the names of its option; the flags of TCP looked at and those that must be set; an
    option without a value; a match to load; and, for the match loaded last, that an
    address is or is not in a set. *)
Inductive opt :=
| Value (f : StrField) (spelling : nat) (negated : bool) (arg : string)
| TcpFlags (negated : bool) (looked_at must_set : string)
| Present (f : FlagField) (spelling : nat)
| UseMatch (spelling : nat) (module : string)
| InSet (negated : bool) (set_name dirs : string).

(** The names of the option that gives a field; the chain is given by [-A]. *)
Definition value_names (f : StrField) : list string :=
  match f with
  | source => ["-s"; "--source"] | destination => ["-d"; "--destination"]
  | ifc => ["-i"; "--in-interface"] | outInterface => ["-o"; "--out-interface"]
  | protocol => ["-p"; "--protocol"]
  | Jump => ["-j"; "--jump"] | gotoChain => ["-g"; "--goto"]
  | sourcePort => ["--sport"; "--source-port"] | DestinationPort => ["--dport"; "--destination-port"]
  | destinationPorts => ["--dports"]
  | sourceType => ["--src-type"] | destinationType => ["--dst-type"]
  | toSource => ["--to-source"] | toDestination => ["--to-destination"]
  | connectionState => ["--ctstate"] | state => ["--state"]
  | comment => ["--comment"] | rejectWith => ["--reject-with"]
  | mark => ["--mark"] | setXMark => ["--set-xmark"] | nfMask => ["--nfmask"] | ctMask => ["--ctmask"]
  | mode => ["--mode"] | probability => ["--probability"] | queueNum => ["--queue-num"]
  | name => ["--name"] | mask => ["--mask"] | seconds => ["--seconds"] | nfacctName => ["--nfacct-name"]
  | table | tcpFlagsMask | tcpFlagsSet => []
  end.

Definition flag_names (f : FlagField) : list string :=
  match f with
  | restoreMark => ["--restore-mark"] | queueBypass => ["--queue-bypass"]
  | random => ["--random"; "--random-fully"] | limitIfcIn => ["--limit-iface-in"] | fragment => ["-f"]
  | rdest => ["--rdest"] | rsource => ["--rsource"] | set_ => ["--set"] | reap => ["--reap"]
  | rttl => ["--rttl"] | rcheck => ["--rcheck"] | update => ["--update"]
  end.

Definition match_names : list string := ["-m"; "--match"].

Definition name_at (names : list string) (i : nat) : string := default EmptyString (names !! i).

Definition bang (negated : bool) : list string := if negated then ["!"] else [].

Definition opt_tokens (o : opt) : list string :=
  match o with
  | Value f i n arg => bang n ++ [name_at (value_names f) i; arg]
  | TcpFlags n m c => bang n ++ ["--tcp-flags"; m; c]
  | Present f i => [name_at (flag_names f) i]
  | UseMatch i m => [name_at match_names i; m]
  | InSet n s d => bang n ++ ["--match-set"; s; d]
  end.

Definition render (chain : string) (opts : list opt) : string :=
  Join ("-A" :: chain :: (opts ≫= opt_tokens)) " ".

(** Whether a string has no space outside quotes and closes its quotes. *)
Fixpoint closed (s : string) (quoted : bool) : bool :=
  match s with
  | EmptyString => negb quoted
  | String c s' =>
      let quoted := if Ascii.eqb c dquote then negb quoted else quoted in
      negb (negb quoted && Ascii.eqb c space) && closed s' quoted
  end.

Fixpoint printable (s : string) : bool :=
  match s with
  | EmptyString => true
  | String c s' => (graphic c || Ascii.eqb c space) && printable s'
  end.

(** A word of a rule: printable, not empty, with spaces only inside quotes. *)
Definition word (s : string) : bool := negb (String.eqb s EmptyString) && closed s false && printable s.

Definition opt_ok (o : opt) : Prop :=
  match o with
  | Value f i _ arg => (i < length (value_names f))%nat ∧ word arg = true
  | TcpFlags _ m c => word m = true ∧ word c = true
  | Present f i => (i < length (flag_names f))%nat
  | UseMatch i m => (i < length match_names)%nat ∧ word m = true
  | InSet _ s d => word s = true ∧ word d = true
  end.

(** The rule that options describe.  The record of a rule writes a negated value with an
    exclamation mark before it. *)
Definition valued (negated : bool) (arg : string) : string := if negated then "!" +:+ arg else arg.

Definition with_set (s : MatchSet) (ms : list Match) : list Match :=
  match reverse ms with
  | m :: before => reverse before ++ [mkMatch (mName m) (mSet m ++ [s])]
  | [] => []
  end.

Definition opt_effect (r : IPTablesRule) (o : opt) : IPTablesRule :=
  match o with
  | Value f _ n arg => set_str f (valued n arg) r
  | TcpFlags n m c => set_str tcpFlagsSet (valued n c) (set_str tcpFlagsMask (valued n m) r)
  | Present f _ => set_flag f r
  | UseMatch _ m => add_match (mkMatch m []) r
  | InSet n s d => mkRule (IptablesTable r) (raw r) (with_set (mkMatchSet (valued n s) (valued n d)) (matches r))
                     (str r) (flag r)
  end.

Definition described (chain line : string) (opts : list opt) : IPTablesRule :=
  foldl opt_effect (mkRule EmptyString line [] (λ f, if decide (f = table) then chain else EmptyString)
                      (λ _, false)) opts.

(** A rule whose matches have lost their sets. *)
Definition without_sets (r : IPTablesRule) : IPTablesRule :=
  mkRule (IptablesTable r) (raw r) ((λ m, mkMatch (mName m) []) <$> matches r) (str r) (flag r).

Lemma append_match_set_id s r : append_match_set s r = r.
Proof. unfold append_match_set. by destruct (last (matches r)). Qed.

(** *** The parser knows the names *)

Lemma value_name_action f i :
  (i < length (value_names f))%nat →
  action_of (name_at (value_names f) i) = SetStr f ∧ word (name_at (value_names f) i) = true.
Proof. destruct f, i as [|[|i]]; simpl; try lia; intros _; split; reflexivity. Qed.

Lemma flag_name_action f i :
  (i < length (flag_names f))%nat →
  action_of (name_at (flag_names f) i) = SetFlag f ∧ word (name_at (flag_names f) i) = true.
Proof. destruct f, i as [|[|i]]; simpl; try lia; intros _; split; reflexivity. Qed.

Lemma match_name_action i :
  (i < length match_names)%nat →
  action_of (name_at match_names i) = AddMatch ∧ word (name_at match_names i) = true.
Proof. destruct i as [|[|i]]; simpl; try lia; intros _; split; reflexivity. Qed.

Lemma without_with_set s ms :
  (λ m, mkMatch (mName m) []) <$> with_set s ms = (λ m, mkMatch (mName m) []) <$> ms.
Proof.
  unfold with_set. destruct (reverse ms) as [|m before] eqn:E.
  - apply (f_equal reverse) in E. rewrite reverse_involutive in E. by rewrite E.
  - apply (f_equal reverse) in E. rewrite reverse_involutive, reverse_cons in E. rewrite E.
    by rewrite !fmap_app.
Qed.

Lemma parse_bang n o rest r : parse_segs (bang n ++ o :: rest) false r = parse_segs (o :: rest) n r.
Proof. by destruct n. Qed.

Lemma parse_opt o rest r :
  opt_ok o →
  parse_segs (opt_tokens o ++ rest) false (without_sets r) =
  parse_segs rest false (without_sets (opt_effect r o)).
Proof.
  destruct o as [f i n arg|n m c|f i|i m|n s d]; cbn [opt_ok opt_tokens]; rewrite <- ?(assoc_L (++)).
  - intros [[Hi _]%value_name_action _]. simpl app. rewrite parse_bang. cbn [parse_segs]. by rewrite Hi.
  - intros _. simpl app. by rewrite parse_bang.
  - intros [Hi _]%flag_name_action. simpl app. cbn [parse_segs]. by rewrite Hi.
  - intros [[Hi _]%match_name_action _]. simpl app. cbn [parse_segs]. rewrite Hi.
    unfold without_sets, opt_effect, add_match. simpl. by rewrite fmap_app.
  - intros _. simpl app. rewrite parse_bang. cbn [parse_segs].
    change (action_of "--match-set") with AddMatchSet. cbv iota beta zeta. rewrite append_match_set_id.
    unfold without_sets, opt_effect. simpl. by rewrite without_with_set.
Qed.

Lemma parse_opts opts r :
  Forall opt_ok opts →
  parse_segs (opts ≫= opt_tokens) false (without_sets r) = without_sets (foldl opt_effect r opts).
Proof.
  intros Ho. revert r. induction Ho as [|o opts Ho _ IH]; intros r; [done|]. simpl.
  by rewrite parse_opt, IH.
Qed.

(** *** Words and lines *)

Lemma split_word w q cur rest :
  closed w q = true → split_quoted_from (w +:+ rest) q cur = split_quoted_from rest false (cur +:+ w).
Proof.
  revert q cur. induction w as [|c w IH]; intros q cur; simpl.
  - intros ->%negb_true_iff. by rewrite sapp_nil_r.
  - intros [->%negb_true_iff Hc]%andb_true_iff. rewrite IH by done.
    f_equal. by rewrite <- sapp_assoc.
Qed.

Lemma splitQuoted_words ws :
  Forall (λ w, word w = true) ws → splitQuoted (Join ws " ") = ws.
Proof.
  unfold splitQuoted. induction 1 as [|w ws Hw Hws IH]; [done|].
  unfold word in Hw. apply andb_true_iff in Hw as [[Hne Hc]%andb_true_iff _].
  apply negb_true_iff in Hne. destruct ws as [|w' ws].
  - change (Join [w] " ") with w. rewrite <- (sapp_nil_r w) at 1. rewrite split_word by done.
    simpl. unfold flush. by rewrite Hne.
  - change (Join (w :: w' :: ws) " ") with (w +:+ String space (Join (w' :: ws) " ")).
    rewrite split_word by done. cbn [split_quoted_from]. change (Ascii.eqb space dquote) with false.
    cbn [negb andb]. rewrite Ascii.eqb_refl, IH. unfold flush. cbn [String.append]. by rewrite Hne.
Qed.

Lemma closed_last w q :
  closed w q = true → printable w = true → w ≠ EmptyString → graphic_last w = true.
Proof.
  revert q. induction w as [|c w IH]; intros q Hc Hp Hne; [done|]. simpl in Hc, Hp.
  apply andb_true_iff in Hc as [Hs Hc]. apply andb_true_iff in Hp as [Hg Hp]. destruct w as [|c' w].
  - simpl in Hc. apply negb_true_iff in Hc. rewrite Hc in Hs. simpl in Hs. apply negb_true_iff in Hs.
    rewrite Hs, orb_false_r in Hg. exact Hg.
  - exact (IH _ Hc Hp ltac:(discriminate)).
Qed.

Lemma graphic_last_app a c b : graphic_last (a +:+ String c b) = graphic_last (String c b).
Proof. unfold graphic_last. by rewrite last_byte_app. Qed.

Lemma Join_last ws : Forall (λ w, word w = true) ws → ws ≠ [] → graphic_last (Join ws " ") = true.
Proof.
  induction 1 as [|w ws Hw Hws IH]; [done|]. intros _. destruct ws as [|w' ws].
  - apply andb_true_iff in Hw as [[Hne%negb_true_iff%String.eqb_neq Hc]%andb_true_iff Hp].
    by apply (closed_last w false).
  - change (Join (w :: w' :: ws) " ") with (w +:+ String space (Join (w' :: ws) " ")).
    rewrite graphic_last_app. specialize (IH ltac:(discriminate)). unfold graphic_last in *.
    revert IH. generalize (Join (w' :: ws) " ") as j. intros [|c j]; [done|]. by simpl.
Qed.

Lemma opt_words o : opt_ok o → Forall (λ w, word w = true) (opt_tokens o).
Proof.
  assert (Hb : ∀ n, Forall (λ w, word w = true) (bang n)) by (intros []; repeat constructor).
  destruct o as [f i n arg|n m c|f i|i m|n s d]; cbn [opt_ok opt_tokens].
  - intros [[_ Hi]%value_name_action ?]. apply Forall_app_2; [done|]. by repeat constructor.
  - intros [??]. apply Forall_app_2; [done|]. by repeat constructor.
  - intros [_ Hi]%flag_name_action. by repeat constructor.
  - intros [[_ Hi]%match_name_action ?]. by repeat constructor.
  - intros [??]. apply Forall_app_2; [done|]. by repeat constructor.
Qed.

Lemma opts_words opts : Forall opt_ok opts → Forall (λ w, word w = true) (opts ≫= opt_tokens).
Proof.
  induction 1 as [|o opts Ho _ IH]; [constructor|]. simpl. apply Forall_app_2; [by apply opt_words|done].
Qed.

(** C31. A rule as iptables-save writes it is read back but for the sets of its matches:
    for a chain and any options of iptables that the parser knows, under either name,
    values negated or not, with words for arguments, quoted comments with spaces included,
    the parsed rule has the chain, the fields, the flags and the matches of the rule that
    the options describe, one after the other, and each match without its sets, which the
    parser loses. *)
Theorem rendered_rule_parsed chain opts :
  word chain = true → Forall opt_ok opts →
  ParseIPTablesRule (render chain opts) = Ok (without_sets (described chain (render chain opts) opts)).
Proof.
  intros Hc Ho. assert (Hw : Forall (λ w, word w = true) ("-A" :: chain :: (opts ≫= opt_tokens))).
  { constructor; [reflexivity|]. constructor; [done|by apply opts_words]. }
  unfold ParseIPTablesRule. rewrite TrimSpace_graphic; [|reflexivity|by apply Join_last].
  change (HasPrefix (render chain opts) "-A") with true. cbn [negb].
  unfold render at 1. rewrite splitQuoted_words by done. cbn [parse_segs]. f_equal.
  change (action_of "-A") with (SetStr table). unfold described. by rewrite <- parse_opts.
Qed.

Definition ex_opts : list opt :=
  [Value source 0 true "10.0.0.0/8"; UseMatch 0 "comment";
   Value comment 0 false (String dquote ("a b" +:+ String dquote EmptyString));
   TcpFlags false "SYN,ACK" "SYN"; UseMatch 0 "set"; InSet true "blocklist" "src"; Value Jump 0 false "DROP"].

Lemma rendered_rule_parsed_witness :
  Forall opt_ok ex_opts ∧
  ∃ r, ParseIPTablesRule (render "MY-CHAIN" ex_opts) = Ok r ∧
       str r table = "MY-CHAIN" ∧ str r source = "!10.0.0.0/8" ∧ IsReject r = true ∧
       matches r = [mkMatch "comment" []; mkMatch "set" []].
Proof.
  assert (Ho : Forall opt_ok ex_opts) by (repeat (constructor; [simpl; repeat split; (reflexivity || lia)|]); constructor).
  split; [exact Ho|]. eexists. split; [apply (rendered_rule_parsed "MY-CHAIN" ex_opts eq_refl Ho)|].
  repeat split; reflexivity.
Defined.

(** What the record of a rule cannot say or the parser does not know: that the option
    without a value is negated, and the long name of [-f]. *)
Example flag_negation_lost :
  ParseIPTablesRule "-A C ! -f -j ACCEPT" = Ok (described "C" "-A C ! -f -j ACCEPT" [Present fragment 0; Value Jump 0 false "ACCEPT"]) ∧
  ParseIPTablesRule "-A C --fragment -j ACCEPT" = Ok (described "C" "-A C --fragment -j ACCEPT" [Value Jump 0 false "ACCEPT"]).
Proof. split; reflexivity. Qed.

(** ** Match sets *)

Lemma parse_segs_no_sets n segs inv r :
  (length segs ≤ n)%nat → Forall (λ m, mSet m = []) (matches r) →
  Forall (λ m, mSet m = []) (matches (parse_segs segs inv r)).
Proof.
  revert segs inv r. induction n as [|n IH]; intros segs inv r Hn Hr;
    [by destruct segs; [|simpl in Hn; lia]|].
  destruct segs as [|o rest]; [done|]. simpl in Hn. simpl.
  destruct (action_of o); try (by apply IH; [lia|]).
  - destruct rest as [|a rest]; [done|]. apply IH; [simpl in Hn; lia|done].
  - destruct rest as [|a [|b rest]]; [done|done|]. apply IH; [simpl in Hn; lia|done].
  - assert (Forall (λ m, mSet m = []) (matches (add_match (mkMatch (getSeg rest 0 inv) []) r)))
      by (simpl; apply Forall_app; split; [done|by repeat constructor]).
    destruct rest as [|a rest]; [done|]. apply IH; [simpl in Hn; lia|done].
  - rewrite append_match_set_id. destruct rest as [|a [|b rest]]; [done|done|].
    apply IH; [simpl in Hn; lia|done].
Qed.

(** No rule that is parsed has a match set, whatever its [--match-set] options. *)
Theorem match_sets_lost line r :
  ParseIPTablesRule line = Ok r → Forall (λ m, mSet m = []) (matches r).
Proof.
  unfold ParseIPTablesRule. destruct (negb _); [done|]. intros [= <-].
  by eapply parse_segs_no_sets.
Qed.
