(* ===== verification/Storage.v ===== *)
(** * Storage: the storage monitor ([monitors/storage]: monitor.go, ebs/nvme.go, ebs/ebs.go,
    nvme/types.go).

    A handler of a line or a poll returns the conditions it notifies.  A run-time
    panic is [None].  The TTL cache of I/O delays, the mounts and the commands of the host
    are arguments. *)

From S2P Require Import Prelude GoStrings GoFloat GoRegexp Monitor Reasons.

(** ** Log lines *)

Definition etcHostsIsDirRegexp : regex :=
  [Lit "error mounting"; any; Lit "etc-hosts"; any; Lit "to rootfs"; any; Lit "/etc/hosts"].

Definition handleVarLogMessages (line : string) : list Condition :=
  if MatchString etcHostsIsDirRegexp line then
    [condition_of EtcHostsMountFailed [] "Mounting of the kubelet generated /etc/hosts failed"]
  else [].

Definition handleKubeletLogs (line : string) : list Condition :=
  if Contains line "fs: disk usage and inodes count on following dirs took" then
    [condition_of KubeletDiskUsageSlow []
       "Kubelet is reporting slow disk usage, which may indicate a misconfigured filesystem or insufficient disk I/O"]
  else [].

(** [[a-z0-9-]] *)
Definition devicebyte (c : Ascii.ascii) : bool :=
  let n := Ascii.nat_of_ascii c in ((97 <=? n) && (n <=? 122) || (48 <=? n) && (n <=? 57) || (n =? 45))%nat.

Definition io_error_regex (lit mid : string) : regex :=
  [Lit lit; Rep 1 devicebyte true true; Lit mid; Rep 1 digitbyte true true].
Definition ioErrorEndRequest : regex := io_error_regex "end_request: I/O error, dev " ", sector ".
Definition ioErrorBufferIO : regex := io_error_regex "Buffer I/O error on device " ", logical block ".
Definition ioErrorBlkUpdate : regex := io_error_regex "blk_update_request: I/O error, dev " ", sector ".

Definition handleBlockDeviceIOErrors (line : string) : list Condition :=
  let found :=
    match FindSubmatch ioErrorEndRequest line with
    | Some (d :: n :: _) => Some (d, "sector " +:+ n)
    | _ =>
        match FindSubmatch ioErrorBufferIO line with
        | Some (d :: n :: _) => Some (d, "logical block " +:+ n)
        | _ =>
            match FindSubmatch ioErrorBlkUpdate line with
            | Some (d :: n :: _) => Some (d, "sector " +:+ n)
            | _ => None
            end
        end
    end in
  match found with
  | None => []
  | Some (device, location) =>
      [condition_of BlockDeviceIOError []
         (Sprintf "I/O error detected on block device %s at %s, indicating a failed physical drive or EBS volume"
            [AStr device; AStr location])]
  end.

Example io_error_ex :
  FindSubmatch ioErrorEndRequest "x end_request: I/O error, dev sde, sector 524 y" = Some ["sde"; "524"].
Proof. reflexivity. Qed.

(** ** XFS *)

(** The bytes at the start of [s] that [[-+]?[0-9]*\.?[0-9]+([eE][-+]?[0-9]+)?] matches,
    as the sign, the digits before and after the point, and the exponent with its sign.
    Every part is greedy; a point without digits after it is given back, and so is an
    exponent without digits. *)
Record decimal := mkDecimal { decNegative : bool; decWhole : string; decFraction : string; decExponent : option (bool * string) }.

Definition cut_sign (s : string) : bool * string :=
  match CutPrefix s "-" with
  | Some t => (true, t)
  | None => (false, default s (CutPrefix s "+"))
  end.

Definition cut_digits (s : string) : string * string :=
  let n := run_length digitbyte s in (take_bytes n s, drop_bytes n s).

Definition cut_exponent (s : string) : option (bool * string) :=
  match s with
  | String c t =>
      if Ascii.eqb c (byte_of 101) || Ascii.eqb c (byte_of 69) then
        let '(negative, u) := cut_sign t in
        match cut_digits u with
        | (EmptyString, _) => None
        | (digits, _) => Some (negative, digits)
        end
      else None
  | EmptyString => None
  end.

Definition decimal_at (s : string) : option decimal :=
  let '(negative, t) := cut_sign s in
  let '(whole, u) := cut_digits t in
  match CutPrefix u "." with
  | Some v =>
      match cut_digits v with
      | (EmptyString, _) =>
          if String.eqb whole EmptyString then None else Some (mkDecimal negative whole EmptyString None)
      | (fraction, w) => Some (mkDecimal negative whole fraction (cut_exponent w))
      end
  | None => if String.eqb whole EmptyString then None
            else Some (mkDecimal negative whole EmptyString (cut_exponent u))
  end.

(** The first number after the words of [avgFreeExtent]. *)
Fixpoint avgFreeExtent (line : string) : option decimal :=
  match (CutPrefix line "average free extent size " ≫= decimal_at) with
  | Some d => Some d
  | None => match line with String _ rest => avgFreeExtent rest | EmptyString => None end
  end.

(** [ParseFloat] on such a number: rounded to nearest; [None] is the range error. *)
Definition digits_value (s : string) : Z := foldl (λ z c, 10 * z + (Z.of_nat (Ascii.nat_of_ascii c) - 48)) 0 (String.list_ascii_of_string s).

(** The reading of an exponent stops growing at 10000. *)
Definition exponent_value (s : string) : Z :=
  foldl (λ e c, if e <? 10000 then 10 * e + (Z.of_nat (Ascii.nat_of_ascii c) - 48) else e) 0 (String.list_ascii_of_string s).

Definition ParseFloat (d : decimal) : option float64 :=
  let m := digits_value (decWhole d +:+ decFraction d) in
  let e := match decExponent d with
           | None => 0
           | Some (negative, s) => if negative then - exponent_value s else exponent_value s
           end - Z.of_nat (String.length (decFraction d)) in
  let f := round_decimal (decNegative d) m e in
  if is_infinite f then None else Some f.

Definition checkXFS (avgSize : float64) : list Condition :=
  if flt avgSize (of_int 16) then
    [condition_of XFSSmallAverageClusterSize []
       "The XFS Average Cluster size is small, which may prevent new files from being created due to free space fragmentation"]
  else [].

Definition check_line (line : string) : list Condition :=
  match avgFreeExtent line ≫= ParseFloat with
  | Some avgSize => checkXFS avgSize
  | None => []
  end.

(** A mount: the type and the source. *)
Record Mount := mkMount { FSType : string; MountSource : string }.

Definition xfs_sources (mounts : list Mount) : gset string :=
  list_to_set (MountSource <$> filter (λ m, FSType m = "xfs") mounts).

(** [run] is the output of [xfs_db -r -c "freesp -s"] on a device, in the root of the
    host.  The result of [checkXFS] is not looked at. *)
Fixpoint check_devices (run : string → result string string) (devices : list string) : list Condition * option string :=
  match devices with
  | [] => ([], None)
  | xfs :: rest =>
      match run xfs with
      | Err e => ([], Some e)
      | Ok out =>
          let '(conds, err) := check_devices run rest in
          ((Split out (byte_of 10) ≫= check_line) ++ conds, err)
      end
  end.

(** [order] is the order in which the map of the devices is visited. *)
Definition handleXFS (mounts : result string (list Mount)) (order : gset string → list string)
    (run : string → result string string) : list Condition * option string :=
  match mounts with
  | Err e => ([], Some e)
  | Ok xfsInfo => check_devices run (order (xfs_sources xfsInfo))
  end.

Example decimal_ex :
  (λ s, avgFreeExtent s ≫= ParseFloat) <$>
    ["average free extent size 12."; "y average free extent size 1.6e1x"; "average free extent size -.5";
     "average free extent size . average free extent size 7"; "average free extent size 1e400"; "free extent size 3"] =
  [Some (of_int 12); Some (of_int 16); Some (fdiv (of_int (-1)) (of_int 2)); Some (of_int 7); None; None].
Proof. vm_compute. reflexivity. Qed.

(** What is reported is what the outputs say of the devices before the first whose command
    fails; that failure is the error. *)
Lemma check_devices_prefix run devices :
  ∃ ok outs rest, devices = ok ++ rest ∧ Forall2 (λ d out, run d = Ok out) ok outs ∧
    fst (check_devices run devices) = outs ≫= (λ out, Split out (byte_of 10) ≫= check_line) ∧
    match rest with
    | [] => snd (check_devices run devices) = None
    | d :: _ => ∃ e, run d = Err e ∧ snd (check_devices run devices) = Some e
    end.
Proof.
  induction devices as [|d devices (ok & outs & rest & -> & Hall & Hc & He)]; [by exists [], [], []|]. simpl.
  destruct (run d) as [out|e] eqn:Ed.
  - exists (d :: ok), (out :: outs), rest. split; [done|]. split; [by constructor|].
    destruct (check_devices _ _) as [conds err]. simpl in *. by rewrite Hc.
  - exists [], [], (d :: ok ++ rest). split; [done|]. split; [constructor|]. split; [done|]. by exists e.
Qed.

(** With commands that succeed, a small average of any XFS device is reported, whatever
    the order, and nothing else is. *)
Lemma handleXFS_complete mounts order run c :
  (∀ l, order l ≡ₚ elements l) → (∀ d, is_ok (run d) = true) →
  c ∈ fst (handleXFS (Ok mounts) order run) ↔
  ∃ m out line, m ∈ mounts ∧ FSType m = "xfs" ∧ run (MountSource m) = Ok out ∧
    line ∈ Split out (byte_of 10) ∧ c ∈ check_line line.
Proof.
  intros Ho Hr. simpl. assert (Hd : ∀ d, d ∈ order (xfs_sources mounts) ↔ ∃ m, m ∈ mounts ∧ FSType m = "xfs" ∧ MountSource m = d).
  { intros d. rewrite Ho, elem_of_elements. unfold xfs_sources. rewrite elem_of_list_to_set, list_elem_of_fmap.
    setoid_rewrite list_elem_of_filter. naive_solver. }
  destruct (check_devices_prefix run (order (xfs_sources mounts))) as (ok & outs & rest & Eo & Hall & -> & He).
  destruct rest as [|d rest].
  2: { destruct He as (e & Ee & _). specialize (Hr d). by rewrite Ee in Hr. }
  rewrite app_nil_r in Eo. rewrite Eo in Hd. rewrite list_elem_of_bind. setoid_rewrite list_elem_of_bind. split.
  - intros (out & (line & Hc & Hl) & [i Hi]%list_elem_of_lookup).
    destruct (Forall2_lookup_r _ _ _ _ _ Hall Hi) as (d & Hdi & Hrun).
    destruct (proj1 (Hd d)) as (m & Hm & Hx & <-); [by eapply list_elem_of_lookup_2|]. by exists m, out, line.
  - intros (m & out & line & Hm & Hx & Hrun & Hl & Hc). exists out. split; [by exists line|].
    assert (Hin : MountSource m ∈ ok) by (apply Hd; by exists m). apply list_elem_of_lookup in Hin as [i Hi].
    destruct (Forall2_lookup_l _ _ _ _ _ Hall Hi) as (out' & Ho' & Hrun'). rewrite Hrun in Hrun'. injection Hrun' as ->. by eapply list_elem_of_lookup_2.
Qed.

(** ** I/O delays *)

Definition colPid : nat := 0.
Definition colComm : nat := 1.
Definition colDelayacct_blkio_ticks : nat := 41.
Definition centisecondsPerSecond : Z := 100.
Definition ioDelayThresholdSeconds : Z := 10.

Definition buildIODelayCacheKey (id name : string) : string := id +:+ "-" +:+ name.

Inductive IODelayError := TooFewFields | BadDelay.

Section IODelays.
(** [GetByKey] of the cache. *)
Variables (GetByKey : string → option Z).

(** [%0.1f] of a number of centiseconds as seconds. *)
Definition Seconds (delay : Z) : string := FormatFixed 1 (fdiv (of_int delay) (of_int centisecondsPerSecond)).

(** The result with the entry added to the cache, if any; [None] is a panic: an index
    out of range. *)
Definition checkIODelays (proc : string)
    : option (result IODelayError (list Condition) * option (string * Z)) :=
  let segments := Fields proc in
  if (length segments <? colDelayacct_blkio_ticks)%nat then Some (Err TooFewFields, None)
  else
    ticks ← segments !! colDelayacct_blkio_ticks;
    match Atoi ticks with
    | None => Some (Err BadDelay, None)
    | Some currentDelay =>
        pid ← segments !! colPid;
        comm ← segments !! colComm;
        let key := buildIODelayCacheKey pid comm in
        let entry := Some (key, currentDelay) in
        match GetByKey key with
        | None => Some (Ok [], entry)
        | Some previous =>
            let delay := i64 (currentDelay - previous) in
            if delay <? ioDelayThresholdSeconds * centisecondsPerSecond then Some (Ok [], entry)
            else Some (Ok [condition_of IODelays []
                             (Sprintf "Process %s (PID %s) incurred %s seconds of I/O delay"
                                [AStr comm; AStr pid; AStr (Seconds delay)])], entry)
        end
    end.

(** A stat file of exactly 41 fields passes the length test and panics: the test
    compares the length with the last index. *)
Theorem io_delay_panics_iff proc :
  checkIODelays proc = None ↔ length (Fields proc) = 41%nat.
Proof.
  unfold checkIODelays, colDelayacct_blkio_ticks. generalize (Fields proc) as l. intros l.
  destruct (length l <? 41)%nat eqn:Hl; [apply Nat.ltb_lt in Hl; split; [done|lia]|].
  apply Nat.ltb_ge in Hl. destruct (l !! 41%nat) as [ticks|] eqn:H41.
  - apply lookup_lt_Some in H41. split; [|lia]. cbn [mbind option_bind].
    destruct (Atoi ticks); [|done].
    destruct (lookup_lt_is_Some_2 l colPid) as [pid ->]; [unfold colPid; lia|].
    destruct (lookup_lt_is_Some_2 l colComm) as [comm ->]; [unfold colComm; lia|]. cbn [mbind option_bind].
    destruct (GetByKey _); [|done]. by destruct (_ <? _).
  - apply lookup_ge_None in H41. split; [lia|done].
Qed.

End IODelays.

(** What reading a file answers. *)
Inductive FileRead := Content (s : string) | NotExist | ReadError (e : string).

Definition delay_error (e : IODelayError) : string :=
  match e with TooFewFields => "not enough fields" | BadDelay => "invalid delay" end.

(** The loop of [handleIODelays] over a cache, with the errors it joins; [None] is the
    panic of [checkIODelays].  [read] is the stat file of a process. *)
Section IOLoop.
Context {C : Type} (GetByKey : C → string → option Z) (Add : C → string * Z → C)
  (read : string → FileRead).

Fixpoint io_loop (c : C) (entries : list string) : option (C * list Condition * list string) :=
  match entries with
  | [] => Some (c, [], [])
  | entry :: rest =>
      match read entry with
      | NotExist => io_loop c rest
      | ReadError e => '(c, conds, errs) ← io_loop c rest; Some (c, conds, e :: errs)
      | Content proc =>
          '(r, added) ← checkIODelays (GetByKey c) proc;
          let c := match added with Some kv => Add c kv | None => c end in
          '(c, conds, errs) ← io_loop c rest;
          Some match r with
               | Ok now => (c, now ++ conds, errs)
               | Err e => (c, conds, delay_error e :: errs)
               end
      end
  end.

Definition handleIODelays (procPaths : result string (list string)) (c : C) : option (C * list Condition * list string) :=
  match procPaths with
  | Err e => Some (c, [], [e])
  | Ok entries => io_loop c entries
  end.

(** A single stat file of 41 fields takes the agent down; with none, all are looked at. *)
Lemma handleIODelays_panics_iff c entries :
  handleIODelays (Ok entries) c = None ↔
  ∃ entry proc, entry ∈ entries ∧ read entry = Content proc ∧ length (Fields proc) = 41%nat.
Proof.
  simpl. revert c. induction entries as [|entry rest IH]; intros c.
  { simpl. split; [done|]. by intros (? & ? & ?%elem_of_nil & _). }
  cbn [io_loop]. setoid_rewrite elem_of_cons. destruct (read entry) as [proc| |e] eqn:Er.
  - destruct (checkIODelays (GetByKey c) proc) as [[r added]|] eqn:Ec.
    + assert (Hne : length (Fields proc) ≠ 41%nat).
      { intros H. apply (io_delay_panics_iff (GetByKey c) proc) in H. congruence. }
      cbn [mbind option_bind]. set (c' := match added with Some kv => _ | None => _ end).
      specialize (IH c'). destruct (io_loop c' rest) as [[[c'' conds] errs]|].
      * split; [done|]. intros (en & p & [->|Hin] & Hp & Hl); [congruence|].
        assert (Hn := proj2 IH (ex_intro _ en (ex_intro _ p (conj Hin (conj Hp Hl))))). done.
      * split; [|done]. intros _. destruct (proj1 IH eq_refl) as (en & p & ? & ? & ?). eauto 10.
    + split; [|done]. intros _. exists entry, proc. split; [by left|]. split; [done|].
      by apply (io_delay_panics_iff (GetByKey c) proc).
  - rewrite IH. split; intros (en & p & ? & ? & ?); [eauto 10|]. destruct_or!; [congruence|eauto 10].
  - specialize (IH c). destruct (io_loop c rest) as [[[c'' conds] errs]|]; cbn [mbind option_bind].
    + split; [done|]. intros (en & p & [->|Hin] & Hp & Hl); [congruence|]. assert (Hn := proj2 IH (ex_intro _ en (ex_intro _ p (conj Hin (conj Hp Hl))))). done.
    + split; [|done]. intros _. destruct (proj1 IH eq_refl) as (en & p & ? & ? & ?). eauto 10.
Qed.
End IOLoop.

(** ** NVMe identification *)

Record NvmeIdentifyController := mkIdentify { Vid : Z; Sn : string; Mn : string; Bdev : string }.

Fixpoint trim_nulls (s : string) : string :=
  match s with
  | EmptyString => EmptyString
  | String c s' =>
      match trim_nulls s' with
      | EmptyString => if Ascii.eqb c (byte_of 0) then EmptyString else String c EmptyString
      | t => String c t
      end
  end.

Definition BytesToString (b : string) : string := trim_nulls b.

(** [None] is a panic: the serial number is [vol] alone. *)
Definition GetVolumeId (id : NvmeIdentifyController) : option string :=
  let vol := BytesToString (Sn id) in
  match CutPrefix vol "vol" with
  | None => Some vol
  | Some EmptyString => None
  | Some (String c rest) => Some (if Ascii.eqb c (byte_of 45) then vol else "vol-" +:+ String c rest)
  end.

Definition GetBlockDevice (id : NvmeIdentifyController) : string := TrimSpace (BytesToString (Bdev id)).
Definition GetModelNumber (id : NvmeIdentifyController) : string := TrimSpace (BytesToString (Mn id)).

Definition AMZN_NVME_EBS_MN : string := "Amazon Elastic Block Store".
Definition AMZN_NVME_STATS_MAGIC : Z := 1008973072. (* 0x3C23B510 *)
Definition AMZN_NVME_VID : Z := 7439. (* 0x1D0F *)

(** ** EBS throttling *)

(** The four counters of time spent over a limit, in microseconds. *)
Inductive throttle := VolumeIops | VolumeThroughput | InstanceIops | InstanceThroughput.

#[export] Instance throttle_eq_dec : EqDecision throttle.
Proof. solve_decision. Defined.
Definition throttle_code (k : throttle) : nat :=
  match k with VolumeIops => 0 | VolumeThroughput => 1 | InstanceIops => 2 | InstanceThroughput => 3 end.
Definition throttle_of (n : nat) : option throttle :=
  match n with
  | 0 => Some VolumeIops | 1 => Some VolumeThroughput | 2 => Some InstanceIops | 3 => Some InstanceThroughput
  | _ => None
  end%nat.

#[export] Instance throttle_countable : Countable throttle.
Proof. apply (inj_countable throttle_code throttle_of). by intros []. Defined.

Record Stats := mkStats { Magic : Z; exceeded : throttle → Z }.

(** The last value of each counter of each volume, 0 when there is none. *)
Abbreviation ebsNVMeSystem := (gmap (throttle * string) Z).

Definition NewEBSSystem : ebsNVMeSystem := ∅.

(** Five seconds of throttling for each minute of the period. *)
Definition throttle_threshold : Z := 5 * (Second / Microsecond) * 10.

Definition throttle_reason (k : throttle) : ReasonMeta :=
  match k with
  | VolumeIops => EBSVolumeIOPSExceeded
  | VolumeThroughput => EBSVolumeThroughputExceeded
  | InstanceIops => EBSInstanceIOPSExceeded
  | InstanceThroughput => EBSInstanceThroughputExceeded
  end.

Definition throttle_format (k : throttle) : string :=
  match k with
  | VolumeIops => "Volume %s (%s) reported exceeded configured IOPS for %s"
  | VolumeThroughput => "Volume %s (%s) reported exceeded configured throughput for %s"
  | InstanceIops => "Volume %s (%s) reported exceeded instance IOPS for %s"
  | InstanceThroughput => "Volume %s (%s) reported exceeded instance throughput for %s"
  end.

Definition check_counter (k : throttle) (value : Z) (volumeID blockDeviceName : string) (s : ebsNVMeSystem)
    : list Condition * ebsNVMeSystem :=
  let diff := u64 (value - default 0 (s !! (k, volumeID))) in
  if 0 <? diff then
    (if throttle_threshold <? diff then
       [condition_of (throttle_reason k) []
          (Sprintf (throttle_format k)
             [AStr volumeID; AStr blockDeviceName; AStr (DurationString (i64 (i64 diff * Microsecond)))])]
     else [], <[(k, volumeID) := value]> s)
  else ([], s).

Definition throttles : list throttle := [VolumeIops; VolumeThroughput; InstanceIops; InstanceThroughput].

Fixpoint check_counters (ks : list throttle) (stats : Stats) (volumeID blockDeviceName : string)
    (s : ebsNVMeSystem) : list Condition * ebsNVMeSystem :=
  match ks with
  | [] => ([], s)
  | k :: ks' =>
      let '(out, s) := check_counter k (exceeded stats k) volumeID blockDeviceName s in
      let '(outs, s) := check_counters ks' stats volumeID blockDeviceName s in
      (out ++ outs, s)
  end.

Definition checkVolumeStatistics (stats : Stats) (volumeID blockDeviceName : string) (s : ebsNVMeSystem)
    : list Condition * ebsNVMeSystem := check_counters throttles stats volumeID blockDeviceName s.

(** A device: what its two queries answer. *)
Record NvmeDevice := mkNvmeDevice { ndId : option NvmeIdentifyController; ndStats : option Stats }.

(** The loop over the devices; [None] is a panic. *)
Fixpoint throttles_loop (devs : list NvmeDevice) (checked : gset string) (s : ebsNVMeSystem)
    : option (list Condition * ebsNVMeSystem) :=
  match devs with
  | [] => Some ([], s)
  | d :: devs' =>
      match ndId d with
      | None => throttles_loop devs' checked s
      | Some id =>
          if negb (Vid id =? AMZN_NVME_VID) || negb (String.eqb (GetModelNumber id) AMZN_NVME_EBS_MN)
          then throttles_loop devs' checked s
          else
            volumeID ← GetVolumeId id;
            if decide (volumeID ∈ checked) then throttles_loop devs' checked s
            else
              let checked := {[volumeID]} ∪ checked in
              match ndStats d with
              | None => throttles_loop devs' checked s
              | Some stats =>
                  if negb (Magic stats =? AMZN_NVME_STATS_MAGIC) then throttles_loop devs' checked s
                  else
                    let '(out, s) := checkVolumeStatistics stats volumeID (GetBlockDevice id) s in
                    '(outs, s) ← throttles_loop devs' checked s;
                    Some (out ++ outs, s)
              end
      end
  end.

Definition NVMeThrottles (devs : list NvmeDevice) (s : ebsNVMeSystem)
    : option (list Condition * ebsNVMeSystem) := throttles_loop devs ∅ s.

(** ** What is reported over time *)

Definition last_of (s : ebsNVMeSystem) (k : throttle) (volumeID : string) : Z := default 0 (s !! (k, volumeID)).

Definition reports (k : throttle) (out : list Condition) : Prop :=
  ∃ c, c ∈ out ∧ Reason c = Template (throttle_reason k).

Lemma reports_app k a b : reports k (a ++ b) ↔ reports k a ∨ reports k b.
Proof. unfold reports. setoid_rewrite elem_of_app. naive_solver. Qed.

Lemma reports_nil k : ¬ reports k [].
Proof. intros (c & Hc & _). by apply elem_of_nil in Hc. Qed.

Lemma throttle_reason_inj k k' : Template (throttle_reason k) = Template (throttle_reason k') → k = k'.
Proof. destruct k, k'; (done || discriminate). Qed.

Lemma reason_of k msg : Reason (condition_of (throttle_reason k) [] msg) = Template (throttle_reason k).
Proof. by destruct k. Qed.

Lemma check_counter_spec k value vol dev s k' :
  is_u64 value → is_u64 (last_of s k vol) →
  let '(out, s') := check_counter k value vol dev s in
  (reports k' out ↔ k' = k ∧ throttle_threshold < u64 (value - last_of s k vol)) ∧
  last_of s' k vol = value ∧ ∀ k2 v2, (k2, v2) ≠ (k, vol) → last_of s' k2 v2 = last_of s k2 v2.
Proof.
  intros Hv Hl. unfold check_counter. fold (last_of s k vol).
  pose proof (u64_range (value - last_of s k vol)) as Hd.
  assert (Ht : 0 < throttle_threshold) by (vm_compute; done).
  destruct (0 <? u64 (value - last_of s k vol)) eqn:H0.
  - split; [|split].
    + destruct (throttle_threshold <? _) eqn:Hlt; [apply Z.ltb_lt in Hlt|apply Z.ltb_ge in Hlt].
      * unfold reports. split.
        -- intros (c & ->%list_elem_of_singleton & Hr). rewrite reason_of in Hr.
           apply throttle_reason_inj in Hr. done.
        -- intros [-> _]. eexists. split; [by apply list_elem_of_singleton|apply reason_of].
      * split; [by intros ?%reports_nil|lia].
    + unfold last_of. by rewrite lookup_insert_eq.
    + intros k2 v2 Hne. unfold last_of. by rewrite lookup_insert_ne.
  - apply Z.ltb_ge in H0. split; [split; [by intros ?%reports_nil|lia]|]. split; [|done].
    destruct (Z_lt_ge_dec value (last_of s k vol)) as [Hlt|Hge].
    + rewrite u64_sub_lt in H0 by done. unfold is_u64 in *. lia.
    + rewrite u64_sub_ge in H0 by (done || lia). lia.
Qed.

Lemma check_counters_spec ks stats vol dev s k :
  NoDup ks → (∀ k, is_u64 (exceeded stats k)) → (∀ k, is_u64 (last_of s k vol)) →
  let '(out, s') := check_counters ks stats vol dev s in
  (reports k out ↔ k ∈ ks ∧ throttle_threshold < u64 (exceeded stats k - last_of s k vol)) ∧
  ∀ k2, last_of s' k2 vol = if decide (k2 ∈ ks) then exceeded stats k2 else last_of s k2 vol.
Proof.
  intros Hnd Hv. revert s. induction Hnd as [|k0 ks Hk0 Hnd IH]; intros s Hl; simpl.
  - split; [split; [by intros ?%reports_nil|by intros [?%elem_of_nil _]]|].
    done.
  - pose proof (check_counter_spec k0 (exceeded stats k0) vol dev s k (Hv k0) (Hl k0)) as H1.
    destruct (check_counter _ _ _ _ s) as [out1 s1]. destruct H1 as (H1 & H2 & H3).
    assert (Hl1 : ∀ k2, last_of s1 k2 vol = if decide (k2 = k0) then exceeded stats k0 else last_of s k2 vol).
    { intros k2. destruct (decide (k2 = k0)) as [->|Hne]; [done|]. apply H3. congruence. }
    specialize (IH s1). pose proof (IH ltac:(intros k2; rewrite Hl1; by destruct (decide (k2 = k0)))) as H4.
    destruct (check_counters ks _ _ _ s1) as [out2 s2]. destruct H4 as [H4 H5]. split.
    + rewrite reports_app, H1, H4, elem_of_cons, Hl1. destruct (decide (k = k0)) as [->|]; naive_solver.
    + intros k2. rewrite H5, Hl1. destruct (decide (k2 ∈ ks)) as [Hin|Hin].
      * by rewrite decide_True by (apply elem_of_cons; auto).
      * destruct (decide (k2 = k0)) as [->|Hne]; [by rewrite decide_True by (apply elem_of_cons; auto)|].
        by rewrite decide_False by (rewrite elem_of_cons; naive_solver).
Qed.

(** The polls of one volume. *)
Fixpoint ebs_polls (vol dev : string) (s : ebsNVMeSystem) (polls : list Stats) : list (list Condition) :=
  match polls with
  | [] => []
  | stats :: polls' =>
      let '(out, s) := checkVolumeStatistics stats vol dev s in
      out :: ebs_polls vol dev s polls'
  end.

Lemma ebs_polls_spec vol dev polls s prev k :
  (∀ k, last_of s k vol = prev k ∧ is_u64 (prev k)) → Forall (λ st, ∀ k, is_u64 (exceeded st k)) polls →
  Forall2 (λ out growth, reports k out ↔ throttle_threshold < growth)
    (ebs_polls vol dev s polls)
    (zip_with (λ v p, u64 (v - p)) ((λ st, exceeded st k) <$> polls)
       (prev k :: ((λ st, exceeded st k) <$> polls))).
Proof.
  intros Hs Hp. revert s prev Hs. induction Hp as [|st polls Hst _ IH]; intros s prev Hs; [constructor|].
  simpl. unfold checkVolumeStatistics.
  pose proof (check_counters_spec throttles st vol dev s k) as H.
  destruct (check_counters throttles st vol dev s) as [out s1].
  assert (Hall : ∀ k, k ∈ throttles) by (intros k0; unfold throttles; destruct k0; set_solver).
  destruct H as [H1 H2]; [apply (bool_decide_unpack _); vm_compute; exact I|done|
    intros k0; destruct (Hs k0) as [-> ?]; done|].
  constructor.
  - rewrite H1. destruct (Hs k) as [-> _]. naive_solver.
  - apply (IH s1 (exceeded st)). intros k0. split; [|done]. rewrite H2. by rewrite decide_True.
Qed.

(** Over the polls of a volume, each of the four throttling conditions is reported
    exactly on the polls where its counter is more than 50 seconds ahead of the poll
    before, in 64-bit arithmetic and from 0 before the first poll: a counter that is
    high when the agent starts, or that drops, is reported as growth. *)
Theorem throttle_reported_iff vol dev polls k :
  Forall (λ st, ∀ k, is_u64 (exceeded st k)) polls →
  Forall2 (λ out growth, reports k out ↔ throttle_threshold < growth)
    (ebs_polls vol dev NewEBSSystem polls)
    (zip_with (λ v p, u64 (v - p)) ((λ st, exceeded st k) <$> polls)
       (0 :: ((λ st, exceeded st k) <$> polls))).
Proof.
  intros Hp. apply (ebs_polls_spec vol dev polls NewEBSSystem (λ _, 0)); [|done].
  intros k0. unfold last_of, NewEBSSystem. rewrite lookup_empty. split; [done|]. vm_compute. split; congruence.
Qed.

Definition ex_stats (v : Z) : Stats := mkStats AMZN_NVME_STATS_MAGIC (λ _, v).

Lemma throttle_reported_iff_witness :
  Forall (λ st, ∀ k, is_u64 (exceeded st k)) [ex_stats 60000000; ex_stats 60000001; ex_stats 5] ∧
  reports VolumeIops (nth 0 (ebs_polls "vol-1" "sdb" NewEBSSystem [ex_stats 60000000; ex_stats 60000001; ex_stats 5]) []).
Proof.
  assert (Hp : Forall (λ st, ∀ k, is_u64 (exceeded st k)) [ex_stats 60000000; ex_stats 60000001; ex_stats 5]).
  { repeat constructor; vm_compute; congruence. }
  split; [exact Hp|].
  pose proof (throttle_reported_iff "vol-1" "sdb" [ex_stats 60000000; ex_stats 60000001; ex_stats 5] VolumeIops Hp) as H.
  destruct (ebs_polls _ _ _ _) as [|out outs]; inversion H as [|? ? ? ? H1]; subst.
  apply H1. vm_compute. reflexivity.
Defined.
