(* ===== verification/Nvme.v ===== *)
(** * Nvme: the queries of NVMe devices ([monitors/storage/nvme]: device.go, id.go,
    stats.go, types.go; [monitors/storage/ebs]: the device controller).

    A query hands the address of an admin command to the driver, which writes a page over
    a structure of the program.  The page is a string of bytes; the offsets of its fields
    are those Go gives them, computed from the declarations of the structures.  The
    driver is an argument. *)

From S2P Require Import Prelude GoStrings Storage.

(** ** The layout of structures *)

Inductive ty := Uint (bytes : nat) | Array (n : nat) (elem : ty) | Struct (fields : list (string * ty)).

Fixpoint align (t : ty) : nat :=
  match t with
  | Uint n => n
  | Array _ e => align e
  | Struct fs => (fix go fs := match fs with [] => 1%nat | (_, f) :: fs' => Nat.max (align f) (go fs') end) fs
  end.

(** [n] rounded up to a multiple of [a]. *)
Definition round_up (n a : nat) : nat := ((n + a - 1) / a * a)%nat.

(** The size of a type; a field of a structure begins at the next multiple of its
    alignment, and the structure ends at one of its own. *)
Fixpoint Sizeof (t : ty) : nat :=
  match t with
  | Uint n => n
  | Array n e => n * Sizeof e
  | Struct fs =>
      round_up ((fix go fs off := match fs with
                                  | [] => off
                                  | (_, f) :: fs' => go fs' (round_up off (align f) + Sizeof f)
                                  end) fs 0%nat) (align t)
  end%nat.

(** The offset and the type of a field. *)
Fixpoint field_from (fs : list (string * ty)) (off : nat) (name : string) : option (nat * ty) :=
  match fs with
  | [] => None
  | (n, f) :: fs' =>
      let at_ := round_up off (align f) in
      if String.eqb n name then Some (at_, f) else field_from fs' (at_ + Sizeof f) name
  end.

Definition field (t : ty) (name : string) : option (nat * ty) :=
  match t with Struct fs => field_from fs 0 name | _ => None end.

Definition offset (t : ty) (path : list string) : option (nat * ty) :=
  foldl (λ acc name, '(off, t) ← acc; '(o, f) ← field t name; Some ((off + o)%nat, f)) (Some (0%nat, t)) path.

Abbreviation U8 := (Uint 1).
Abbreviation U16 := (Uint 2).
Abbreviation U32 := (Uint 4).
Abbreviation U64 := (Uint 8).
Abbreviation Bytes n := (Array n U8).

Definition NvmeAdminCommandT : ty := Struct
  [("Opcode", U8); ("Flags", U8); ("Cid", U16); ("Nsid", U32); ("Reserved0", U64); ("Mptr", U64); ("Addr", U64);
   ("Mlen", U32); ("Alen", U32); ("Cdw10", U32); ("Cdw11", U32); ("Cdw12", U32); ("Cdw13", U32); ("Cdw14", U32);
   ("Cdw15", U32); ("Reserved1", U64)].

Definition NvmeIdentifyControllerAmznVs : ty := Struct [("Bdev", Bytes 32); ("Reserved0", Bytes (1024 - 32))].

Definition NvmeIdentifyControllerPsd : ty := Struct
  [("Mp", U16); ("Reserved0", U16); ("Enlat", U32); ("Exlat", U32); ("Rrt", U8); ("Rrl", U8); ("Rwt", U8);
   ("Rwl", U8); ("Reserved1", Bytes 16)].

Definition NvmeIdentifyControllerT : ty := Struct
  [("Vid", U16); ("Ssvid", U16); ("Sn", Bytes 20); ("Mn", Bytes 40); ("Fr", Bytes 8); ("Rab", U8); ("Ieee", Bytes 3);
   ("Mic", U8); ("Mdts", U8); ("Reserved0", Bytes (256 - 78)); ("Oacs", U16); ("Acl", U8); ("Aerl", U8); ("Frmw", U8);
   ("Lpa", U8); ("Elpe", U8); ("Npss", U8); ("Avscc", U8); ("Reserved1", Bytes (512 - 265)); ("Sqes", U8); ("Cqes", U8);
   ("Reserved2", U16); ("Nn", U32); ("Oncs", U16); ("Fuses", U16); ("Fna", U8); ("Vwc", U8); ("Awun", U16);
   ("Awupf", U16); ("Nvscc", U8); ("Reserved3", Bytes (704 - 531)); ("Reserved4", Bytes (2048 - 704));
   ("Psd", Array 32 NvmeIdentifyControllerPsd); ("Vs", NvmeIdentifyControllerAmznVs)].

Definition NvmeHistogramBin : ty := Struct [("Lower", U64); ("Upper", U64); ("Count", U32); ("Reserved0", U32)].
Definition EbsNvmeHistogram : ty := Struct [("NumBins", U64); ("Bins", Array 64 NvmeHistogramBin)].

Definition NvmeGetAmznStatsLogpage : ty := Struct
  [("Magic", U32); ("Reserved0", Bytes 4); ("TotalReadOps", U64); ("TotalWriteOps", U64); ("TotalReadBytes", U64);
   ("TotalWriteBytes", U64); ("TotalReadTime", U64); ("TotalWriteTime", U64);
   ("EbsVolumePerformanceExceededIops", U64); ("EbsVolumePerformanceExceededTp", U64);
   ("Ec2InstanceEbsPerformanceExceededIops", U64); ("Ec2InstanceEbsPerformanceExceededTp", U64);
   ("VolumeQueueLength", U64); ("Reserved1", Bytes 416); ("ReadIoLatencyHistogram", EbsNvmeHistogram);
   ("WriteIoLatencyHistogram", EbsNvmeHistogram); ("Reserved2", Bytes 496)].

(** ** Reading a page *)

(** The bytes of a little-endian integer. *)
Fixpoint le_value (s : string) : Z :=
  match s with
  | EmptyString => 0
  | String c s' => Z.of_nat (Ascii.nat_of_ascii c) + 256 * le_value s'
  end.

Definition slice (page : string) (off len : nat) : string := take_bytes len (drop_bytes off page).

Definition read_bytes (t : ty) (path : list string) (page : string) : string :=
  match offset t path with Some (off, f) => slice page off (Sizeof f) | None => EmptyString end.
Definition read_uint (t : ty) (path : list string) (page : string) : Z := le_value (read_bytes t path page).

Definition identity_of (page : string) : NvmeIdentifyController :=
  mkIdentify (read_uint NvmeIdentifyControllerT ["Vid"] page) (read_bytes NvmeIdentifyControllerT ["Sn"] page)
    (read_bytes NvmeIdentifyControllerT ["Mn"] page) (read_bytes NvmeIdentifyControllerT ["Vs"; "Bdev"] page).

Definition throttle_field (k : throttle) : string :=
  match k with
  | VolumeIops => "EbsVolumePerformanceExceededIops"
  | VolumeThroughput => "EbsVolumePerformanceExceededTp"
  | InstanceIops => "Ec2InstanceEbsPerformanceExceededIops"
  | InstanceThroughput => "Ec2InstanceEbsPerformanceExceededTp"
  end.

Definition stats_of (page : string) : Stats :=
  mkStats (read_uint NvmeGetAmznStatsLogpage ["Magic"] page)
    (λ k, read_uint NvmeGetAmznStatsLogpage [throttle_field k] page).

(** ** The commands *)

Definition NVME_ADMIN_IDENTIFY : Z := 6.
Definition NVME_GET_LOG_PAGE : Z := 2.
Definition NVME_IOCTL_ADMIN_CMD : Z := 3225964097. (* 0xC0484E41 *)
Definition AMZN_NVME_STATS_LOGPAGE_ID : Z := 208. (* 0xD0 *)

(** The fields of a command that are set; the others are 0. *)
Record NvmeAdminCommand := mkAdminCommand { Opcode : Z; Nsid : Z; Alen : Z; Cdw10 : Z }.

(** What the driver answers to a request and a command: the errno and the page it wrote. *)
Abbreviation Driver := (Z → NvmeAdminCommand → Z * string).

(** [opened] is the device or the error of opening it. *)
Definition NvmeIoctl (opened : result string Driver) (adminCmd : NvmeAdminCommand) : result string string :=
  match opened with
  | Err e => Err (prefixed "failed to open device" e)
  | Ok driver =>
      let '(errno, page) := driver NVME_IOCTL_ADMIN_CMD adminCmd in
      if negb (errno =? 0) then Err ("failed to issue nvme cmd, err: errno " +:+ Itoa errno) else Ok page
  end.

Definition identify_command : NvmeAdminCommand :=
  mkAdminCommand NVME_ADMIN_IDENTIFY 0 (Z.of_nat (Sizeof NvmeIdentifyControllerT)) 1.
Definition stats_command : NvmeAdminCommand :=
  mkAdminCommand NVME_GET_LOG_PAGE 1 (Z.of_nat (Sizeof NvmeGetAmznStatsLogpage))
    (u32 (Z.lor AMZN_NVME_STATS_LOGPAGE_ID (Z.shiftl 1024 16))).

Definition QueryIdCtrlFromDevice (opened : result string Driver) : result string NvmeIdentifyController :=
  page <-? NvmeIoctl opened identify_command;; Ok (identity_of page).
Definition QueryStatsFromDevice (opened : result string Driver) : result string Stats :=
  page <-? NvmeIoctl opened stats_command;; Ok (stats_of page).

(** A device as [NVMeThrottles] sees it. *)
Definition to_option {A} (r : result string A) : option A := match r with Ok a => Some a | Err _ => None end.
Definition device_of (opened : result string Driver) : NvmeDevice :=
  mkNvmeDevice (to_option (QueryIdCtrlFromDevice opened)) (to_option (QueryStatsFromDevice opened)).

(** ** What the layout promises *)

(** The structures are as large as the pages and the command of the driver: 4096 bytes for
    the two pages, and the size that the number of the request carries for the command. *)
Lemma page_sizes :
  Sizeof NvmeIdentifyControllerT = 4096%nat ∧ Sizeof NvmeGetAmznStatsLogpage = 4096%nat ∧
  Z.of_nat (Sizeof NvmeAdminCommandT) = Z.land (Z.shiftr NVME_IOCTL_ADMIN_CMD 16) (Z.ones 14).
Proof. repeat split; vm_compute; reflexivity. Qed.

Fixpoint zeros (n : nat) : string := match n with O => EmptyString | S n' => String (byte_of 0) (zeros n') end.
Fixpoint le_bytes (n : nat) (z : Z) : string :=
  match n with
  | O => EmptyString
  | S n' => String (byte_of (Z.to_nat (z mod 256))) (le_bytes n' (z / 256))
  end.

Lemma length_zeros n : String.length (zeros n) = n.
Proof. induction n; simpl; congruence. Qed.
Lemma length_le_bytes n z : String.length (le_bytes n z) = n.
Proof. revert z. induction n; intros; simpl; congruence. Qed.

Lemma le_value_bytes n z : 0 ≤ z < 256 ^ Z.of_nat n → le_value (le_bytes n z) = z.
Proof.
  revert z. induction n as [|n IH]; intros z Hz; [simpl in *; lia|].
  rewrite Nat2Z.inj_succ, Z.pow_succ_r in Hz by lia. cbn [le_bytes le_value]. pose proof (Z.mod_pos_bound z 256).
  rewrite IH by (split; [apply Z.div_pos; lia|apply Z.div_lt_upper_bound; lia]).
  rewrite (Ascii.nat_ascii_embedding (Z.to_nat _)) by lia. rewrite Z2Nat.id by lia. pose proof (Z.div_mod z 256). lia.
Qed.

(** A field is what is at its offset. *)
Lemma slice_app pre s post off len :
  String.length pre = off → String.length s = len → slice (pre +:+ s +:+ post) off len = s.
Proof. intros <- <-. unfold slice. rewrite drop_bytes_app. apply take_bytes_app. Qed.

Lemma slice_skip pre s off len :
  (String.length pre ≤ off)%nat → slice (pre +:+ s) off len = slice s (off - String.length pre) len.
Proof.
  intros H. unfold slice. f_equal. revert off H. induction pre as [|c pre IH]; intros [|off] H; simpl in *; try done; try lia.
  apply IH. lia.
Qed.

Lemma slice_head s post off len : off = 0%nat → String.length s = len → slice (s +:+ post) off len = s.
Proof. intros ->. by apply (slice_app EmptyString). Qed.

Local Ltac field_at :=
  repeat (rewrite slice_skip by (rewrite ?length_le_bytes, ?length_zeros; lia));
  rewrite ?length_le_bytes, ?length_zeros;
  try (apply slice_head; done).

(** The pages as a device lays them out. *)
Definition identify_page (id : NvmeIdentifyController) : string :=
  le_bytes 2 (Vid id) +:+ zeros 2 +:+ Sn id +:+ Mn id +:+ zeros 3008 +:+ Bdev id +:+ zeros 992.

Definition stats_page (s : Stats) : string :=
  le_bytes 4 (Magic s) +:+ zeros 52 +:+ le_bytes 8 (exceeded s VolumeIops) +:+ le_bytes 8 (exceeded s VolumeThroughput) +:+
  le_bytes 8 (exceeded s InstanceIops) +:+ le_bytes 8 (exceeded s InstanceThroughput) +:+ zeros 4008.

Lemma read_at t path page off n e :
  offset t path = Some (off, e) → Sizeof e = n → read_bytes t path page = slice page off n.
Proof. intros Ho <-. unfold read_bytes. by rewrite Ho. Qed.

(** What the queries read of a page is what the device put there: the vendor, the serial
    number, the model and the block device at the offsets of the specification. *)
Lemma identity_roundtrip id :
  0 ≤ Vid id < 2 ^ 16 → String.length (Sn id) = 20%nat → String.length (Mn id) = 40%nat → String.length (Bdev id) = 32%nat →
  identity_of (identify_page id) = id.
Proof.
  intros Hv Hs Hm Hb. unfold identity_of, read_uint.
  rewrite (read_at _ ["Vid"] _ 0 2 U16), (read_at _ ["Sn"] _ 4 20 (Bytes 20)), (read_at _ ["Mn"] _ 24 40 (Bytes 40)),
    (read_at _ ["Vs"; "Bdev"] _ 3072 32 (Bytes 32)) by (vm_compute; reflexivity).
  unfold identify_page. rewrite (slice_head (le_bytes _ _)) by (done || apply length_le_bytes). rewrite le_value_bytes by done.
  destruct id as [v s m b]. cbn [Vid Sn Mn Bdev] in *. f_equal; field_at; rewrite ?Hs, ?Hm; try done.
  all: by apply slice_head.
Qed.

Lemma stats_roundtrip s k :
  0 ≤ Magic s < 2 ^ 32 → (∀ k, 0 ≤ exceeded s k < 2 ^ 64) →
  Magic (stats_of (stats_page s)) = Magic s ∧ exceeded (stats_of (stats_page s)) k = exceeded s k.
Proof.
  intros Hm He. unfold stats_of, read_uint. cbn [Magic exceeded].
  assert (Ho : ∃ n, offset NvmeGetAmznStatsLogpage [throttle_field k] = Some ((56 + 8 * n)%nat, U64) ∧ n = throttle_code k)
    by (exists (throttle_code k); destruct k; vm_compute; done).
  destruct Ho as (n & Ho & ->). rewrite (read_at _ ["Magic"] _ 0 4 U32) by (vm_compute; reflexivity).
  rewrite (read_at _ _ _ _ 8 _ Ho eq_refl). unfold stats_page.
  split; [rewrite (slice_head (le_bytes _ _)) by (done || apply length_le_bytes); by apply le_value_bytes|].
  pose proof (He k). destruct k; cbn [throttle_code]; field_at; (rewrite slice_head; [by apply le_value_bytes|done|apply length_le_bytes]).
Qed.

(** A volume whose pages are read is checked against its own counters: what the monitor
    reports of it depends on the pages alone. *)
Lemma device_of_pages driver id s :
  0 ≤ Vid id < 2 ^ 16 → String.length (Sn id) = 20%nat → String.length (Mn id) = 40%nat → String.length (Bdev id) = 32%nat →
  driver NVME_IOCTL_ADMIN_CMD identify_command = (0, identify_page id) →
  driver NVME_IOCTL_ADMIN_CMD stats_command = (0, stats_page s) →
  ndId (device_of (Ok driver)) = Some id ∧ ndStats (device_of (Ok driver)) = Some (stats_of (stats_page s)).
Proof.
  intros Hv Hs Hm Hb Hi Ht. unfold device_of, QueryIdCtrlFromDevice, QueryStatsFromDevice, NvmeIoctl. cbn [ndId ndStats].
  rewrite Hi, Ht. simpl. by rewrite identity_roundtrip.
Qed.
