(* ===== verification/Networking.v ===== *)
(** * Networking: checks of the networking monitor ([monitors/networking]: monitor.go,
    networkutils/common.go, npa/npa.go, corefile/corefile.go, efa/efa.go).

    A check returns the conditions it notifies and its new state.  The TTL caches of
    the Kubernetes client and the rate limiters of [golang.org/x/time/rate] are
    arguments; so is the decoder of JSON. *)

From stdpp Require Import sorting.
From S2P Require Import Prelude GoStrings GoRegexp Osext Monitor Reasons Renotify Probe IPRoutes.

(** ** Log lines *)

Definition failedToWatchListRegex : regex :=
  [Lit "Failed to watch "; Rep 0 dot true true; Lit ": failed to list "; Rep 0 dot true true;
   Lit ": the server could not find the requested resource"].

Definition handleKubeProxy (line : string) : list Condition :=
  if MatchString failedToWatchListRegex line
  then [condition_of KubeProxyNotReady []
          "Kube Proxy has failed to watch or list resources, which may impact pod to service communication."]
  else [].

Definition handleIPAMDLogs (line : string) : list Condition :=
  if Contains line "Failed to check API server connectivity: invalid configuration: no configuration has been provided" then
    [condition_of IPAMDNotReady []
       "IPAM-D Missing Service Account Token and the IPAM daemon cannot connect to the API server."]
  else if Contains line "Unable to reach API Server" || Contains line "Failed to check API server connectivity" then
    [condition_of IPAMDNotReady []
       "IPAM-D has failed to connect to API Server which could be an issue with IPTable rules or any other network configuration."]
  else if Contains line "Starting L-IPAMD" then
    [Build (WithMinOccurrences
       (WithMessage (Builder IPAMDRepeatedlyRestart [])
          "IPAMD is restarting often which leads to other CNI components failing.") 5)]
  else if Contains line "InsufficientFreeAddressesInSubnet" then
    [condition_of IPAMDNoIPs [] "There are no available IP addresses for IPAMD to assign to pods"]
  else [].

(** ** IPAMD *)

Definition ipamdNotRunningConsistencyDuration : Duration := 15 * Minute.

Record criIPDetails := mkCri { criIp : string; containerId : string; criName : string; criNamespace : string }.

(** An allocation of the checkpoint of IPAMD. *)
Record Allocation := mkAllocation { allocID : string; allocIPv4 : string; allocIPv6 : string }.

Section Ipamd.
(** The TTL cache of client-go: what it holds under a key at a time, and an addition;
    and the answer of the CRI for a sandbox. *)
Context {Cache : Type} (GetByKey : Cache → Time → string → option criIPDetails)
  (Add : Cache → Time → criIPDetails → Cache) (PodSandboxStatus : string → option criIPDetails).

Record ipamdState := mkIpamd {
  criIPCache : Cache; vpcCNIPodID : string; ipamdNotRunningTime : Time }.

(** The loop over the allocations; the [n]th looks up the cache at [clock (2 n)] and
    again at [clock (2 n + 1)]. *)
Fixpoint check_allocations (clock : nat → Time) (n : nat) (l : list Allocation) (c : Cache)
    : list Condition * Cache :=
  match l with
  | [] => ([], c)
  | entry :: l' =>
      let next := check_allocations clock (S n) l' in
      let check c :=
        match GetByKey c (clock (2 * n + 1)%nat) (allocID entry) with
        | None => next c
        | Some d =>
            if negb (String.eqb (criIp d) (allocIPv4 entry) || String.eqb (criIp d) (allocIPv6 entry)) then
              ([condition_of IPAMDInconsistentState []
                  (Sprintf "Internal IPAMD state has conflicting IP addresses for pod %s/%s"
                     [AStr (criNamespace d); AStr (criName d)])], c)
            else next c
        end in
      match GetByKey c (clock (2 * n)%nat) (allocID entry) with
      | Some _ => check c
      | None =>
          match PodSandboxStatus (allocID entry) with
          | None => next c
          | Some r =>
              check (Add c (clock (2 * n)%nat) (mkCri (criIp r) (allocID entry) (criName r) (criNamespace r)))
          end
      end
  end.

(** [checkpoint] is [None] when its file does not exist; [dialed] the error of the
    connection to the CRI, when it is made. *)
Definition checkIPAMD (now : Time) (ipamdRunning : bool)
    (checkpoint : result string (option (list Allocation))) (dialed : option string)
    (clock : nat → Time) (m : ipamdState) : result string (list Condition) * ipamdState :=
  if negb ipamdRunning then
    if ipamdNotRunningConsistencyDuration <? Sub now (ipamdNotRunningTime m) then
      (Ok [], mkIpamd (criIPCache m) (vpcCNIPodID m) now)
    else (Ok [condition_of IPAMDNotRunning []
                "The AWS VPC CNI was detected on this node but IPAMD was not found running"], m)
  else
    match checkpoint with
    | Err err => (Err err, m)
    | Ok None => (Ok [], m)
    | Ok (Some allocations) =>
        match dialed with
        | Some err => (Err err, m)
        | None =>
            let '(out, c) := check_allocations clock 0 allocations (criIPCache m) in
            (Ok out, mkIpamd c (vpcCNIPodID m) (ipamdNotRunningTime m))
        end
    end.

(** [installed] is the answer of [isVPCCNIInstalled], [procs] the names of the
    processes. *)
Definition handleIPAMD (ts : list string) (now : Time) (installed : result string (option string))
    (procs : result string (list string)) (checkpoint : result string (option (list Allocation)))
    (dialed : option string) (clock : nat → Time) (m : ipamdState)
    : result string (list Condition) * ipamdState :=
  if bool_decide (EKSAuto ∈ ts) then checkIPAMD now true checkpoint dialed clock m
  else
    match installed with
    | Err err => (Err ("failed to check if the VPC CNI is installed: " +:+ err), m)
    | Ok None => (Ok [], m)
    | Ok (Some podName) =>
        if negb (String.eqb podName (vpcCNIPodID m)) then
          (Ok [], mkIpamd (criIPCache m) podName zero_time)
        else
          match procs with
          | Err err => (Err ("failed to check for a running IPAMD process: " +:+ err), m)
          | Ok names =>
              checkIPAMD now (existsb (λ name, Contains name "aws-k8s-agent") names) checkpoint dialed clock m
          end
    end.

End Ipamd.

(** [isVPCCNIInstalled]: the entries of the directory of pod logs, those of its
    directories, and the pod seen last; [None] when there is none. *)
Fixpoint find_cni_pod (entries : string → result string (list string)) (candidates : list string)
    : result string (option string) :=
  match candidates with
  | [] => Ok None
  | candidate :: rest =>
      match entries candidate with
      | Err err => Err ("failed to identify aws-node pod: " +:+ err)
      | Ok names => if bool_decide ("aws-vpc-cni-init" ∈ names) then Ok (Some candidate)
                    else find_cni_pod entries rest
      end
  end.

Definition isVPCCNIInstalled (dirs : result string (list string))
    (entries : string → result string (list string)) (podID : string) : result string (option string) :=
  match dirs with
  | Err err => Err ("failed to check for VPC CNI pod logs dir: " +:+ err)
  | Ok names =>
      let candidates := filter (λ n, Contains n "_aws-node-" = true) names in
      if bool_decide (podID ∈ candidates) then Ok (Some podID) else find_cni_pod entries candidates
  end.

(** ** Interfaces *)

(** The bits of [net.Flags]. *)
Definition FlagUp : Z := 1.
Definition FlagBroadcast : Z := 2.
Definition FlagLoopback : Z := 4.
Definition FlagMulticast : Z := 16.
Definition FlagRunning : Z := 32.

Record Interface := mkInterface { ifName : string; ifFlags : Z; ifMAC : string }.

Definition has_flag (f : Z) (i : Interface) : bool := negb (Z.land f (ifFlags i) =? 0).

Definition interfaceHasConsistentIssue (f : Z) (pre cur : Interface) : bool :=
  negb (has_flag f cur) && negb (has_flag f pre).

Definition interface_message (i : Interface) : string :=
  Sprintf "Interface Name: %s, MAC: %s is not up" [AStr (Quote (ifName i)); AStr (Quote (ifMAC i))].

Section Interfaces.
(** [isInterfaceExcluded], and the interface cached under a name. *)
Variables (excluded : string → bool) (cached : string → option Interface).

(** The loop: the conditions and the interfaces whose caching is deferred; [loopback]
    whether one was seen. *)
Fixpoint check_interfaces_from (l : list Interface) (loopback : bool)
    : list Condition * list Interface :=
  match l with
  | [] => (if loopback then []
           else [condition_of MissingLoopbackInterface []
                   "The loopback interface is missing from this instance. Without it, many services which depend on local connectivity will fail"],
           [])
  | i :: l' =>
      if HasPrefix (ifName i) "docker" then check_interfaces_from l' loopback
      else
        let is_loopback := has_flag FlagLoopback i in
        if negb is_loopback && (negb (has_flag FlagMulticast i) || negb (has_flag FlagBroadcast i))
        then check_interfaces_from l' loopback
        else
          let loopback := loopback || is_loopback in
          if excluded (ifName i) then check_interfaces_from l' loopback
          else match cached (ifName i) with
               | None => let '(out, adds) := check_interfaces_from l' loopback in (out, i :: adds)
               | Some prev =>
                   if interfaceHasConsistentIssue FlagUp prev i then
                     ([condition_of InterfaceNotUp [] (interface_message i)], [i])
                   else if interfaceHasConsistentIssue FlagRunning prev i then
                     ([condition_of InterfaceNotRunning [] (interface_message i)], [i])
                   else let '(out, adds) := check_interfaces_from l' loopback in (out, i :: adds)
               end
  end.

(** Deferred calls run last first. *)
Definition checkInterfaces (l : list Interface) : list Condition * list Interface :=
  let '(out, deferred) := check_interfaces_from l false in (out, rev deferred).

End Interfaces.

(** ** MAC address policy *)

Fixpoint last_policy (lines : list string) : option string :=
  match lines with
  | [] => None
  | l :: rest => match CutPrefix (TrimSpace l) "MACAddressPolicy=" with
                 | Some p => Some p
                 | None => last_policy rest
                 end
  end.

Definition CheckMACAddressPolicy (content : string) : string * bool :=
  if negb (Contains content "MACAddressPolicy=") then (EmptyString, true)
  else
    let policy := default EmptyString (last_policy (rev (Split content (byte_of 10)))) in
    (policy, String.eqb policy "none" || String.eqb policy EmptyString).

Definition checkMACAddressPolicy (content fileName : string) : list Condition :=
  let '(currentPolicy, isHealthy) := CheckMACAddressPolicy content in
  if negb isHealthy then
    [condition_of MACAddressPolicyMisconfigured []
       (Sprintf "MACAddressPolicy in %s is set to %s instead of 'none', which may cause network issues"
          [AStr fileName; AStr (Quote currentPolicy)])]
  else [].

Definition UbuntuDistro : string := "ubuntu".
Definition isMACAddressPolicyCheckNeeded (ts : list string) : bool := bool_decide (UbuntuDistro ∈ ts).

(** [linkFiles] are the link files of the interfaces in the order Go ranges over their
    set; [config] the effective configuration of one, when it can be read. *)
Definition handleMACAddressPolicy (ts : list string) (installed : result string bool)
    (linkFiles : result string (list string)) (config : string → option string)
    : result string (list Condition) :=
  if negb (isMACAddressPolicyCheckNeeded ts) then Ok []
  else match installed with
       | Err err => Err ("failed to check if VPC CNI is installed: " +:+ err)
       | Ok false => Ok []
       | Ok true =>
           files <-? linkFiles ;;
           Ok (filter (λ f, f ≠ EmptyString) files ≫= λ f,
                 match config f with Some content => checkMACAddressPolicy content f | None => [] end)
       end.

(** ** sysctl *)

Definition checkNetworkSysctl (ipForward : Z) : list Condition :=
  if negb (ipForward =? 1)
  then [condition_of NetworkSysctl [] "A network related sysctl parameter may be misconfigured"] else [].

Definition handleNetworkSysctl (ip_forward : result string string) : result string (list Condition) :=
  n <-? ParseSysctl ip_forward (parse_number "Atoi") ;; Ok (checkNetworkSysctl n).

(** ** The network policy agent *)

Definition consistencyWindow : Duration := 15 * Minute.
Definition repeatedRestartThreshold : Z := 5.

Record NPADetector := mkNPA { npaNotRunningTime : Time; previousRestarts : Z }.

Definition NewNPA : NPADetector := mkNPA zero_time 0.

Definition checkNotRunning (active : bool) (now : Time) (subState result : string) (d : NPADetector)
    : list Condition * NPADetector :=
  if active then ([], mkNPA zero_time (previousRestarts d))
  else if IsZero (npaNotRunningTime d) then ([], mkNPA now (previousRestarts d))
  else if consistencyWindow <=? Sub now (npaNotRunningTime d) then
    ([condition_of NPANotRunning []
        (Sprintf "NPA is not running on this Auto Mode node (SubState=%s, Result=%s)"
           [AStr (Quote subState); AStr (Quote result)])], d)
  else ([], d).

Definition checkRepeatedlyRestart (currentRestarts : Z) (subState result : string) (d : NPADetector)
    : list Condition * NPADetector :=
  let delta := u32 (currentRestarts - previousRestarts d) in
  let d := mkNPA (npaNotRunningTime d) currentRestarts in
  if repeatedRestartThreshold <=? delta then
    ([condition_of NPARepeatedlyRestart []
        (Sprintf "NPA restarted %d times in last poll interval (threshold: %d, SubState=%s, Result=%s)"
           [AInt "uint32" delta; AInt "uint32" repeatedRestartThreshold; AStr (Quote subState);
            AStr (Quote result)])], d)
  else ([], d).

(** One poll: the unit's [ActiveState], [None] when systemd cannot be asked, its
    restarts when they can be read, and the two diagnostics. *)
Definition HandleNPAState (now : Time) (activeState : option string) (restarts : option Z)
    (subState result : string) (d : NPADetector) : list Condition * NPADetector :=
  match activeState with
  | None => ([], d)
  | Some st =>
      let active := String.eqb st "active" in
      let '(out, d) := checkNotRunning active now subState result d in
      if negb active then (out, d)
      else match restarts with
           | None => (out, d)
           | Some n => let '(more, d) := checkRepeatedlyRestart n subState result d in (out ++ more, d)
           end
  end.

Definition HandleNPALogs (line : string) : list Condition :=
  let warn msg := [Build (WithMinOccurrences (WithMessage (Builder NPABPFRecoveryError []) msg) 2)] in
  if Contains line "Failed to recover the BPF state" || Contains line "BPF State Recovery failed error" then
    warn "NPA BPF state recovery failed after restart"
  else if Contains line "failed to recover global maps" || Contains line "got err for ingress in-mem map" ||
          Contains line "got err for egress in-mem map" ||
          Contains line "got err for cluster policy ingress in-mem map" ||
          Contains line "got err for cluster policy egress in-mem map" then
    warn "NPA eBPF map recovery/write error detected"
  else [].

(** ** The Corefile agent *)

Definition reNotifyInterval : Duration := 30 * Minute.

Record readyzResponse := mkReadyz { rzReason : string; rzDetail : string; AppliedSHA : string; FailedSHA : string }.

Abbreviation notifyKey := (string * string * string)%type.
Definition zero_key : notifyKey := (EmptyString, EmptyString, EmptyString).

Definition sha_part (label sha : string) : list string :=
  if (12 <=? String.length sha)%nat then [label +:+ take_bytes 12 sha] else [].

Definition shaSuffix (r : readyzResponse) : string :=
  match (sha_part "appliedSha=" (AppliedSHA r) ++ sha_part "failedSha=" (FailedSHA r))%list with
  | [] => EmptyString
  | parts => " (" +:+ Join parts ", " +:+ ")"
  end.

Definition reasonMap : list (string * ReasonMeta) :=
  [("CoreDNSCorefileValidationFailed", CoreDNSCorefileValidationFailed);
   ("CoreDNSCorefileReloadFailed", CoreDNSCorefileReloadFailed);
   ("CoreDNSCorefileRevertedToLastApplied", CoreDNSCorefileRevertedToLastApplied);
   ("CoreDNSCorefileRevertedToBaseline", CoreDNSCorefileRevertedToBaseline)].

(** What the endpoint answers: nothing, or a status code and a body as decoded. *)
Inductive Readyz := NoAnswer | Answer (code : Z) (body : option readyzResponse).

(** The condition to notify, and the tracker if the notification is sent; [sent]
    whether it is. *)
Definition HandleCorefileState (now : Time) (answer : Readyz) (sent : bool) (t : Tracker notifyKey)
    : list Condition * Tracker notifyKey :=
  match answer with
  | NoAnswer => ([], t)
  | Answer code body =>
      if code =? 200 then ([], Reset zero_key t)
      else match body with
           | None => ([], t)
           | Some r =>
               match (list_to_map reasonMap : gmap string ReasonMeta) !! rzReason r with
               | None => ([], t)
               | Some meta =>
                   let key := (rzReason r, AppliedSHA r, FailedSHA r) in
                   if negb (ShouldNotify t key now) then ([], t)
                   else
                     let msg := (if String.eqb (rzDetail r) EmptyString then rzReason r else rzDetail r)
                                +:+ shaSuffix r in
                     ([condition_of meta [] msg], if sent then Notified t key now else t)
               end
           end
  end.

(** [agentInstalled]: the answer of systemd for the unit's [LoadState], [None] when it
    cannot be asked; a value that is not a string reads as the empty one. *)
Definition agentInstalled (loadState : option string) : bool :=
  match loadState with Some st => negb (String.eqb st "not-found") | None => true end.

(** ** Counters behind rate limiters *)

Section Limited.
(** A limiter and [AllowN]. *)
Context {Limiter : Type} (AllowN : Limiter → Time → Z → bool * Limiter).

Record deviceCounterTracker := mkDevice {
  counterValue : Z; efaLimiter : Limiter; efaName : string; efaPort : string }.

Definition Process (now : Time) (counterName : string) (value : Z) (d : deviceCounterTracker)
    : list Condition * deviceCounterTracker :=
  let '(allowed, l) := AllowN (efaLimiter d) now (i64 (value - counterValue d)) in
  (if allowed then []
   else [condition_of EFAErrorMetric []
           (Sprintf "%s increased from %d to %d for device:port [%s:%s]"
              [AStr counterName; AInt "int" (counterValue d); AInt "int" value; AStr (efaName d);
               AStr (efaPort d)])],
   mkDevice value l (efaName d) (efaPort d)).

Record statTracker := mkStatTracker { recorded : Z; statLimiter : Limiter }.

Record ethtoolMonitor := mkEthtool {
  statExceededCache : gmap string statTracker;
  ethNotified : gmap string (Tracker unit)
}.

Definition ethtoolWarningReNotifyInterval : Duration := 30 * Minute.

Definition makeCompoundStatKey (interfaceName statName : string) : string :=
  interfaceName +:+ "-" +:+ statName.

Definition statReasons : list (string * ReasonMeta) :=
  [("bw_in_allowance_exceeded", BandwidthInExceeded);
   ("bw_out_allowance_exceeded", BandwidthOutExceeded);
   ("conntrack_allowance_exceeded", ConntrackExceeded);
   ("linklocal_allowance_exceeded", LinkLocalExceeded);
   ("pps_allowance_exceeded", PPSExceeded)].

(** [rate.NewLimiter(rate.Every(d), burst)]. *)
Variable NewLimiter : Duration → Z → Limiter.

Definition statLimiterConstructors (statKey : string) : Limiter :=
  NewLimiter (10 * Minute)
    (if String.eqb statKey "bw_in_allowance_exceeded" then 180
     else if String.eqb statKey "pps_allowance_exceeded" then 320 else 100).

(** The loop over the statistics, in the order Go meets them. *)
Fixpoint check_stats (order : list (string * ReasonMeta)) (interfaceName : string)
    (stats : gmap string Z) (now : Time) (shouldNotify : bool) (cache : gmap string statTracker)
    : list Condition * gmap string statTracker :=
  match order with
  | [] => ([], cache)
  | (statKey, reason) :: order' =>
      match stats !! statKey with
      | None => check_stats order' interfaceName stats now shouldNotify cache
      | Some statValue =>
          let key := makeCompoundStatKey interfaceName statKey in
          match cache !! key with
          | None =>
              check_stats order' interfaceName stats now shouldNotify
                (<[key := mkStatTracker statValue (statLimiterConstructors statKey)]> cache)
          | Some st =>
              let '(allowed, l) := AllowN (statLimiter st) now (i64 (statValue - recorded st)) in
              let out := if negb allowed && shouldNotify then
                           [Build (WithSeverity (WithMessage (Builder reason [])
                              (Sprintf "%s increased on interface %s from %d to %d"
                                 [AStr statKey; AStr (Quote interfaceName); AInt "int" (recorded st);
                                  AInt "int" statValue])) SeverityWarning)]
                         else [] in
              let '(outs, cache) := check_stats order' interfaceName stats now shouldNotify
                (<[key := mkStatTracker statValue l]> cache) in
              (out ++ outs, cache)
          end
      end
  end.

(** [sent] tells whether the notification of a condition succeeds. *)
Definition checkEthtool (sent : Condition → bool) (order : list (string * ReasonMeta)) (interfaceName : string)
    (stats : gmap string Z) (now : Time) (m : ethtoolMonitor) : list Condition * ethtoolMonitor :=
  let tracker := ethNotified m !! interfaceName in
  let shouldNotify := match tracker with None => true | Some t => ShouldNotify t tt now end in
  let '(out, cache) := check_stats order interfaceName stats now shouldNotify (statExceededCache m) in
  let notified :=
    if existsb sent out then
      <[interfaceName := Notified (default (New tt ethtoolWarningReNotifyInterval) tracker) tt now]> (ethNotified m)
    else ethNotified m in
  (out, mkEthtool cache notified).

Fixpoint handleEthtool (sent : Condition → bool) (order : list (string * ReasonMeta))
    (statsByInterface : list (string * gmap string Z)) (now : nat → Time) (m : ethtoolMonitor)
    : list Condition * ethtoolMonitor :=
  match statsByInterface with
  | [] => ([], m)
  | (name, stats) :: rest =>
      let '(out, m) := checkEthtool sent order name stats (now (length rest)) m in
      let '(outs, m) := handleEthtool sent order rest now m in
      (out ++ outs, m)
  end.

(** *** The counters of EFA devices *)

Definition EFA_VENDOR_ID : string := "0x1d0f".
Definition EFA_DEVICE_ID_PREFIX : string := "0xefa".

(** The bursts of the limiters of [counterConstructors]. *)
Definition counter_bursts : list (string * Z) :=
  [("rx_drops", 100); ("rdma_write_wr_err", 100); ("rdma_read_wr_err", 100);
   ("unresponsive_remote_events", 100); ("impaired_remote_conn_events", 100);
   ("retrans_bytes", 1000000); ("retrans_pkts", 1000); ("retrans_timeout_events", 100)].

Definition counterConstructors (counterName deviceName port : string) : option deviceCounterTracker :=
  burst ← (list_to_map counter_bursts : gmap string Z) !! counterName;
  Some (mkDevice 0 (NewLimiter Second burst) deviceName port).

Abbreviation counterKey := (string * string * string)%type.
Abbreviation efaSystem := (gmap counterKey deviceCounterTracker).

(** A directory of counters below the walk: the names of its entries, whether each is a
    directory, and the value read. *)
Abbreviation walk := (list (string * bool * option Z)).

Fixpoint walk_counters (deviceName portNumber : string) (now : Time) (entries : walk) (efa : efaSystem)
    : list Condition * efaSystem :=
  match entries with
  | [] => ([], efa)
  | (counterName, isDir, value) :: rest =>
      let next := walk_counters deviceName portNumber now rest in
      if (isDir : bool) then next efa
      else
        let key := (deviceName, portNumber, counterName) in
        let tracker := match efa !! key with
                       | Some t => Some t
                       | None => counterConstructors counterName deviceName portNumber
                       end in
        match tracker with
        | None => next efa
        | Some t =>
            match value with
            | None => next (<[key := t]> efa)
            | Some v =>
                let '(out, t) := Process now counterName v t in
                let '(outs, efa) := next (<[key := t]> efa) in
                (out ++ outs, efa)
            end
        end
  end.

(** [globIndex], over the parts of the pattern. *)
Fixpoint glob_index (parts : list string) (i : Z) (index : nat) : Z :=
  match parts with
  | [] => -1
  | part :: rest =>
      if String.eqb part "*" then match index with O => i | S index' => glob_index rest (i + 1) index' end
      else glob_index rest (i + 1) index
  end.
Definition globIndex (pathPattern : string) (index : nat) : Z :=
  glob_index (Split pathPattern (byte_of 47)) 0 index.

Fixpoint hardware_counters (deviceNameIndex portNumberIndex : nat)
    (info : string → option (string * string)) (walks : string → walk) (now : Time)
    (paths : list string) (efa : efaSystem) : list Condition * efaSystem :=
  match paths with
  | [] => ([], efa)
  | counterPath :: rest =>
      let next := hardware_counters deviceNameIndex portNumberIndex info walks now rest in
      let parts := Split counterPath (byte_of 47) in
      let deviceName := default EmptyString (parts !! deviceNameIndex) in
      let portNumber := default EmptyString (parts !! portNumberIndex) in
      match info deviceName with
      | None => next efa
      | Some (vendorId, deviceId) =>
          if negb (String.eqb vendorId EFA_VENDOR_ID) || negb (HasPrefix deviceId EFA_DEVICE_ID_PREFIX)
          then next efa
          else
            let '(out, efa) := walk_counters deviceName portNumber now (walks counterPath) efa in
            let '(outs, efa) := next efa in
            (out ++ outs, efa)
      end
  end.

(** [paths] are those that match [pathPattern]; they have its number of parts, so the
    indexes are in range. *)
Definition HardwareCounters (pathPattern : string) (paths : result string (list string))
    (info : string → option (string * string)) (walks : string → walk) (now : Time) (efa : efaSystem)
    : result string (list Condition) * efaSystem :=
  match paths with
  | Err err => (Err err, efa)
  | Ok paths =>
      let d := globIndex pathPattern 0 in
      let p := globIndex pathPattern 1 in
      if d <? 0 then
        (Err (Sprintf "failed to find glob at index %d within pattern: %s" [AInt "int" 0; AStr (Quote pathPattern)]), efa)
      else if p <? 0 then
        (Err (Sprintf "failed to find glob at index %d within pattern: %s" [AInt "int" 1; AStr (Quote pathPattern)]), efa)
      else
        let '(out, efa) := hardware_counters (Z.to_nat d) (Z.to_nat p) info walks now paths efa in
        (Ok out, efa)
  end.

End Limited.

Example glob_ex : globIndex "/host/sys/class/infiniband/*/ports/*/hw_counters" 1 = 7.
Proof. reflexivity. Qed.

Fixpoint parse_stats (lines : list string) (stats : gmap string Z) : gmap string Z :=
  match lines with
  | [] => stats
  | l :: rest =>
      parse_stats rest
        match Split l (byte_of 58) with
        | [k; v] => match Atoi (TrimSpace v) with Some n => <[TrimSpace k := n]> stats | None => stats end
        | _ => stats
        end
  end.

Definition parseEthtool (out : string) : gmap string Z := parse_stats (tail (Split out (byte_of 10))) ∅.

(** ** The network policy agent over its polls *)

Record npaPoll := mkPoll {
  pollTime : Time; activeState : option string; restarts : option Z; subState : string; unitResult : string }.

Definition npa_poll (d : NPADetector) (p : npaPoll) : list Condition * NPADetector :=
  HandleNPAState (pollTime p) (activeState p) (restarts p) (subState p) (unitResult p) d.

(** The detector after the polls. *)
Definition npa_after (polls : list npaPoll) : NPADetector :=
  foldl (λ d p, snd (npa_poll d p)) NewNPA polls.

(** A poll that saw the unit in another state than active, and one that did not see it
    active. *)
Definition saw_down (p : npaPoll) : Prop := ∃ st, activeState p = Some st ∧ st ≠ "active".
Definition not_up (p : npaPoll) : Prop := activeState p ≠ Some "active".

(** [p] is a poll of the current outage. *)
Definition outage_poll (polls : list npaPoll) (p : npaPoll) : Prop :=
  ∃ pre mid, polls = pre ++ p :: mid ∧ saw_down p ∧ Forall not_up mid.

Lemma outage_poll_snoc polls x p :
  outage_poll (polls ++ [x]) p ↔ (p = x ∧ saw_down x) ∨ (outage_poll polls p ∧ not_up x).
Proof.
  split.
  - intros (pre & mid & He & Hd & Hm). destruct mid as [|y mid _] using rev_ind.
    + apply app_inj_tail in He as [_ ->]. auto.
    + rewrite app_comm_cons, app_assoc in He. apply app_inj_tail in He as [-> ->].
      apply Forall_app in Hm as [Hm Hy]. right. split; [by exists pre, mid|]. by inversion Hy.
  - intros [[-> Hd]|[(pre & mid & -> & Hd & Hm) Hx]].
    + by exists polls, [].
    + exists pre, (mid ++ [x]). split; [by rewrite <- app_assoc|]. split; [done|].
      apply Forall_app. auto.
Qed.

Lemma npa_poll_time d p :
  npaNotRunningTime (snd (npa_poll d p)) =
  match activeState p with
  | None => npaNotRunningTime d
  | Some st => if String.eqb st "active" then zero_time
               else if IsZero (npaNotRunningTime d) then pollTime p else npaNotRunningTime d
  end.
Proof.
  unfold npa_poll, HandleNPAState, checkNotRunning, checkRepeatedlyRestart.
  destruct (activeState p) as [st|]; [|done]. destruct (String.eqb st "active"); cbn [negb].
  - destruct (restarts p); [|done]. cbv zeta. by destruct (_ <=? _).
  - destruct (IsZero (npaNotRunningTime d)); [done|]. by destruct (_ <=? _).
Qed.

(** The detector holds the time of the first poll of the current outage. *)
Lemma npa_after_time polls :
  Forall (λ p, pollTime p ≠ zero_time) polls → StronglySorted Z.le (pollTime <$> polls) →
  let since := npaNotRunningTime (npa_after polls) in
  (since = zero_time ∧ ∀ p, ¬ outage_poll polls p) ∨
  (since ≠ zero_time ∧ (∃ p, outage_poll polls p ∧ pollTime p = since) ∧
   ∀ p, outage_poll polls p → since ≤ pollTime p).
Proof.
  induction polls as [|x polls IH] using rev_ind; intros Hz Hs; cbv zeta.
  { left. split; [done|]. intros p (pre & mid & He & _). by destruct pre. }
  apply Forall_app in Hz as [Hz Hx]. rewrite Forall_singleton in Hx.
  rewrite fmap_app in Hs.
  assert (StronglySorted Z.le (pollTime <$> polls)) as Hs1 by by eapply StronglySorted_app_1_l.
  assert (∀ p, outage_poll polls p → pollTime p ≤ pollTime x) as Hle.
  { intros p (pre & mid & -> & _). eapply (StronglySorted_app_1_elem_of Z.le); [exact Hs| |by left].
    rewrite fmap_app, fmap_cons. set_solver. }
  specialize (IH Hz Hs1). cbv zeta in IH.
  unfold npa_after in *. rewrite foldl_snoc, npa_poll_time.
  set (since := npaNotRunningTime _) in *.
  destruct (activeState x) as [st|] eqn:Hst.
  - destruct (String.eqb_spec st "active") as [->|Hne].
    + left. split; [done|]. intros p Hp%outage_poll_snoc.
      destruct Hp as [[_ (st & ? & ?)]|[_ Hp]]; [congruence|]. unfold not_up in Hp. congruence.
    + assert (saw_down x) as Hdx by (exists st; done).
      assert (not_up x) as Hnx by (unfold not_up; congruence).
      right. destruct IH as [[H0 Hnone]|(H0 & (p & Hp & Hpt) & Hall)].
      * rewrite H0. cbn [IsZero]. change (IsZero zero_time) with true. cbn iota.
        split; [done|]. split; [exists x; rewrite outage_poll_snoc; auto|].
        intros q [[-> _]|[Hq _]]%outage_poll_snoc; [lia|]. by apply Hnone in Hq.
      * replace (IsZero since) with false by (symmetry; by apply Z.eqb_neq).
        split; [done|]. split; [exists p; rewrite outage_poll_snoc; auto|].
        intros q [[-> _]|[Hq _]]%outage_poll_snoc; [|auto]. rewrite <- Hpt. auto.
  - assert (not_up x) as Hnx by (unfold not_up; congruence).
    assert (¬ saw_down x) as Hdx by (intros (? & ? & _); congruence).
    assert (∀ q, outage_poll (polls ++ [x]) q ↔ outage_poll polls q) as Hiff.
    { intros q. rewrite outage_poll_snoc. tauto. }
    setoid_rewrite Hiff. exact IH.
Qed.

(** After polls at increasing times, a poll reports that the network policy agent is
    not running exactly when it sees the unit in another state than active and some poll
    15 minutes earlier or more did too, with no poll that saw it active since; polls that
    could not ask systemd neither start nor end an outage. *)
Theorem npa_not_running_iff polls p :
  Forall (λ q, pollTime q ≠ zero_time) polls → StronglySorted Z.le (pollTime <$> polls) →
  (∃ c, c ∈ fst (npa_poll (npa_after polls) p) ∧ Reason c = "NPANotRunning") ↔
  saw_down p ∧ ∃ q, outage_poll polls q ∧ 15 * Minute ≤ pollTime p - pollTime q.
Proof.
  intros Hz Hs. pose proof (npa_after_time polls Hz Hs) as Ht. cbv zeta in Ht.
  set (d := npa_after polls) in *. unfold npa_poll, HandleNPAState.
  destruct (activeState p) as [st|] eqn:Hst.
  2:{ split; [intros (c & Hc & _); by apply not_elem_of_nil in Hc|]. intros [(? & ? & _) _]. congruence. }
  unfold saw_down. rewrite Hst. unfold checkNotRunning, checkRepeatedlyRestart.
  destruct (String.eqb_spec st "active") as [->|Hne]; cbn [negb].
  { split; [|intros [(? & [= <-] & ?) _]; done]. intros (c & Hc & Hr). exfalso.
    destruct (restarts p) as [n|]; [|by apply not_elem_of_nil in Hc]. cbv zeta in Hc.
    destruct (_ <=? _); simpl in Hc; [|by apply not_elem_of_nil in Hc].
    apply list_elem_of_singleton in Hc as ->. vm_compute in Hr. discriminate. }
  destruct Ht as [[H0 Hnone]|(H0 & (q & Hq & Hqt) & Hall)].
  - unfold IsZero. rewrite (proj2 (Z.eqb_eq _ _) H0). cbn [fst]. split.
    + intros (c & Hc & _). by apply not_elem_of_nil in Hc.
    + intros [_ (q & Hq & _)]. by apply Hnone in Hq.
  - unfold IsZero. rewrite (proj2 (Z.eqb_neq _ _) H0).
    assert (0 < consistencyWindow ≤ max_int64) as Hw by done.
    destruct (consistencyWindow <=? _) eqn:Hle; cbn [fst].
    + apply Z.leb_le, Sub_le_iff in Hle; [|done]. split; [|intros _; eexists; split; [left|done]].
      intros _. split; [by exists st|]. exists q. rewrite Hqt. done.
    + apply Z.leb_gt, Sub_lt_iff in Hle; [|done]. split; [intros (c & Hc & _); by apply not_elem_of_nil in Hc|].
      intros [_ (q' & Hq' & Hge)]. apply Hall in Hq'. change (15 * Minute) with consistencyWindow in Hge. lia.
Qed.

Definition ex_poll (minute : Z) (st : option string) : npaPoll :=
  mkPoll (minute * Minute) st (Some 0) "dead" "exit-code".

Lemma npa_not_running_iff_witness :
  ∃ c, c ∈ fst (npa_poll (npa_after [ex_poll 5 (Some "active"); ex_poll 10 (Some "failed"); ex_poll 20 None])
                  (ex_poll 25 (Some "inactive"))) ∧ Reason c = "NPANotRunning".
Proof.
  apply npa_not_running_iff.
  - repeat constructor; vm_compute; discriminate.
  - repeat constructor; vm_compute; discriminate.
  - split; [by exists "inactive"|]. exists (ex_poll 10 (Some "failed")). split; [|vm_compute; discriminate].
    exists [ex_poll 5 (Some "active")], [ex_poll 20 None]. split; [done|]. split; [by exists "failed"|].
    constructor; [|constructor]. vm_compute. discriminate.
Defined.

(** A restart counter that was reset, as when the unit is stopped and started by hand,
    reads as more than four billion restarts. *)
Theorem npa_counter_reset_reported current d sub res :
  is_u32 current → is_u32 (previousRestarts d) → current < previousRestarts d →
  previousRestarts d - current ≤ 2 ^ 32 - 5 →
  ∃ c, fst (checkRepeatedlyRestart current sub res d) = [c] ∧ Reason c = "NPARepeatedlyRestart".
Proof.
  intros Hc Hp Hlt Hd. unfold checkRepeatedlyRestart. cbv zeta. rewrite u32_sub_lt by done.
  replace (repeatedRestartThreshold <=? _) with true
    by (symmetry; apply Z.leb_le; unfold repeatedRestartThreshold; lia).
  eexists. split; reflexivity.
Qed.

(** ** Probes of the monitor *)

Definition probeSpecs (ts : list string) : list Spec :=
  if negb (bool_decide (EKSAuto ∈ ts)) then []
  else [mkSpec "ipamd"
          (mkChecks (mkCheck TransportSystemdDBus "ipamd.service" EmptyString "IPAMDNotRunning" EmptyString) None None)
          (30 * Second) 3 4 (5 * Minute)].

(** Every probe of the monitor passes validation, so that [Register] does not fail on it. *)
Lemma probeSpecs_valid ts : Forall (λ s, Validate s = Ok tt) (probeSpecs ts).
Proof. unfold probeSpecs. case_bool_decide; repeat constructor. Qed.
