(* ===== verification/NetHost.v ===== *)
(** * NetHost: what the networking monitor reads from the host
    ([monitors/networking]: monitor.go, efa/efa.go, npa/npa.go, ipamd/checkpoint.go,
    ipamd/endpoints.go).

    Files, commands and services are functions from what is asked to what they answer;
    the data types of the VPC CNI and the decoding of their JSON are arguments. *)

From S2P Require Import Prelude GoStrings Paths Monitor Reasons Networking.

(** ** Excluded interfaces *)

Section Exclusions.
(** A compiled expression, its compilation and its match. *)
Context {R : Type} (Compile : string → result string R) (MatchString : R → string → bool).

(** The compiled expressions, or the error of the first that is invalid. *)
Fixpoint compile_all (exprs : list string) : result string (list R) :=
  match exprs with
  | [] => Ok []
  | expr :: rest =>
      match Compile expr with
      | Err e => Err (prefixed ("invalid excludedInterfaceNameRegexps entry " +:+ Quote expr) e)
      | Ok re => res <-? compile_all rest;; Ok (re :: res)
      end
  end.

(** The monitor keeps the expressions it has when one is invalid. *)
Definition SetExcludedInterfaceNameRegexps (exprs : list string) (current : list R) : list R * option string :=
  match compile_all exprs with
  | Ok compiled => (compiled, None)
  | Err e => (current, Some e)
  end.

Definition isInterfaceExcluded (excluded : list R) (name : string) : bool := existsb (λ re, MatchString re name) excluded.

(** [cached] is the interface in the cache; [interfaces] are those of the host. *)
Definition handleInterfaces (excluded : list R) (cached : string → option Interface)
    (interfaces : result string (list Interface)) : result string (list Condition * list Interface) :=
  match interfaces with
  | Err e => Err e
  | Ok l => Ok (checkInterfaces (isInterfaceExcluded excluded) cached l)
  end.

Lemma compile_all_ok exprs res :
  compile_all exprs = Ok res ↔ Forall2 (λ expr re, Compile expr = Ok re) exprs res.
Proof.
  revert res. induction exprs as [|expr rest IH]; intros res; simpl.
  - split; [intros [= <-]; constructor|]. by inversion 1.
  - split.
    + destruct (Compile expr) as [re|e] eqn:Ee; [|done]. intros (l & Hl & [= <-])%rbind_ok.
      constructor; [done|]. by apply IH.
    + inversion 1 as [|? re ? l Hre Hl]; subst. rewrite Hre. apply IH in Hl. rewrite Hl. done.
Qed.

(** Each interface that is reported is one that is cached. *)
Lemma reported_cached excluded cached l out adds c :
  handleInterfaces excluded cached (Ok l) = Ok (out, adds) → c ∈ out →
  Reason c = Template MissingLoopbackInterface ∨
  ∃ j, j ∈ adds ∧ (c = condition_of InterfaceNotUp [] (interface_message j) ∨
                   c = condition_of InterfaceNotRunning [] (interface_message j)).
Proof.
  unfold handleInterfaces, checkInterfaces. destruct (check_interfaces_from _ _ l false) as [o d] eqn:Ed.
  intros [= -> <-]. setoid_rewrite list_elem_of_In at 2. setoid_rewrite <- in_rev. setoid_rewrite <- list_elem_of_In.
  revert Ed. generalize false. revert out d.
  induction l as [|j l IH]; intros o d loopback; cbn [check_interfaces_from].
  { intros [= <- <-]. destruct loopback; [by intros ?%elem_of_nil|]. intros ->%list_elem_of_singleton. by left. }
  destruct (HasPrefix _ _); [apply IH|]. destruct (_ && _); [apply IH|].
  destruct (isInterfaceExcluded excluded (ifName j)); [apply IH|].
  destruct (cached (ifName j)) as [prev|].
  - destruct (interfaceHasConsistentIssue _ _ _).
    { intros [= <- <-] ->%list_elem_of_singleton. right. exists j. split; [by left|]. by left. }
    destruct (interfaceHasConsistentIssue _ _ _).
    { intros [= <- <-] ->%list_elem_of_singleton. right. exists j. split; [by left|]. by right. }
    destruct (check_interfaces_from _ _ l _) as [o' d'] eqn:E. intros [= <- <-] Hc.
    destruct (IH _ _ _ E Hc) as [?|(k & ? & ?)]; [by left|]. right. exists k. split; [by right|done].
  - destruct (check_interfaces_from _ _ l _) as [o' d'] eqn:E. intros [= <- <-] Hc.
    destruct (IH _ _ _ E Hc) as [?|(k & ? & ?)]; [by left|]. right. exists k. split; [by right|done].
Qed.

(** Once the expressions are accepted, an interface whose name matches one of them is not
    cached, and so not reported either, whatever its flags. *)
Lemma excluded_not_reported exprs current excluded cached l out adds expr re i :
  SetExcludedInterfaceNameRegexps exprs current = (excluded, None) →
  expr ∈ exprs → Compile expr = Ok re → MatchString re (ifName i) = true →
  handleInterfaces excluded cached (Ok l) = Ok (out, adds) → i ∉ adds.
Proof.
  unfold SetExcludedInterfaceNameRegexps. destruct (compile_all exprs) as [res|] eqn:Ec; [|done].
  intros [= ->] Hin Hre Hm. apply compile_all_ok in Ec.
  assert (Hex : isInterfaceExcluded excluded (ifName i) = true).
  { unfold isInterfaceExcluded. apply existsb_exists. exists re. split; [|done]. apply list_elem_of_In.
    apply list_elem_of_lookup in Hin as [k Hk]. destruct (Forall2_lookup_l _ _ _ _ _ Ec Hk) as (re' & Hk' & Hr').
    rewrite Hre in Hr'. injection Hr' as ->. by eapply list_elem_of_lookup_2. }
  unfold handleInterfaces, checkInterfaces. destruct (check_interfaces_from _ _ l false) as [o d] eqn:Ed.
  intros [= -> <-]. rewrite list_elem_of_In, <- in_rev, <- list_elem_of_In. revert Ed. generalize false. revert out d.
  induction l as [|j l IH]; intros o d loopback; cbn [check_interfaces_from]; [intros [= <- <-]; apply not_elem_of_nil|].
  destruct (HasPrefix _ _); [apply IH|]. destruct (_ && _); [apply IH|].
  destruct (isInterfaceExcluded excluded (ifName j)) eqn:Ej; [apply IH|].
  assert (Hij : i ≠ j) by congruence.
  destruct (cached (ifName j)) as [prev|].
  - destruct (interfaceHasConsistentIssue _ _ _); [intros [= <- <-]; set_solver|].
    destruct (interfaceHasConsistentIssue _ _ _); [intros [= <- <-]; set_solver|].
    destruct (check_interfaces_from _ _ l _) as [o' d'] eqn:E. intros [= <- <-]. apply IH in E. set_solver.
  - destruct (check_interfaces_from _ _ l _) as [o' d'] eqn:E. intros [= <- <-]. apply IH in E. set_solver.
Qed.
End Exclusions.

(** ** ethtool *)

(** How a command ended: with an exit code and its output, or not at all. *)
Inductive CommandRun := Exited (code : Z) (out : string) | NotRun (e : string).

Definition run_error (r : CommandRun) : option string :=
  match r with
  | Exited 0 _ => None
  | Exited code _ => Some ("exit status " +:+ Itoa code)
  | NotRun e => Some e
  end.

Definition ethtoolCmd (name : string) : list string := ["ethtool"; "-S"; name].
Definition quoted_command (cmd : list string) : string := "[" +:+ Join (Quote <$> cmd) " " +:+ "]".

(** The exit code 94 is the one of an interface without statistics. *)
Definition ethtool_ok (r : CommandRun) : option string :=
  match r with Exited code out => if (code =? 0) || (code =? 94) then Some out else None | NotRun _ => None end.

(** The statistics by interface and the errors that are joined; [run] is what ethtool says
    of an interface, [None] the error of the listing. *)
Fixpoint read_stats (run : string → CommandRun) (names : list string)
    : gmap string (gmap string Z) * list string :=
  match names with
  | [] => (∅, [])
  | name :: rest =>
      let '(stats, errs) := read_stats run rest in
      match ethtool_ok (run name) with
      | Some out => (<[name := default (parseEthtool out) (stats !! name)]> stats, errs)
      | None =>
          (stats, prefixed ("failed command " +:+ quoted_command (ethtoolCmd name))
                    (default EmptyString (run_error (run name))) :: errs)
      end
  end.

Definition readEthtoolStats (netInterfaces : result string (list string)) (run : string → CommandRun)
    : gmap string (gmap string Z) * list string :=
  match netInterfaces with
  | Err e => (∅, [e])
  | Ok names => read_stats run names
  end.

(** An interface has statistics exactly when its command ended well or had none to give:
    the failure of one does not hide another, and each failure is in the error. *)
Lemma readEthtoolStats_spec names run :
  (∀ name, is_Some (fst (readEthtoolStats (Ok names) run) !! name) ↔ name ∈ names ∧ is_Some (ethtool_ok (run name))) ∧
  length (snd (readEthtoolStats (Ok names) run)) = length (filter (λ name, ethtool_ok (run name) = None) names).
Proof.
  simpl. induction names as [|n names [IHm IHe]]; simpl.
  { split; [|done]. intros name. rewrite lookup_empty, is_Some_alt, elem_of_nil. naive_solver. }
  rewrite filter_cons. destruct (read_stats run names) as [stats errs]. simpl in *.
  destruct (ethtool_ok (run n)) as [out|] eqn:En; [rewrite decide_False by done|rewrite decide_True by done]; simpl.
  - split; [|done]. intros name. rewrite elem_of_cons. destruct (decide (name = n)) as [->|Hne].
    + rewrite lookup_insert_eq, En. naive_solver.
    + rewrite lookup_insert_ne by done. rewrite IHm. naive_solver.
  - split; [|by rewrite IHe]. intros name. rewrite IHm, elem_of_cons. split; [naive_solver|].
    intros [[->|?] ?]; [rewrite En in *; by destruct H as [? [=]]|done].
Qed.

(** ** EFA, systemd *)

Definition infinibandSysfsPath : string := "/sys/class/infiniband".

(** [read] is the content of a file, by its path. *)
Definition readInfinibandDeviceInfo (env : string → option string) (read : string → result string string)
    (deviceName : string) : result string (string * string) :=
  let deviceDir := ToHostPath env (PathJoin [infinibandSysfsPath; deviceName; "/device"]) in
  vendor <-? read (PathJoin [deviceDir; "vendor"]);;
  device <-? read (PathJoin [deviceDir; "device"]);;
  Ok (TrimSpace vendor, TrimSpace device).

(** A property of a unit: a string, another value, or an error. *)
Inductive Property := PropString (s : string) | PropOther | PropError.
Definition stringProp (answer : Property) : string := match answer with PropString s => s | _ => EmptyString end.

(** ** IPAMD *)

Section IPAMD.
Context {Checkpoint ENIInfos : Type} (decode_checkpoint : string → result string Checkpoint)
  (decode_enis : string → result string ENIInfos).

(** The second path is that of Bottlerocket; the error is that of reading it. *)
Definition GetCheckpoint (env : string → option string) (read : string → result string string) : result string Checkpoint :=
  bytes <-? match read (ToHostPath env "/var/run/aws-node/ipam.json") with
            | Ok b => Ok b
            | Err _ => read (ToHostPath env "/run/aws-node/ipam.json")
            end;;
  decode_checkpoint bytes.

Definition EnvIntrospectionAddress : string := "IPAMD_INTROSPECTION_ADDRESS".
Definition DefaultAddress : string := "localhost:61679".

Definition introspectionBaseURL (getenv : string → string) : string :=
  let address := getenv EnvIntrospectionAddress in
  "http://" +:+ (if String.eqb address EmptyString then DefaultAddress else address) +:+ "/v1/".

(** [JoinPath] and [Get] are those of [net/url] and [net/http]: the body of a response, or
    the error of reading it. *)
Definition GetEndpoint (getenv : string → string) (JoinPath : string → string → result string string)
    (Get : string → result string (Z * result string string)) (endpoint : string) : result string ENIInfos :=
  urlPath <-? JoinPath (introspectionBaseURL getenv) endpoint;;
  resp <-? Get urlPath;;
  body <-? snd resp;;
  decode_enis body.

(** The status of the response is not looked at: a body of an error that decodes is taken
    for the answer. *)
Lemma endpoint_status_ignored getenv JoinPath status body endpoint :
  (∃ u, JoinPath (introspectionBaseURL getenv) endpoint = Ok u) →
  GetEndpoint getenv JoinPath (λ _, Ok (status, Ok body)) endpoint = decode_enis body.
Proof. intros [u Hu]. unfold GetEndpoint. by rewrite Hu. Qed.
End IPAMD.
