(* ===== verification/Kernel.v ===== *)
(** * Kernel: the kernel monitor ([monitors/kernel/monitor.go]).

    A handler returns the conditions it notifies, or its error, and its new state.  What
    it reads from the host is an argument. *)

From S2P Require Import Prelude GoStrings GoFloat GoRegexp Osext Monitor Reasons.

(** ** dmesg *)

Definition kernelBugRegexp : regex := [Lit "["; Rep 0 dot false false; Lit "] BUG: "; Rep 0 dot true true].
Definition softLockupRegexp : regex :=
  [Lit "watchdog: BUG: soft lockup - "; any; Lit " stuck for "; Rep 0 dot true true; Lit "! [";
   Rep 0 dot false true; any; Lit "]"].

(** The alternatives of [appCrash]. *)
Definition faults : list string :=
  ["divide error"; "general protection fault"; "stack segment"; "segment not present"; "invalid TSS";
   "alignment check"; "bounds"].
Definition trapCrash : regex :=
  [Lit "traps:"; Rep 0 blankbyte true false; Rep 0 dot false true; Lit "["; Rep 1 digitbyte true false;
   Lit "] "; Or ["trap "; EmptyString]; Or faults].

(** [[^\s\[]] and [\s]. *)
Definition procbyte (c : Ascii.ascii) : bool := negb (blankbyte c) && negb (Ascii.eqb c (byte_of 91)).
Definition blanks : list string := (λ n, String (Ascii.ascii_of_nat n) EmptyString) <$> [9; 10; 12; 13; 32]%nat.
Definition segfaultCrash : regex :=
  [Or blanks; Rep 1 procbyte true true; Lit "["; Rep 1 digitbyte true false; Lit "]: segfault at"; any].

(** The groups of the leftmost match of the two alternatives, of one group each. *)
Fixpoint find_app_crash (s : string) : option (list string) :=
  match match_at trapCrash s with
  | Some caps => Some (caps ++ [EmptyString])
  | None =>
      match match_at segfaultCrash s with
      | Some caps => Some (EmptyString :: caps)
      | None => match s with EmptyString => None | String _ s' => find_app_crash s' end
      end
  end.

Fixpoint appCrashProcessName (groups : list string) : string :=
  match groups with
  | [] => EmptyString
  | processName :: rest =>
      if negb (String.eqb processName EmptyString) then processName else appCrashProcessName rest
  end.

Definition appBlocked : regex :=
  [Lit "task "; Rep 0 dot false true; Lit ":"; Rep 1 digitbyte true false; Lit " blocked for more than"].
Definition conntrackExceeded : regex := [Or ["ip"; "nf"]; Lit "_conntrack: table full, dropping packet"].

Definition handleDmesg (line : string) : list Condition :=
  match FindSubmatch softLockupRegexp line with
  | Some (duration :: _) => [condition_of SoftLockup [] (Sprintf "CPU stuck for %s" [AStr duration])]
  | _ =>
      if MatchString kernelBugRegexp line then
        [condition_of KernelBug [] "A kernel bug was detected and reported by the Linux kernel"]
      else
        match find_app_crash line with
        | Some groups =>
            [condition_of AppCrash []
               (Sprintf "Process %s on the node has crashed" [AStr (Quote (appCrashProcessName groups))])]
        | None =>
            match FindSubmatch appBlocked line with
            | Some (processName :: _) =>
                [condition_of AppBlocked []
                   (Sprintf "Process %s has been blocked from scheduling for a long period of time"
                      [AStr (Quote processName)])]
            | _ =>
                if MatchString conntrackExceeded line then
                  [condition_of ConntrackExceededKernel []
                     "Connection tracking exceeded the maximum for the kernel"]
                else []
            end
        end
  end.

(** ** kubelet logs *)

Definition forkFailedOutOfPidRegexp : regex := [any; Lit "fork/exec"; any; Lit "resource temporarily unavailable"].
Definition goRuntimeOutOfPidRegexp : regex := [Lit "failed to create new OS thread"; any; Lit "errno=11"].

Definition handleKubelet (line : string) : list Condition :=
  if MatchString forkFailedOutOfPidRegexp line || MatchString goRuntimeOutOfPidRegexp line then
    [condition_of ForkFailedOutOfPIDs []
       "A fork or exec call has failed due to the system being out of process IDs or memory"]
  else [].

(** ** Open files *)

Definition percent_of (f : float64) : string := FormatFixed 1 (fmul f (of_int 100)) +:+ "%".

Definition checkOpenedFiles (allocated total : float64) : list Condition :=
  let percentageUsed := fdiv allocated total in
  if flt percentageUsed f0_7 then []
  else [condition_of ApproachingMaxOpenFiles []
          (Sprintf "Approaching Exhaustion of max open file descriptors. %s of %s total, %s"
             [AStr (FormatFixed 0 allocated); AStr (FormatFixed 0 total); AStr (percent_of percentageUsed)])].

(** The parser of the file: [None] when it indexes a field the line does not have. *)
Definition file_nr (line : string) : option (result string (Z * Z)) :=
  let filenrFields := Fields line in
  a ← filenrFields !! 0%nat;
  match parse_number "ParseInt" a with
  | Err err => Some (Err ("error parsing allocated file handles: " +:+ err))
  | Ok allocated =>
      t ← filenrFields !! 2%nat;
      match parse_number "ParseInt" t with
      | Err err => Some (Err ("error parsing total file handles: " +:+ err))
      | Ok total => Some (Ok (allocated, total))
      end
  end.

Definition handleOpenedFiles (file : result string string) : option (result string (list Condition)) :=
  match file with
  | Err err => Some (Err err)
  | Ok raw =>
      r ← file_nr (TrimSpace raw);
      Some (rbind r (λ '(allocated, total), Ok (checkOpenedFiles (of_int allocated) (of_int total))))
  end.

(** ** Process IDs *)

Definition checkPids (pidCur pidMax : Z) : list Condition :=
  let percentageUsed := fdiv (of_int pidCur) (of_int pidMax) in
  if flt percentageUsed f0_7 then []
  else [condition_of ApproachingKernelPidMax []
          (Sprintf "Approaching max number of PIDs. %d of %d total, %s"
             [AInt "int" pidCur; AInt "int" pidMax; AStr (percent_of percentageUsed)])].

(** [procs] is the number of process directories. *)
Definition handlePids (pid_max threads_max : result string string) (procs : Z) : result string (list Condition) :=
  pidMax <-? ParseSysctl pid_max (parse_number "Atoi") ;;
  threadMax <-? ParseSysctl threads_max (parse_number "Atoi") ;;
  Ok (checkPids procs (if pidMax <? threadMax then threadMax else pidMax)).

(** ** Zombies *)

Definition checkZombies (zombieCount : Z) : list Condition :=
  if zombieCount <? 20 then []
  else [Build (WithMinOccurrences
          (WithMessage (Builder ExcessiveZombieProcesses [])
             (Sprintf "Detected %d zombie processes still running" [AInt "int" zombieCount])) 5)].

Definition handleZombies (ps : result string string) : result string (list Condition) :=
  out <-? ps ;;
  Ok (checkZombies (Z.of_nat (length (filter (λ l, Contains l "<defunct>" = true) (Split out (byte_of 10)))))).

(** ** Cron *)

(** [time.Parse] with the layout [Jan 2 15:04:05], on the three fields of the layout:
    the time is in the year 0, a leap year that ends when Go's zero time starts. *)

Definition months : list (string * Z) :=
  [("jan", 31); ("feb", 29); ("mar", 31); ("apr", 30); ("may", 31); ("jun", 30); ("jul", 31); ("aug", 31);
   ("sep", 30); ("oct", 31); ("nov", 30); ("dec", 31)].

Definition lower (c : Ascii.ascii) : Ascii.ascii :=
  let n := Ascii.nat_of_ascii c in if ((65 <=? n) && (n <=? 90))%nat then Ascii.ascii_of_nat (n + 32) else c.
Fixpoint ToLower (s : string) : string :=
  match s with EmptyString => EmptyString | String c s' => String (lower c) (ToLower s') end.

(** The days before a month and the days it has. *)
Fixpoint month_days (ms : list (string * Z)) (name : string) (before : Z) : option (Z * Z) :=
  match ms with
  | [] => None
  | (m, days) :: rest => if String.eqb m name then Some (before, days) else month_days rest name (before + days)
  end.

(** A number of at most [most] digits and at least [least]. *)
Definition parse_field (least most : nat) (s : string) : option Z :=
  if ((least <=? String.length s) && (String.length s <=? most))%nat then digits s else None.

(** The fraction a seconds field may carry, in nanoseconds, of which nine digits count. *)
Definition parse_fraction (s : string) : option Z :=
  match s with
  | EmptyString => Some 0
  | String c ds =>
      if Ascii.eqb c (byte_of 46) || Ascii.eqb c (byte_of 44) then
        _ ← digits ds;
        n ← digits (take_bytes 9 ds);
        Some (n * 10 ^ (9 - Z.of_nat (String.length (take_bytes 9 ds))))
      else None
  end.

Definition parse_clock (s : string) : option Z :=
  match Split s (byte_of 58) with
  | [h; m; sec] =>
      hours ← parse_field 1 2 h;
      minutes ← parse_field 2 2 m;
      seconds ← parse_field 2 2 (take_bytes 2 sec);
      fraction ← parse_fraction (drop_bytes 2 sec);
      if (hours <? 24) && (minutes <? 60) && (seconds <? 60)
      then Some (hours * Hour + minutes * Minute + seconds * Second + fraction) else None
  | _ => None
  end.

Definition year0 : Time := - 366 * 24 * Hour.

Definition parse_stamp (month day clock : string) : option Time :=
  '(before, days) ← month_days months (ToLower month) 0;
  d ← parse_field 1 2 day;
  t ← parse_clock clock;
  if (1 <=? d) && (d <=? days) then Some (year0 + (before + d - 1) * 24 * Hour + t) else None.

(** The cache: when each "command" was last seen. *)
Abbreviation cron := (gmap string Time).
Definition makeCron : cron := ∅.

Definition minNumMiniutes : Z := 5.

Definition rapid_cron : Condition :=
  condition_of RapidCron []
    (Sprintf "A cron job is running faster than every %d minutes, which can impact node performance"
       [AInt "int" minNumMiniutes]).

Inductive cron_error := TooFewFields | BadTime.

Definition cron_handle (line : string) (c : cron) : result cron_error (list Condition) * cron :=
  if negb (Contains line " CMD ") then (Ok [], c)
  else
    match Fields line with
    | month :: day :: clock :: _ :: _ :: command :: _ :: _ =>
        match parse_stamp month day clock with
        | None => (Err BadTime, c)
        | Some timestamp =>
            let out := match c !! command with
                       | Some lastSeen =>
                           if Before timestamp (TimeAdd lastSeen (minNumMiniutes * Minute)) then [rapid_cron] else []
                       | None => []
                       end in
            (Ok out, <[command := timestamp]> c)
        end
    | _ => (Err TooFewFields, c)
    end.

(** ** Environments *)

Definition checkEnvironment (env : string) (pid : Z) : list Condition :=
  let envCount := Z.of_nat (length (filter (λ e, e ≠ EmptyString) (Split env (byte_of 0)))) in
  if 1000 <? envCount then
    [condition_of LargeEnvironment []
       (Sprintf "PID %d has a higher than normal environment variable count at %d" [AInt "int" pid; AInt "int" envCount])]
  else [].

(** Each directory by its name, with the environment when it can be read. *)
Definition handleEnvironment (envPaths : list (string * option string)) : list Condition :=
  envPaths ≫= λ '(dir, env),
    match env, Atoi dir with
    | Some e, Some pid => checkEnvironment e pid
    | _, _ => []
    end.

(** ** zram *)

Definition checkZram (origSize compSize disksize : Z) (deviceName : string) : list Condition :=
  if disksize =? 0 then []
  else
    let usagePercent := fdiv (of_int origSize) (of_int disksize) in
    if flt f0_1 usagePercent then
      [condition_of ZramHighUsage []
         (Sprintf "ZRAM device %s at %s capacity" [AStr deviceName; AStr (percent_of usagePercent)])]
    else [].

(** Each device by its name, with the files that can be read; the errors of the
    conversions are ignored, and their values used. *)
Definition handleZram (devices : list (string * option string * option string)) : list Condition :=
  devices ≫= λ '(deviceName, mm_stat, disksize),
    match mm_stat with
    | None => []
    | Some data =>
        match Fields data with
        | orig :: comp :: _ =>
            let origSize := fst (ParseInt orig) in
            let compSize := fst (ParseInt comp) in
            if origSize =? 0 then []
            else match disksize with
                 | None => []
                 | Some d => checkZram origSize compSize (fst (ParseInt (TrimSpace d))) deviceName
                 end
        | _ => []
        end
    end.

(** ** Clock synchronization *)

Definition STA_UNSYNC : Z := 64.

Definition checkClockSync (status : Z) : list Condition :=
  if Z.land status STA_UNSYNC =? 0 then []
  else [condition_of ClockUnsynchronized []
          "The kernel clock is not synchronized to any time source (STA_UNSYNC); time drift may break time-sensitive workloads"].

(** [status] is that of [adjtimex], when the call succeeds. *)
Definition handleClockSync (status : option Z) : list Condition :=
  match status with Some st => checkClockSync st | None => [] end.

(** ** The process of a segmentation fault *)

(** The number of places where [p] starts in [s]. *)
Fixpoint occurrences (p s : string) : nat :=
  ((if HasPrefix s p then 1 else 0) +
   match s with EmptyString => 0 | String _ s' => occurrences p s' end)%nat.

Lemma occurrences_pos p a b : (1 ≤ occurrences p (a +:+ p +:+ b))%nat.
Proof.
  induction a as [|c a IH]; [|cbn [String.append occurrences]; lia].
  change (EmptyString +:+ p +:+ b) with (p +:+ b). pose proof (HasPrefix_app p b) as Hp.
  destruct (p +:+ b); cbn [occurrences]; rewrite Hp; lia.
Qed.

Lemma occurrences_unique p s a b c d :
  occurrences p s = 1%nat → s = a +:+ p +:+ b → s = c +:+ p +:+ d → a = c.
Proof.
  revert a c. induction s as [|x s IH]; intros a c Ho Ha Hc.
  { by destruct a, c. }
  cbn [occurrences] in Ho. destruct a as [|y a], c as [|z c]; [done|..].
  - injection Hc as -> ->. pose proof (HasPrefix_app p b) as Hp.
    change (EmptyString +:+ p +:+ b) with (p +:+ b) in Ha. rewrite Ha, Hp in Ho.
    pose proof (occurrences_pos p c d). lia.
  - injection Ha as -> ->. pose proof (HasPrefix_app p d) as Hp.
    change (EmptyString +:+ p +:+ d) with (p +:+ d) in Hc. rewrite Hc, Hp in Ho.
    pose proof (occurrences_pos p a b). lia.
  - injection Ha as -> Ha. injection Hc as -> Hc. f_equal. apply IH; [|done..].
    pose proof (occurrences_pos p a b) as Hpos. rewrite <- Ha in Hpos. lia.
Qed.

Lemma all_bytes_app f a b : all_bytes f (a +:+ b) = all_bytes f a && all_bytes f b.
Proof. induction a as [|c a IH]; [done|]. cbn [String.append all_bytes]. by rewrite IH, andb_assoc. Qed.

Lemma sapp_cases (a b c d : string) :
  a +:+ b = c +:+ d → (∃ k, a = c +:+ k ∧ d = k +:+ b) ∨ (∃ k, c = a +:+ k ∧ b = k +:+ d).
Proof.
  revert c. induction a as [|x a IH]; intros c H.
  - right. by exists c.
  - destruct c as [|y c]; [left; by exists (String x a)|]. injection H as -> H.
    destruct (IH c H) as [(k & -> & ->)|(k & -> & ->)]; [left|right]; by exists k.
Qed.

(** The last byte outside a class splits a string in one way. *)
Lemma last_outside f x a b d e :
  f x = false → all_bytes f d = true → all_bytes f e = true →
  a +:+ String x d = b +:+ String x e → a = b.
Proof.
  intros Hx Hd He [(k & -> & Hk)|(k & -> & Hk)]%sapp_cases; destruct k as [|y k];
    rewrite ?sapp_nil_r; try done; injection Hk as -> ->.
  - rewrite all_bytes_app in He. cbn [all_bytes] in He. by rewrite Hx, andb_false_r in He.
  - rewrite all_bytes_app in Hd. cbn [all_bytes] in Hd. by rewrite Hx, andb_false_r in Hd.
Qed.

Definition fault_text : string := "]: segfault at".
Definition bracket : Ascii.ascii := byte_of 91.

Lemma segfault_match s :
  match_at segfaultCrash s ≠ None →
  ∃ b a d v, s = String b (a +:+ String bracket d) +:+ fault_text +:+ v ∧
    all_bytes procbyte a = true ∧ all_bytes digitbyte d = true.
Proof.
  destruct (match_at segfaultCrash s) as [caps|] eqn:E; [|done]. intros _.
  apply match_at_sound in E as (u & v & -> & Hd). unfold segfaultCrash in Hd.
  inversion Hd as [| |p ps r s1 caps1 Hp Hd1| |]; subst. clear Hd.
  inversion Hd1 as [| | | |l1 f1 g1 c1 r1 a s2 caps2 Ha _ Hd2]; subst. clear Hd1.
  inversion Hd2 as [|p2 r2 s3 caps3 Hd3| | |]; subst. clear Hd2.
  inversion Hd3 as [| | | |l4 f4 g4 c4 r4 d s4 caps4 Hd' _ Hd4]; subst. clear Hd3.
  inversion Hd4 as [|p5 r5 s5 caps5 Hd5| | |]; subst.
  unfold blanks in Hp. apply list_elem_of_fmap in Hp as (n & -> & _).
  exists (byte_of n), a, d, (s5 +:+ v). split; [|done].
  change (String (byte_of n) ((a +:+ "[" +:+ d +:+ fault_text +:+ s5) +:+ v) =
          String (byte_of n) ((a +:+ "[" +:+ d) +:+ fault_text +:+ s5 +:+ v)).
  by rewrite <- !sapp_assoc.
Qed.

Lemma segfault_here name pid rest :
  all_bytes procbyte name = true → name ≠ EmptyString → all_bytes digitbyte pid = true → pid ≠ EmptyString →
  match_at segfaultCrash (" " +:+ name +:+ "[" +:+ pid +:+ fault_text +:+ rest) = Some [name].
Proof.
  intros Hn Hne Hp Hpe.
  change segfaultCrash with
    (Or (take 4 blanks ++ [" "]) :: [Rep 1 procbyte true true; Lit "["; Rep 1 digitbyte true false; Lit fault_text; any]).
  apply (match_at_or (take 4 blanks) " " []).
  - intros x Hx. vm_compute in Hx.
    repeat (apply elem_of_cons in Hx as [->|Hx]; [reflexivity|]). by apply not_elem_of_nil in Hx.
  - apply (match_at_rep_stop_lit procbyte true "["); [done..|].
    apply (match_at_rep_stop_lit digitbyte false fault_text); [done..|].
    destruct (match_at [any] rest) as [caps|] eqn:E.
    + apply match_at_sound in E as (u & v & _ & Hd). unfold any in Hd.
      inversion Hd as [| | | |l f g c r w s' caps' _ _ Hd']; subst. inversion Hd'; subst. done.
    + exfalso. apply (match_at_complete [any] EmptyString rest []); [|done].
      apply (denotes_rep 0 dot true false [] EmptyString EmptyString []); [done..|constructor].
Qed.

Lemma match_at_none r s p : Lit p ∈ r → Contains s p = false → match_at r s = None.
Proof.
  intros Hp Hs. destruct (match_at r s) as [caps|] eqn:E; [|done].
  apply match_at_sound in E as (u & v & -> & Hd). apply (denotes_lit_occurs _ _ _ p) in Hd; [|done].
  rewrite (Contains_trans _ u p) in Hs; [done| |done]. apply Contains_spec. by exists EmptyString, v.
Qed.

Lemma Contains_tail c s p : Contains (String c s) p = false → Contains s p = false.
Proof. cbn [Contains]. by intros [_ H]%orb_false_iff. Qed.

(** Words, each with a blank after it. *)
Fixpoint Concat_with_blanks (words : list string) : string :=
  match words with
  | [] => EmptyString
  | w :: words => w +:+ " " +:+ Concat_with_blanks words
  end.

(** The search reaches the process before the fault. *)
Lemma find_segfault pre name pid rest :
  let line := pre +:+ " " +:+ name +:+ "[" +:+ pid +:+ fault_text +:+ rest in
  all_bytes procbyte name = true → name ≠ EmptyString → all_bytes digitbyte pid = true → pid ≠ EmptyString →
  Contains line "traps:" = false → occurrences fault_text line = 1%nat →
  find_app_crash line = Some [EmptyString; name].
Proof.
  cbv zeta. intros Hn Hne Hp Hpe. induction pre as [|c pre IH]; intros Ht Ho.
  - pose proof (segfault_here name pid rest Hn Hne Hp Hpe) as Hs.
    change (EmptyString +:+ " " +:+ name +:+ "[" +:+ pid +:+ fault_text +:+ rest)
      with (" " +:+ name +:+ "[" +:+ pid +:+ fault_text +:+ rest) in *.
    pose proof (match_at_none trapCrash _ "traps:" ltac:(left) Ht) as Hnone.
    cbn [find_app_crash String.append]. cbn [String.append] in Hs, Hnone. by rewrite Hnone, Hs.
  - set (tail := " " +:+ name +:+ "[" +:+ pid +:+ fault_text +:+ rest) in *.
    change (String c pre +:+ tail) with (String c (pre +:+ tail)) in *.
    cbn [find_app_crash]. rewrite (match_at_none trapCrash _ "traps:") by (done || left).
    destruct (match_at segfaultCrash (String c (pre +:+ tail))) as [caps|] eqn:E.
    + exfalso. destruct (segfault_match (String c (pre +:+ tail))) as (b & a & d & v & He & Ha & Hd); [congruence|].
      assert (Heq : String b (a +:+ String bracket d) =
                    (String c pre +:+ " " +:+ name) +:+ String bracket pid).
      { apply (occurrences_unique fault_text _ _ v _ rest Ho He). unfold tail.
        change (String bracket pid) with ("[" +:+ pid). rewrite <- !sapp_assoc. done. }
      change (String b (a +:+ String bracket d)) with (String b a +:+ String bracket d) in Heq.
      apply (last_outside digitbyte) in Heq; [|done..]. injection Heq as -> ->.
      rewrite !all_bytes_app in Ha. cbn [all_bytes] in Ha.
      apply andb_true_iff in Ha as [_ [[=] _]%andb_true_iff].
    + apply IH; [by eapply Contains_tail|]. cbn [occurrences] in Ho.
      pose proof (occurrences_pos fault_text (pre +:+ " " +:+ name +:+ "[" +:+ pid) rest) as Hpos.
      rewrite <- !sapp_assoc in Hpos. unfold tail in *. lia.
Qed.

Lemma Join_snoc words w : Join (words ++ [w]) " " = Concat_with_blanks words +:+ w.
Proof.
  induction words as [|v words IH]; [done|]. simpl app. destruct words as [|v' words].
  - simpl. by rewrite <- !sapp_assoc.
  - simpl app in *. change (Join (v :: v' :: words ++ [w]) " ") with (v +:+ " " +:+ Join (v' :: words ++ [w]) " ").
    rewrite IH. cbn [Concat_with_blanks]. by rewrite <- !sapp_assoc.
Qed.

(** Every word before the last one is followed by a blank. *)
Lemma blanks_end pre words :
  ∃ pre', pre +:+ " " +:+ Concat_with_blanks words = pre' +:+ " ".
Proof.
  revert pre. induction words as [|v words IH]; intros pre.
  - by exists pre.
  - destruct (IH (pre +:+ " " +:+ v)) as [pre' E]. exists pre'. rewrite <- E. cbn [Concat_with_blanks].
    by rewrite <- !sapp_assoc.
Qed.

(** C30. A line of the kernel with a prefix of any form, such as a time and a thread, and
    then [ PROCESS[PID]: segfault at ...], is reported as a crash of the process that the
    last word of PROCESS names, a word of no blank and no opening bracket: a process whose
    name is one such word is named whole, and the name is never extended into the prefix,
    whatever brackets and spaces that holds; of a process whose name has blanks only the
    last word is reported.  The line is of no other kind that the handler looks at: it says
    neither [BUG: ] nor [traps:], and it has one segfault. *)
Theorem segfault_names_process pre words name pid rest :
  let line := pre +:+ " " +:+ Join (words ++ [name]) " " +:+ "[" +:+ pid +:+ fault_text +:+ rest in
  all_bytes procbyte name = true → name ≠ EmptyString → all_bytes digitbyte pid = true → pid ≠ EmptyString →
  Contains line "BUG: " = false → Contains line "traps:" = false → occurrences fault_text line = 1%nat →
  handleDmesg line =
    [condition_of AppCrash [] (Sprintf "Process %s on the node has crashed" [AStr (Quote name)])].
Proof.
  cbv zeta. intros Hn Hne Hp Hpe. destruct (blanks_end pre words) as [pre' E].
  assert (El : pre +:+ " " +:+ Join (words ++ [name]) " " +:+ "[" +:+ pid +:+ fault_text +:+ rest =
               pre' +:+ " " +:+ name +:+ "[" +:+ pid +:+ fault_text +:+ rest).
  { apply (f_equal (λ p, p +:+ name +:+ "[" +:+ pid +:+ fault_text +:+ rest)) in E.
    rewrite Join_snoc. rewrite <- !sapp_assoc in E. rewrite <- !sapp_assoc. exact E. }
  rewrite El. intros Hb Ht Ho. unfold handleDmesg.
  rewrite (FindSubmatch_none softLockupRegexp _ "watchdog: BUG: soft lockup - " "BUG: ") by (done || left).
  unfold MatchString at 1.
  rewrite (FindSubmatch_none kernelBugRegexp _ "] BUG: " "BUG: ")
    by (done || unfold kernelBugRegexp; right; right; left).
  rewrite find_segfault by done. cbn [appCrashProcessName negb String.eqb].
  rewrite (proj2 (String.eqb_neq _ _) Hne). done.
Qed.

Lemma segfault_names_process_witness :
  handleDmesg "[   32.298491][  T896] kexec[896]: segfault at 0 ip 0 sp 7ffeaf0ff420 error 14 in dash[561ac3c57000+4000]" =
  [condition_of AppCrash [] (Sprintf "Process %s on the node has crashed" [AStr (Quote "kexec")])] ∧
  handleDmesg "[   32.298491] Web Content[896]: segfault at 0 ip 0 sp 0 error 14" =
  [condition_of AppCrash [] (Sprintf "Process %s on the node has crashed" [AStr (Quote "Content")])].
Proof.
  split.
  - apply (segfault_names_process "[   32.298491][  T896]" [] "kexec" "896"
             " 0 ip 0 sp 7ffeaf0ff420 error 14 in dash[561ac3c57000+4000]"); [vm_compute; reflexivity|discriminate| |discriminate|..];
      vm_compute; reflexivity.
  - apply (segfault_names_process "[   32.298491]" ["Web"] "Content" "896" " 0 ip 0 sp 0 error 14");
      [vm_compute; reflexivity|discriminate| |discriminate|..]; vm_compute; reflexivity.
Defined.

(** Of a name with a blank only the last word is reported. *)
Example segfault_last_word :
  handleDmesg "[   32.298491] Web Content[896]: segfault at 0 ip 0 sp 0 error 14" =
  [condition_of AppCrash [] (Sprintf "Process %s on the node has crashed" [AStr (Quote "Content")])].
Proof. vm_compute. reflexivity. Qed.

(** A process whose last word has a bracket is not reported, nor one that the line does
    not put a blank before. *)
Example segfault_bracket_silent :
  handleDmesg "[   32.298491] a[b[896]: segfault at 0 ip 0 sp 0 error 14" = [] ∧
  handleDmesg "kexec[896]: segfault at 0 ip 0 sp 0 error 14" = [].
Proof. split; vm_compute; reflexivity. Qed.

(** ** Cron jobs that are not the same *)

(** Two jobs of one user, hourly but a minute apart: the field taken for the command is
    the user. *)
Example cron_user_not_job :
  let first := "Sep 17 21:44:01 host CROND[1]: (root) CMD (/bin/a)" in
  let second := "Sep 17 21:45:01 host CROND[2]: (root) CMD (/bin/b)" in
  fst (cron_handle second (snd (cron_handle first makeCron))) = Ok [rapid_cron].
Proof. vm_compute. reflexivity. Qed.

(** A daily job at the turn of the year: the times have no year. *)
Example cron_new_year :
  let first := "Dec 31 21:44:01 host CROND[1]: (root) CMD (/bin/a)" in
  let second := "Jan  1 21:44:01 host CROND[2]: (root) CMD (/bin/a)" in
  fst (cron_handle second (snd (cron_handle first makeCron))) = Ok [rapid_cron].
Proof. vm_compute. reflexivity. Qed.
