(* ===== verification/Runtime.v ===== *)
(** * Runtime: the container runtime monitor ([monitors/runtime/monitor.go]).

    The answers of systemd and of the API server, the decoded JSON of containerd, the
    rate limiters, the title case of [golang.org/x/text] and the text form of a time are
    arguments. *)

From S2P Require Import Prelude GoStrings GoRegexp Monitor Reasons IPRoutes.

(** ** Log lines *)

Definition failedToStartRegexp : regex := [Lit "Failed to start "; Rep 0 dot false true; Lit "."].

Definition handleSystemd (line : string) : list Condition :=
  if MatchString failedToStartRegexp line then [condition_of ServiceFailedToStart [] line] else [].

(** A literal between double quotes. *)
Definition quoted (s : string) : string := String dquote (s +:+ String dquote EmptyString).

Definition enteredFailedState : regex := [Lit "Unit kubelet"; One dot; Lit "service entered failed state"].
Definition ociRuntimeCreateFailed : regex := [Lit "OCI runtime create failed: "; Rep 0 dot false true].
Definition podStuckTerminating : regex :=
  [Lit (quoted "Pod still has one or more containers in the non-exited state and will not be removed from desired state"
        +:+ " pod=" +:+ String dquote EmptyString);
   Rep 0 dot true true; Lit (String dquote EmptyString)].
Definition probe_regexp (kind : string) : regex :=
  [Lit (kind +:+ " probe for " +:+ String dquote EmptyString); Rep 0 dot false false; Lit ":"; Rep 0 dot true true;
   Lit (String dquote " failed")].
Definition readinessProbeRegexp : regex := probe_regexp "Readiness".
Definition livenessProbeRegexp : regex := probe_regexp "Liveness".

Section Limited.
(** A limiter of one event a second with a burst of 5, and [Allow]. *)
Context {Limiter : Type} (Allow : Limiter → Time → bool * Limiter).

Record limiters := mkLimiters { readinessProbeLimiter : Limiter; livenessProbeLimiter : Limiter }.

Definition liveness_part (line : string) (now : Time) (l : limiters) : list Condition * limiters :=
  if MatchString livenessProbeRegexp line then
    let '(allowed, lim) := Allow (livenessProbeLimiter l) now in
    (if allowed then []
     else [condition_of LivenessProbeFailures [] "Exceeded a safe rate of liveness probe failures"],
     mkLimiters (readinessProbeLimiter l) lim)
  else ([], l).

Definition handleKubelet (line : string) (now : Time) (l : limiters) : list Condition * limiters :=
  match FindSubmatch podStuckTerminating line with
  | Some (podName :: _) =>
      ([Build (WithMinOccurrences
          (WithMessage (Builder PodStuckTerminating [])
             (Sprintf "Pod %s is stuck terminating. Restarting kubelet will result in cleaning up stuck pods"
                [AStr (Quote podName)])) 2)], l)
  | _ =>
      if MatchString enteredFailedState line then
        ([condition_of KubeletFailed [] "Kubelet has entered a failed state"], l)
      else if MatchString ociRuntimeCreateFailed line then
        ([condition_of ContainerRuntimeFailed [] "OCI runtime create failed"], l)
      else if MatchString readinessProbeRegexp line then
        let '(allowed, lim) := Allow (readinessProbeLimiter l) now in
        let l := mkLimiters lim (livenessProbeLimiter l) in
        if allowed then liveness_part line now l
        else ([condition_of ReadinessProbeFailures [] "Exceeded a safe rate of readiness probe failures"], l)
      else liveness_part line now l
  end.

End Limited.

(** ** Restarts of systemd services *)

(** The property [NRestarts] of a unit: the properties cannot be read, it is absent, of
    another type, or its value. *)
Inductive NRestarts := PropertiesError (err : string) | Absent | OtherType (described : string) | Restarts (n : Z).

Record UnitStatus := mkUnit { unitFile : string; nRestarts : NRestarts }.

Section Services.
(** [cases.Title(language.English)]. *)
Variable Title : string → string.

Definition unitName (s : string) : string := Title (default s (CutSuffix s ".service")).

Definition restart_condition (name : string) (previous current : Z) : Condition :=
  condition_of RepeatedRestart [AStr (unitName name)]
    (Sprintf "Systemd unit %s has restarted (NRestarts %d -> %d)"
       [AStr (Quote name); AInt "uint32" previous; AInt "uint32" current]).

Fixpoint check_units (units : list UnitStatus) (counts : gmap string Z)
    : result string (list Condition) * gmap string Z :=
  match units with
  | [] => (Ok [], counts)
  | u :: rest =>
      if negb (HasSuffix (unitFile u) ".service") then check_units rest counts
      else
        match nRestarts u with
        | PropertiesError err =>
            (Err (Sprintf "getting properties for unit %s, %s" [AStr (Quote (unitFile u)); AStr err]), counts)
        | Absent => check_units rest counts
        | OtherType t => (Err ("unexpected type for NRestarts, " +:+ t), counts)
        | Restarts currentRestarts =>
            if currentRestarts =? 0 then check_units rest counts
            else
              let previousRestarts := default 0 (counts !! unitFile u) in
              let counts := <[unitFile u := currentRestarts]> counts in
              if (3 <? currentRestarts) && (previousRestarts <? currentRestarts) then
                (Ok [restart_condition (unitFile u) previousRestarts currentRestarts], counts)
              else check_units rest counts
        end
  end.

(** [units] is the answer of systemd, or the error of the connection or of the listing. *)
Definition handleSystemdServices (units : result string (list UnitStatus)) (counts : gmap string Z)
    : result string (list Condition) * gmap string Z :=
  match units with
  | Err err => (Err err, counts)
  | Ok units => check_units units counts
  end.

(** A unit that is due for a report, given the counts before. *)
Definition restarting (counts : gmap string Z) (u : UnitStatus) : bool :=
  HasSuffix (unitFile u) ".service" &&
  match nRestarts u with
  | Restarts n => (3 <? n) && (default 0 (counts !! unitFile u) <? n)
  | _ => false
  end.

(** The poll stops at the first unit that is due: what follows it in the listing is
    neither reported nor counted. *)
Theorem first_restart_hides_rest u rest rest' counts :
  restarting counts u = true → check_units (u :: rest) counts = check_units (u :: rest') counts.
Proof.
  unfold restarting. intros [Hs Hr]%andb_true_iff. cbn [check_units]. rewrite Hs. cbn [negb].
  destruct (nRestarts u) as [| | |n]; try done. rewrite Hr.
  destruct (Z.eqb_spec n 0) as [->|]; [|done]. apply andb_true_iff in Hr as [[=] _].
Qed.
End Services.

(** ** Deprecations of containerd *)

Definition containerdDeprecationInterval : Duration := Hour.

Record deprecationWarning := mkDeprecation { depID : string; LastOccurrence : Time; depMessage : string }.

Definition dockerManifestV2SchemaV1Annotation : string := "aws.amazoneks.com/manifest-v2-schema-v1-detection".
Definition schema1_id : string := "io.containerd.deprecation/pull-schema-1-image".

Section Deprecations.
(** [Time.Format] and [time.Parse] with the layout RFC3339Nano. *)
Variables (Format : Time → string) (Parse : string → option Time).

(** The annotations to patch the node with, [None] when nothing is sent; [stored] those
    the API server holds. *)
Definition reconcile_annotations (now : Time) (deprecations : list deprecationWarning)
    (stored : gmap string string) : option (gmap string string) :=
  match list_find (λ d, depID d = schema1_id) deprecations with
  | Some (_, d) => Some (<[dockerManifestV2SchemaV1Annotation := Format (LastOccurrence d)]> stored)
  | None =>
      match stored !! dockerManifestV2SchemaV1Annotation with
      | None => None
      | Some lastOccurrence =>
          Some (if match Parse lastOccurrence with
                   | None => true
                   | Some t => containerdDeprecationInterval <? Sub now t
                   end
                then delete dockerManifestV2SchemaV1Annotation stored else stored)
      end
  end.

(** [get] is the answer to the request for the node, [patch] that to the patch; the
    annotations are those of the node afterwards, on the server. *)
Definition reconcileManifestWarning (ts : list string) (now : Time) (deprecations : list deprecationWarning)
    (get : option string) (patch : option string) (stored : gmap string string)
    : option string * gmap string string :=
  if negb (bool_decide (EKSAuto ∈ ts)) then (None, stored)
  else match get with
       | Some err => (Some err, stored)
       | None =>
           match reconcile_annotations now deprecations stored with
           | None => (None, stored)
           | Some annotations => match patch with
                                 | Some err => (Some err, stored)
                                 | None => (None, annotations)
                                 end
           end
       end.

Definition recent (now : Time) (l : list deprecationWarning) : list deprecationWarning :=
  filter (λ d, (Sub now (LastOccurrence d) <? containerdDeprecationInterval) = true) l.

(** [decoded] is the decoding of the output, [None] for an empty one. *)
Definition checkContainerdWarnings (ts : list string) (now : Time)
    (decoded : option (result string (list deprecationWarning))) (get patch : option string)
    (stored : gmap string string) : list Condition * option string * gmap string string :=
  match decoded with
  | None => let '(err, stored) := reconcileManifestWarning ts now [] get patch stored in ([], err, stored)
  | Some (Err err) => ([], Some ("could not parse containerd deprecation warnings: " +:+ err), stored)
  | Some (Ok warnings) =>
      let filtered := recent now warnings in
      let out := (λ w, condition_of DeprecatedContainerdConfiguration []
                         (Sprintf "%s: %s" [AStr (depID w); AStr (depMessage w)])) <$> filtered in
      let '(err, stored) := reconcileManifestWarning ts now filtered get patch stored in
      (out, err, stored)
  end.

(** [run] is the output of [ctr deprecations list --format=json], or the error of running it,
    and [decode] its decoding. *)
Definition handleContainerd (ts : list string) (now : Time) (run : result string string)
    (decode : string → result string (list deprecationWarning)) (get patch : option string)
    (stored : gmap string string) : list Condition * option string * gmap string string :=
  match run with
  | Err e => ([], Some (prefixed "failed to list containerd deprecations" e), stored)
  | Ok out =>
      checkContainerdWarnings ts now (if String.eqb out EmptyString then None else Some (decode out)) get patch stored
  end.

(** A check that fails to list or to decode the deprecations leaves the annotation, however
    old it is. *)
Lemma failed_listing_keeps_annotation ts now run decode get patch stored :
  match run with Ok out => out ≠ EmptyString ∧ is_ok (decode out) = false | Err _ => True end →
  fst (fst (handleContainerd ts now run decode get patch stored)) = [] ∧
  snd (handleContainerd ts now run decode get patch stored) = stored.
Proof.
  destruct run as [out|e]; [|done]. intros [Hne Hd]. simpl.
  destruct (String.eqb_spec out EmptyString); [done|]. by destruct (decode out).
Qed.

(** C37. On a node in Auto Mode, after a check whose output is decoded and whose requests
    succeed, the node carries the annotation exactly when a schema 1 pull was seen within
    the hour: by one of the warnings of this check, or by the annotation itself. *)
Theorem manifest_annotation_iff now warnings stored ts :
  EKSAuto ∈ ts →
  (∃ v, snd (checkContainerdWarnings ts now (Some (Ok warnings)) None None stored)
          !! dockerManifestV2SchemaV1Annotation = Some v) ↔
  (∃ d, d ∈ warnings ∧ depID d = schema1_id ∧ now - LastOccurrence d < Hour) ∨
  (∃ v t, stored !! dockerManifestV2SchemaV1Annotation = Some v ∧ Parse v = Some t ∧ now - t ≤ Hour).
Proof.
  intros Hts. unfold checkContainerdWarnings, reconcileManifestWarning.
  rewrite bool_decide_eq_true_2 by done. cbn [negb]. unfold reconcile_annotations.
  assert (min_int64 < Hour < max_int64) as Hh by done.
  assert (Hrec : ∀ d, d ∈ recent now warnings ↔ d ∈ warnings ∧ now - LastOccurrence d < Hour).
  { intros d. unfold recent. rewrite list_elem_of_filter, Z.ltb_lt, Sub_lt_iff by done.
    unfold containerdDeprecationInterval. tauto. }
  destruct (list_find _ (recent now warnings)) as [[i d]|] eqn:Hf.
  - apply list_find_Some in Hf as (Hd & Hid & _). apply list_elem_of_lookup_2, Hrec in Hd as [Hd Hlt].
    cbn [snd]. rewrite lookup_insert_eq. split; [intros _; left; by exists d|intros _; by eexists].
  - apply list_find_None in Hf. rewrite Forall_forall in Hf.
    assert (Hnone : ¬ ∃ d, d ∈ warnings ∧ depID d = schema1_id ∧ now - LastOccurrence d < Hour).
    { intros (d & Hd & Hid & Hlt). apply (Hf d); [apply Hrec; done|done]. }
    destruct (stored !! dockerManifestV2SchemaV1Annotation) as [v|] eqn:Hs; cbn [snd].
    + destruct (Parse v) as [t|] eqn:Hp.
      * destruct (Z.ltb_spec containerdDeprecationInterval (Sub now t)) as [Hgt|Hle].
        -- rewrite lookup_delete_eq. split; [intros [? [=]]|].
           intros [?|(v' & t' & Hv & Ht & Hle)]; [done|]. simplify_eq.
           exfalso. unfold containerdDeprecationInterval, Sub in Hgt. lia.
        -- rewrite Hs. split; [|intros _; by exists v]. intros _. right. exists v, t. split; [done|]. split; [done|].
           unfold containerdDeprecationInterval, Sub in Hle. lia.
      * rewrite lookup_delete_eq. split; [intros [? [=]]|]. intros [?|(v' & t' & Hv & Ht & _)]; [done|congruence].
    + rewrite Hs. split; [intros [? [=]]|]. intros [?|(v' & t' & Hv & _)]; [done|congruence].
Qed.

End Deprecations.

Lemma manifest_annotation_iff_witness :
  ∃ v, snd (checkContainerdWarnings (λ _, "2026-01-01T00:00:00Z") (λ _, None) ["eks-auto"] (5 * Hour)
              (Some (Ok [mkDeprecation "other" (5 * Hour) "m"; mkDeprecation schema1_id (4 * Hour + Minute) "m"]))
              None None ∅) !! dockerManifestV2SchemaV1Annotation = Some v.
Proof.
  apply manifest_annotation_iff; [left|]. left. eexists. split; [right; left|]. split; [reflexivity|].
  vm_compute. reflexivity.
Defined.
