(* ===== verification/PacketCapture.v ===== *)
(** * PacketCapture: a packet capture and its uploads ([pkg/packet_capture], and
    GzipFile and CheckDiskSpace of [pkg/util/file]).

    What happens to the files: tcpdump makes them while the watcher polls the
    directory, uploads the compressed ones and removes them, and the shutdown compresses
    and uploads the rest.  A path of the capture directory is the name of the file in
    it; what a file holds is not modelled, so that one that is still being compressed when a
    poll finds it counts as it would complete.  What the network, the compression and the
    directory answer is an argument.
    The waits of the goroutines are in [CaptureRun]. *)

From stdpp Require Import gmap sorting.
From S2P Require Import Prelude GoStrings GoFloat NodeDiag.

(** ** capturer.go *)

Definition DefaultRotationSizeMB : Z := 10.
Definition FileCheckInterval : Duration := 5 * Second.
Definition DiskUsageThreshold : float64 := fdiv (of_int 9) (of_int 10).
Definition MaxRotatedFiles : string := "10000".
Definition CompressCmd : string := "igzip".

(** ** tcpdump.go: what is left of earlier captures *)

Definition stalePattern : string := "tcpdump -w /tmp/eks-packet-capture".

(** The commands that [cleanupStaleTcpdump] runs; [pgrep] is the output of the first. *)
Definition cleanupStaleTcpdump (pgrep : result string string) : list (list string) :=
  ["pgrep"; "-f"; stalePattern] ::
  match pgrep with
  | Err _ | Ok EmptyString => []
  | Ok _ => [["pkill"; "-f"; stalePattern]]
  end.

(** ** tcpdump.go: the arguments *)

Definition buildTcpdumpArgs (outputPath : string) (spec : NodeDiag.PacketCapture) : list string :=
  let chunkSize := if ChunkSizeMB spec <=? 0 then DefaultRotationSizeMB else ChunkSizeMB spec in
  (["-w"; outputPath; "-C"; Sprintf "%d" [AInt "int" chunkSize]; "-W"; MaxRotatedFiles; "-U"; "-z"; CompressCmd] ++
   (if String.eqb (Interface spec) EmptyString then [] else ["-i"; Interface spec]) ++
   (if String.eqb (Filter spec) EmptyString then [] else [Filter spec]))%list.

Example args_ex :
  buildTcpdumpArgs "/tmp/c/capture.pcap" (mkPacketCapture "any" "30s" "tcp port 53" 0 EmptyString []) =
  ["-w"; "/tmp/c/capture.pcap"; "-C"; "10"; "-W"; "10000"; "-U"; "-z"; "igzip"; "-i"; "any"; "tcp port 53"].
Proof. reflexivity. Qed.

(** The command line of a capture into a temporary directory of the agent is one that the
    removal of stale captures matches, whatever the specification. *)
Lemma stale_matched rest spec :
  HasPrefix (Join ("tcpdump" :: buildTcpdumpArgs ("/tmp/eks-packet-capture" +:+ rest) spec) " ") stalePattern = true.
Proof. reflexivity. Qed.

(** What [CaptureAndUpload] does before the capture runs: [parsed] is the duration as
    [time.ParseDuration] gives it, [startErr] the error of the start of tcpdump. *)
Definition begin_capture (spec : NodeDiag.PacketCapture) (parsed : result string Duration)
    (startErr : option string) : result string Duration :=
  match parsed with
  | Err e => Err ("failed to parse duration " +:+ Quote (PcDuration spec) +:+ ": " +:+ e)
  | Ok duration =>
      match startErr with
      | Some e => Err ("failed to start tcpdump: " +:+ e)
      | None => Ok duration
      end
  end.

(** ** fileutil.go

    [entries] is what [os.ReadDir] gives: names, and whether each is a directory. *)

Definition gz : string := ".gz".
Definition is_gz (n : string) : bool := HasSuffix n gz.

Definition findGzipFiles (entries : result string (list (string * bool))) : result string (list string) :=
  es <-? entries;;
  Ok (merge_sort String.le (fst <$> filter (λ e, negb e.2 && is_gz e.1 = true) es)).

Definition findNonGzipFiles (entries : result string (list (string * bool))) (baseName : string)
    : result string (list string) :=
  es <-? entries;;
  Ok (merge_sort String.le
        (fst <$> filter (λ e, negb e.2 && negb (is_gz e.1) && HasPrefix e.1 baseName = true) es)).

(** The file that belongs to a compressed one: its name without [.gz]. *)
Definition pcap_of (n : string) : string := default n (CutSuffix n gz).

(** ** upload.go *)

(** The answers while one file is uploaded, in the order they are asked for; the last
    is the status of the response. *)
Record upload_answers := mkUpload {
  uStat : option string;
  uWriteField : option string;
  uCreateFormFile : option string;
  uOpen : option string;
  uCopy : option string;
  uClose : option string;
  uRequest : option string;
  uDo : result string Z
}.

(** The fields of the form for one file. *)
Definition form_fields (fields : list (string * string)) (fileName : string) : list (string * string) :=
  (λ kv, if String.eqb kv.1 "key" then (kv.1, ReplaceAll kv.2 S3PresignedFilenamePlaceholder fileName) else kv)
    <$> fields.

Definition checked (wrap : string) (e : option string) : result string () :=
  match e with Some e => Err (wrap +:+ ": " +:+ e) | None => Ok () end.

Definition uploadFile (fields : list (string * string)) (fileName : string) (a : upload_answers)
    : result string (list (string * string)) :=
  checked ("failed to stat file " +:+ fileName) (uStat a);;?
  checked "failed to write form field" (uWriteField a);;?
  checked "failed to create form file" (uCreateFormFile a);;?
  checked ("failed to open file " +:+ fileName) (uOpen a);;?
  checked "failed to copy file content" (uCopy a);;?
  checked "failed to close multipart writer" (uClose a);;?
  checked "failed to create upload request" (uRequest a);;?
  match uDo a with
  | Err e => Err ("upload request failed: " +:+ e)
  | Ok status =>
      if negb (status =? 200) && negb (status =? 204) && negb (status =? 201)
      then Err (Sprintf "upload failed with status %d for file %s" [AInt "int" status; AStr fileName])
      else Ok (form_fields fields fileName)
  end.

(** ** pkg/util/file *)

Definition CheckDiskSpace (stat : result string (Z * Z)) : result string float64 :=
  st <-? stat;;
  let '(blocks, bavail) := st in
  Ok (if blocks =? 0 then of_int 0 else fdiv (of_int (u64 (blocks - bavail))) (of_int blocks)).

(** What fails while one file is compressed. *)
Inductive gzip_answer := GzipOk | OpenFails (e : string) | CreateFails (e : string) | LaterFails (e : string).

(** ** The directory *)

(** The files of the capture directory, those uploaded so far, and the number of the
    attempts to upload. *)
Record capture_dir := mkDir {
  files : gset string;
  uploads : list string;
  attempts : nat
}.

(** The environment: the answer to each attempt, the files that cannot be removed and
    the answers of the compression. *)
Record env := mkEnv {
  answer : nat → upload_answers;
  stuck : string → bool;
  gzips : string → gzip_answer
}.

Definition set_files (fs : gset string) (d : capture_dir) : capture_dir :=
  mkDir fs (uploads d) (attempts d).

Definition ReadDir (readErr : option string) (d : capture_dir) : result string (list (string * bool)) :=
  match readErr with Some e => Err e | None => Ok ((λ n, (n, false)) <$> elements (files d)) end.

Definition Remove (v : env) (n : string) (d : capture_dir) : capture_dir :=
  if stuck v n then d else set_files (files d ∖ {[n]}) d.

Definition deleteCorrespondingPcapFile (v : env) (n : string) (d : capture_dir) : capture_dir :=
  if is_gz n then Remove v (pcap_of n) d else d.

Section Capture.
Context (v : env) (fields : list (string * string)).

(** A file that is not there cannot be read. *)
Definition missing (a : upload_answers) : upload_answers :=
  mkUpload (Some "no such file or directory") (uWriteField a) (uCreateFormFile a) (uOpen a) (uCopy a)
    (uClose a) (uRequest a) (uDo a).

(** One attempt to upload a file. *)
Definition attempt (n : string) (d : capture_dir) : capture_dir * option string :=
  let a := answer v (attempts d) in
  match uploadFile fields n (if decide (n ∈ files d) then a else missing a) with
  | Ok _ => (mkDir (files d) (uploads d ++ [n]) (S (attempts d)), None)
  | Err e => (mkDir (files d) (uploads d) (S (attempts d)), Some e)
  end.

Definition GzipFile (n : string) (d : capture_dir) : capture_dir * option string :=
  if decide (n ∈ files d) then
    match gzips v n with
    | OpenFails e | CreateFails e => (d, Some e)
    | LaterFails e => (Remove v (n +:+ gz) (set_files (files d ∪ {[n +:+ gz]}) d), Some e)
    | GzipOk => (set_files ((files d ∪ {[n +:+ gz]}) ∖ {[n]}) d, None)
    end
  else (d, Some "no such file or directory").

(** *** startFileWatcher *)

Definition clean_up (n : string) (d : capture_dir) : capture_dir :=
  Remove v n (deleteCorrespondingPcapFile v n d).

(** The files of one poll; an error is that of a retry, which terminates the capture. *)
Fixpoint poll_files (ns : list string) (d : capture_dir) : capture_dir * option string :=
  match ns with
  | [] => (d, None)
  | n :: ns' =>
      match attempt n d with
      | (d, None) => poll_files ns' (clean_up n d)
      | (d, Some _) =>
          match attempt n d with
          | (d, None) => poll_files ns' (clean_up n d)
          | (d, Some e) => (d, Some e)
          end
      end
  end.

(** One poll: the files that appeared since the last one, the error of the reading of
    the directory, and the answer of [statfs]. *)
Record poll := mkPoll { created : list string; pollErr : option string; statfs : result string (Z * Z) }.

Definition add_files (ns : list string) (d : capture_dir) : capture_dir :=
  set_files (files d ∪ list_to_set ns) d.

(** The error of the watcher, if any, and whether it terminates the capture. *)
Definition poll_step (p : poll) (d : capture_dir) : capture_dir * list string * bool :=
  let d := add_files (created p) d in
  match findGzipFiles (ReadDir (pollErr p) d) with
  | Err _ => (d, [], false)
  | Ok ns =>
      match poll_files ns d with
      | (d, Some e) => (d, [e], true)
      | (d, None) =>
          match CheckDiskSpace (statfs p) with
          | Err _ => (d, [], false)
          | Ok usage => (d, [], flt DiskUsageThreshold usage)
          end
      end
  end.

(** The uploads after [stopCh] is closed, without a retry. *)
Fixpoint stop_files (ns : list string) (d : capture_dir) : capture_dir * list string :=
  match ns with
  | [] => (d, [])
  | n :: ns' =>
      match attempt n d with
      | (d, None) => stop_files ns' (clean_up n d)
      | (d, Some e) => let '(d, es) := stop_files ns' d in (d, e :: es)
      end
  end.

Definition stop_watcher (readErr : option string) (d : capture_dir) : capture_dir * list string :=
  match findGzipFiles (ReadDir readErr d) with
  | Err _ => (d, [])
  | Ok ns => stop_files ns d
  end.

(** The polls until one terminates the capture or [stopCh] is closed; [late] appeared
    after the last poll. *)
Fixpoint startFileWatcher (ps : list poll) (late : list string) (stopErr : option string) (d : capture_dir)
    : capture_dir * list string :=
  match ps with
  | [] => stop_watcher stopErr (add_files late d)
  | p :: ps' =>
      let '(d, es, terminate) := poll_step p d in
      if terminate then (add_files (mjoin (created <$> ps') ++ late) d, es)
      else startFileWatcher ps' late stopErr d
  end.

(** *** The shutdown sequence of CaptureAndUpload *)

Fixpoint gzip_files (ns : list string) (d : capture_dir) : capture_dir :=
  match ns with
  | [] => d
  | n :: ns' => gzip_files ns' (GzipFile n d).1
  end.

Fixpoint upload_rest (ns : list string) (d : capture_dir) : capture_dir * list string :=
  match ns with
  | [] => (d, [])
  | n :: ns' =>
      match attempt n d with
      | (d, None) => upload_rest ns' (Remove v n d)
      | (d, Some e) => let '(d, es) := upload_rest ns' d in (d, e :: es)
      end
  end.

(** The errors of the two readings of the directory. *)
Definition shutdown_files (pcapErr gzErr : option string) (d : capture_dir) : capture_dir * list string :=
  let d := match findNonGzipFiles (ReadDir pcapErr d) "capture.pcap" with
           | Err _ => d
           | Ok ns => gzip_files ns d
           end in
  match findGzipFiles (ReadDir gzErr d) with
  | Err _ => (d, [])
  | Ok ns => upload_rest ns d
  end.

(** What [CaptureAndUpload] does with the files, and the upload errors it returns. *)
Definition capture_files (ps : list poll) (late : list string) (stopErr pcapErr gzErr : option string)
    (d : capture_dir) : capture_dir * list string :=
  let '(d, es) := startFileWatcher ps late stopErr d in
  let '(d, es') := shutdown_files pcapErr gzErr d in
  (d, es ++ es').

(** ** Nothing captured is lost without an error *)

(** A file of tcpdump, compressed or not, is in the directory or was uploaded. *)
Definition accounted (b : string) (d : capture_dir) : Prop :=
  b ∈ files d ∨ (b +:+ gz) ∈ files d ∨ (b +:+ gz) ∈ uploads d.

Lemma is_gz_app b : is_gz (b +:+ gz) = true.
Proof.
  unfold is_gz, HasSuffix. rewrite slength_app, Nat.add_sub, drop_bytes_app, String.eqb_refl.
  apply andb_true_iff. split; [apply Nat.leb_le; lia|done].
Qed.

Lemma take_bytes_slength p t n : n = String.length p → take_bytes n (p +:+ t) = p.
Proof. intros ->. apply take_bytes_app. Qed.

Lemma pcap_of_gz b : pcap_of (b +:+ gz) = b.
Proof.
  unfold pcap_of, CutSuffix. fold (is_gz (b +:+ gz)). rewrite is_gz_app. simpl.
  apply take_bytes_slength. rewrite slength_app. simpl. lia.
Qed.

Lemma pcap_of_spec n : is_gz n = true → n = pcap_of n +:+ gz.
Proof. intros H. destruct (HasSuffix_app n gz H) as [t ->]. by rewrite pcap_of_gz. Qed.

Lemma app_gz_inj b n : b +:+ gz = n +:+ gz → b = n.
Proof. intros H. by rewrite <- (pcap_of_gz b), H, pcap_of_gz. Qed.

Lemma app_gz_ne b : b +:+ gz ≠ b.
Proof. intros H. apply (f_equal String.length) in H. rewrite slength_app in H. simpl in H. lia. Qed.

(** The listings hold the files of the directory with the right names. *)
Lemma find_gz_elem d ns n :
  findGzipFiles (ReadDir None d) = Ok ns → n ∈ ns ↔ n ∈ files d ∧ is_gz n = true.
Proof.
  unfold findGzipFiles, ReadDir. simpl. intros [= <-]. rewrite merge_sort_Permutation, list_elem_of_fmap.
  setoid_rewrite list_elem_of_filter. setoid_rewrite list_elem_of_fmap. split.
  - intros ([n' ?] & -> & Hg & (n'' & [= -> ->] & Hn)). by apply elem_of_elements in Hn.
  - intros [Hn Hg]. exists (n, false). split; [done|]. split; [done|]. exists n. by rewrite elem_of_elements.
Qed.

Lemma find_pcap_elem d ns base n :
  findNonGzipFiles (ReadDir None d) base = Ok ns →
  n ∈ ns ↔ n ∈ files d ∧ is_gz n = false ∧ HasPrefix n base = true.
Proof.
  unfold findNonGzipFiles, ReadDir. simpl. intros [= <-]. rewrite merge_sort_Permutation, list_elem_of_fmap.
  setoid_rewrite list_elem_of_filter. setoid_rewrite list_elem_of_fmap. split.
  - intros ([n' ?] & -> & Hg & (n'' & [= -> ->] & Hn)). apply elem_of_elements in Hn.
    apply andb_true_iff in Hg as [Hg ?]. simpl in Hg. by apply negb_true_iff in Hg.
  - intros (Hn & Hg & Hp). exists (n, false). split; [done|]. simpl. rewrite Hg, Hp. split; [done|].
    exists n. by rewrite elem_of_elements.
Qed.

(** Each step keeps a file accounted for, as long as nothing compressed it twice. *)
Section Accounted.
Context (b : string) (Hb : is_gz b = false) (made : Prop).

Definition twice : string := (b +:+ gz) +:+ gz.

(** The file is accounted for, once it is [made]. *)
Definition tracked (d : capture_dir) : Prop := twice ∉ files d ∧ (made → accounted b d).

(** A file the watcher may find. *)
Definition found (n : string) : Prop := is_gz n = true ∧ n ≠ twice.

Lemma Remove_uploads n d : uploads (Remove v n d) = uploads d.
Proof. unfold Remove. by destruct (stuck v n). Qed.

Lemma Remove_tracked n d :
  (n = b → (b +:+ gz) ∈ uploads d) → (n = b +:+ gz → n ∈ uploads d) → tracked d → tracked (Remove v n d).
Proof.
  unfold tracked, accounted, Remove. intros Hn Hg [H2 H]. destruct (stuck v n); [done|]. simpl.
  split; [set_solver|]. intros Hm. specialize (H Hm). destruct (decide (n = b)) as [->|]; [right; right; auto|].
  destruct (decide (n = b +:+ gz)) as [->|]; [right; right; auto|]. set_solver.
Qed.

Lemma clean_up_tracked n d : found n → n ∈ uploads d → tracked d → tracked (clean_up n d).
Proof.
  intros [Hg Ht] Hu H. pose proof (pcap_of_spec n Hg) as Hn. unfold clean_up, deleteCorrespondingPcapFile.
  rewrite Hg. apply Remove_tracked; [congruence|by rewrite Remove_uploads|].
  apply Remove_tracked; [congruence| |done]. intros E. exfalso. apply Ht. unfold twice. congruence.
Qed.

Lemma attempt_spec n d d' r :
  attempt n d = (d', r) →
  files d' = files d ∧
  match r with None => uploads d' = (uploads d ++ [n])%list | Some _ => uploads d' = uploads d end.
Proof. unfold attempt. case_match; by intros [= <- <-]. Qed.

Lemma attempt_tracked n d d' r : attempt n d = (d', r) → tracked d → tracked d'.
Proof.
  intros H. apply attempt_spec in H as [Hf Hu]. unfold tracked, accounted. rewrite Hf.
  intros [? Ha]. split; [done|]. intros Hm. destruct (Ha Hm) as [?|[?|?]]; [by left|by right; left|right; right].
  destruct r; rewrite Hu; [done|]. apply elem_of_app. by left.
Qed.

Lemma attempt_uploaded n d d' : attempt n d = (d', None) → n ∈ uploads d'.
Proof. intros H. apply attempt_spec in H as [_ ->]. apply elem_of_app. right. by left. Qed.

Lemma poll_files_tracked ns d : Forall found ns → tracked d → tracked (poll_files ns d).1.
Proof.
  revert d. induction ns as [|n ns IH]; intros d Hns Hd; [done|]. apply Forall_cons in Hns as [Hn Hns]. simpl.
  destruct (attempt n d) as [d1 [e1|]] eqn:E1; [destruct (attempt n d1) as [d2 [e2|]] eqn:E2|].
  - simpl. eauto using attempt_tracked.
  - apply IH; [done|]. apply clean_up_tracked; eauto using attempt_uploaded, attempt_tracked.
  - apply IH; [done|]. apply clean_up_tracked; eauto using attempt_uploaded, attempt_tracked.
Qed.

Lemma stop_files_tracked ns d : Forall found ns → tracked d → tracked (stop_files ns d).1.
Proof.
  revert d. induction ns as [|n ns IH]; intros d Hns Hd; [done|]. apply Forall_cons in Hns as [Hn Hns]. simpl.
  destruct (attempt n d) as [d1 [e1|]] eqn:E1.
  - assert (H1 : tracked d1) by eauto using attempt_tracked. specialize (IH d1 Hns H1).
    by destruct (stop_files ns d1).
  - apply IH; [done|]. apply clean_up_tracked; eauto using attempt_uploaded, attempt_tracked.
Qed.

Lemma upload_rest_tracked ns d : Forall found ns → tracked d → tracked (upload_rest ns d).1.
Proof.
  revert d. induction ns as [|n ns IH]; intros d Hns Hd; [done|]. apply Forall_cons in Hns as [[Hg Hn] Hns]. simpl.
  destruct (attempt n d) as [d1 [e1|]] eqn:E1.
  - assert (H1 : tracked d1) by eauto using attempt_tracked. specialize (IH d1 Hns H1).
    by destruct (upload_rest ns d1).
  - apply IH; [done|]. apply Remove_tracked; [congruence|eauto using attempt_uploaded|eauto using attempt_tracked].
Qed.

Lemma listing_found readErr d ns :
  tracked d → findGzipFiles (ReadDir readErr d) = Ok ns → Forall found ns.
Proof.
  intros [Ht _] H. destruct readErr; [done|]. apply Forall_forall. intros n Hn.
  apply (find_gz_elem d ns n H) in Hn as [Hn Hg]. split; [done|]. congruence.
Qed.

Lemma add_files_tracked ns d : twice ∉ ns → tracked d → tracked (add_files ns d).
Proof.
  unfold tracked, accounted. simpl. intros Hn [? Ha]. split; [set_solver|].
  intros Hm. destruct (Ha Hm) as [?|[?|?]]; [left; set_solver|right; left; set_solver|by right; right].
Qed.

Lemma stop_watcher_tracked stopErr d : tracked d → tracked (stop_watcher stopErr d).1.
Proof.
  intros Hd. unfold stop_watcher. destruct (findGzipFiles _) as [ns|e] eqn:E; [|done].
  apply stop_files_tracked; [by apply (listing_found stopErr d)|done].
Qed.

Lemma poll_step_tracked p d : tracked (add_files (created p) d) → tracked (poll_step p d).1.1.
Proof.
  intros Ha. unfold poll_step. destruct (findGzipFiles _) as [ns|e] eqn:E; [|done].
  pose proof (poll_files_tracked ns _ (listing_found _ _ _ Ha E) Ha) as Hf.
  destruct (poll_files ns _) as [d1 [e1|]]; [done|]. by destruct (CheckDiskSpace _).
Qed.

(** *** The shutdown *)

Lemma GzipFile_tracked n d : is_gz n = false → tracked d → tracked (GzipFile n d).1.
Proof.
  intros Hg Hd. unfold GzipFile. destruct (decide (n ∈ files d)) as [Hn|]; [|done].
  destruct Hd as [Ht Ha]. assert (Hne : n +:+ gz ≠ twice).
  { intros E. apply app_gz_inj in E. subst. by rewrite is_gz_app in Hg. }
  destruct (gzips v n); simpl; try done.
  - split; simpl; [set_solver|]. intros Hm. specialize (Ha Hm). unfold accounted in *. simpl.
    destruct (decide (n = b)) as [->|]; [right; left; pose proof (app_gz_ne b); set_solver|].
    destruct (decide (n = b +:+ gz)) as [->|]; [by rewrite is_gz_app in Hg|]. set_solver.
  - destruct (decide (n = b)) as [->|].
    + split; [unfold Remove; case_match; simpl; set_solver|]. intros _. left. unfold Remove.
      pose proof (app_gz_ne b). case_match; simpl; set_solver.
    + apply Remove_tracked; [intros E; by rewrite <- E, is_gz_app in Hb|intros E; by apply app_gz_inj in E|].
      split; [simpl; set_solver|]. intros Hm. specialize (Ha Hm). unfold accounted in *. simpl. set_solver.
Qed.

Lemma gzip_files_tracked ns d :
  Forall (λ n, is_gz n = false) ns → tracked d → tracked (gzip_files ns d).
Proof.
  revert d. induction ns as [|n ns IH]; intros d Hns Hd; [done|]. apply Forall_cons in Hns as [Hn Hns].
  apply IH; [done|]. by apply GzipFile_tracked.
Qed.

(** Compression that succeeds leaves none of the listed files. *)
Lemma gzip_files_gone ns d :
  (∀ n, gzips v n = GzipOk) → b ∉ files d ∨ b ∈ ns → b ∉ files (gzip_files ns d).
Proof.
  intros Hok. revert d. induction ns as [|n ns IH]; intros d H; simpl; [set_solver|].
  apply IH. unfold GzipFile. rewrite Hok.
  assert (n +:+ gz ≠ b) by (intros E; by rewrite <- E, is_gz_app in Hb).
  destruct (decide (n ∈ files d)) as [Hn|Hn]; simpl;
    (destruct (decide (b ∈ ns)); [by right|]); left; set_solver.
Qed.

(** Uploads that all succeed upload everything listed. *)
Lemma upload_rest_complete ns d d' :
  upload_rest ns d = (d', []) → ∀ n, n ∈ ns ∨ n ∈ uploads d → n ∈ uploads d'.
Proof.
  revert d. induction ns as [|m ns IH]; intros d; simpl.
  { intros [= <-] n [Hn|?]; [by apply elem_of_nil in Hn|done]. }
  destruct (attempt m d) as [d1 [e|]] eqn:E.
  { destruct (upload_rest ns d1). done. }
  intros H n Hn. apply (IH _ H). rewrite Remove_uploads.
  apply attempt_spec in E as [_ ->]. rewrite elem_of_app, list_elem_of_singleton.
  destruct Hn as [[->|?]%elem_of_cons|?]; auto.
Qed.

End Accounted.

(** *** The file appears, compressed or not *)

Section Appears.
Context (b : string) (Hb : is_gz b = false).

Definition appears (ns : list string) : Prop := b ∈ ns ∨ (b +:+ gz) ∈ ns.

Lemma add_files_made made ns d :
  twice b ∉ ns → tracked b made d → tracked b (made ∨ appears ns) (add_files ns d).
Proof.
  intros Hn Hd. destruct (add_files_tracked b Hb made ns d Hn Hd) as [Ht Ha]. split; [done|].
  intros [Hm|[H|H]]; [by apply Ha|left|right; left]; simpl; set_solver.
Qed.

Lemma tracked_weaken (made made' : Prop) d : (made' → made) → tracked b made d → tracked b made' d.
Proof. intros H [? Ha]. split; [done|auto]. Qed.

(** The files of a poll and of those after it. *)
Lemma watcher_tracked made ps late stopErr d :
  Forall (λ p, twice b ∉ created p) ps → twice b ∉ late → tracked b made d →
  tracked b (made ∨ appears (mjoin (created <$> ps) ++ late)) (startFileWatcher ps late stopErr d).1.
Proof.
  revert made d. induction ps as [|p ps IH]; intros made d Hps Hl Hd; simpl.
  - by apply stop_watcher_tracked, add_files_made.
  - apply Forall_cons in Hps as [Hp Hps].
    pose proof (poll_step_tracked b Hb _ p d (add_files_made _ _ _ Hp Hd)) as Hs.
    destruct (poll_step p d) as [[d1 es] [|]]; simpl in *.
    + assert (Hr : twice b ∉ (mjoin (created <$> ps) ++ late)%list).
      { rewrite elem_of_app, list_elem_of_join. intros [(l & Ht & Hl')|?]; [|done].
        apply list_elem_of_fmap in Hl' as (q & -> & Hq). rewrite Forall_forall in Hps. by apply (Hps q). }
      eapply tracked_weaken; [|by apply (add_files_made _ _ _ Hr Hs)].
      unfold appears. rewrite <- !app_assoc, !elem_of_app. tauto.
    + eapply tracked_weaken; [|by apply (IH _ d1 Hps Hl Hs)].
      unfold appears. rewrite <- !app_assoc, !elem_of_app. tauto.
Qed.
End Appears.

(** C15. Nothing captured is lost without an error.  When every compression succeeds and
    the directory can be read in the end, a capture that returns no upload error has
    uploaded, compressed, every file that tcpdump made, whatever the polls find, however
    many uploads fail and are tried again, whichever files cannot be removed, and
    whether or not the watcher terminates the capture. *)
Theorem no_errors_all_uploaded b ps late stopErr d d' :
  is_gz b = false → HasPrefix b "capture.pcap" = true →
  (∀ n, gzips v n = GzipOk) →
  twice b ∉ files d → Forall (λ p, twice b ∉ created p) ps → twice b ∉ late →
  appears b (mjoin (created <$> ps) ++ late) →
  capture_files ps late stopErr None None d = (d', []) →
  (b +:+ gz) ∈ uploads d'.
Proof.
  intros Hb Hp Hok Hd Hps Hl Happ. unfold capture_files.
  pose proof (watcher_tracked b Hb False ps late stopErr d Hps Hl (conj Hd (False_ind _))) as Hw.
  destruct (startFileWatcher ps late stopErr d) as [d1 es1]. simpl in Hw.
  unfold shutdown_files. destruct (findNonGzipFiles _ _) as [ns|e] eqn:En; [|done].
  assert (Hns : Forall (λ n, is_gz n = false) ns).
  { apply Forall_forall. intros n Hn. by apply (find_pcap_elem d1 ns _ n En) in Hn as (_ & ? & _). }
  destruct (gzip_files_tracked b Hb _ ns d1 Hns Hw) as [Ht Ha]. specialize (Ha (or_intror Happ)).
  assert (Hgone : b ∉ files (gzip_files ns d1)).
  { apply gzip_files_gone; [done|done|]. destruct (decide (b ∈ files d1)); [right|by left].
    by apply (find_pcap_elem d1 ns _ b En). }
  destruct (findGzipFiles _) as [ns2|e] eqn:En2; [|done].
  destruct (upload_rest ns2 _) as [d2 es2] eqn:Eu. intros [= <- Hes]. apply app_nil in Hes as [_ ->].
  apply (upload_rest_complete _ _ _ Eu). destruct Ha as [?|[Hf|?]]; [done| |by right].
  left. apply (find_gz_elem _ ns2 _ En2). split; [done|apply is_gz_app].
Qed.

End Capture.

(** A capture of two files: the first upload fails once and is tried again, the second
    file is compressed at the shutdown. *)
Definition ok_upload : upload_answers := mkUpload None None None None None None None (Ok 204).
Definition bad_upload : upload_answers := mkUpload None None None None None None None (Ok 503).

Definition ex_env : env :=
  mkEnv (λ k, if (k =? 0)%nat then bad_upload else ok_upload) (λ _, false) (λ _, GzipOk).

Definition ex_polls : list poll :=
  [mkPoll ["capture.pcap"; "capture.pcap.gz"] None (Ok (100, 50)); mkPoll ["capture.pcap1"] None (Ok (100, 50))].

Lemma no_errors_all_uploaded_witness :
  ("capture.pcap1" +:+ gz) ∈ uploads (capture_files ex_env [] ex_polls [] None None None (mkDir ∅ [] 0)).1.
Proof.
  apply (no_errors_all_uploaded ex_env [] "capture.pcap1" ex_polls [] None (mkDir ∅ [] 0));
    [reflexivity|reflexivity|reflexivity|apply not_elem_of_empty| | |left; apply (bool_decide_eq_true_1 _); reflexivity|vm_compute; reflexivity].
  - repeat constructor; apply (bool_decide_eq_true_1 _); reflexivity.
  - apply not_elem_of_nil.
Defined.

(** A compression that fails is only logged: the capture returns no error and the file
    is neither uploaded nor, once the directory is removed, anywhere. *)
Lemma gzip_failure_unreported :
  let v := mkEnv (λ _, ok_upload) (λ _, false) (λ _, CreateFails "no space left on device") in
  let '(d, es) := capture_files v [] [mkPoll ["capture.pcap"] None (Ok (100, 50))] [] None None None (mkDir ∅ [] 0) in
  es = [] ∧ uploads d = [].
Proof. by vm_compute. Qed.
