(* ===== verification/CaptureRun.v ===== *)
(** * CaptureRun: the waits of a packet capture ([CaptureAndUpload] of
    [pkg/packet_capture/tcpdump.go]).

    Three goroutines and a process: the main goroutine waits for the first of the
    duration, the watcher, the end of tcpdump and the cancellation, then for tcpdump and
    for the watcher; another waits for tcpdump and puts its result in [cmdDoneCh], which
    holds one; the watcher polls until it terminates the capture or [stopCh] is closed.
    A run is a list of labels; what each of them does to the state is [step]. *)

From S2P Require Import Prelude.

(** How tcpdump ends: with status 0, by a SIGTERM, or in another way. *)
Inductive exit_status := ExitOk | ExitSigterm | ExitError (msg : string).

#[export] Instance exit_status_eq_dec : EqDecision exit_status.
Proof. solve_decision. Defined.

(** Where the main goroutine is; an exit is the [tcpdumpErr] it goes on with. *)
Inductive pc :=
| Selecting
| AwaitExit
| AwaitWatcher (tcpdumpErr : option exit_status)
| Finished (tcpdumpErr : option exit_status).

#[export] Instance pc_eq_dec : EqDecision pc.
Proof. solve_decision. Defined.

(** [process] is how tcpdump ended, if it did; [waited] tells that [cmd.Wait] has
    returned; [cmdDone] is the buffer of [cmdDoneCh]; [polling] that the watcher has not
    returned; [terminated] that it has closed [terminateCh]. *)
Record run := mkRun {
  at_ : pc;
  process : option exit_status;
  waited : bool;
  cmdDone : option exit_status;
  polling : bool;
  terminated : bool
}.

Definition started : run := mkRun Selecting None false None true false.

Inductive label :=
| LExit (e : exit_status)     (* tcpdump ends *)
| LWaitDone                   (* cmd.Wait returns and its result is sent *)
| LTimer                      (* the select takes the duration *)
| LCtxDone                    (* the select takes the cancellation *)
| LTerminate                  (* the select takes terminateCh *)
| LCmdDone                    (* the select takes cmdDoneCh *)
| LAwait                      (* the second receive from cmdDoneCh *)
| LPoll                       (* the watcher polls and goes on *)
| LPollTerminates             (* the watcher polls and terminates the capture *)
| LWatcherStops               (* the watcher sees stopCh closed *)
| LJoin.                      (* wg.Wait returns *)

#[export] Instance label_eq_dec : EqDecision label.
Proof. solve_decision. Defined.

(** The error of the exit after SIGTERM was sent. *)
Definition exit_error (e : exit_status) : option exit_status :=
  match e with ExitError _ => Some e | _ => None end.

Definition goto (p : pc) (s : run) : run :=
  mkRun p (process s) (waited s) (cmdDone s) (polling s) (terminated s).
Definition receive (s : run) : run :=
  mkRun (at_ s) (process s) (waited s) None (polling s) (terminated s).

Definition is_selecting (s : run) : bool := bool_decide (at_ s = Selecting).

(** [stopCh] is closed on the way to [AwaitWatcher]. *)
Definition stop_closed (s : run) : bool :=
  match at_ s with AwaitWatcher _ | Finished _ => true | _ => false end.

Definition step (s : run) (l : label) : option run :=
  match l with
  | LExit e =>
      match process s with
      | None => Some (mkRun (at_ s) (Some e) (waited s) (cmdDone s) (polling s) (terminated s))
      | Some _ => None
      end
  | LWaitDone =>
      match process s with
      | Some e =>
          if waited s then None
          else Some (mkRun (at_ s) (process s) true (Some e) (polling s) (terminated s))
      | None => None
      end
  | LTimer | LCtxDone => if is_selecting s then Some (goto AwaitExit s) else None
  | LTerminate => if is_selecting s && terminated s then Some (goto AwaitExit s) else None
  | LCmdDone =>
      if is_selecting s then
        match cmdDone s with
        | None => None
        | Some ExitOk => Some (goto AwaitExit (receive s))
        | Some e => Some (goto (AwaitWatcher (Some e)) (receive s))
        end
      else None
  | LAwait =>
      match at_ s, cmdDone s with
      | AwaitExit, Some e => Some (goto (AwaitWatcher (exit_error e)) (receive s))
      | _, _ => None
      end
  | LPoll => if polling s then Some s else None
  | LPollTerminates =>
      if polling s then Some (mkRun (at_ s) (process s) (waited s) (cmdDone s) false true) else None
  | LWatcherStops =>
      if polling s && stop_closed s
      then Some (mkRun (at_ s) (process s) (waited s) (cmdDone s) false (terminated s)) else None
  | LJoin =>
      match at_ s with
      | AwaitWatcher e => if polling s then None else Some (goto (Finished e) s)
      | _ => None
      end
  end.

Fixpoint steps (s : run) (ls : list label) : option run :=
  match ls with
  | [] => Some s
  | l :: ls' => s' ← step s l; steps s' ls'
  end.

Lemma steps_snoc s ls l : steps s (ls ++ [l]) = s' ← steps s ls; step s' l.
Proof.
  revert s. induction ls as [|l' ls IH]; intros s; simpl; [by destruct (step s l)|].
  destruct (step s l'); simpl; [apply IH|done].
Qed.

(** ** Termination *)

(** What is left to do; a poll that goes on does not change it, every other step
    makes it smaller. *)
Definition pc_left (p : pc) : nat :=
  match p with Selecting => 3 | AwaitExit => 2 | AwaitWatcher _ => 1 | Finished _ => 0 end.

Definition left_ (s : run) : nat :=
  pc_left (at_ s) + (if process s then 0 else 1) + (if waited s then 0 else 1) + (if polling s then 1 else 0).

Lemma step_left s l s' :
  step s l = Some s' → (left_ s' + (if decide (l = LPoll) then 0 else 1) ≤ left_ s)%nat.
Proof.
  destruct s as [p pr w c po t], l, p; unfold step, is_selecting, stop_closed; simpl; try done;
    repeat case_match; intros [= <-]; unfold left_; simpl; simplify_eq/=; try lia; repeat case_match; lia.
Qed.

Definition busy (ls : list label) : nat := length (filter (λ l, l ≠ LPoll) ls).

Lemma steps_left ls s s' : steps s ls = Some s' → (left_ s' + busy ls ≤ left_ s)%nat.
Proof.
  revert s. induction ls as [|l ls IH]; intros s; simpl; [intros [= <-]; unfold busy; simpl; lia|].
  destruct (step s l) as [s1|] eqn:E; [|done]. simpl. intros H. apply IH in H. apply step_left in E.
  unfold busy in *. rewrite filter_cons. repeat case_decide; simpl in *; try done; lia.
Qed.

(** ** Where a run can be *)

(** What the capture returns of tcpdump: its exit as an error when the select saw it
    first, unless it was 0; otherwise only an exit that SIGTERM does not explain. *)
Definition reported (early : bool) (e : exit_status) : option exit_status :=
  if early then (if decide (e = ExitOk) then None else Some e) else exit_error e.

(** [early] tells that the select took [cmdDoneCh]. *)
Definition inv (early : bool) (s : run) : Prop :=
  let buffered := if waited s then process s else None in
  (waited s = true → is_Some (process s)) ∧
  match at_ s with
  | Selecting => early = false ∧ cmdDone s = buffered
  | AwaitExit =>
      if early then waited s = true ∧ process s = Some ExitOk ∧ cmdDone s = None
      else cmdDone s = buffered
  | AwaitWatcher r | Finished r =>
      waited s = true ∧ ∃ e, process s = Some e ∧ (early = true → e ≠ ExitOk) ∧ r = reported early e
  end.

Lemma step_inv early s l s' :
  inv early s → step s l = Some s' → inv (early || bool_decide (l = LCmdDone)) s'.
Proof.
  destruct s as [p pr w c po t]. unfold inv, step, is_selecting, stop_closed; simpl. intros [Hw H].
  destruct l, p; simpl; try done; repeat case_match; intros [= <-]; simpl; rewrite ?orb_false_r, ?orb_true_r;
    naive_solver.
Qed.

Lemma steps_inv ls s : steps started ls = Some s → inv (bool_decide (LCmdDone ∈ ls)) s.
Proof.
  revert s. induction ls as [|l ls IH] using rev_ind; intros s; [by intros [= <-]|].
  rewrite steps_snoc. destruct (steps started ls) as [s1|] eqn:E; [|done]. simpl. intros Hs.
  pose proof (step_inv _ _ _ _ (IH s1 eq_refl) Hs) as Hi.
  replace (bool_decide (LCmdDone ∈ ls ++ [l])) with
    (bool_decide (LCmdDone ∈ ls) || bool_decide (l = LCmdDone)); [done|].
  pose proof (elem_of_app ls [l] LCmdDone) as Hin. rewrite list_elem_of_singleton in Hin.
  repeat case_bool_decide; naive_solver.
Qed.

(** C14. A packet capture returns, unless tcpdump ends by itself with status 0 and the
    select takes that.  Every run makes at most six steps besides polls that go on, and
    a run that can go no further is at the end of the capture, with the error that the
    end of tcpdump calls for; except that, when the select has received the status 0,
    the second receive from [cmdDoneCh] waits for a value that is never sent. *)
Theorem capture_terminates ls s :
  steps started ls = Some s →
  (busy ls ≤ 6)%nat ∧
  ((∀ l, l ≠ LPoll → step s l = None) →
   ∃ e, process s = Some e ∧
        if decide (LCmdDone ∈ ls ∧ e = ExitOk) then at_ s = AwaitExit
        else at_ s = Finished (reported (bool_decide (LCmdDone ∈ ls)) e)).
Proof.
  intros Hs. split.
  { apply steps_left in Hs. unfold left_ at 2 in Hs. simpl in Hs. lia. }
  intros Hstuck. pose proof (steps_inv ls s Hs) as [Hw H].
  assert (Hpoll : polling s = false).
  { specialize (Hstuck LPollTerminates ltac:(done)). simpl in Hstuck. by destruct (polling s). }
  destruct (at_ s) as [| |r|r] eqn:Ep.
  - specialize (Hstuck LTimer ltac:(done)). unfold step, is_selecting in Hstuck. by rewrite Ep in Hstuck.
  - destruct (process s) as [e|] eqn:Epr; [|by specialize (Hstuck (LExit ExitOk) ltac:(done)); simpl in Hstuck; rewrite Epr in Hstuck].
    destruct (waited s) eqn:Ew; [|by specialize (Hstuck LWaitDone ltac:(done)); simpl in Hstuck; rewrite Epr, Ew in Hstuck].
    exists e. split; [done|]. case_bool_decide as Hc.
    + destruct H as (_ & [= ->] & _). by rewrite decide_True.
    + specialize (Hstuck LAwait ltac:(done)). simpl in Hstuck. by rewrite Ep, H in Hstuck.
  - specialize (Hstuck LJoin ltac:(done)). simpl in Hstuck. by rewrite Ep, Hpoll in Hstuck.
  - destruct H as (_ & e & He & Hok & ->). exists e. split; [done|]. rewrite decide_False; [done|].
    intros [Hl ->]. rewrite bool_decide_true in Hok by done. by apply Hok.
Qed.

(** A run that ends. *)
Lemma capture_terminates_witness :
  ∃ s, steps started [LPoll; LTimer; LExit ExitSigterm; LWaitDone; LAwait; LWatcherStops; LJoin] = Some s ∧
    (busy [LPoll; LTimer; LExit ExitSigterm; LWaitDone; LAwait; LWatcherStops; LJoin] ≤ 6)%nat ∧
    at_ s = Finished None.
Proof.
  eexists. split; [reflexivity|].
  split; [exact (proj1 (capture_terminates
    [LPoll; LTimer; LExit ExitSigterm; LWaitDone; LAwait; LWatcherStops; LJoin] _ eq_refl))|reflexivity].
Defined.

(** tcpdump ends once. *)
Lemma steps_process ls s s' e : process s = Some e → steps s ls = Some s' → process s' = Some e.
Proof.
  revert s. induction ls as [|l ls IH]; intros s Hp; simpl; [by intros [= <-]|].
  destruct (step s l) as [s1|] eqn:E; simpl; [|done]. apply IH. revert E. unfold step.
  destruct l; repeat case_match; intros [= <-]; simpl; congruence.
Qed.

(** The run that does not: tcpdump ends with status 0 before the duration
    has passed; from then on nothing leads out of the second wait. *)
Lemma clean_early_exit_hangs ls s :
  steps started ([LExit ExitOk; LWaitDone; LCmdDone] ++ ls) = Some s → at_ s = AwaitExit.
Proof.
  intros Hs. pose proof (steps_inv _ s Hs) as [_ Hi]. rewrite bool_decide_true in Hi by set_solver.
  assert (Hpr : process s = Some ExitOk).
  { simpl in Hs. by apply (steps_process _ _ _ ExitOk) in Hs. }
  destruct (at_ s) as [| |r|r]; [by destruct Hi|done|..];
    destruct Hi as (_ & e & He & Hok & _); rewrite Hpr in He; injection He as <-; by destruct (Hok eq_refl).
Qed.
