(* ===== verification/ExecPath.v ===== *)
(** * ExecPath: looking up and running the commands of the host ([pkg/osext]: exec.go,
    run.go).

    The file system is a record of what [Lstat], [Readlink] and [Stat] answer for a
    path; the root the commands are run in is an argument.  [walkSymlinks] calls itself
    on the path it has made, so that it has fuel here, and the theorems say for which
    paths there is enough. *)

From S2P Require Import Prelude GoStrings Paths.

Record FileInfo := mkFileInfo { IsDir : bool; IsSymlink : bool; Perm : Z }.

Record filesystem := mkFS {
  Lstat : string → result string FileInfo;
  Readlink : string → result string string;
  StatPath : string → result string FileInfo
}.

(** [filepath.Base] and [filepath.Dir]. *)
Fixpoint strip_slashes (fuel : nat) (s : string) : string :=
  match fuel with
  | O => s
  | S fuel' =>
      match last_byte s with
      | Some c => if Ascii.eqb c slash then strip_slashes fuel' (take_bytes (String.length s - 1) s) else s
      | None => s
      end
  end.

Definition Base (p : string) : string :=
  if String.eqb p EmptyString then "."
  else
    let s := strip_slashes (String.length p) p in
    if String.eqb s EmptyString then "/" else default EmptyString (last (Split s slash)).

(** Everything up to the last slash, cleaned. *)
Definition Dir (p : string) : string :=
  match rev (Split p slash) with
  | _ :: (e :: es) => Clean (Join (rev (e :: es)) "/" +:+ "/")
  | _ => "."
  end.

Example base_dir_ex :
  (Base "/usr/bin/aws", Base "aws", Base "/a/b//", Base "/", Dir "/usr/bin/aws", Dir "aws", Dir "/aws") =
  ("aws", "aws", "b", "/", "/usr/bin", ".", "/").
Proof. reflexivity. Qed.

Definition TrimPrefix (s p : string) : string := default s (CutPrefix s p).

Section Exec.
Context (fs : filesystem) (root : string).

(** ** exec.go *)

(** The mode of a link has no directory bit, so that its name is always stripped. *)
Definition followSymlink (path : string) (fi : FileInfo) : result string string :=
  link <-? Readlink fs path;;
  if negb (is_rooted link) then
    let path := if negb (IsDir fi) then Dir path else path in
    Ok (Clean (PathJoin [path; link]))
  else if negb (String.eqb root "/") && HasPrefix path root && negb (HasPrefix link root) then
    Ok (PathJoin [root; link])
  else Ok link.

(** One pass over the parts of a path. *)
Fixpoint walk_parts (newPath : string) (parts : list string) : result string string :=
  match parts with
  | [] => Ok newPath
  | part :: rest =>
      let curPath := PathJoin [newPath; part] in
      fi <-? Lstat fs curPath;;
      newPath <-? (if IsSymlink fi then followSymlink curPath fi else Ok curPath);;
      walk_parts newPath rest
  end.

Definition walk_once (path : string) : result string string :=
  walk_parts (if is_rooted path then "/" else EmptyString) (Split (Clean path) slash).

(** [None] when the fuel does not suffice; one unit is one call. *)
Fixpoint walkSymlinks (fuel : nat) (path : string) : option (result string string) :=
  match fuel with
  | O => None
  | S fuel' =>
      match walk_once path with
      | Err e => Some (Err e)
      | Ok newPath => if String.eqb path newPath then Some (Ok newPath) else walkSymlinks fuel' newPath
      end
  end.

Definition findExecutable (fuel : nat) (path : string) : option (result string string) :=
  walked ← walkSymlinks fuel path;
  Some (path <-? walked;;
        fi <-? StatPath fs path;;
        if IsDir fi then Err "is a directory"
        else if negb (Z.land (Perm fi) 73 =? 0) then Ok path
        else Err "permission denied").

Definition searchPaths (PATH : list string) (file : string) : list string :=
  if String.eqb (Base file) file then
    mjoin ((λ path, [PathJoin [path; file]; PathJoin [root; path; file]]) <$> PATH)
  else (file :: (if is_rooted file then [PathJoin [root; file]] else []))%list.

Definition ErrNotFound : string := "executable file not found in $PATH".

Fixpoint first_executable (fuel : nat) (paths : list string) : option (result string string) :=
  match paths with
  | [] => Some (Err ErrNotFound)
  | path :: rest =>
      r ← findExecutable fuel path;
      match r with
      | Ok path => Some (Ok path)
      | Err _ => first_executable fuel rest
      end
  end.

Definition lookPath (fuel : nat) (PATH : list string) (file : string) : option (result string string) :=
  first_executable fuel (searchPaths PATH file).

(** A command: its path, the error of the lookup, and the root it is run in. *)
Record cmd := mkCmd { cmdPath : string; cmdErr : option string; Chroot : option string }.

(** [proc] is the command as [os/exec] makes it. *)
Definition resolve (fuel : nat) (PATH : list string) (proc : cmd) (name : string) : option cmd :=
  if String.eqb root "/" then Some proc
  else
    found ← (if decide (cmdErr proc = Some ErrNotFound) then
               r ← lookPath fuel PATH name;
               Some (match r with
                     | Ok p => mkCmd p None (Chroot proc)
                     | Err e => mkCmd EmptyString (Some e) (Chroot proc)
                     end)
             else Some proc);
    Some (mkCmd (TrimPrefix (cmdPath found) root) (cmdErr found) (Some root)).

(** ** When the walk ends *)

(** The path of the next call. *)
Definition next (p' p : string) : Prop := walk_once p = Ok p' ∧ p' ≠ p.

Lemma walk_more fuel fuel' p r : (fuel ≤ fuel')%nat → walkSymlinks fuel p = Some r → walkSymlinks fuel' p = Some r.
Proof.
  revert fuel' p. induction fuel as [|fuel IH]; intros fuel' p Hle; [done|].
  destruct fuel' as [|fuel']; [lia|]. simpl. destruct (walk_once p) as [p'|e]; [|done].
  destruct (String.eqb p p'); [done|]. apply IH. lia.
Qed.

Lemma walk_acc fuel path r : walkSymlinks fuel path = Some r → Acc next path.
Proof.
  revert path r. induction fuel as [|fuel IH]; intros path r; [done|]. simpl.
  intros H. constructor. intros p' [Hp Hne]. rewrite Hp in H.
  destruct (String.eqb_spec path p'); [congruence|]. by apply (IH p' r).
Qed.

Lemma walk_enough path : Acc next path → ∃ fuel r, walkSymlinks fuel path = Some r.
Proof.
  induction 1 as [path _ IH]. destruct (walk_once path) as [p'|e] eqn:E.
  - destruct (decide (p' = path)) as [->|Hne].
    + exists 1%nat, (Ok path). simpl. by rewrite E, String.eqb_refl.
    + destruct (IH p') as (fuel & r & H); [done|]. exists (S fuel), r. simpl. rewrite E.
      by destruct (String.eqb_spec path p').
  - exists 1%nat, (Err e). simpl. by rewrite E.
Qed.

(** What the walk returns is a path it leaves alone. *)
Lemma walk_fixed fuel path p : walkSymlinks fuel path = Some (Ok p) → walk_once p = Ok p.
Proof.
  revert path. induction fuel as [|fuel IH]; intros path; simpl; [done|].
  destruct (walk_once path) as [p'|e] eqn:E; [|done].
  destruct (String.eqb_spec path p') as [->|]; [by intros [= <-]|apply IH].
Qed.

(** Two paths that lead to each other: no fuel is enough. *)
Lemma cycle_diverges p q fuel :
  walk_once p = Ok q → walk_once q = Ok p → p ≠ q → walkSymlinks fuel p = None.
Proof.
  intros Hp Hq Hne. destruct (walkSymlinks fuel p) as [r|] eqn:E; [|done]. exfalso.
  pose proof (walk_acc _ _ _ E) as Ha.
  assert (∀ x, Acc next x → x ≠ p ∧ x ≠ q) as H; [|by destruct (H p Ha)].
  induction 1 as [x _ IH]. split; intros ->.
  - destruct (IH q) as [_ ?]; [by split|done].
  - destruct (IH p) as [? _]; [by split|done].
Qed.

(** The walk of the symbolic links of a path returns exactly when the paths it goes
    through, each made from the one before by following its links, do not go on for
    ever; what it returns without an error is a path that it leaves alone; and two
    paths that lead to each other are walked for ever, whatever the fuel. *)
Lemma walk_terminates_iff path :
  ((∃ fuel r, walkSymlinks fuel path = Some r) ↔ Acc next path) ∧
  (∀ fuel p, walkSymlinks fuel path = Some (Ok p) → walk_once p = Ok p) ∧
  (∀ p, walk_once path = Ok p → walk_once p = Ok path → path ≠ p → ∀ fuel, walkSymlinks fuel path = None).
Proof.
  split; [split; [intros (fuel & r & H); by apply (walk_acc fuel path r)|apply walk_enough]|].
  split; [intros fuel p; apply walk_fixed|]. intros p Hp Hq Hne fuel. by apply (cycle_diverges path p).
Qed.

(** A name is looked up in the directories of [PATH], each in the container and then
    under the root; the result is that of the first path that is executable. *)
Lemma first_executable_found fuel paths p :
  first_executable fuel paths = Some (Ok p) →
  ∃ before path after, paths = (before ++ path :: after)%list ∧ findExecutable fuel path = Some (Ok p) ∧
    Forall (λ q, ∃ e, findExecutable fuel q = Some (Err e)) before.
Proof.
  induction paths as [|q paths IH]; simpl; [done|].
  destruct (findExecutable fuel q) as [[p'|e]|] eqn:E; simpl; [|intros H|done].
  - intros [= <-]. by exists [], q, paths.
  - destruct (IH H) as (before & path & after & -> & Hf & Hb).
    exists (q :: before), path, after. split; [done|]. split; [done|]. constructor; [by exists e|done].
Qed.
End Exec.

(** A binary found under the root is run by its path inside it. *)
Lemma host_path_trimmed hs p :
  Forall kept hs → hs ≠ [] → is_rooted p = true →
  Forall (λ e, e = EmptyString ∨ plain e = true) (Split p slash) →
  filter (λ e, e ≠ EmptyString) (Split p slash) ≠ [] →
  TrimPrefix (PathJoin [abs_path hs; p]) (abs_path hs) =
  abs_path (filter (λ e, e ≠ EmptyString) (Split p slash)).
Proof.
  intros Hhs Hne Hp Hes Hf. rewrite PathJoin_abs by done. unfold abs_path at 1. rewrite Join_app by done.
  unfold TrimPrefix. change ("/" +:+ Join hs "/" +:+ "/" +:+ Join (filter (λ e, e ≠ EmptyString) (Split p slash)) "/")
    with (abs_path hs +:+ abs_path (filter (λ e, e ≠ EmptyString) (Split p slash))).
  by rewrite (proj2 (CutPrefix_spec _ _ _) eq_refl).
Qed.

(** *** Two links that lead to each other *)

(** [/usr/bin/x] is a link to [y], which is a link to [x]. *)
Definition ex_cycle : filesystem :=
  let entry p := if String.eqb p "/usr/bin/x" || String.eqb p "/usr/bin/y"
                 then mkFileInfo false true 511 else mkFileInfo true false 493 in
  mkFS (λ p, Ok (entry p))
       (λ p, Ok (if String.eqb p "/usr/bin/x" then "y" else "x"))
       (λ p, Err "too many levels of symbolic links").

Example cycle_x : walk_once ex_cycle "/host" "/usr/bin/x" = Ok "/usr/bin/y".
Proof. reflexivity. Qed.
Example cycle_y : walk_once ex_cycle "/host" "/usr/bin/y" = Ok "/usr/bin/x".
Proof. reflexivity. Qed.

(** The lookup of such a name never answers. *)
Lemma lookup_diverges fuel : lookPath ex_cycle "/host" fuel ["/usr/bin"] "x" = None.
Proof.
  pose proof (cycle_diverges ex_cycle "/host" "/usr/bin/x" "/usr/bin/y" fuel eq_refl eq_refl ltac:(done)) as H.
  unfold lookPath. change (searchPaths "/host" ["/usr/bin"] "x") with ["/usr/bin/x"; "/host/usr/bin/x"].
  cbn [first_executable].
  assert (findExecutable ex_cycle "/host" fuel "/usr/bin/x" = None) as -> by (unfold findExecutable; by rewrite H).
  done.
Qed.

(** *** Links of the host *)

(** [/usr/sbin/iptables] of the host is a link to [/etc/alternatives/iptables]. *)
Definition ex_host : filesystem :=
  mkFS (λ p, if String.eqb p "/usr/sbin/iptables" then Err "no such file or directory"
             else Ok (mkFileInfo (negb (HasSuffix p "iptables")) (String.eqb p "/host/usr/sbin/iptables") 493))
       (λ p, Ok "/etc/alternatives/iptables")
       (λ p, Ok (mkFileInfo false false 493)).

Example host_link_ex :
  resolve ex_host "/host" 5 ["/usr/sbin"] (mkCmd "iptables" (Some ErrNotFound) None) "iptables" =
  Some (mkCmd "/etc/alternatives/iptables" None (Some "/host")).
Proof. reflexivity. Qed.

(** ** run.go *)

(** When the parts of a run happen: the command's result, if it ever comes, the end of
    the parent's context, if any, and the start; [first] says whether the select takes
    the result when both are ready. *)
Record timing := mkTiming {
  begun : Time;
  result_at : option (Time * result string string);
  parent_ends : option (Time * string);
  first : bool
}.

Definition ErrTimeout : string := "timed out".

Definition parent_error (t : timing) (now : Time) : option string :=
  match parent_ends t with
  | Some (at_, e) => if at_ <=? now then Some e else None
  | None => None
  end.

(** When the context of the command ends: at the timeout or with its parent. *)
Definition bound (t : timing) (timeout : Duration) : Time :=
  let deadline := begun t + Z.max 0 timeout in
  match parent_ends t with Some (at_, _) => Z.min deadline (Z.max (begun t) at_) | None => deadline end.

(** When [run] returns, and with what; [name] is that of the command. *)
Definition run (t : timing) (timeout : Duration) (name : string) : Time * result string string :=
  let b := bound t timeout in
  let gives_up :=
    (b, Err match parent_error t b with
            | Some e => "running " +:+ Quote name +:+ ": " +:+ e
            | None => "running " +:+ Quote name +:+ ": " +:+ ErrTimeout +:+ " after " +:+ DurationString timeout
            end) in
  match result_at t with
  | Some (at_, r) =>
      let at_ := Z.max (begun t) at_ in
      if (at_ <? b) || ((at_ =? b) && first t) then (at_, r) else gives_up
  | None => gives_up
  end.

(** A run returns by its timeout even when the command never does, and gives the
    result of a command that is done before the bound. *)
Lemma run_bounded t timeout name :
  (run t timeout name).1 ≤ begun t + Z.max 0 timeout ∧
  (∀ at_ r, result_at t = Some (at_, r) → Z.max (begun t) at_ < bound t timeout → (run t timeout name).2 = r) ∧
  (parent_ends t = None → result_at t = None →
   (run t timeout name).2 =
     Err ("running " +:+ Quote name +:+ ": " +:+ ErrTimeout +:+ " after " +:+ DurationString timeout)).
Proof.
  assert (Hb : bound t timeout ≤ begun t + Z.max 0 timeout).
  { unfold bound. destruct (parent_ends t) as [[]|]; lia. }
  unfold run. split; [|split].
  - destruct (result_at t) as [[at_ r]|]; simpl; [|done].
    destruct (_ || _) eqn:E; simpl; [|done]. apply orb_true_iff in E as [E|[E _]%andb_true_iff]; lia.
  - intros at_ r -> H. by rewrite (proj2 (Z.ltb_lt _ _) H).
  - intros Hp ->. unfold parent_error. by rewrite Hp.
Qed.

(** A child that is signalled but keeps its pipes open is waited for this long. *)
Definition waitDelay : Duration := 5 * Second.

(** [args] and [path] are those of the command. *)
Definition commandName (args : list string) (path : string) : string :=
  match args with a :: _ => a | [] => Base path end.

(** [Output] and [CombinedOutput] differ in the output that the command's result holds. *)
Definition Output (t : bool → timing) (timeout : Duration) (args : list string) (path : string) : Time * result string string :=
  run (t false) timeout (commandName args path).
Definition CombinedOutput (t : bool → timing) (timeout : Duration) (args : list string) (path : string)
    : Time * result string string :=
  run (t true) timeout (commandName args path).
