(* ===== verification/HostLinks.v ===== *)
(** * HostLinks: the commands of the host through its symbolic links.

    [ExecPath] looks a name up by the text of paths: it walks the links of the host from
    a container in which the host is mounted below a root, and cleans, joins and prefixes
    what they say.  Here the host is a tree of entries, a path is the list of its
    elements, and its links are followed as a process with that root would follow them;
    the theorem says that the code finds the file that the host means. *)

From S2P Require Import Prelude GoStrings Paths ExecPath.

(** ** The host *)

(** What a link says: an absolute path of the host, or how many directories up from its
    own and then which elements down. *)
Inductive target := Absolute (es : list string) | Relative (up : nat) (es : list string).

(** A directory or a file, or a link. *)
Inductive entry := Plain | Link (t : target).

Definition target_text (t : target) : string :=
  match t with Absolute es => abs_path es | Relative up es => Join (replicate up ".." ++ es) "/" end.

(** Where a link of the directory [d] leads. *)
Definition leads (d : list string) (t : target) : list string :=
  match t with Absolute es => es | Relative up es => take (length d - up) d ++ es end.

Section Tree.
Context (tree : list string → option entry).

(** No part of the path is a link. *)
Definition straight (p : list string) : Prop :=
  ∀ i, (i < length p)%nat → tree (take (S i) p) = Some Plain.

(** The file that [rest] names below the directory [d], in so many steps: a link in the
    middle leads to a directory without further links, the last element may be a link to
    any path of the host, which is then resolved from the root. *)
Inductive resolves : nat → list string → list string → list string → Prop :=
| resolves_here d : resolves 0 d [] d
| resolves_plain n d c rest r :
    tree (d ++ [c]) = Some Plain → resolves n (d ++ [c]) rest r → resolves (S n) d (c :: rest) r
| resolves_through n d c rest r t :
    rest ≠ [] → tree (d ++ [c]) = Some (Link t) → straight (leads d t) → resolves n (leads d t) rest r →
    resolves (S n) d (c :: rest) r
| resolves_link n d c r t :
    tree (d ++ [c]) = Some (Link t) → resolves n [] (leads d t) r → resolves (S n) d [c] r.

Lemma resolves_unique n n' d p r r' : resolves n d p r → resolves n' d p r' → n = n' ∧ r = r'.
Proof.
  intros H. revert n' r'. induction H as [d|n d c rest r E _ IH|n d c rest r t Hne E Hs _ IH|n d c r t E _ IH];
    intros n' r' H'; inversion H'; subst; try congruence; try done.
  - by edestruct IH as [-> ->].
  - assert (t0 = t) as -> by congruence. by edestruct IH as [-> ->].
  - assert (t0 = t) as -> by congruence. by edestruct IH as [-> ->].
Qed.

Lemma straight_nil : straight [].
Proof. intros i H. simpl in H. lia. Qed.

Lemma straight_snoc d c : straight d → tree (d ++ [c]) = Some Plain → straight (d ++ [c]).
Proof.
  intros Hd Hc i Hi. rewrite length_app in Hi. simpl in Hi.
  destruct (decide (i = length d)) as [->|].
  - rewrite take_ge by (rewrite length_app; simpl; lia). done.
  - rewrite take_app_le by lia. apply Hd. lia.
Qed.

(** The links of a tree: their elements are names, they do not climb above the root, and
    an absolute one is not written as a path that begins as the root does. *)
Definition tree_ok (root : string) : Prop :=
  ∀ d c t, tree (d ++ [c]) = Some (Link t) →
    match t with
    | Absolute es => Forall kept es ∧ HasPrefix (abs_path es) root = false
    | Relative up es => Forall kept es ∧ (up ≤ length d)%nat
    end.

Lemma leads_kept root d c t :
  tree_ok root → Forall kept d → tree (d ++ [c]) = Some (Link t) → Forall kept (leads d t).
Proof.
  intros Ht Hd E. specialize (Ht d c t E). destruct t; simpl; [tauto|].
  apply Forall_app_2; [by apply Forall_take|tauto].
Qed.
End Tree.

(** The file system that the container sees: below the root it answers for the entries of
    the host's directories, and the root is no link. *)
Definition serves (fs : filesystem) (hs : list string) (tree : list string → option entry) : Prop :=
  (∀ d c e, straight tree d → tree (d ++ [c]) = Some e →
     ∃ fi, Lstat fs (abs_path (hs ++ d ++ [c])) = Ok fi ∧
       match e with
       | Plain => IsSymlink fi = false
       | Link t => IsSymlink fi = true ∧ IsDir fi = false ∧
           Readlink fs (abs_path (hs ++ d ++ [c])) = Ok (target_text t)
       end) ∧
  ∀ i, (i ≤ length hs)%nat → ∃ fi, Lstat fs (abs_path (take i hs)) = Ok fi ∧ IsSymlink fi = false.

(** ** The text of paths *)

Lemma IndexByte_last s b c : IndexByte s b = None → last_byte s = Some c → c ≠ b.
Proof.
  induction s as [|x s IH]; [done|]. simpl. destruct (Ascii.eqb_spec x b) as [|Hne]; [done|].
  intros Hi%fmap_None. destruct s as [|y s]; [by intros [= <-]|by apply IH].
Qed.

Lemma Base_kept name : kept name → Base name = name.
Proof.
  intros [Hp Hi]. unfold Base. destruct (String.eqb_spec name EmptyString) as [->|Hne]; [done|].
  assert (strip_slashes (String.length name) name = name) as ->.
  { destruct (String.length name); [done|]. simpl. destruct (last_byte name) as [c|] eqn:E; [|done].
    pose proof (IndexByte_last name slash c Hi E) as Hc. by destruct (Ascii.eqb_spec c slash). }
  rewrite (proj2 (String.eqb_neq _ _) Hne). by rewrite Split_elem.
Qed.

Lemma Dir_snoc d c : Forall kept d → kept c → Dir (abs_path (d ++ [c])) = abs_path d.
Proof.
  intros Hd Hc. unfold Dir. rewrite Split_abs; [|by apply Forall_app_2; auto|by destruct d].
  change (rev (EmptyString :: d ++ [c])) with (rev (d ++ [c]) ++ [EmptyString]).
  rewrite rev_app_distr. cbn [rev app]. destruct (rev d ++ [EmptyString]) as [|e es] eqn:E; [by destruct (rev d)|].
  change (rev es ++ [e]) with (rev (e :: es)). rewrite <- E, rev_app_distr, rev_involutive. cbn [rev app].
  destruct d as [|e' d']; [done|].
  change (Join (EmptyString :: e' :: d') "/" +:+ "/") with (abs_path (e' :: d') +:+ String slash EmptyString).
  rewrite Clean_rooted by done. unfold path_elems, clean_elems. rewrite Split_app, foldl_app.
  change (foldl (clean_step true) (foldl (clean_step true) [] (Split (abs_path (e' :: d')) slash)) (Split EmptyString slash))
    with (foldl (clean_step true) [] (Split (abs_path (e' :: d')) slash)).
  pose proof (path_elems_abs (e' :: d') Hd) as Hp. unfold path_elems, clean_elems in Hp. by rewrite Hp.
Qed.

Lemma clean_ups out up :
  Forall kept out → foldl (clean_step true) out (replicate up "..") = drop up out.
Proof.
  revert out. induction up as [|up IH]; intros out Ho; [done|]. simpl replicate. cbn [foldl].
  destruct out as [|x out].
  { change (clean_step true [] "..") with (@nil string). by rewrite IH, !drop_nil. }
  apply Forall_cons in Ho as [[Hx _] Ho]. unfold clean_step at 2.
  destruct (String.eqb_spec x "..") as [->|]; [discriminate Hx|]. cbn. by apply IH.
Qed.

Lemma rev_drop {A} (d : list A) n : rev (drop n (rev d)) = take (length d - n) d.
Proof.
  rewrite !rev_alt. change (reverse (drop n (reverse d)) = take (length d - n) d).
  by rewrite drop_reverse, reverse_involutive.
Qed.

Lemma relative_text up es :
  Forall kept es → Forall elem_ok (replicate up ".." ++ es) ∧ is_rooted (Join (replicate up ".." ++ es) "/") = false.
Proof.
  intros Hes. assert (Ho : Forall elem_ok (replicate up ".." ++ es)).
  { apply Forall_app_2; [|by apply kept_elem_ok]. apply Forall_replicate. by split. }
  split; [done|]. destruct (replicate up ".." ++ es) as [|e rest]; [done|].
  apply Forall_cons in Ho as [[Hne Hi] _]. destruct e as [|x e]; [done|]. simpl in Hi.
  assert (Ascii.eqb x slash = false) as Hx by (by destruct (Ascii.eqb x slash)).
  assert (Hr : ∀ y, is_rooted (String x y) = false).
  { intros y. change (Ascii.eqb slash x && HasPrefix y EmptyString = false). by rewrite Ascii.eqb_sym, Hx. }
  by destruct rest; apply Hr.
Qed.

Section Walk.
Context (fs : filesystem) (hs : list string) (tree : list string → option entry).
Hypothesis root_below : hs ≠ [] ∧ Forall kept hs.
Hypothesis links : tree_ok tree (abs_path hs).
Hypothesis served : serves fs hs tree.

Abbreviation root := (abs_path hs).

(** One link: the code arrives where the link leads, below the root. *)
Lemma follow_link d c t fi :
  straight tree d → Forall kept d → kept c → tree (d ++ [c]) = Some (Link t) → IsDir fi = false →
  followSymlink fs root (abs_path (hs ++ d ++ [c])) fi = Ok (abs_path (hs ++ leads d t)).
Proof.
  intros Hs Hd Hc E Hdir. destruct root_below as [Hne Hhs]. destruct served as [Hsv _].
  destruct (Hsv d c _ Hs E) as (_ & _ & _ & _ & Hread). unfold followSymlink. rewrite Hread. cbn [rbind].
  specialize (links d c t E). destruct t as [es|up es]; cbn [target_text leads].
  - destruct links as [Hes Hp]. rewrite abs_path_rooted, Hp. cbn [negb andb].
    assert (Hroot : String.eqb root "/" = false).
    { apply String.eqb_neq. intros Hr. apply (f_equal path_elems) in Hr.
      rewrite path_elems_abs in Hr by done. by apply Hne. }
    rewrite Hroot.
    assert (Hpre : HasPrefix (abs_path (hs ++ d ++ [c])) root = true).
    { unfold abs_path. rewrite Join_app by (done || by destruct d). rewrite sapp_assoc.
      apply HasPrefix_spec. eauto. }
    rewrite Hpre. cbn [negb andb]. f_equal.
    rewrite PathJoin_two by done. f_equal. unfold abs_path. simpl. rewrite clean_step_empty.
    destruct es as [|e es]; [rewrite app_nil_r; apply rev_involutive|].
    rewrite Split_Join by (done || by apply kept_elem_ok).
    rewrite clean_plain by (by apply kept_plain). rewrite filter_kept by done.
    by rewrite rev_app_distr, !rev_involutive.
  - destruct links as [Hes Hup]. destruct (relative_text up es Hes) as [Hok ->]. rewrite Hdir. cbn [negb].
    rewrite (app_assoc hs d [c]), Dir_snoc by (done || by apply Forall_app_2). f_equal.
    rewrite PathJoin_two by (by apply Forall_app_2).
    assert (Hfold : foldl (clean_step true) (rev (hs ++ d)) (Split (Join (replicate up ".." ++ es) "/") slash) =
                    rev (hs ++ take (length d - up) d ++ es)).
    { transitivity (foldl (clean_step true) (rev (hs ++ d)) (replicate up ".." ++ es)).
      - destruct (decide (replicate up ".." ++ es = [])) as [->|Hn]; [done|]. by rewrite Split_Join.
      - rewrite foldl_app, clean_ups by (by apply Forall_rev, Forall_app_2).
        rewrite clean_plain by (by apply kept_plain). rewrite filter_kept by done.
        assert (Hdrop : drop up (rev (hs ++ d)) = rev (hs ++ take (length d - up) d)).
        { rewrite <- (rev_involutive (drop up _)), rev_drop, length_app, take_app_ge by lia.
          do 2 f_equal. f_equal. lia. }
        by rewrite Hdrop, <- rev_app_distr, <- app_assoc. }
    rewrite Hfold, rev_involutive. apply Clean_abs.
    apply Forall_app_2; [done|]. apply Forall_app_2; [by apply Forall_take|done].
Qed.

(** The part of a walk that meets no link. *)
Lemma walk_straight d rest tail :
  straight tree (d ++ rest) → Forall kept (d ++ rest) →
  walk_parts fs root (abs_path (hs ++ d)) (rest ++ tail) = walk_parts fs root (abs_path (hs ++ d ++ rest)) tail.
Proof.
  destruct root_below as [_ Hhs]. revert d. induction rest as [|c rest IH]; intros d Hs Hk.
  { by rewrite app_nil_r. }
  cbn [app walk_parts]. apply Forall_app in Hk as Hk'. destruct Hk' as [Hd [Hc Hr]%Forall_cons].
  rewrite PathJoin_elem by (done || by apply Forall_app_2). rewrite <- app_assoc.
  assert (Hsd : straight tree d).
  { intros i Hi. specialize (Hs i). rewrite length_app, take_app_le in Hs by lia. apply Hs. lia. }
  assert (Ec : tree (d ++ [c]) = Some Plain).
  { specialize (Hs (length d)). rewrite length_app in Hs. simpl in Hs.
    rewrite <- Hs by lia. f_equal. rewrite take_app_ge by lia. by replace (S (length d) - length d)%nat with 1%nat by lia. }
  destruct served as [Hsv _]. destruct (Hsv d c _ Hsd Ec) as (fi & -> & Hfi). cbn [rbind]. rewrite Hfi. cbn [rbind].
  replace (d ++ c :: rest) with ((d ++ [c]) ++ rest) by (by rewrite <- app_assoc).
  apply IH; by rewrite <- app_assoc.
Qed.

(** The root itself is walked over. *)
Lemma walk_root before after tail :
  hs = before ++ after →
  walk_parts fs root (abs_path before) (after ++ tail) = walk_parts fs root root tail.
Proof.
  destruct root_below as [_ Hhs], served as [_ Hroot]. revert before. induction after as [|c after IH]; intros before E.
  { by rewrite E, app_nil_r. }
  cbn [app walk_parts]. assert (Hk : Forall kept (before ++ c :: after)) by (by rewrite <- E).
  apply Forall_app in Hk as [Hb [Hc _]%Forall_cons]. rewrite PathJoin_elem by done.
  destruct (Hroot (S (length before))) as (fi & Hl & Hfi); [rewrite E, length_app; simpl; lia|].
  assert (Et : take (S (length before)) hs = before ++ [c]).
  { rewrite E, take_app_ge by lia. by replace (S (length before) - length before)%nat with 1%nat by lia. }
  rewrite Et in Hl. rewrite Hl. cbn [rbind]. rewrite Hfi. cbn [rbind]. apply IH. by rewrite <- app_assoc.
Qed.

Lemma walk_once_host p :
  Forall kept p → walk_once fs root (abs_path (hs ++ p)) = walk_parts fs root root p.
Proof.
  intros Hp. destruct root_below as [Hne Hhs]. assert (Hk : Forall kept (hs ++ p)) by (by apply Forall_app_2).
  unfold walk_once. rewrite abs_path_rooted, Clean_abs, Split_abs by (done || by destruct hs).
  cbn [walk_parts]. change (PathJoin ["/"; EmptyString]) with (abs_path []).
  destruct served as [_ Hroot]. destruct (Hroot 0%nat) as (fi & Hl & Hfi); [lia|]. change (take 0 hs) with (@nil string) in Hl.
  rewrite Hl. cbn [rbind]. rewrite Hfi. cbn [rbind]. by apply (walk_root [] hs).
Qed.

(** One pass: it ends at the file, or at a path from which the file is fewer steps away. *)
Lemma pass n d rest r :
  straight tree d → Forall kept d → Forall kept rest → resolves tree n d rest r →
  ∃ p, walk_parts fs root (abs_path (hs ++ d)) rest = Ok (abs_path (hs ++ p)) ∧ Forall kept p ∧
    ((p = r ∧ straight tree r) ∨ ∃ m, (m < n)%nat ∧ resolves tree m [] p r).
Proof.
  intros Hs Hd Hr H. induction H as [d|n d c rest r E H IH|n d c rest r t Hne E Ht H IH|n d c r t E H IH].
  - exists d. split; [done|]. auto.
  - apply Forall_cons in Hr as [Hc Hr].
    destruct (IH (straight_snoc tree d c Hs E)) as (p & Hp & Hk & Hcase); [by apply Forall_app_2; auto|done|].
    exists p. split; [|split; [done|destruct Hcase as [?|(m & ? & ?)]; [by left|right; exists m; split; [lia|done]]]].
    rewrite <- Hp. assert (Hk' : Forall kept (d ++ [c])) by (apply Forall_app_2; auto).
    exact (walk_straight d [c] rest (straight_snoc tree d c Hs E) Hk').
  - apply Forall_cons in Hr as [Hc Hr].
    destruct (IH Ht) as (p & Hp & Hk & Hcase); [by eapply leads_kept|done|].
    exists p. split; [|split; [done|destruct Hcase as [?|(m & ? & ?)]; [by left|right; exists m; split; [lia|done]]]].
    rewrite <- Hp. cbn [walk_parts]. destruct root_below as [_ Hhs].
    rewrite PathJoin_elem by (done || by apply Forall_app_2). rewrite <- app_assoc.
    destruct served as [Hsv _]. destruct (Hsv d c _ Hs E) as (fi & -> & Hl & Hdir & _). cbn [rbind].
    rewrite Hl. by rewrite (follow_link d c t fi).
  - apply Forall_cons in Hr as [Hc _]. exists (leads d t).
    split; [|split; [by eapply leads_kept|right; exists n; split; [lia|done]]].
    cbn [walk_parts]. destruct root_below as [_ Hhs].
    rewrite PathJoin_elem by (done || by apply Forall_app_2). rewrite <- app_assoc.
    destruct served as [Hsv _]. destruct (Hsv d c _ Hs E) as (fi & -> & Hl & Hdir & _). cbn [rbind].
    rewrite Hl. by rewrite (follow_link d c t fi).
Qed.

Lemma straight_pass r : straight tree r → Forall kept r → walk_once fs root (abs_path (hs ++ r)) = Ok (abs_path (hs ++ r)).
Proof.
  intros Hs Hr. rewrite walk_once_host by done. pose proof (walk_straight [] r [] Hs Hr) as H.
  rewrite !app_nil_r in H. by rewrite H.
Qed.

(** The walk ends, at the file that the host resolves the path to. *)
Lemma walk_resolves n p r :
  resolves tree n [] p r → Forall kept p →
  ∃ fuel, walkSymlinks fs root fuel (abs_path (hs ++ p)) = Some (Ok (abs_path (hs ++ r))).
Proof.
  revert p. induction n as [n IH] using lt_wf_ind. intros p H Hp.
  destruct (pass n [] p r (straight_nil tree) ltac:(constructor) Hp H) as (q & Hq & Hk & Hcase).
  rewrite app_nil_r, <- walk_once_host in Hq by done.
  destruct Hcase as [[-> Hs]|(m & Hm & Hres)].
  - exists 2%nat. cbn [walkSymlinks]. rewrite Hq. destruct (String.eqb _ _); [done|].
    rewrite straight_pass by done. by rewrite String.eqb_refl.
  - destruct (IH m Hm q Hres Hk) as [fuel Hf]. exists (S fuel). cbn [walkSymlinks]. rewrite Hq.
    destruct (String.eqb_spec (abs_path (hs ++ p)) (abs_path (hs ++ q))) as [E|_]; [|done]. exfalso.
    destruct root_below as [_ Hhs]. apply abs_path_inj in E; [|by apply Forall_app_2..].
    apply (inj (hs ++.)) in E as ->. destruct (resolves_unique tree _ _ _ _ _ _ H Hres) as [-> _]. lia.
Qed.
End Walk.

(** ** The lookup *)

Lemma fold_abs out ds :
  Forall kept ds → foldl (clean_step true) out (Split (abs_path ds) slash) = rev ds ++ out.
Proof.
  intros Hds. destruct ds as [|d ds]; [done|]. rewrite Split_abs by done.
  rewrite clean_plain by (constructor; [by left|by apply kept_plain]).
  rewrite filter_cons_False by (intros H; by apply H). by rewrite filter_kept.
Qed.

(** A directory of [PATH] below the root. *)
Lemma PathJoin_three hs ds name :
  Forall kept hs → Forall kept ds → kept name →
  PathJoin [abs_path hs; abs_path ds; name] = abs_path (hs ++ ds ++ [name]).
Proof.
  intros Hhs Hds [Hp Hi].
  change (PathJoin [abs_path hs; abs_path ds; name]) with (PathJoin [abs_path hs; abs_path ds +:+ String slash name]).
  rewrite PathJoin_two by done. rewrite Split_app, foldl_app, fold_abs by done. rewrite (Split_elem name) by done. cbn [foldl].
  rewrite clean_step_plain by done. f_equal. cbn [rev]. by rewrite rev_app_distr, !rev_involutive, <- app_assoc.
Qed.

Lemma first_executable_skips fs root fuel failing path rest p :
  Forall (λ q, ∃ e, findExecutable fs root fuel q = Some (Err e)) failing →
  findExecutable fs root fuel path = Some (Ok p) →
  first_executable fs root fuel (failing ++ path :: rest) = Some (Ok p).
Proof.
  induction 1 as [|q failing [e He] _ IH]; intros Hp; cbn [app first_executable]; [by rewrite Hp|].
  rewrite He. by apply IH.
Qed.

(** C36. A command of the host is found through the links of the host.  The host is mounted
    below a root that is no link; the name is in a directory of [PATH] where the host,
    resolving its own links, relative or absolute, of directories on the way or of the
    name, chains included, comes to an executable file.  Then with enough fuel, when the
    container has no such command and no earlier directory of [PATH] has one in the
    container or the host, the command that is run is that file, by its path within the
    host, and in the root of the host.  The links in the middle of a path lead to
    directories without further links, none climbs above the root, and no absolute one
    begins with the text of the root. *)
Theorem host_command_found fs hs tree n before ds after name r fi p :
  hs ≠ [] ∧ Forall kept hs → tree_ok tree (abs_path hs) → serves fs hs tree →
  Forall kept ds ∧ kept name → resolves tree n [] (ds ++ [name]) r → r ≠ [] →
  StatPath fs (abs_path (hs ++ r)) = Ok fi → IsDir fi = false → Z.land (Perm fi) 73 ≠ 0 →
  ∃ enough, ∀ fuel, (enough ≤ fuel)%nat →
    Forall (λ q, ∃ e, findExecutable fs (abs_path hs) fuel q = Some (Err e))
      (searchPaths (abs_path hs) before name ++ [PathJoin [abs_path ds; name]]) →
    resolve fs (abs_path hs) fuel (before ++ abs_path ds :: after) (mkCmd p (Some ErrNotFound) None) name =
    Some (mkCmd (abs_path r) None (Some (abs_path hs))).
Proof.
  intros Hhs Hok Hserves [Hds Hname] Hres Hr Hstat Hdir Hperm.
  destruct (walk_resolves fs hs tree Hhs Hok Hserves n (ds ++ [name]) r Hres) as [enough Hw].
  { by apply Forall_app_2; auto. }
  exists enough. intros fuel Hfuel Hfail. destruct Hhs as [Hne Hhs].
  assert (Hfind : findExecutable fs (abs_path hs) fuel (abs_path (hs ++ ds ++ [name])) = Some (Ok (abs_path (hs ++ r)))).
  { unfold findExecutable. rewrite (walk_more fs (abs_path hs) enough fuel _ _ Hfuel Hw). cbn [mbind option_bind rbind].
    rewrite Hstat. cbn [rbind]. rewrite Hdir. by rewrite (proj2 (Z.eqb_neq _ _) Hperm). }
  assert (Hpaths : searchPaths (abs_path hs) (before ++ abs_path ds :: after) name =
    (searchPaths (abs_path hs) before name ++ [PathJoin [abs_path ds; name]]) ++
    abs_path (hs ++ ds ++ [name]) :: searchPaths (abs_path hs) after name).
  { unfold searchPaths. rewrite Base_kept, String.eqb_refl by done.
    rewrite fmap_app, join_app, <- (PathJoin_three hs ds name) by done. by rewrite <- app_assoc. }
  assert (Hroot : String.eqb (abs_path hs) "/" = false).
  { apply String.eqb_neq. intros E. apply (f_equal path_elems) in E. by rewrite path_elems_abs in E. }
  unfold resolve. rewrite Hroot. cbn [cmdErr Chroot]. rewrite decide_True by done.
  unfold lookPath. rewrite Hpaths. erewrite first_executable_skips by eassumption. cbn [mbind option_bind cmdPath cmdErr].
  do 2 f_equal. unfold abs_path at 1. rewrite Join_app by done.
  unfold TrimPrefix. change ("/" +:+ Join hs "/" +:+ "/" +:+ Join r "/") with (abs_path hs +:+ abs_path r).
  by rewrite (proj2 (CutPrefix_spec _ _ _) eq_refl).
Qed.

(** ** A host *)

(** [/usr/sbin] is a link to [bin]; [iptables] there a link to the alternatives, by a
    relative path, and the alternative a link to the binary, by an absolute one. *)
Definition ex_entries : list (list string * entry) :=
  [(["usr"], Plain); (["usr"; "bin"], Plain); (["etc"], Plain); (["etc"; "alternatives"], Plain);
   (["usr"; "sbin"], Link (Relative 0 ["bin"]));
   (["usr"; "bin"; "iptables"], Link (Relative 2 ["etc"; "alternatives"; "iptables"]));
   (["etc"; "alternatives"; "iptables"], Link (Absolute ["usr"; "bin"; "xtables-nft-multi"]));
   (["usr"; "bin"; "xtables-nft-multi"], Plain)].

Definition ex_tree (p : list string) : option entry := (list_to_map ex_entries : gmap (list string) entry) !! p.

Definition below_root (p : string) : option (list string) :=
  match path_elems p with
  | r :: es => if String.eqb r "host" then Some es else None
  | [] => None
  end.

(** The container has a root directory and the mount; the rest of it is empty. *)
Definition ex_fs : filesystem :=
  mkFS (λ p, match below_root p with
             | None => if String.eqb p "/" then Ok (mkFileInfo true false 493) else Err "no such file or directory"
             | Some [] => Ok (mkFileInfo true false 493)
             | Some es => match ex_tree es with
                          | Some Plain => Ok (mkFileInfo false false 493)
                          | Some (Link _) => Ok (mkFileInfo false true 511)
                          | None => Err "no such file or directory"
                          end
             end)
       (λ p, match below_root p with
             | Some es => match ex_tree es with Some (Link t) => Ok (target_text t) | _ => Err "invalid argument" end
             | None => Err "no such file or directory"
             end)
       (λ p, Ok (mkFileInfo false false 493)).

Lemma ex_tree_elem p e : ex_tree p = Some e → (p, e) ∈ ex_entries.
Proof. apply elem_of_list_to_map_2. Qed.

Lemma host_command_found_witness :
  ∃ fuel, resolve ex_fs "/host" fuel ["/usr/local/bin"; "/usr/sbin"; "/usr/bin"]
            (mkCmd "iptables" (Some ErrNotFound) None) "iptables" =
          Some (mkCmd "/usr/bin/xtables-nft-multi" None (Some "/host")).
Proof.
  destruct (host_command_found ex_fs ["host"] ex_tree 9 ["/usr/local/bin"] ["usr"; "sbin"] ["/usr/bin"] "iptables"
    ["usr"; "bin"; "xtables-nft-multi"] (mkFileInfo false false 493) "iptables") as [enough He].
  - split; [done|]. by repeat constructor.
  - intros d c t E%ex_tree_elem. unfold ex_entries in E.
    repeat (apply elem_of_cons in E as [E|E];
      [injection E as E Et; first [discriminate Et |
         subst t; apply (f_equal length) in E; rewrite length_app in E; simpl in E;
         split; [by repeat constructor|first [lia | reflexivity]]]|]).
    by apply not_elem_of_nil in E.
  - split.
    + intros d c e _ E%ex_tree_elem. unfold ex_entries in E.
      repeat (apply elem_of_cons in E as [E|E];
        [injection E as E ->; rewrite E; eexists; split; [vm_compute; reflexivity|repeat split; reflexivity]|]).
      by apply not_elem_of_nil in E.
    + intros i Hi. destruct i as [|[|i]]; [eexists; split; [vm_compute; reflexivity|reflexivity]..|simpl in Hi; lia].
  - split; [by repeat constructor|by split].
  - apply resolves_plain; [reflexivity|].
    eapply resolves_through; [discriminate|reflexivity|intros [|[|i]] Hi; [reflexivity..|simpl in Hi; lia]|].
    eapply resolves_link; [reflexivity|]. apply resolves_plain; [reflexivity|]. apply resolves_plain; [reflexivity|].
    eapply resolves_link; [reflexivity|]. do 3 (apply resolves_plain; [reflexivity|]).
    apply resolves_here.
  - discriminate.
  - reflexivity.
  - reflexivity.
  - discriminate.
  - exists (enough + 4)%nat. apply (He (enough + 4)%nat); [lia|]. rewrite Nat.add_comm.
    repeat (constructor; [eexists; vm_compute; reflexivity|]). constructor.
Defined.

(** *** Where the text of a path is not the path *)

Definition ex_linked (links : list (string * string)) : filesystem :=
  let m : gmap string string := list_to_map links in
  mkFS (λ p, Ok (mkFileInfo false (bool_decide (is_Some (m !! p))) 493))
       (λ p, match m !! p with Some t => Ok t | None => Err "invalid argument" end)
       (λ p, Ok (mkFileInfo false false 493)).

(** A link of the host whose path begins like the root is followed in the container. *)
Example similar_prefix :
  walkSymlinks (ex_linked [("/host/bin/aws", "/hosted/aws")]) "/host" 3 "/host/bin/aws" = Some (Ok "/hosted/aws").
Proof. reflexivity. Qed.

(** A link that climbs above the root of the host, where the host stays, leaves it. *)
Example climbs_out :
  walkSymlinks (ex_linked [("/host/bin/aws", "../../bin/aws")]) "/host" 3 "/host/bin/aws" = Some (Ok "/bin/aws").
Proof. reflexivity. Qed.
