(* ===== verification/ObserverLoop.v ===== *)
(** * ObserverLoop: the loops that feed the observers ([pkg/observer]: file.go, journald.go).

    The file observer tails a file by its handle and opens the file again when it is
    created; the journal observer tails the journal of a service and opens its handle again
    every five minutes.  Files are inodes whose bytes are a string; the notifications of
    the file system, the journal and the clock are arguments. *)

From S2P Require Import Prelude GoStrings Paths Monitor Observer ExecPath.

(** ** The file observer *)

(** The inode at the path, and what the inodes hold. *)
Record disk := mkDisk { atPath : option nat; content : nat → string }.

(** What the reader reads: nothing yet, an inode from an offset, or a file that was closed.
    [owned] is the handle of the observer, if any. *)
Inductive reader := NotOpened | Reading (inode offset : nat) | ClosedFile.

Record fileObserver := mkFileObserver {
  base : BaseObserver;
  path : string;
  owned : option nat;
  source : reader;
  watching : option (list string)  (* the directories of the watcher, once there is one *)
}.

Definition set_reader (o : fileObserver) (h : option nat) (r : reader) : fileObserver :=
  mkFileObserver (base o) (path o) h r (watching o).

(** [canSeek] is whether the file can be positioned at its end.  The handle that the
    observer has is closed first, so that a failure leaves a reader of a closed file. *)
Definition openReader (o : fileObserver) (d : disk) (canSeek : bool) : fileObserver * option string :=
  let closed := match owned o, source o with None, r => r | Some _, NotOpened => NotOpened | Some _, _ => ClosedFile end in
  match atPath d with
  | None => (set_reader o None closed, Some "no such file or directory")
  | Some i =>
      if canSeek then (set_reader o (Some i) (Reading i (String.length (content d i))), None)
      else (set_reader o (Some i) closed, Some "illegal seek")
  end.

(** Initially: until the file opens, or the context ends the list of tries. *)
Fixpoint open_until (o : fileObserver) (tries : list (disk * bool)) : fileObserver :=
  match tries with
  | [] => o
  | (d, canSeek) :: rest =>
      match openReader o d canSeek with
      | (o', None) => o'
      | (o', Some _) => open_until o' rest
      end
  end.

(** [newWatcher] and [addDir] are the errors of making the watcher and of watching a
    directory. *)
Definition reconcileWatcher (o : fileObserver) (newWatcher addDir : option string) : fileObserver * option string :=
  let set w := mkFileObserver (base o) (path o) (owned o) (source o) (Some w) in
  let watch dirs := if bool_decide (Dir (path o) ∈ dirs) then (set dirs, None)
                    else match addDir with
                         | Some e => (set dirs, Some e)
                         | None => (set (dirs ++ [Dir (path o)]), None)
                         end in
  match watching o, newWatcher with
  | Some dirs, _ => watch dirs
  | None, Some e => (o, Some e)
  | None, None => watch []
  end.

(** What is between the offset and the end of the file is read; the error is that of the
    reader, the end of the file apart. *)
Definition read_all (o : fileObserver) (d : disk) : fileObserver * option string :=
  match source o with
  | Reading i off =>
      let data := drop_bytes off (content d i) in
      (mkFileObserver (readAll (base o) data) (path o) (owned o) (Reading i (Nat.max off (String.length (content d i)))) (watching o), None)
  | _ => (o, Some "file already closed")
  end.

(** What the select takes: an error or an event of the watcher, or nothing is there. *)
Inductive selected := WatchError (e : string) | WatchEvent (name : string) (create : bool) | NothingReady.

Definition workFunc (o : fileObserver) (newWatcher addDir : option string) (sel : selected) (d : disk) (canSeek : bool)
    : fileObserver * option string :=
  match reconcileWatcher o newWatcher addDir with
  | (o, Some e) => (o, Some e)
  | (o, None) =>
      match sel with
      | WatchError e => (o, Some (prefixed "fsnotify watch error" e))
      | WatchEvent name create =>
          if String.eqb name (path o) && create then
            match openReader o d canSeek with
            | (o, Some e) => (o, Some (prefixed "failed to construct reader" e))
            | (o, None) => (o, None)
            end
          else (o, None)
      | NothingReady =>
          match read_all o d with
          | (o, Some e) => (o, Some (prefixed "failed to read file" e))
          | (o, None) => (o, None)
          end
      end
  end.

(** One turn of the loop: what the watcher and the file system answer at that time. *)
Record turn := mkTurn { tNewWatcher : option string; tAddDir : option string; tSelect : selected; tDisk : disk; tSeek : bool }.

Definition watch_turn (o : fileObserver) (t : turn) : fileObserver :=
  fst (workFunc o (tNewWatcher t) (tAddDir t) (tSelect t) (tDisk t) (tSeek t)).

Definition watchLoop (o : fileObserver) (tries : list (disk * bool)) (turns : list turn) : fileObserver :=
  foldl watch_turn (open_until o tries) turns.

(** *** What is read of a file that grows *)

(** The turns are reads of growing contents, and what each finds. *)
Fixpoint appended (i : nat) (before : string) (turns : list turn) : option (list string) :=
  match turns with
  | [] => Some []
  | t :: rest =>
      let now := content (tDisk t) i in
      if HasPrefix now before then
        match tSelect t, tNewWatcher t, tAddDir t with
        | NothingReady, None, None => cons (drop_bytes (String.length before) now) <$> appended i now rest
        | WatchEvent name create, None, None => if create then None else appended i before rest
        | _, _, _ => None
        end
      else None
  end.

Lemma String_length_app a b : String.length (a +:+ b) = (String.length a + String.length b)%nat.
Proof. induction a; simpl; congruence. Qed.

Lemma reconcileWatcher_ok o : ∃ w, reconcileWatcher o None None = (mkFileObserver (base o) (path o) (owned o) (source o) (Some w), None).
Proof. unfold reconcileWatcher. destruct (watching o); case_bool_decide; eauto. Qed.

(** While a file only grows, its observer reads what was appended since it was opened,
    piece by piece: nothing that was there before, and nothing twice. *)
Lemma watchLoop_tails o i before turns pieces :
  source o = Reading i (String.length before) → appended i before turns = Some pieces →
  base (foldl watch_turn o turns) = foldl readAll (base o) pieces.
Proof.
  intros Hs Ha. revert o before pieces Hs Ha.
  induction turns as [|[nw ad sel d cs] turns IH]; intros o before pieces Hs Ha; [by simplify_eq/=|].
  cbn [appended tSelect tNewWatcher tAddDir tDisk] in Ha. destruct (HasPrefix (content d i) before) eqn:Ep; [|done].
  cbn [foldl]. unfold watch_turn at 2. cbn [tSelect tNewWatcher tAddDir tDisk tSeek].
  destruct sel as [e|name create|], nw, ad; try done.
  - destruct create; [done|]. unfold workFunc. destruct (reconcileWatcher_ok o) as [w ->].
    rewrite andb_false_r. cbn [fst].
    exact (IH (mkFileObserver (base o) (path o) (owned o) (source o) (Some w)) before pieces Hs Ha).
  - apply fmap_Some in Ha as (rest & Ha & ->). unfold workFunc. destruct (reconcileWatcher_ok o) as [w ->].
    unfold read_all. cbn [source]. rewrite Hs. cbn [fst base path owned watching].
    apply HasPrefix_spec in Ep as [more Em]. rewrite Em in *.
    rewrite drop_bytes_app. rewrite (IH _ (before +:+ more) rest); [|cbn [source]|done].
    + done.
    + f_equal. rewrite String_length_app. lia.
Qed.

Lemma readAll_texts o found :
  Forall text_ok found →
  foldl readAll o (text_of <$> found) =
  foldl Broadcast o ((λ line, TrimSpace (line +:+ nl)) <$> (found ≫= fst)).
Proof.
  intros Hf. revert o. induction Hf as [|f found Hf _ IH]; intros o; [done|].
  cbn [fmap list_fmap foldl]. rewrite IH, bind_cons, fmap_app, foldl_app.
  unfold readAll at 1. by rewrite read_lines_text.
Qed.

(** C35. The lines of a file reach the subscribers.  While a file grows under its observer,
    whatever events the watcher has between the reads and whatever was found at each read,
    complete lines and then a rest without its end, every subscriber that takes nothing
    meanwhile has after the messages that were waiting for it, as far as its channel has
    room for them, the complete lines of all the reads in order, each once and without the
    white space around it; what the file held before is not among them, and neither is the
    rest of a read, which is lost though the line be ended by the next. *)
Theorem file_lines_delivered o i before turns found :
  source o = Reading i (String.length before) →
  appended i before turns = Some (text_of <$> found) → Forall text_ok found →
  subscribers (base (foldl watch_turn o turns)) =
  (λ channel, channel ++
     take (subscriberCap - length channel) ((λ line, TrimSpace (line +:+ nl)) <$> (found ≫= fst)))
  <$> subscribers (base o).
Proof.
  intros Hs Ha Hf. rewrite (watchLoop_tails o i before turns (text_of <$> found)) by done.
  by rewrite readAll_texts, Broadcast_all.
Qed.

(** A read that finds nothing, one that finds a line and the start of another, an event of
    another file, and the end of the line that was begun. *)
Definition ex_growing : list turn :=
  let turn sel text := mkTurn None None sel (mkDisk (Some 1%nat) (λ _, text)) true in
  [turn NothingReady ("old" +:+ nl);
   turn NothingReady ("old" +:+ nl +:+ " one " +:+ nl +:+ "tw");
   turn (WatchEvent "/var/log/other" false) ("old" +:+ nl +:+ " one " +:+ nl +:+ "tw");
   turn NothingReady ("old" +:+ nl +:+ " one " +:+ nl +:+ "two" +:+ nl)].

Lemma file_lines_delivered_witness :
  let o := mkFileObserver (mkBaseObserver [["waiting"]; []]) "/var/log/messages" (Some 1%nat) (Reading 1 4) None in
  subscribers (base (foldl watch_turn o ex_growing)) = [["waiting"; "one"; "o"]; ["one"; "o"]].
Proof.
  intros o.
  rewrite (file_lines_delivered o 1 ("old" +:+ nl) ex_growing [([], EmptyString); ([" one "], "tw"); (["o"], EmptyString)]).
  - reflexivity.
  - reflexivity.
  - reflexivity.
  - repeat constructor.
Defined.

(** Opening a file again skips what it already holds: the lines written between its
    creation and its opening are not read, and neither is what was left of the old file. *)
Lemma reopening_skips o d canSeek o' e :
  openReader o d canSeek = (o', e) → base o' = base o ∧
  (e = None → ∃ i, atPath d = Some i ∧ source o' = Reading i (String.length (content d i)) ∧ fst (read_all o' d) = o').
Proof.
  unfold openReader. destruct (atPath d) as [i|]; [destruct canSeek|]; intros [= <- <-]; (split; [done|]); [|done..].
  intros _. exists i. split; [done|]. split; [done|]. unfold read_all. cbn.
  assert (E : drop_bytes (String.length (content d i)) (content d i) = EmptyString).
  { pose proof (drop_bytes_app (content d i) EmptyString) as E. by rewrite sapp_nil_r in E. }
  rewrite E, Nat.max_id. unfold set_reader. by destruct o as [[] ? ? ? ?].
Qed.

(** A file that shrinks under its name, as [copytruncate] does, is read again only once it
    is longer than it was. *)
Lemma truncation_stalls o i off d :
  source o = Reading i off → (String.length (content d i) ≤ off)%nat →
  read_all o d = (mkFileObserver (base o) (path o) (owned o) (Reading i off) (watching o), None).
Proof.
  intros Hs Hl. unfold read_all. rewrite Hs. rewrite Nat.max_l by done.
  assert (E : drop_bytes off (content d i) = EmptyString).
  { revert Hl. generalize (content d i). clear. intros s. revert off. induction s as [|c s IH]; intros [|off] H; simpl in *; try done; try lia.
    apply IH. lia. }
  rewrite E. unfold readAll. by destruct (base o).
Qed.

(** After a creation whose file is gone again when it is opened, every read fails until the
    next creation. *)
Lemma lost_file_fails o d canSeek i off o' e :
  source o = Reading i off → owned o = Some i → atPath d = None → openReader o d canSeek = (o', e) →
  ∀ d', read_all o' d' = (o', Some "file already closed").
Proof. intros Hs Ho Hd. unfold openReader. rewrite Hd, Ho, Hs. by intros [= <- _]. Qed.

(** ** The journal observer *)

Definition journalPaths : list string := ["/var/log/journal"; "/run/log/journal"].
Definition journalRefreshInterval : Duration := 5 * Minute.
Definition journalWaitTimeout : Duration := 5 * Second.

(** The first path that exists below the root of the host. *)
Definition resolveJournalPath (exists_ : string → bool) (hostRoot : string) : string :=
  default EmptyString (head (filter (λ p, exists_ (PathJoin [hostRoot; p]) = true) journalPaths)).

(** How the three calls that open a handle end, and the number of the handle; a handle that
    cannot be positioned or filtered is closed again.  [startTime] is the time that it is
    positioned at, as [%v] prints it. *)
Record Opening := mkOpening {
  newJournal : result string nat;
  startTime : string;
  seekError : option string;
  matchError : option string
}.

Definition close (h : nat) (l : list nat) : list nat := filter (λ x, x ≠ h) l.

Definition openJournal (journalPath service : string) (a : Opening) (open : list nat) : list nat * result string nat :=
  match newJournal a with
  | Err e => (open, Err (prefixed ("failed to create journal client from path " +:+ Quote journalPath) e))
  | Ok h =>
      let open := open ++ [h] in
      match seekError a with
      | Some e => (close h open, Err (prefixed ("failed to seek journal at " +:+ startTime a) e))
      | None =>
          match matchError a with
          | Some e => (close h open, Err ("failed to add journal filter for service " +:+ Quote service +:+ " due to: " +:+ e))
          | None => (open, Ok h)
          end
      end
  end.

Record journalObserver := mkJournal {
  jBase : BaseObserver;
  journal : nat;
  lastRefresh : Time;
  openHandles : list nat
}.

(** What [Next] and [GetEntry] answer: an error, no entry, or the message of one; [None] for
    an entry without one. *)
Inductive NextAnswer := NextError (e : string) | NoEntry | EntryError (e : string) | Entry (message : option string).

(** One turn: [now] is the time it begins at, [after] that at which it has refreshed. *)
Definition journal_turn (journalPath service : string) (now after : Time) (a : Opening) (next : NextAnswer)
    (o : journalObserver) : journalObserver :=
  let o := if journalRefreshInterval <=? Sub now (lastRefresh o) then
             match openJournal journalPath service a (openHandles o) with
             | (open, Err _) => mkJournal (jBase o) (journal o) after open
             | (open, Ok h) => mkJournal (jBase o) h after (close (journal o) open)
             end
           else o in
  match next with
  | Entry message => mkJournal (Broadcast (jBase o) (TrimSpace (default EmptyString message))) (journal o) (lastRefresh o) (openHandles o)
  | _ => o
  end.

(** [Init]: a handle that cannot be opened at first ends the observer. *)
Definition journal_init (journalPath service : string) (now : Time) (a : Opening) (b : BaseObserver) : result string journalObserver :=
  match openJournal journalPath service a [] with
  | (open, Ok h) => Ok (mkJournal b h now open)
  | (_, Err e) => Err e
  end.

Record journalTurn := mkJournalTurn { jtNow : Time; jtAfter : Time; jtOpening : Opening; jtNext : NextAnswer }.

Definition journal_loop (journalPath service : string) (o : journalObserver) (turns : list journalTurn) : journalObserver :=
  foldl (λ o t, journal_turn journalPath service (jtNow t) (jtAfter t) (jtOpening t) (jtNext t) o) o turns.

(** The end of the loop closes the handle that is current. *)
Definition journal_exit (o : journalObserver) : list nat := close (journal o) (openHandles o).

(** The library does not hand out a handle that is open. *)
Definition fresh_handles (o : journalObserver) (a : Opening) : Prop :=
  ∀ h, newJournal a = Ok h → h ∉ openHandles o.

Fixpoint all_fresh (journalPath service : string) (o : journalObserver) (turns : list journalTurn) : Prop :=
  match turns with
  | [] => True
  | t :: rest => fresh_handles o (jtOpening t) ∧
      all_fresh journalPath service (journal_turn journalPath service (jtNow t) (jtAfter t) (jtOpening t) (jtNext t) o) rest
  end.

Lemma close_self h : close h [h] = [].
Proof. unfold close. by rewrite filter_cons_False by naive_solver. Qed.

Lemma journal_turn_handle journalPath service now after a next o :
  fresh_handles o a → openHandles o = [journal o] →
  let o' := journal_turn journalPath service now after a next o in openHandles o' = [journal o'].
Proof.
  intros Hf Ho. unfold journal_turn.
  set (o1 := if journalRefreshInterval <=? _ then _ else _). assert (H1 : openHandles o1 = [journal o1]).
  { unfold o1. destruct (_ <=? _); [|done]. unfold openJournal. rewrite Ho.
    destruct (newJournal a) as [h|] eqn:Eh; [|done].
    assert (Hne : h ≠ journal o) by (specialize (Hf h Eh); rewrite Ho in Hf; set_solver).
    destruct (seekError a), (matchError a); simpl; unfold close;
      rewrite ?filter_cons_False, ?filter_cons_True by naive_solver; try done.
    all: by rewrite ?filter_cons_False, ?filter_cons_True by naive_solver. }
  by destruct next.
Qed.

(** Inside a refresh the new handle is opened before the old one is closed: for that moment
    there are at most two. *)
Lemma refresh_two_handles journalPath service a o :
  openHandles o = [journal o] → (length (openJournal journalPath service a (openHandles o)).1 ≤ 2)%nat.
Proof.
  intros Ho. unfold openJournal. rewrite Ho. destruct (newJournal a) as [h|]; [|simpl; lia].
  assert (Hl : (length (close h ([journal o] ++ [h])) ≤ 2)%nat) by apply (length_filter _ [_; _]).
  by destruct (seekError a), (matchError a).
Qed.

(** C34. The journal observer does not leak handles: whatever the journal answers and
    however its refreshes end, between the turns of the loop one handle is open, the one
    it reads, and none after the loop.  (Inside a refresh there are two for a moment:
    [refresh_two_handles].) *)
Theorem journal_one_handle journalPath service now a b o turns :
  journal_init journalPath service now a b = Ok o → all_fresh journalPath service o turns →
  let o' := journal_loop journalPath service o turns in
  openHandles o' = [journal o'] ∧ journal_exit o' = [].
Proof.
  intros Hi Hf. assert (H0 : openHandles o = [journal o]).
  { unfold journal_init, openJournal in Hi. destruct (newJournal a); [|done].
    destruct (seekError a), (matchError a); simplify_eq; done. }
  assert (H : openHandles (journal_loop journalPath service o turns) = [journal (journal_loop journalPath service o turns)]).
  { clear Hi. unfold journal_loop. revert o Hf H0. induction turns as [|t turns IH]; intros o Hf H0; [done|].
    destruct Hf as [Hf Hrest]. cbn [foldl]. apply IH; [done|]. by apply journal_turn_handle. }
  split; [done|]. unfold journal_exit. rewrite H. apply close_self.
Qed.

Lemma journal_one_handle_witness :
  let o := mkJournal (mkBaseObserver [[]]) 1 0 [1%nat] in
  let turns := [mkJournalTurn (6 * Minute) (6 * Minute) (mkOpening (Ok 2%nat) EmptyString None (Some "bad match")) NoEntry;
                mkJournalTurn (12 * Minute) (12 * Minute) (mkOpening (Ok 2%nat) EmptyString None None) (Entry (Some " kernel ")) ] in
  journal_init "/var/log/journal" "kubelet" 0 (mkOpening (Ok 1%nat) EmptyString None None) (mkBaseObserver [[]]) = Ok o ∧
  openHandles (journal_loop "/var/log/journal" "kubelet" o turns) = [2%nat] ∧
  journal_exit (journal_loop "/var/log/journal" "kubelet" o turns) = [].
Proof.
  intros o turns. assert (Hi : journal_init "/var/log/journal" "kubelet" 0 (mkOpening (Ok 1%nat) EmptyString None None) (mkBaseObserver [[]]) = Ok o) by reflexivity.
  split; [exact Hi|].
  destruct (journal_one_handle "/var/log/journal" "kubelet" 0 (mkOpening (Ok 1%nat) EmptyString None None) (mkBaseObserver [[]]) o turns Hi) as [H1 H2].
  { repeat split; intros h [= <-]; simpl; by apply (bool_decide_unpack _). }
  split; [exact H1|exact H2].
Defined.

(** Refreshes that fail are tried once per interval, not at every turn. *)
Lemma refresh_paced journalPath service now after a next o :
  journalRefreshInterval <=? Sub now (lastRefresh o) = true →
  lastRefresh (journal_turn journalPath service now after a next o) = after.
Proof.
  intros H. unfold journal_turn. rewrite H. destruct (openJournal _ _ _ _) as [? []]; by destruct next.
Qed.
