(* ===== verification/Subscription.v ===== *)
(** * Subscription: handlers of the items of channels ([pkg/util]: subscription.go,
    time.go).

    A group of handlers has a goroutine for each channel, which puts what it receives in
    a queue of 1000 places or drops it, and a loop that takes the items off the queue
    and handles them one after the other.  A run is a list of labels. *)

From S2P Require Import Prelude.

(** ** time.go *)

(** [t.UnixNano() / 1000] as a [uint64]: nanoseconds since 1970 in an [int64], divided
    towards zero. *)
Definition unix_epoch : Time := 62135596800 * Second.
Definition TimeToJournalTimestamp (t : Time) : Z := u64 (Z.quot (i64 (t - unix_epoch)) 1000).

(** The [n]-th tick of a ticker that was made at [began] and reset after [delay], which
    is a random part of 20% of the interval; [None] is the panic. *)
Definition TimeTickWithJitterContext (began : Time) (delay baseDuration : Duration) (n : nat) : option Time :=
  if baseDuration <=? 0 then None
  else Some (began + delay + (Z.of_nat n + 1) * baseDuration).

(** ** A single handler *)

Section Handlers.
Context {T : Type}.

(** What the select of [channelHandler.Start] takes: an item, the close of the channel
    or the cancellation. *)
Inductive event := Item (x : T) | Closed | Cancelled (err : string).

(** The items handled and the result; [None] while it waits for more. *)
Fixpoint Start (es : list event) : list T * option (option string) :=
  match es with
  | [] => ([], None)
  | Item x :: es' => let '(xs, r) := Start es' in (x :: xs, r)
  | Closed :: _ => ([], Some None)
  | Cancelled err :: _ => ([], Some (Some err))
  end.

(** ** A group *)

Definition channelHandlerQueueSize : nat := 1000.

(** [running] are the channels whose goroutines have not returned; the lists hold an
    item with the number of its channel. *)
Record group := mkGroup {
  running : list nat;
  queue : list (nat * T);
  queueClosed : bool;
  returned : bool;
  cancelled : bool;
  received : list (nat * T);
  dropped : list (nat * T);
  handled : list (nat * T)
}.

Definition NewGroup (channels : nat) : group := mkGroup (seq 0 channels) [] false false false [] [] [].

Inductive label :=
| LItem (i : nat) (x : T)     (* the goroutine of a channel receives an item *)
| LClosed (i : nat)           (* its channel is closed *)
| LStop (i : nat)             (* it sees the cancellation *)
| LStopItem (i : nat) (x : T) (* it receives an item and then sees the cancellation *)
| LCloseQueue                 (* all have returned *)
| LHandle                     (* the loop takes an item and handles it *)
| LReturn                     (* the loop finds the queue closed *)
| LReturnCancelled            (* the loop sees the cancellation *)
| LCancel.                    (* the context is cancelled *)

Definition without (i : nat) (l : list nat) : list nat := filter (λ j, j ≠ i) l.

Definition stop (i : nat) (g : group) : group :=
  mkGroup (without i (running g)) (queue g) (queueClosed g) (returned g) (cancelled g) (received g)
    (dropped g) (handled g).

Definition step (g : group) (l : label) : option group :=
  let '(mkGroup rs q qc ret can rec drp hd) := g in
  match l with
  | LItem i x =>
      if decide (i ∈ rs) then
        Some (if (length q <? channelHandlerQueueSize)%nat
              then mkGroup rs (q ++ [(i, x)]) qc ret can (rec ++ [(i, x)]) drp hd
              else mkGroup rs q qc ret can (rec ++ [(i, x)]) (drp ++ [(i, x)]) hd)
      else None
  | LClosed i => if decide (i ∈ rs) then Some (stop i g) else None
  | LStop i => if decide (i ∈ rs ∧ can = true) then Some (stop i g) else None
  | LStopItem i x =>
      if decide (i ∈ rs ∧ can = true)
      then Some (mkGroup (without i rs) q qc ret can (rec ++ [(i, x)]) (drp ++ [(i, x)]) hd) else None
  | LCloseQueue =>
      if decide (rs = [] ∧ qc = false) then Some (mkGroup rs q true ret can rec drp hd) else None
  | LHandle =>
      match q with
      | j :: q' => if ret then None else Some (mkGroup rs q' qc ret can rec drp (hd ++ [j]))
      | [] => None
      end
  | LReturn => if decide (q = [] ∧ qc = true ∧ ret = false) then Some (mkGroup rs q qc true can rec drp hd) else None
  | LReturnCancelled => if can && negb ret then Some (mkGroup rs q qc true can rec drp hd) else None
  | LCancel => Some (mkGroup rs q qc ret true rec drp hd)
  end.

Fixpoint steps (g : group) (ls : list label) : option group :=
  match ls with
  | [] => Some g
  | l :: ls' => g' ← step g l; steps g' ls'
  end.

(** ** What is handled *)

Record delivered (g : group) : Prop := {
  del_order : handled g ++ queue g `sublist_of` received g;
  del_all : Permutation (received g) (handled g ++ queue g ++ dropped g);
  del_room : (length (queue g) ≤ channelHandlerQueueSize)%nat;
  del_return : returned g = true → cancelled g = false → queue g = [] ∧ running g = [];
  del_closed : queueClosed g = true → running g = []
}.

Local Ltac solve_order := rewrite ?app_assoc; first
  [ by apply sublist_app | by apply sublist_inserts_r | rewrite <- !app_assoc; done ].

Lemma step_delivered g l g' : step g l = Some g' → delivered g → delivered g'.
Proof.
  destruct g as [rs q qc ret can rec drp hd]. intros H [Ho Ha Hr Ht Hc]. simpl in *.
  assert (Hgone : ∀ i, i ∈ rs → ret = true → can = false → False).
  { intros i Hi Hret Hcan. destruct (Ht Hret Hcan) as [_ ->]. by apply elem_of_nil in Hi. }
  assert (Hopen : ∀ i, i ∈ rs → qc = true → False).
  { intros i Hi Hqc. rewrite (Hc Hqc) in Hi. by apply elem_of_nil in Hi. }
  destruct l; simpl in H; repeat case_match; simplify_eq/=; bool_to_prop; destruct_and?; split; simpl;
    try done; try tauto; try solve_order; try (intros; exfalso; by eauto).
  - rewrite Ha, <- !app_assoc. f_equiv. f_equiv. by rewrite Permutation_app_comm.
  - rewrite length_app. simpl. match goal with H : (_ <? _)%nat = true |- _ => apply Nat.ltb_lt in H end. lia.
  - rewrite Ha. by rewrite <- !app_assoc.
  - rewrite Ha. by rewrite <- !app_assoc.
  - lia.
  - congruence.
Qed.

Lemma steps_delivered ls g g' : steps g ls = Some g' → delivered g → delivered g'.
Proof.
  revert g. induction ls as [|l ls IH]; intros g; simpl; [by intros [= <-]|].
  destruct (step g l) as [g1|] eqn:E; simpl; [|done]. intros H Hg. apply (IH g1 H). by apply (step_delivered g l).
Qed.

Lemma sublist_same_length {A} (l k : list A) : l `sublist_of` k → length l = length k → l = k.
Proof.
  induction 1 as [|x l k H IH|x l k H IH]; simpl; [done|intros [=]; by rewrite IH|].
  apply sublist_length in H. lia.
Qed.

(** A group handles items one at a time, in the order it received them, at most once
    each, and drops an item only when 1000 are waiting or it is cancelled: what it has
    handled and what is waiting is a subsequence of what it received, nothing received
    is elsewhere than handled, waiting or dropped, and when it returns without having
    been cancelled it has handled everything it received and did not drop. *)
Theorem group_delivery channels ls g :
  steps (NewGroup channels) ls = Some g →
  (handled g ++ queue g `sublist_of` received g) ∧
  Permutation (received g) (handled g ++ queue g ++ dropped g) ∧
  (length (queue g) ≤ channelHandlerQueueSize)%nat ∧
  (∀ i x g', step g (LItem i x) = Some g' →
     dropped g' = dropped g ∨ length (queue g) = channelHandlerQueueSize) ∧
  (returned g = true → cancelled g = false → queue g = [] ∧ running g = [] ∧
     (dropped g = [] → handled g = received g)).
Proof.
  intros H. apply steps_delivered in H as [Ho Ha Hr Ht Hc]; [|by split; simpl; try lia].
  split_and!; try done.
  { intros i x g'. destruct g as [rs q qc ret can rec drp hd]. simpl in *. case_decide; [|done].
    destruct (Nat.ltb_spec (length q) channelHandlerQueueSize); intros [= <-]; [by left|right; simpl; lia]. }
  intros Hret Hcan. destruct (Ht Hret Hcan) as [Hq Hrun]. split_and!; try done.
  intros Hd. rewrite Hq, Hd, ?app_nil_r in *. apply sublist_same_length; [done|by rewrite Ha].
Qed.
End Handlers.

(** Two channels: an item is handled while another waits, both channels are closed, and
    the group returns when the queue is empty. *)
Definition ex_run : list (@label Z) :=
  [LItem 0 10; LItem 1 20; LHandle; LItem 0 11; LClosed 1; LClosed 0; LCloseQueue; LHandle; LHandle; LReturn].

Lemma group_delivery_witness :
  ∃ g, steps (NewGroup 2) ex_run = Some g ∧ returned g = true ∧ handled g = received g ∧
       (handled g ++ queue g `sublist_of` received g).
Proof.
  eexists. split; [reflexivity|]. split; [reflexivity|]. split; [reflexivity|].
  exact (proj1 (group_delivery 2 ex_run _ eq_refl)).
Defined.
