(* ===== verification/Neuron.v ===== *)
(** * Neuron: the rules on kernel messages of the accelerator monitors
    ([monitors/neuron/monitor.go], [monitors/nvidia/nccl/nccl.go]). *)

From S2P Require Import Prelude GoStrings GoRegexp Monitor Reasons.

Record neuronMonitorRule := mkRule { ruleRegex : regex; ruleCondition : Condition }.

Definition neuron_regex (code : string) : regex := [any; Lit (" NEURON_HW_ERR=" +:+ code +:+ " "); any].

Definition getNeuronMonitorRules : list neuronMonitorRule :=
  [mkRule (neuron_regex "SRAM_UNCORRECTABLE_ERROR")
     (condition_of NeuronSRAMUncorrectableError [] "Discovered SRAM Uncorrectable Error");
   mkRule (neuron_regex "NC_UNCORRECTABLE_ERROR")
     (condition_of NeuronNCUncorrectableError [] "Discovered NC Uncorrectable Error");
   mkRule (neuron_regex "HBM_UNCORRECTABLE_ERROR")
     (condition_of NeuronHBMUncorrectableError [] "Discovered HBM Uncorrectable Error");
   mkRule (neuron_regex "DMA_ERROR") (condition_of NeuronDMAError [] "Discovered DMA Error")].

(** The conditions notified, and the error of the first notification that fails; [sent]
    is [Some] error for one that fails. *)
Fixpoint notify_rules (sent : Condition → option string) (line : string) (rules : list neuronMonitorRule)
    : list Condition * option string :=
  match rules with
  | [] => ([], None)
  | rule :: rest =>
      if MatchString (ruleRegex rule) line then
        match sent (ruleCondition rule) with
        | Some err => ([ruleCondition rule], Some err)
        | None => let '(out, err) := notify_rules sent line rest in (ruleCondition rule :: out, err)
        end
      else notify_rules sent line rest
  end.

Definition handleNeuron (sent : Condition → option string) (line : string) : list Condition * option string :=
  notify_rules sent line getNeuronMonitorRules.

Definition regexNCCLSegfaultInLibnccl : regex := [any; Lit "segfault at"; any; Lit "in libnccl.so"; any].

(** [line] is the next message of the channel, empty when it is closed. *)
Definition Step (line : string) : list Condition :=
  if MatchString regexNCCLSegfaultInLibnccl line then
    [condition_of NvidiaNCCLError [] "NCCL communication error caused by segfault in libnccl.so"]
  else [].

Example neuron_ex :
  fst (handleNeuron (λ _, None) "nd0: NEURON_HW_ERR=DMA_ERROR instance") =
  [condition_of NeuronDMAError [] "Discovered DMA Error"].
Proof. vm_compute. reflexivity. Qed.
Example nccl_ex :
  Step "pt_main_thread[2536443]: segfault at 7f797fe00000 ip 0 sp 0 error 4 in libnccl.so.2[7f7c7ac00000+d3d3000]" =
  [condition_of NvidiaNCCLError [] "NCCL communication error caused by segfault in libnccl.so"].
Proof. vm_compute. reflexivity. Qed.
