(* ===== verification/Dcgm.v ===== *)
(** * Dcgm: the client of the DCGM host engine ([monitors/nvidia/dcgm/dcgm_client.go]).

    [dcgmHelper] is the state of the client; the library it calls is not part of
    the repository, so that what each of its calls answers during one operation is
    a record of arguments, and its constants a class.  An operation threads the
    state and the list of the calls made so far, in order: what the client does to
    the engine is that list.  The protocol between the two (what is connected, which
    listener is live) is an automaton over the list.  The goroutine that reconciles and
    those of the requests share the helper without a lock, so that the theorem about the
    protocol is about any interleaving of their moves. *)

From stdpp Require Import gmultiset.
From S2P Require Import Prelude GoStrings.

(** ** The library's types *)

(** [PolicyCondition], with the conditions the client names. *)
Inductive PolicyCondition :=
| DbePolicy
| XidPolicy
| NvlinkPolicy
| MaxRtPgPolicy
| PowerPolicy
| ThermalPolicy
| PCIePolicy
| OtherPolicy (name : string).

#[export] Instance PolicyCondition_eq_dec : EqDecision PolicyCondition.
Proof. solve_decision. Defined.

(** The dynamic value of an [interface{}] that holds a threshold. *)
Inductive threshold :=
| TUint32 (z : Z)
| TUint (z : Z)
| TInt (z : Z)
| TInt32 (z : Z)
| TInt64 (z : Z)
| TOther (type : string).

Record PolicyStatus := mkPolicyStatus {
  psAction : Z;
  psValidation : Z;
  psConditions : PolicyCondition → option threshold
}.

Record PolicyConfig := mkPolicyConfig {
  pcCondition : PolicyCondition;
  MaxRetiredPages : option Z;
  MaxPower : option Z;
  MaxTemperature : option Z;
  pcAction : option Z;
  pcValidation : option Z
}.

Class DcgmConstants := {
  DCGM_ST_INSUFFICIENT_SIZE : Z;
  DCGM_ST_NOT_CONFIGURED : Z;
  DefaultMaxRetiredPages : Z;
  DefaultMaxTemperature : Z
}.

(** An error of the library: the code of a [*dcgmapi.Error] when it is one, and its text. *)
Record LibError := mkLibError { leCode : option Z; leText : string }.

(** ** The client *)

Inductive Feature :=
| FeatureHealthSystems
| FeaturePolicyViolations
| FeatureActiveDiagnostics
| FeatureFields.

#[export] Instance Feature_eq_dec : EqDecision Feature.
Proof. solve_decision. Defined.

Record DCGMConfig := mkDCGMConfig {
  Address : string;
  InitializationGracePeriod : Duration;
  Features : list Feature;
  PowerPolicyThresholdWatts : option Z
}.

(** What a shutdown handler does: cancel the context with that number, or destroy a
    field group and terminate the module of the fields. *)
Inductive shutdownHandler :=
| CancelPolicyViolationChannel (ctx : nat)
| DestroyFields (handle : Z).

(** [contexts] numbers the contexts made so far; the Go code has their pointers. *)
Record dcgmHelper := mkHelper {
  config : DCGMConfig;
  initialized : bool;
  lastShutdown : Time;
  shutdownHandlers : list shutdownHandler;
  fieldHandle : Z;
  contexts : nat
}.

(** The calls of the library and of the contexts it is given. *)
Inductive call :=
| CIntrospect
| CShutdown
| CInit (address : string) (ok : bool)
| CWithCancel (ctx : nat)
| CCancel (ctx : nat)
| CListen (ctx : nat) (conds : list PolicyCondition)
| CGetPolicy
| CSetPolicy (configs : list PolicyConfig)
| CWatchPolicies (ctx : nat) (conds : list PolicyCondition)
| CHealthSet
| CFieldsInit
| CFieldGroupCreate
| CWatchFields (handle : Z)
| CFieldGroupDestroy (handle : Z)
| CFieldsTerm
| CRunDiag (diagType : Z)
| CHealthCheck
| CGetValuesSince (handle : Z) (since : Time)
| CGetAllDeviceCount.

#[export] Instance PolicyConfig_eq_dec : EqDecision PolicyConfig.
Proof. solve_decision. Defined.
#[export] Instance call_eq_dec : EqDecision call.
Proof. solve_decision. Defined.

(** What the library answers during one [Reconcile]: [None] is a nil error. *)
Record Answers := mkAnswers {
  aIntrospect : option string;
  aShutdown : option string;
  aShutdownTime : Time;
  aInit : option string;
  aInitTime : Time;
  aListen : option string;
  aGetPolicy : result LibError (option PolicyStatus);
  aSetPolicy : option string;
  aWatchPolicies : option string;
  aHealthSet : option string;
  aFieldsInit : Z;
  aFieldGroupCreate : result string Z;
  aWatchFields : option string
}.

(** ** Threading the state *)

(** The moves of an operation, for what may run beside it: a call of the library, or a
    write of the helper's fields. *)
Inductive move := MCall (c : call) | MWrite (h : dcgmHelper).

Record world := mkWorld { helper : dcgmHelper; trace : list call; moves : list move }.

Definition op (A : Type) : Type := world → world * result string A.

Definition ret {A} (x : A) : op A := λ w, (w, Ok x).
Definition fail {A} (e : string) : op A := λ w, (w, Err e).
Definition bind {A B} (m : op A) (k : A → op B) : op B :=
  λ w, let '(w, r) := m w in match r with Ok x => k x w | Err e => (w, Err e) end.
Definition log (c : call) : op () := λ w, (mkWorld (helper w) (trace w ++ [c]) (moves w ++ [MCall c]), Ok ()).
Definition get : op dcgmHelper := λ w, (w, Ok (helper w)).
Definition put (h : dcgmHelper) : op () := λ w, (mkWorld h (trace w) (moves w ++ [MWrite h]), Ok ()).

(** A call whose answer is an error or nil; [wrap] is the format of the message. *)
Definition try (wrap : string → string) (e : option string) : op () :=
  match e with None => ret () | Some e => fail (wrap e) end.

Declare Scope dcgm_scope.
Delimit Scope dcgm_scope with dcgm.
Notation "x '<-!' m ';;' k" := (bind m (λ x, k))
  (at level 100, m at next level, right associativity) : dcgm_scope.
Notation "m ';;!' k" := (bind m (λ _, k))
  (at level 100, right associativity) : dcgm_scope.
#[local] Open Scope dcgm_scope.

Definition set_initialized (b : bool) (h : dcgmHelper) : dcgmHelper :=
  mkHelper (config h) b (lastShutdown h) (shutdownHandlers h) (fieldHandle h) (contexts h).
Definition add_handler (s : shutdownHandler) (h : dcgmHelper) : dcgmHelper :=
  mkHelper (config h) (initialized h) (lastShutdown h) (shutdownHandlers h ++ [s]) (fieldHandle h) (contexts h).
Definition set_field_handle (f : Z) (h : dcgmHelper) : dcgmHelper :=
  mkHelper (config h) (initialized h) (lastShutdown h) (shutdownHandlers h) f (contexts h).
Definition set_contexts (n : nat) (h : dcgmHelper) : dcgmHelper :=
  mkHelper (config h) (initialized h) (lastShutdown h) (shutdownHandlers h) (fieldHandle h) n.

(** The deferred function of [shutdown]. *)
Definition after_shutdown (now : Time) (h : dcgmHelper) : dcgmHelper :=
  mkHelper (config h) false now [] (fieldHandle h) (contexts h).

Definition enabled (f : Feature) (h : dcgmHelper) : bool := bool_decide (f ∈ Features (config h)).

(** ** Operations *)

(** [address] is the [DCGM_ADDRESS] of the environment. *)
Definition NewDCGM (c : DCGMConfig) (address : option string) (now : Time) : dcgmHelper :=
  let a := if String.eqb (Address c) EmptyString then default "localhost:5555" address else Address c in
  mkHelper (mkDCGMConfig a (InitializationGracePeriod c) (Features c) (PowerPolicyThresholdWatts c))
    false now [] 0 0.

Definition SetPowerPolicyThresholdWatts (watts : Z) (h : dcgmHelper) : dcgmHelper :=
  let c := config h in
  mkHelper (mkDCGMConfig (Address c) (InitializationGracePeriod c) (Features c) (Some watts))
    (initialized h) (lastShutdown h) (shutdownHandlers h) (fieldHandle h) (contexts h).

Definition run_handler (s : shutdownHandler) : op () :=
  match s with
  | CancelPolicyViolationChannel ctx => log (CCancel ctx)
  | DestroyFields handle => log (CFieldGroupDestroy handle);;! log CFieldsTerm
  end.

Fixpoint run_handlers (ss : list shutdownHandler) : op () :=
  match ss with
  | [] => ret ()
  | s :: ss' => run_handler s;;! run_handlers ss'
  end.

Definition shutdown (a : Answers) : op () :=
  h <-! get;;
  if initialized h then
    run_handlers (shutdownHandlers h);;!
    log CShutdown;;!
    put (after_shutdown (aShutdownTime a) h);;!
    try (prefixed "failed to shutdown DCGM") (aShutdown a)
  else ret ().

Definition monitoredPolicyConditions : list PolicyCondition :=
  [DbePolicy; XidPolicy; NvlinkPolicy; MaxRtPgPolicy; PowerPolicy; ThermalPolicy; PCIePolicy].

Section Client.
Context `{DcgmConstants}.

Definition policyReadNeedsDefaultSetup (err : LibError) : bool :=
  match leCode err with
  | None => false
  | Some code => (code =? DCGM_ST_INSUFFICIENT_SIZE) || (code =? DCGM_ST_NOT_CONFIGURED)
  end.

Definition policyThresholdUint32 (value : threshold) (defaultValue : Z) : Z :=
  match value with
  | TUint32 z => z
  | TUint z => u32 z
  | TInt z | TInt32 z | TInt64 z => if 0 <=? z then u32 z else defaultValue
  | TOther _ => defaultValue
  end.

Definition policyConfig (status : PolicyStatus) (powerThresholdWatts : Z) (c : PolicyCondition) : PolicyConfig :=
  let current default :=
    match psConditions status c with
    | Some value => policyThresholdUint32 value default
    | None => default
    end in
  match c with
  | MaxRtPgPolicy => mkPolicyConfig c (Some (current (u32 DefaultMaxRetiredPages))) None None None None
  | PowerPolicy => mkPolicyConfig c None (Some powerThresholdWatts) None None None
  | ThermalPolicy => mkPolicyConfig c None None (Some (current (u32 DefaultMaxTemperature))) None None
  | _ => mkPolicyConfig c None None None None None
  end.

Definition set_action (status : PolicyStatus) (c : PolicyConfig) : PolicyConfig :=
  mkPolicyConfig (pcCondition c) (MaxRetiredPages c) (MaxPower c) (MaxTemperature c)
    (Some (psAction status)) (Some (psValidation status)).

Definition policyConfigs (status : option PolicyStatus) (powerThresholdWatts : Z)
    : result string (list PolicyConfig) :=
  match status with
  | None => Err "DCGM returned an empty policy status"
  | Some status =>
      let configs := policyConfig status powerThresholdWatts <$> monitoredPolicyConditions in
      Ok (alter (set_action status) 0%nat configs)
  end.

Definition empty_status : PolicyStatus := mkPolicyStatus 0 0 (λ _, None).

Definition listenForPolicyViolations (a : Answers) (ctx : nat) : op () :=
  h <-! get;;
  match PowerPolicyThresholdWatts (config h) with
  | None =>
      log (CListen ctx monitoredPolicyConditions);;!
      try id (aListen a)
  | Some watts =>
      log CGetPolicy;;!
      status <-! match aGetPolicy a with
               | Ok status => ret status
               | Err err =>
                   if policyReadNeedsDefaultSetup err then ret (Some empty_status)
                   else fail (prefixed "failed to read DCGM policies" (leText err))
               end;;
      configs <-! match policyConfigs status watts with Ok cs => ret cs | Err e => fail e end;;
      log (CSetPolicy configs);;!
      try (prefixed "failed to configure DCGM policies") (aSetPolicy a);;!
      log (CWatchPolicies ctx monitoredPolicyConditions);;!
      try id (aWatchPolicies a)
  end.

(** The blocks of [Reconcile], each run when its feature is enabled. *)
Definition setup_policies (a : Answers) : op () :=
  h <-! get;;
  let ctx := contexts h in
  put (set_contexts (S ctx) h);;!
  log (CWithCancel ctx);;!
  (λ w, let '(w, r) := listenForPolicyViolations a ctx w in
        match r with
        | Ok _ => (h <-! get;; put (add_handler (CancelPolicyViolationChannel ctx) h)) w
        | Err e => (log (CCancel ctx);;! fail (prefixed "failed to register DCGM policies" e)) w
        end).

Definition setup_health (a : Answers) : op () :=
  log CHealthSet;;!
  try (prefixed "failed to enable DCGM health check system watchers") (aHealthSet a).

Definition setup_fields (a : Answers) : op () :=
  log CFieldsInit;;!
  if negb (aFieldsInit a =? 0) then fail "failed to initialize DCGM fields modules"
  else
    log CFieldGroupCreate;;!
    match aFieldGroupCreate a with
    | Err e => fail e
    | Ok handle =>
        log (CWatchFields handle);;!
        try id (aWatchFields a);;!
        h <-! get;;
        put (add_handler (DestroyFields handle) (set_field_handle handle h))
    end.

Definition when (f : Feature) (m : op ()) : op () :=
  h <-! get;; if enabled f h then m else ret ().

(** The part of [Reconcile] after a successful [Init]. *)
Definition setup (a : Answers) : op () :=
  when FeaturePolicyViolations (setup_policies a);;!
  when FeatureHealthSystems (setup_health a);;!
  when FeatureFields (setup_fields a).

Definition in_grace (a : Answers) (h : dcgmHelper) : bool :=
  Before (aInitTime a) (TimeAdd (lastShutdown h) (InitializationGracePeriod (config h))).

(** [Introspect] as the health check of a connection. *)
Definition alive (a : Answers) : op bool :=
  h <-! get;;
  if initialized h then log CIntrospect;;! ret (bool_decide (aIntrospect a = None)) else ret false.

Definition connect (a : Answers) : op bool :=
  h <-! get;;
  match aInit a with
  | Some e =>
      log (CInit (Address (config h)) false);;!
      if in_grace a h then ret false else fail (prefixed "failed to initialize DCGM" e)
  | None =>
      log (CInit (Address (config h)) true);;!
      put (set_initialized true h);;!
      setup a;;!
      ret true
  end.

Definition Reconcile (a : Answers) : op bool :=
  ok <-! alive a;;
  if (ok : bool) then ret false
  else shutdown a;;! connect a.

(** ** The requests *)

(** [ErrNotInitialized], which callers compare with [errors.Is], or another error. *)
Inductive DcgmError := ErrNotInitialized | OtherError (text : string).

(** What a request finds before it calls the library. *)
Inductive verdict := Off | NotReady | Go.
Definition guard (feature : option Feature) (h : dcgmHelper) : verdict :=
  if match feature with Some f => negb (enabled f h) | None => false end then Off
  else if negb (initialized h) then NotReady else Go.

(** [None] is the zero value that is returned when the feature is off; [answer] is
    what the library answers if it is called. *)
Definition request {A} (feature : option Feature) (c : dcgmHelper → call) (wrap : string → string)
    (answer : result string A) (w : world) : world * result DcgmError (option A) :=
  let h := helper w in
  match guard feature h with
  | Off => (w, Ok None)
  | NotReady => (w, Err ErrNotInitialized)
  | Go => (mkWorld h (trace w ++ [c h]) (moves w ++ [MCall (c h)]),
           match answer with Ok x => Ok (Some x) | Err e => Err (OtherError (wrap e)) end)
  end.

Definition RunDiag {A} (diagType : Z) : result string A → world → world * result DcgmError (option A) :=
  request (Some FeatureActiveDiagnostics) (λ _, CRunDiag diagType) id.

Definition HealthCheck {A} : result string A → world → world * result DcgmError (option A) :=
  request (Some FeatureHealthSystems) (λ _, CHealthCheck) (prefixed "failed to call DCGM health check").

Definition GetValuesSince {A} (since : Time) : result string A → world → world * result DcgmError (option A) :=
  request (Some FeatureFields) (λ h, CGetValuesSince (fieldHandle h) since) id.

Definition GetDeviceCount {A} : result string A → world → world * result DcgmError (option A) :=
  request None (λ _, CGetAllDeviceCount) id.

End Client.

(** ** The protocol with the engine

    What a list of calls leaves behind: whether the client is connected, the context
    of the live policy listener, and the field groups of the connection.  A call out of
    turn has no successor: one made while not connected, a second listener (the
    registrations share a channel, so that two would take each other's events), a
    listener still live at [Shutdown], or a field group destroyed twice. *)

Record engine := mkEngine {
  connected : bool;
  listener : option nat;
  groups : gmultiset Z
}.

Definition engine_step (e : engine) (c : call) : option engine :=
  match c with
  | CInit _ ok =>
      if connected e then None
      else if decide (listener e = None) then Some (mkEngine ok None ∅) else None
  | CShutdown =>
      if connected e then
        if decide (listener e = None) then Some (mkEngine false None ∅) else None
      else None
  | CWithCancel ctx =>
      if connected e then
        if decide (listener e = None) then Some (mkEngine true (Some ctx) (groups e)) else None
      else None
  | CCancel ctx =>
      if decide (listener e = Some ctx) then Some (mkEngine (connected e) None (groups e)) else None
  | CListen ctx _ | CWatchPolicies ctx _ =>
      if connected e then if decide (listener e = Some ctx) then Some e else None else None
  | CWatchFields g => if connected e then Some (mkEngine true (listener e) ({[+ g +]} ⊎ groups e)) else None
  | CFieldGroupDestroy g =>
      if connected e then
        if decide (g ∈ groups e) then Some (mkEngine true (listener e) (groups e ∖ {[+ g +]})) else None
      else None
  | _ => if connected e then Some e else None
  end.

Definition engine_run (e : engine) (t : list call) : option engine :=
  foldl (λ e c, e ≫= λ e, engine_step e c) (Some e) t.

Definition engine_start : engine := mkEngine false None ∅.

Lemma engine_run_app e t t' : engine_run e (t ++ t') = engine_run e t ≫= λ e', engine_run e' t'.
Proof.
  unfold engine_run. rewrite foldl_app. destruct (foldl _ (Some e) t); [done|].
  simpl. by induction t'.
Qed.

Lemma engine_run_snoc e t c : engine_run e (t ++ [c]) = engine_run e t ≫= λ e', engine_step e' c.
Proof. rewrite engine_run_app. by destruct (engine_run e t). Qed.

(** The contexts and the groups that a list of handlers releases. *)
Definition cancels (ss : list shutdownHandler) : list nat :=
  omap (λ s, match s with CancelPolicyViolationChannel k => Some k | _ => None end) ss.
Definition destroys (ss : list shutdownHandler) : list Z :=
  omap (λ s, match s with DestroyFields g => Some g | _ => None end) ss.

(** The engine [e] is where the calls lead, and the helper's flag and handlers
    account for its connection, its listener and the groups it may destroy. *)
Definition at_engine (e : engine) (w : world) : Prop := engine_run engine_start (trace w) = Some e.

Record accounts (e : engine) (h : dcgmHelper) : Prop := {
  acc_connected : connected e = initialized h;
  acc_listener : cancels (shutdownHandlers h) = option_list (listener e);
  acc_groups : list_to_set_disj (destroys (shutdownHandlers h)) ⊆ groups e;
  acc_idle : initialized h = false → shutdownHandlers h = []
}.

(** [inv P] adds [P] to the invariant. *)
Definition inv (P : engine → dcgmHelper → Prop) (w : world) : Prop :=
  ∃ e, at_engine e w ∧ accounts e (helper w) ∧ P e (helper w).

Definition any (e : engine) (h : dcgmHelper) : Prop := True.
Definition up (e : engine) (h : dcgmHelper) : Prop := connected e = true.
Definition quiet (e : engine) (h : dcgmHelper) : Prop := connected e = true ∧ listener e = None.
Definition down (e : engine) (h : dcgmHelper) : Prop := connected e = false.

(** [m] leads from [I] to [J], whether it succeeds or fails. *)
Definition leads {A} (I J : world → Prop) (m : op A) : Prop := ∀ w, I w → J (m w).1.

Lemma leads_bind {A B} (I J K : world → Prop) (m : op A) (k : A → op B) :
  (∀ w, J w → K w) → leads I J m → (∀ x, leads J K (k x)) → leads I K (bind m k).
Proof.
  intros HJK Hm Hk w Hw. unfold bind. specialize (Hm w Hw). destruct (m w) as [w' [x|e]]; simpl in *.
  - by apply Hk.
  - by apply HJK.
Qed.

Lemma leads_try I wrap e : leads I I (try wrap e).
Proof. intros w Hw. by destruct e. Qed.

Lemma leads_when I f m : leads I I m → leads I I (when f m).
Proof. intros Hm w Hw. unfold when, bind, get. simpl. destruct (enabled f (helper w)); [by apply Hm|done]. Qed.

Lemma at_log e c e' w : at_engine e w → engine_step e c = Some e' → at_engine e' (log c w).1.
Proof. unfold at_engine, log. simpl. intros Hw Hc. by rewrite engine_run_snoc, Hw. Qed.

(** The calls that leave the engine as it is. *)
Definition plain_call (c : call) : bool :=
  match c with
  | CIntrospect | CGetPolicy | CSetPolicy _ | CHealthSet | CFieldsInit | CFieldGroupCreate | CFieldsTerm
  | CRunDiag _ | CHealthCheck | CGetValuesSince _ _ | CGetAllDeviceCount => true
  | _ => false
  end.

Lemma plain_step e c : plain_call c = true → connected e = true → engine_step e c = Some e.
Proof. intros Hp He. destruct c; try done; simpl; by rewrite He. Qed.

Lemma log_up c : plain_call c = true → leads (inv up) (inv up) (log c).
Proof.
  intros Hp w (e & Hw & Ha & He). exists e. split; [|done].
  apply at_log with e; [done|]. by apply plain_step.
Qed.

(** The handlers release what they account for, and only that. *)
Lemma run_handlers_engine ss e w :
  at_engine e w → connected e = true →
  cancels ss = option_list (listener e) → list_to_set_disj (destroys ss) ⊆ groups e →
  ∃ e', at_engine e' (run_handlers ss w).1 ∧ (run_handlers ss w).2 = Ok () ∧
        helper (run_handlers ss w).1 = helper w ∧ connected e' = true ∧ listener e' = None.
Proof.
  revert e w. induction ss as [|s ss IH]; intros e w Hw Hc Hl Hg.
  { exists e. do 4 (split; [done|]). simpl in Hl. by destruct (listener e). }
  destruct s as [k|g].
  - simpl in Hl. assert (Hk : listener e = Some k ∧ cancels ss = []).
    { destruct (listener e); [injection Hl; naive_solver|done]. }
    destruct Hk as [Hk Hss].
    assert (Hw' : at_engine (mkEngine (connected e) None (groups e)) (log (CCancel k) w).1).
    { apply at_log with e; [done|]. simpl. by rewrite decide_True. }
    destruct (IH _ _ Hw') as (e' & He'); [done..|]. exists e'. exact He'.
  - simpl in Hg, Hl.
    set (e1 := mkEngine true (listener e) (groups e ∖ {[+ g +]})).
    assert (Hw1 : at_engine e1 (log CFieldsTerm (log (CFieldGroupDestroy g) w).1).1).
    { apply at_log with e1; [|done]. apply at_log with e; [done|]. simpl. rewrite Hc.
      rewrite decide_True by multiset_solver. done. }
    destruct (IH _ _ Hw1) as (e' & He'); [done|done| |].
    { unfold e1. simpl. multiset_solver. }
    exists e'. exact He'.
Qed.

Lemma shutdown_down a : leads (inv any) (inv down) (shutdown a).
Proof.
  intros w (e & Hw & [Hc Hl Hg Hi] & _). unfold shutdown, bind at 1, get. simpl.
  destruct (initialized (helper w)) eqn:Ei.
  - destruct (run_handlers_engine _ e w Hw Hc Hl Hg) as (e' & He' & Hr & Hh & Hc' & Hl').
    unfold bind. destruct (run_handlers _ w) as [w1 r]. simpl in *. subst r.
    assert (Hw2 : at_engine engine_start (log CShutdown w1).1).
    { apply at_log with e'; [done|]. simpl. by rewrite Hc', decide_True. }
    exists engine_start. by destruct (aShutdown a).
  - exists e. split; [done|]. split; [|done]. split; simpl; [congruence|done|done|intros _; by apply Hi].
Qed.

Lemma alive_any a : leads (inv any) (inv any) (alive a).
Proof.
  intros w (e & Hw & Ha & _). unfold alive, bind at 1, get. simpl.
  destruct (initialized (helper w)) eqn:Ei; [|by exists e].
  exists e. split; [|done]. simpl. apply at_log with e; [done|]. simpl.
  by rewrite (acc_connected _ _ Ha), Ei.
Qed.

Lemma alive_eq a w :
  alive a w = (if initialized (helper w)
               then (mkWorld (helper w) (trace w ++ [CIntrospect]) (moves w ++ [MCall CIntrospect]), Ok (bool_decide (aIntrospect a = None)))
               else (w, Ok false)).
Proof. unfold alive, bind, get. simpl. by destruct (initialized (helper w)). Qed.

Section Protocol.
Context `{DcgmConstants}.

(** While it is set up, the listener of [ctx] is live but has no handler yet. *)
Definition starting (ctx : nat) (w : world) : Prop :=
  ∃ e, at_engine e w ∧ connected e = true ∧ listener e = Some ctx ∧
       accounts (mkEngine true None (groups e)) (helper w).

Lemma starting_log ctx c :
  (∀ e, connected e = true → listener e = Some ctx → engine_step e c = Some e) →
  leads (starting ctx) (starting ctx) (log c).
Proof.
  intros Hc w (e & Hw & He & Hl & Ha). exists e. split; [|done]. apply at_log with e; [done|]. by apply Hc.
Qed.

(** Listening for violations keeps whatever its calls keep. *)
Definition listen_call (ctx : nat) (c : call) : Prop :=
  match c with
  | CGetPolicy | CSetPolicy _ => True
  | CListen k _ | CWatchPolicies k _ => k = ctx
  | _ => False
  end.

Lemma listen_leads I a ctx :
  (∀ c, listen_call ctx c → leads I I (log c)) → leads I I (listenForPolicyViolations a ctx).
Proof.
  intros Hlog w Hw. unfold listenForPolicyViolations, bind at 1, get. simpl.
  destruct (PowerPolicyThresholdWatts _) as [watts|]; revert w Hw.
  - eapply leads_bind; [done|by apply Hlog|intros _].
    eapply leads_bind; [done| |intros st].
    { intros w Hw. destruct (aGetPolicy a) as [?|err]; [done|].
      by destruct (policyReadNeedsDefaultSetup err). }
    eapply leads_bind; [done| |intros cs].
    { intros w Hw. by destruct (policyConfigs st watts). }
    eapply leads_bind; [done|by apply Hlog|intros _].
    eapply leads_bind; [done|apply leads_try|intros _].
    eapply leads_bind; [done|by apply Hlog|intros _]. apply leads_try.
  - eapply leads_bind; [done|by apply Hlog|intros _]. apply leads_try.
Qed.

Lemma listen_starting a ctx : leads (starting ctx) (starting ctx) (listenForPolicyViolations a ctx).
Proof.
  apply listen_leads. intros c Hc. apply starting_log. intros e He Hl.
  destruct c; try done; simpl in *; rewrite He; try done; subst; by rewrite decide_True.
Qed.

Lemma setup_policies_up a : leads (inv quiet) (inv up) (setup_policies a).
Proof.
  intros w (e & Hw & [Hc Hl Hg Hi] & Hq & Hn). unfold setup_policies, bind, get, put. simpl.
  set (ctx := contexts (helper w)). set (w1 := mkWorld _ _ _).
  assert (Hs : starting ctx w1).
  { exists (mkEngine true (Some ctx) (groups e)). split; [|split; [done|split; [done|]]].
    - unfold at_engine, w1. simpl. rewrite engine_run_snoc, Hw. simpl. by rewrite Hq, decide_True.
    - rewrite Hn in Hl. split; simpl; [congruence|done|done|done]. }
  apply (listen_starting a ctx) in Hs. destruct (listenForPolicyViolations a ctx w1) as [w2 r].
  destruct Hs as (e2 & Hw2 & He2 & Hl2 & [Hc2 Hl2' Hg2 Hi2]); simpl in *. destruct r as [[]|err]; simpl.
  - exists e2. split; [done|]. split; [|done]. split; simpl.
    + congruence.
    + unfold cancels in *. by rewrite omap_app, Hl2', Hl2.
    + unfold destroys in *. by rewrite omap_app, app_nil_r.
    + congruence.
  - exists (mkEngine (connected e2) None (groups e2)). split; [|split; [|done]].
    + apply (at_log _ (CCancel ctx) _ _ Hw2). simpl. by rewrite decide_True.
    + by split; simpl; [congruence|..].
Qed.

Lemma setup_health_up a : leads (inv up) (inv up) (setup_health a).
Proof. eapply leads_bind; [done|by apply log_up|intros _; apply leads_try]. Qed.

Lemma setup_fields_up a : leads (inv up) (inv up) (setup_fields a).
Proof.
  eapply leads_bind; [done|by apply log_up|intros _]. destruct (negb _); [by intros ? ?|].
  eapply leads_bind; [done|by apply log_up|intros _].
  destruct (aFieldGroupCreate a) as [g|err]; [|by intros ? ?].
  intros w (e & Hw & [Hc Hl Hg Hi] & He). unfold up in He.
  set (e1 := mkEngine true (listener e) ({[+ g +]} ⊎ groups e)).
  assert (Hw1 : at_engine e1 (log (CWatchFields g) w).1) by (apply at_log with e; [|simpl; rewrite He]; done).
  unfold bind. simpl in *. destruct (aWatchFields a); simpl; exists e1; (split; [done|split; [|done]]).
  - split; simpl; [congruence|done|multiset_solver|congruence].
  - split; simpl; [congruence|..].
    + unfold cancels in *. by rewrite omap_app, Hl, app_nil_r.
    + unfold destroys in *. rewrite omap_app. simpl. rewrite list_to_set_disj_app. simpl. multiset_solver.
    + congruence.
Qed.

Lemma setup_up a : leads (inv quiet) (inv up) (setup a).
Proof.
  unfold setup. eapply leads_bind; [done| |intros _].
  - intros w Hw. unfold when, bind, get. simpl. destruct (enabled _ _); [by apply setup_policies_up|].
    destruct Hw as (e & ? & ? & ? & ?). by exists e.
  - eapply leads_bind; [done|apply leads_when, setup_health_up|intros _; apply leads_when, setup_fields_up].
Qed.

Lemma connect_any a : leads (inv down) (inv any) (connect a).
Proof.
  intros w (e & Hw & [Hc Hl Hg Hi] & He). unfold down in He.
  rewrite He in Hc. specialize (Hi (eq_sym Hc)).
  assert (Hn : listener e = None) by (rewrite Hi in Hl; by destruct (listener e)).
  unfold connect, bind at 1, get. simpl. destruct (aInit a) as [err|].
  - assert (inv any (log (CInit (Address (config (helper w))) false) w).1).
    { exists engine_start. split; [|split; [|done]].
      - apply at_log with e; [done|]. simpl. by rewrite He, decide_True.
      - split; simpl; [done|by rewrite Hi|rewrite Hi; simpl; multiset_solver|done]. }
    unfold bind. simpl. by destruct (in_grace _ _).
  - unfold bind, put. simpl. set (w1 := mkWorld _ _ _).
    assert (Hq : inv quiet w1).
    { exists (mkEngine true None ∅). split; [|split; [|done]].
      - unfold at_engine, w1. simpl. rewrite engine_run_snoc, Hw. simpl. by rewrite He, decide_True.
      - split; simpl; [done|by rewrite Hi|rewrite Hi; simpl; multiset_solver|done]. }
    apply (setup_up a) in Hq. destruct (setup a w1) as [w2 r]. destruct Hq as (e2 & ? & ? & ?).
    destruct r; by exists e2.
Qed.

Lemma Reconcile_any a : leads (inv any) (inv any) (Reconcile a).
Proof.
  eapply leads_bind; [done|apply alive_any|intros [|]; [by intros ? ?|]].
  eapply leads_bind; [|apply shutdown_down|intros _; apply connect_any].
  intros w (e & ? & ? & ?). by exists e.
Qed.

Lemma request_any {A} f c wrap (answer : result string A) w :
  (∀ h, plain_call (c h) = true) → inv any w → inv any (request f c wrap answer w).1.
Proof.
  intros Hc (e & Hw & Ha & _). unfold request, guard.
  destruct (match f with Some _ => _ | None => _ end); [by exists e|].
  destruct (initialized (helper w)) eqn:Ei; [|by exists e]. exists e. split; [|done].
  apply at_log with e; [done|]. apply plain_step; [done|]. by rewrite (acc_connected _ _ Ha).
Qed.

(** Whatever the monitor does with the client, one operation after the other. *)
Inductive operation :=
| OReconcile (a : Answers)
| OSetPower (watts : Z)
| ORunDiag (diagType : Z) (answer : result string ())
| OHealthCheck (answer : result string ())
| OGetValuesSince (since : Time) (answer : result string ())
| OGetDeviceCount (answer : result string ()).

Definition run_operation (w : world) (o : operation) : world :=
  match o with
  | OReconcile a => (Reconcile a w).1
  | OSetPower watts => mkWorld (SetPowerPolicyThresholdWatts watts (helper w)) (trace w) (moves w)
  | ORunDiag t answer => (RunDiag t answer w).1
  | OHealthCheck answer => (HealthCheck answer w).1
  | OGetValuesSince since answer => (GetValuesSince since answer w).1
  | OGetDeviceCount answer => (GetDeviceCount answer w).1
  end.

Definition run_operations (ops : list operation) (w : world) : world := foldl run_operation w ops.

Definition start (c : DCGMConfig) (address : option string) (now : Time) : world :=
  mkWorld (NewDCGM c address now) [] [].

Lemma run_operations_inv ops w : inv any w → inv any (run_operations ops w).
Proof.
  revert w. induction ops as [|o ops IH]; intros w Hw; [done|]. apply IH.
  destruct o; simpl; try by apply request_any.
  - by apply Reconcile_any.
  - destruct Hw as (e & He & [? ? ? ?] & _). by exists e.
Qed.

Lemma start_inv c address now : inv any (start c address now).
Proof. exists engine_start. split; [done|]. by split. Qed.

(** Operations one after the other keep to the protocol. *)
Lemma sequential_protocol ops c address now : inv any (run_operations ops (start c address now)).
Proof. apply run_operations_inv, start_inv. Qed.

(** ** The goroutines of the monitor

    One goroutine reconciles, and the others make requests; they share the helper, and no
    lock orders them.  A [Reconcile] is the list of its moves, since no request writes what
    it reads; a request is two moves, the guard and the call, with others between them.
    Reads see the last write. *)

Inductive req := RRunDiag (diagType : Z) | RHealthCheck | RGetValuesSince (since : Time) | RGetDeviceCount.

Definition req_feature (r : req) : option Feature :=
  match r with
  | RRunDiag _ => Some FeatureActiveDiagnostics
  | RHealthCheck => Some FeatureHealthSystems
  | RGetValuesSince _ => Some FeatureFields
  | RGetDeviceCount => None
  end.
Definition req_call (r : req) (h : dcgmHelper) : call :=
  match r with
  | RRunDiag t => CRunDiag t
  | RHealthCheck => CHealthCheck
  | RGetValuesSince since => CGetValuesSince (fieldHandle h) since
  | RGetDeviceCount => CGetAllDeviceCount
  end.

(** A request that passed its guard: how many calls [Reconcile] had made then. *)
Record ticket := mkTicket { asked : nat; what : req }.

(** [own] are the calls of [Reconcile], [todo] the moves that the current one has left,
    [open] the requests between guard and call, and [made] those that have called, with
    their call and the number of calls that [Reconcile] had made then. *)
Record system := mkSystem {
  shared : dcgmHelper;
  own : list call;
  todo : list move;
  open : list ticket;
  made : list (ticket * call * nat)
}.

Inductive sched :=
| Begin (a : Answers)   (* a tick of the reconciling goroutine *)
| Move                  (* its next move *)
| Ask (r : req)         (* a request takes its guard *)
| Make (i : nat).       (* a request that passed it calls *)

Definition sys_step (s : system) (e : sched) : system :=
  match e with
  | Begin a =>
      match todo s with
      | [] => mkSystem (shared s) (own s) (moves (Reconcile a (mkWorld (shared s) (own s) [])).1) (open s) (made s)
      | _ => s
      end
  | Move =>
      match todo s with
      | [] => s
      | MCall c :: ms => mkSystem (shared s) (own s ++ [c]) ms (open s) (made s)
      | MWrite h :: ms => mkSystem h (own s) ms (open s) (made s)
      end
  | Ask r =>
      match guard (req_feature r) (shared s) with
      | Go => mkSystem (shared s) (own s) (todo s) (open s ++ [mkTicket (length (own s)) r]) (made s)
      | _ => s
      end
  | Make i =>
      match open s !! i with
      | Some t => mkSystem (shared s) (own s) (todo s) (delete i (open s))
                    (made s ++ [(t, req_call (what t) (shared s), length (own s))])
      | None => s
      end
  end.

Definition sys_run (s : system) (es : list sched) : system := foldl sys_step s es.
Definition sys_start (c : DCGMConfig) (address : option string) (now : Time) : system :=
  mkSystem (NewDCGM c address now) [] [] [] [].

(** *** The flag between the moves *)

(** Connected, by the calls alone. *)
Definition conn_step (b : bool) (c : call) : bool := match c with CInit _ ok => ok | CShutdown => false | _ => b end.
Definition conn (t : list call) : bool := foldl conn_step false t.

Lemma conn_snoc t c : conn (t ++ [c]) = conn_step (conn t) c.
Proof. unfold conn. by rewrite foldl_app. Qed.

Lemma conn_engine t e : engine_run engine_start t = Some e → connected e = conn t.
Proof.
  revert e. induction t as [|c t IH] using rev_ind; intros e; [by intros [= <-]|].
  rewrite engine_run_snoc, conn_snoc. destruct (engine_run engine_start t) as [e1|]; [|done]. simpl.
  rewrite <-(IH e1 eq_refl). destruct c; simpl; intros He; repeat case_match; simplify_eq; simpl; congruence.
Qed.

(** Wherever a request reads the flag, the client is connected or has just made the call
    that disconnects it. *)
Definition flag_ok (h : dcgmHelper) (t : list call) : Prop :=
  initialized h = true → conn t = true ∨ last t = Some CShutdown.

Definition play (st : dcgmHelper * list call) (ms : list move) : dcgmHelper * list call :=
  foldl (λ st m, match m with MCall c => (st.1, st.2 ++ [c]) | MWrite h => (h, st.2) end) st ms.

Definition points_ok (st : dcgmHelper * list call) (ms : list move) : Prop :=
  ∀ k, flag_ok (play st (take k ms)).1 (play st (take k ms)).2.

Lemma play_snoc st ms m :
  play st (ms ++ [m]) = match m with MCall c => ((play st ms).1, (play st ms).2 ++ [c]) | MWrite h => (h, (play st ms).2) end.
Proof. unfold play. by rewrite foldl_app. Qed.

Lemma points_snoc st ms m :
  points_ok st ms → flag_ok (play st (ms ++ [m])).1 (play st (ms ++ [m])).2 → points_ok st (ms ++ [m]).
Proof.
  intros Hp Hm k. destruct (Nat.le_gt_cases k (length ms)) as [Hk|Hk].
  - rewrite take_app_le by done. apply Hp.
  - rewrite take_ge by (rewrite length_app; simpl; lia). done.
Qed.

(** An operation that was begun in the state [st]. *)
Record track (st : dcgmHelper * list call) (w : world) : Prop := {
  track_play : play st (moves w) = (helper w, trace w);
  track_points : points_ok st (moves w);
  track_flag : initialized (helper w) = true → conn (trace w) = true
}.

Lemma track_log st c :
  (∀ b, conn_step b c = b) → leads (track st) (track st) (log c).
Proof.
  intros Hc w [Hpl Hp Hf]. assert (E : play st (moves w ++ [MCall c]) = (helper w, trace w ++ [c])) by (by rewrite play_snoc, Hpl).
  split; simpl; [done| |by rewrite conn_snoc, Hc]. apply points_snoc; [done|]. rewrite E. intros Hi. left. simpl.
  by rewrite conn_snoc, Hc; auto.
Qed.

Lemma track_put st h w :
  track st w → (initialized h = true → conn (trace w) = true) → track st (put h w).1.
Proof.
  intros [Hpl Hp Hf] Hh. assert (E : play st (moves w ++ [MWrite h]) = (h, trace w)) by (by rewrite play_snoc, Hpl).
  split; simpl; [done| |done]. apply points_snoc; [done|]. rewrite E. intros Hi. left. by apply Hh.
Qed.

(** Reading the helper, and writing fields other than the flag. *)
Lemma track_get {A} st (k : dcgmHelper → op A) :
  (∀ h, leads (λ w, track st w ∧ helper w = h) (track st) (k h)) → leads (track st) (track st) (bind get k).
Proof. intros Hk w Hw. unfold bind, get. simpl. by apply (Hk (helper w)). Qed.

Lemma track_update {A} st (f : dcgmHelper → dcgmHelper) h (k : () → op A) :
  initialized (f h) = initialized h → leads (track st) (track st) (k ()) →
  leads (λ w, track st w ∧ helper w = h) (track st) (bind (put (f h)) k).
Proof.
  intros Hf Hk w [Hw <-]. unfold bind. simpl. apply Hk. apply (track_put st (f (helper w)) w); [done|].
  rewrite Hf. apply Hw.
Qed.

Lemma track_then {A B} st (m : op A) (k : A → op B) :
  leads (track st) (track st) m → (∀ x, leads (track st) (track st) (k x)) → leads (track st) (track st) (bind m k).
Proof. by apply leads_bind. Qed.

Lemma track_handlers st ss : leads (track st) (track st) (run_handlers ss).
Proof.
  induction ss as [|s ss IH]; [by intros w Hw|]. simpl. apply track_then; [|done]. destruct s; simpl; [by apply track_log|].
  apply track_then; [by apply track_log|intros _; by apply track_log].
Qed.

Lemma run_handlers_helper ss w : helper (run_handlers ss w).1 = helper w ∧ (run_handlers ss w).2 = Ok ().
Proof.
  revert w. induction ss as [|s ss IH]; intros w; [done|]. simpl. unfold bind. destruct s; simpl.
  - apply (IH (log _ w).1).
  - apply (IH (log CFieldsTerm (log _ w).1).1).
Qed.

(** After [shutdown] the flag is down. *)
Lemma track_shutdown a st :
  leads (track st) (λ w, track st w ∧ initialized (helper w) = false) (shutdown a).
Proof.
  set (J := λ w, track st w ∧ initialized (helper w) = false). intros w Hw. unfold shutdown, bind at 1, get. simpl. destruct (initialized (helper w)) eqn:Ei; [|by split].
  pose proof (track_handlers st (shutdownHandlers (helper w)) w Hw) as H1.
  destruct (run_handlers_helper (shutdownHandlers (helper w)) w) as [H2 H3]. unfold bind.
  destruct (run_handlers _ w) as [w1 r]. simpl in *. subst r. destruct H1 as [Hpl Hp Hf].
  set (w2 := mkWorld _ _ _). assert (Ht : track st w2).
  { assert (E1 : play st (moves w1 ++ [MCall CShutdown]) = (helper w1, trace w1 ++ [CShutdown])) by (by rewrite play_snoc, Hpl).
    assert (E2 : play st (moves w2) = (helper w2, trace w2)) by (unfold w2; simpl; by rewrite play_snoc, E1).
    split; [done| |done]. unfold w2. simpl. apply points_snoc; [apply points_snoc; [done|]|].
    - rewrite E1. intros _. right. simpl. by rewrite last_snoc.
    - unfold w2 in E2. simpl in E2. rewrite E2. done. }
  destruct (aShutdown a); by split.
Qed.

Lemma track_try st wrap e : leads (track st) (track st) (try wrap e).
Proof. apply leads_try. Qed.

Lemma track_setup st a : leads (track st) (track st) (setup a).
Proof.
  unfold setup. apply track_then; [apply leads_when|intros _; apply track_then; [apply leads_when|intros _; apply leads_when]].
  - apply track_get. intros h. apply (track_update st (λ h, set_contexts (S (contexts h)) h)); [done|].
    apply track_then; [by apply track_log|intros _]. intros w Hw.
    assert (Hl : leads (track st) (track st) (listenForPolicyViolations a (contexts h)))
      by (apply listen_leads; intros c Hc; apply track_log; by destruct c).
    specialize (Hl w Hw). destruct (listenForPolicyViolations _ _ w) as [w1 [u|e]]; simpl in *.
    + apply (track_put st _ w1); [done|]. apply Hl.
    + by apply (track_log st (CCancel (contexts h))).
  - apply track_then; [by apply track_log|intros _; apply track_try].
  - apply track_then; [by apply track_log|intros _]. destruct (negb _); [by intros w Hw|].
    apply track_then; [by apply track_log|intros _]. destruct (aFieldGroupCreate a) as [g|]; [|by intros w Hw].
    apply track_then; [by apply track_log|intros _]. apply track_then; [apply track_try|intros _].
    apply track_get. intros h w [Hw <-]. apply (track_put st _ w); [done|apply Hw].
Qed.

Lemma track_Reconcile st a : leads (track st) (track st) (Reconcile a).
Proof.
  unfold Reconcile. apply track_then; [|intros [|]; [by intros w Hw|]].
  - intros w Hw. rewrite alive_eq. destruct (initialized (helper w)); [|done]. by apply (track_log st CIntrospect).
  - intros w Hw. pose proof (track_shutdown a st w Hw) as [H1 H2]. unfold bind.
    destruct (shutdown a w) as [w1 [u|e]]; [|done]. simpl in *.
    unfold connect, bind, get. simpl. destruct (aInit a) as [e|]; simpl.
    + assert (Ht : track st (log (CInit (Address (config (helper w1))) false) w1).1).
      { destruct H1 as [Hpl Hp Hf].
        assert (E : play st (moves w1 ++ [MCall (CInit (Address (config (helper w1))) false)]) =
          (helper w1, trace w1 ++ [CInit (Address (config (helper w1))) false])) by (by rewrite play_snoc, Hpl).
        split; simpl; [done| |congruence]. apply points_snoc; [done|]. rewrite E. simpl. intros ?. congruence. }
      by destruct (in_grace _ _).
    + set (w2 := mkWorld _ _ _). assert (Ht : track st w2).
      { destruct H1 as [Hpl Hp Hf].
        assert (E1 : play st (moves w1 ++ [MCall (CInit (Address (config (helper w1))) true)]) =
          (helper w1, trace w1 ++ [CInit (Address (config (helper w1))) true])) by (by rewrite play_snoc, Hpl).
        assert (E2 : play st (moves w2) = (helper w2, trace w2)) by (unfold w2; simpl; by rewrite play_snoc, E1).
        split; [done| |intros _; unfold w2; simpl; by rewrite conn_snoc].
        unfold w2. simpl. apply points_snoc; [apply points_snoc; [done|]|].
        - rewrite E1. simpl. intros ?. congruence.
        - unfold w2 in E2. simpl in E2. rewrite E2. intros _. left. simpl. by rewrite conn_snoc. }
      pose proof (track_setup st a w2 Ht) as Hs. by destruct (setup a w2) as [w3 [|]].
Qed.

(** *** What holds between the moves of any run *)

(** The invariant of a helper does not depend on the moves that led to it. *)
Lemma inv_moves P h t ms ms' : inv P (mkWorld h t ms) → inv P (mkWorld h t ms').
Proof. done. Qed.

(** A request called while connected, or a disconnection overlapped it: it lies in the
    calls of [Reconcile] from the last one before the guard up to the call. *)
Definition in_turn (calls : list call) (x : ticket * call * nat) : Prop :=
  conn (take x.2 calls) = true ∨ CShutdown ∈ drop (pred (asked x.1.1)) (take x.2 calls).

Definition ticket_ok (calls : list call) (t : ticket) : Prop :=
  (asked t ≤ length calls)%nat ∧ (conn (take (asked t) calls) = true ∨ CShutdown ∈ drop (pred (asked t)) (take (asked t) calls)).

Record sys_ok (s : system) : Prop := {
  sys_ahead : ∃ w, play (shared s, own s) (todo s) = (helper w, trace w) ∧ inv any w;
  sys_points : points_ok (shared s, own s) (todo s);
  sys_open : Forall (ticket_ok (own s)) (open s);
  sys_made : Forall (λ x, (x.2 ≤ length (own s))%nat ∧ in_turn (own s) x) (made s)
}.

(** Prefixes of calls that keep to the protocol keep to it. *)
Lemma engine_prefix t t' e : engine_run engine_start (t ++ t') = Some e → is_Some (engine_run engine_start t).
Proof. rewrite engine_run_app. destruct (engine_run engine_start t); [eauto|done]. Qed.

Lemma own_engine s : sys_ok s → is_Some (engine_run engine_start (own s)).
Proof.
  intros [(w & Hpl & e & Hw & _) _ _ _]. assert (Hpre : ∃ t, trace w = own s ++ t).
  { apply (f_equal snd) in Hpl. simpl in Hpl. rewrite <-Hpl. clear. generalize (shared s), (own s).
    induction (todo s) as [|m ms IH] using rev_ind; intros h t; [exists []; by rewrite app_nil_r|].
    rewrite play_snoc. destruct (IH h t) as [t' E]. destruct m; simpl; rewrite E; [|by exists t'].
    exists (t' ++ [c]). by rewrite (assoc_L app). }
  destruct Hpre as [t Et]. unfold at_engine in Hw. rewrite Et in Hw. by eapply engine_prefix.
Qed.

(** Connected stays connected without a disconnection. *)
Lemma stays_connected t t' :
  is_Some (engine_run engine_start (t ++ t')) → conn t = true → CShutdown ∉ t' → conn (t ++ t') = true.
Proof.
  induction t' as [|c t' IH] using rev_ind; intros Hs Hc Hn; [by rewrite app_nil_r|]. rewrite (assoc_L app) in *.
  destruct Hs as [e He]. rewrite elem_of_app, list_elem_of_singleton in Hn.
  assert (Hs' : is_Some (engine_run engine_start (t ++ t'))) by (by eapply engine_prefix).
  specialize (IH Hs' Hc ltac:(tauto)). rewrite conn_snoc, IH. destruct Hs' as [e1 He1].
  rewrite engine_run_snoc, He1 in He. simpl in He. pose proof (conn_engine _ _ He1) as Hce. rewrite IH in Hce.
  destruct c; try done; simpl in *; [tauto|]. by rewrite Hce in He.
Qed.

Lemma ticket_now calls t :
  is_Some (engine_run engine_start calls) → ticket_ok calls t → conn calls = true ∨ CShutdown ∈ drop (pred (asked t)) calls.
Proof.
  intros He [Hl [Hc|Hs]].
  - destruct (decide (CShutdown ∈ drop (asked t) calls)) as [Hin|Hn].
    + right. destruct (asked t) as [|n]; [done|]. simpl.
      rewrite <-(take_drop 1 (drop n calls)), drop_drop, Nat.add_1_r. apply elem_of_app. by right.
    + left. rewrite <-(take_drop (asked t) calls) in He |- *. by apply stays_connected.
  - right. rewrite <-(take_drop (asked t) calls) at 1. rewrite drop_app_le by (rewrite length_take; lia).
    apply elem_of_app. by left.
Qed.

Lemma ticket_grows calls c t : ticket_ok calls t → ticket_ok (calls ++ [c]) t.
Proof.
  intros [Hl Ht]. split; [rewrite length_app; lia|]. by rewrite take_app_le by done.
Qed.

Lemma sys_step_ok s e : sys_ok s → sys_ok (sys_step s e).
Proof.
  intros Hok. pose proof (own_engine s Hok) as Hen. destruct Hok as [Ha Hp Ho Hm].
  destruct e as [a| |r|i]; simpl.
  - destruct (todo s) as [|m ms] eqn:Et; [|by split; rewrite ?Et].
    destruct Ha as (w & Hpl & Hw). simpl in Hpl. injection Hpl as Eh Eo.
    set (w0 := mkWorld (shared s) (own s) []). assert (Hw0 : inv any w0) by (unfold w0; rewrite Eh, Eo; by destruct w).
    pose proof (Hp 0%nat) as H0. simpl in H0.
    assert (Ht0 : track (shared s, own s) w0).
    { split; [done|done|]. destruct Hw0 as (e & He & [Hc _ _ _] & _). intros Hi.
      pose proof (conn_engine _ _ He) as Hce. simpl in *. congruence. }
    destruct (track_Reconcile _ a w0 Ht0) as [Hpl' Hp' _]. pose proof (Reconcile_any a w0 Hw0) as Hw'.
    split; simpl; [|done|done|done]. eauto.
  - destruct (todo s) as [|[c|h] ms] eqn:Et; [by split; rewrite ?Et|..].
    + split; simpl; [destruct Ha as (w & Hpl & Hw); eauto|intros k; apply (Hp (S k))|..].
      * eapply Forall_impl; [exact Ho|]. intros t. apply ticket_grows.
      * eapply Forall_impl; [exact Hm|]. intros x [Hl Hx]. split; [rewrite length_app; lia|].
        unfold in_turn in *. by rewrite take_app_le by done.
    + split; simpl; [destruct Ha as (w & Hpl & Hw); eauto|intros k; apply (Hp (S k))|done|done].
  - destruct (guard _ _) eqn:Eg; try by split. split; simpl; [done|done| |done].
    apply Forall_app. split; [done|]. constructor; [|done]. split; simpl; [done|]. rewrite take_ge by done.
    assert (Hi : initialized (shared s) = true).
    { unfold guard in Eg. destruct (match req_feature r with Some f => _ | None => _ end); [done|]. by destruct (initialized (shared s)). }
    destruct (Hp 0%nat Hi) as [Hc|Hl]; [by left|right]. simpl in Hl.
    apply last_Some in Hl as [l Hl]. rewrite Hl, length_app, Nat.add_1_r. simpl. rewrite drop_app_length. by left.
  - destruct (open s !! i) as [t|] eqn:Ei; [|by split]. pose proof (Forall_lookup_1 _ _ _ _ Ho Ei) as Ht.
    split; simpl; [done|done|by apply Forall_delete|]. apply Forall_app. split; [done|]. constructor; [|done].
    split; simpl; [done|]. unfold in_turn. simpl. rewrite take_ge by done. by apply ticket_now.
Qed.

Lemma sys_run_ok c address now es : sys_ok (sys_run (sys_start c address now) es).
Proof.
  unfold sys_run. induction es as [|e es IH] using rev_ind; [|rewrite foldl_app; by apply sys_step_ok].
  simpl. split; simpl; [|by intros [|k]; intros|done|done]. exists (start c address now). split; [done|apply start_inv].
Qed.

(** C18. The client keeps to the protocol of the engine, however the moves of the goroutine
    that reconciles and those of the requests interleave.  The calls of [Reconcile] keep to
    it: each is made while connected, a connection only while there is none, with at most
    one policy listener live and none across a disconnection, and a field group is destroyed
    only once and only if it is watched; and between two of them the flag and the shutdown
    handlers of the helper say what is connected, live and to be destroyed.  The guard of a
    request is not enough for a request to be in turn, but when it calls the library out of
    connection, then a [Shutdown] of [Reconcile] overlaps it: one between its guard and its
    call, or the last call before its guard. *)
Theorem dcgm_protocol es c address now :
  let s := sys_run (sys_start c address now) es in
  ∃ e, engine_run engine_start (own s) = Some e ∧
    (todo s = [] →
       connected e = initialized (shared s) ∧
       option_list (listener e) = cancels (shutdownHandlers (shared s)) ∧
       list_to_set_disj (destroys (shutdownHandlers (shared s))) ⊆ groups e) ∧
    ∀ t call n, (t, call, n) ∈ made s →
      (∃ e', engine_run engine_start (take n (own s)) = Some e' ∧ connected e' = true) ∨
      CShutdown ∈ drop (pred (asked t)) (take n (own s)).
Proof.
  intros s. pose proof (sys_run_ok c address now es) as Hok. fold s in Hok. destruct (own_engine s Hok) as [e He].
  exists e. split; [done|]. split.
  - intros Et. destruct Hok as [(w & Hpl & e' & He' & [? ? ? ?] & _) _ _ _]. rewrite Et in Hpl. injection Hpl as Eh Eo.
    unfold at_engine in He'. rewrite <-Eo, He in He'. injection He' as <-. by rewrite Eh.
  - intros t cl n Hin. destruct Hok as [_ _ _ Hm]. rewrite Forall_forall in Hm. destruct (Hm _ Hin) as [_ [Hc|Hs]]; [|by right].
    left. simpl in Hc. rewrite <-(take_drop n (own s)) in He. destruct (engine_prefix _ _ _ He) as [e' He'].
    exists e'. split; [done|]. by rewrite (conn_engine _ _ He').
Qed.

(** ** A setup that fails *)

Definition no_groups (w : world) : Prop := destroys (shutdownHandlers (helper w)) = [].

Lemma listen_helper a ctx w : helper (listenForPolicyViolations a ctx w).1 = helper w.
Proof. apply (listen_leads (λ w', helper w' = helper w)); [by intros c _ w' Hw'|done]. Qed.

Lemma setup_policies_groups a : leads no_groups no_groups (setup_policies a).
Proof.
  intros w Hw. unfold setup_policies, bind, get, put. simpl. set (w1 := mkWorld _ _ _).
  pose proof (listen_helper a (contexts (helper w)) w1) as Hh.
  destruct (listenForPolicyViolations _ _ w1) as [w2 [[]|err]]; simpl in *;
    unfold no_groups, destroys in *; simpl; rewrite Hh; [|done].
  unfold w1. simpl. by rewrite omap_app, Hw.
Qed.

Lemma setup_health_groups a : leads no_groups no_groups (setup_health a).
Proof. intros w Hw. unfold setup_health, bind. simpl. by destruct (aHealthSet a). Qed.

Lemma setup_fields_groups a w e :
  no_groups w → (setup_fields a w).2 = Err e → no_groups (setup_fields a w).1.
Proof.
  intros Hw. unfold setup_fields, bind. simpl. destruct (negb _); [done|]. simpl.
  destruct (aFieldGroupCreate a); [|done]. simpl. by destruct (aWatchFields a).
Qed.

(** [m] keeps [I] when it fails. *)
Definition leads_err {A} (I : world → Prop) (m : op A) : Prop :=
  ∀ w e, I w → (m w).2 = Err e → I (m w).1.

Lemma leads_err_bind {A B} I (m : op A) (k : A → op B) :
  leads I I m → (∀ x, leads_err I (k x)) → leads_err I (bind m k).
Proof.
  intros Hm Hk w e Hw. unfold bind. specialize (Hm w Hw).
  destruct (m w) as [w' [x|e']]; simpl in *; [by apply Hk|done].
Qed.

Lemma setup_groups a : leads_err no_groups (setup a).
Proof.
  apply leads_err_bind; [apply leads_when, setup_policies_groups|intros _].
  apply leads_err_bind; [apply leads_when, setup_health_groups|intros _].
  intros w e Hw. unfold when, bind, get. simpl. destruct (enabled _ _); [|done].
  by apply setup_fields_groups.
Qed.

(** A failing [Reconcile] leaves the client disconnected, or without its field group. *)
Lemma Reconcile_err a w e :
  inv any w → (Reconcile a w).2 = Err e → initialized (helper (Reconcile a w).1) = true →
  no_groups (Reconcile a w).1.
Proof.
  intros Hw. pose proof (alive_any a w Hw) as Ha. destruct (Reconcile a w) as [w' r] eqn:ER. simpl.
  intros -> Hup. revert ER. unfold Reconcile, bind at 1.
  destruct (alive a w) as [w1 r1] eqn:E. assert (Hr1 : ∃ b, r1 = Ok b).
  { rewrite alive_eq in E. destruct (initialized _); injection E as <- <-; eauto. }
  destruct Hr1 as [[|] ->]; [done|]. simpl in Ha. unfold bind at 1.
  pose proof (shutdown_down a w1 Ha) as Hd. destruct (shutdown a w1) as [w2 r2].
  destruct Hd as (e2 & _ & [Hc _ _ Hi] & Hd). simpl in *.
  unfold down in Hd. rewrite Hd in Hc. specialize (Hi (eq_sym Hc)).
  destruct r2 as [[]|err2]; [|intros [= <- <-]; congruence]. unfold connect, bind, get. simpl.
  destruct (aInit a); simpl; [destruct (in_grace _ _); intros [= <- <-]; simpl in *; congruence|].
  set (w3 := mkWorld _ _ _). assert (Hn : no_groups w3) by (unfold no_groups; simpl; by rewrite Hi).
  pose proof (λ e, setup_groups a w3 e Hn) as Hs. destruct (setup a w3) as [w4 [[]|?]]; simpl in *; [done|].
  intros [= <- ->]. by apply (Hs e).
Qed.

(** No operation of the library changes the configuration. *)
Definition configured (c : DCGMConfig) (w : world) : Prop := config (helper w) = c.

Lemma log_configured c x : leads (configured c) (configured c) (log x).
Proof. by intros w Hw. Qed.

Lemma run_handlers_configured c ss : leads (configured c) (configured c) (run_handlers ss).
Proof.
  induction ss as [|s ss IH]; [by intros w Hw|]. simpl.
  eapply leads_bind; [done| |intros _; apply IH]. destruct s; simpl; [apply log_configured|].
  eapply leads_bind; [done|apply log_configured|intros _; apply log_configured].
Qed.

Lemma setup_configured c a : leads (configured c) (configured c) (setup a).
Proof.
  unfold setup. eapply leads_bind; [done|apply leads_when|intros _; eapply leads_bind;
    [done|apply leads_when|intros _; apply leads_when]].
  - intros w Hw. unfold setup_policies, bind, get, put. simpl. set (w1 := mkWorld _ _ _).
    pose proof (listen_helper a (contexts (helper w)) w1) as Hh.
    destruct (listenForPolicyViolations _ _ w1) as [w2 [[]|err]]; unfold configured in *; simpl in *; by rewrite Hh.
  - intros w Hw. unfold setup_health, bind. simpl. by destruct (aHealthSet a).
  - intros w Hw. unfold setup_fields, bind. simpl. destruct (negb _); [done|]. simpl.
    destruct (aFieldGroupCreate a); [|done]. simpl. by destruct (aWatchFields a).
Qed.

Lemma Reconcile_configured c a : leads (configured c) (configured c) (Reconcile a).
Proof.
  eapply leads_bind; [done|intros w Hw; rewrite alive_eq; by destruct (initialized _)|intros [|]; [by intros w Hw|]].
  eapply leads_bind; [done| |intros _].
  - intros w Hw. unfold shutdown, bind at 1, get. simpl. destruct (initialized _); [|done].
    unfold bind. pose proof (run_handlers_configured c (shutdownHandlers (helper w)) w Hw) as Hr.
    destruct (run_handlers _ w) as [w1 [|]]; [|done]. simpl. by destruct (aShutdown a).
  - intros w Hw. unfold connect, bind, get. simpl. destruct (aInit a); simpl; [by destruct (in_grace _ _)|].
    set (w1 := mkWorld _ _ _). pose proof (setup_configured c a w1 Hw) as Hs.
    by destruct (setup a w1) as [w2 [|]].
Qed.

(** The results of calls of [Reconcile] in a row. *)
Fixpoint reconciles (l : list Answers) (w : world) : world * list (result string bool) :=
  match l with
  | [] => (w, [])
  | a :: l' =>
      let '(w, r) := Reconcile a w in
      let '(w, rs) := reconciles l' w in (w, r :: rs)
  end.

Lemma Reconcile_alive a w :
  initialized (helper w) = true → aIntrospect a = None →
  Reconcile a w = (mkWorld (helper w) (trace w ++ [CIntrospect]) (moves w ++ [MCall CIntrospect]), Ok false).
Proof. intros Hi Ha. unfold Reconcile, bind. by rewrite alive_eq, Hi, Ha. Qed.

Lemma reconciles_alive l w :
  initialized (helper w) = true → Forall (λ a, aIntrospect a = None) l →
  helper (reconciles l w).1 = helper w ∧ Forall (λ r, r = Ok false) (reconciles l w).2.
Proof.
  revert w. induction l as [|a l IH]; intros w Hi Hl; [done|].
  apply Forall_cons in Hl as [Ha Hl]. simpl. rewrite Reconcile_alive by done. set (w1 := mkWorld _ _ _).
  destruct (IH w1 Hi Hl) as [IH1 IH2]. destruct (reconciles l w1). by split; [|constructor].
Qed.

(** A setup that fails is reported once.  When [Reconcile] fails after it has
    connected, the client counts as initialized with no field group to destroy, and as
    long as the engine answers every later [Reconcile] returns without an error, changes
    nothing and tries nothing again. *)
Theorem failed_setup_sticks ops c address now a e later :
  let w := (Reconcile a (run_operations ops (start c address now))).1 in
  (Reconcile a (run_operations ops (start c address now))).2 = Err e →
  initialized (helper w) = true →
  Forall (λ a, aIntrospect a = None) later →
  destroys (shutdownHandlers (helper w)) = [] ∧
  helper (reconciles later w).1 = helper w ∧
  Forall (λ r, r = Ok false) (reconciles later w).2.
Proof.
  intros w He Hi Hl. split; [|by apply reconciles_alive].
  by apply (Reconcile_err a _ e); [apply sequential_protocol|..].
Qed.

(** ** The policy of the group *)

(** The thresholds that fit their 32 bits. *)
Definition fits (t : threshold) (v : Z) : Prop :=
  match t with
  | TUint32 z | TUint z | TInt z | TInt32 z | TInt64 z => z = v ∧ is_u32 v
  | TOther _ => False
  end.

Lemma threshold_fits t v d : fits t v → policyThresholdUint32 t d = v.
Proof.
  destruct t; simpl; try done; intros [-> Hv]; try done; rewrite ?u32_small by done; try done;
    destruct (Z.leb_spec 0 v); try done; unfold is_u32 in Hv; lia.
Qed.

(** Setting the power limit rewrites the whole policy of the group and changes
    nothing else of it: there is one configuration for each monitored condition, in
    order, with the limits of page retirements and temperature the policy had, the
    default where it had none, and the action and the validation on the first. *)
Theorem policy_rewrite_preserves st watts pages temp :
  match psConditions st MaxRtPgPolicy with Some t => fits t pages | None => pages = u32 DefaultMaxRetiredPages end →
  match psConditions st ThermalPolicy with Some t => fits t temp | None => temp = u32 DefaultMaxTemperature end →
  ∃ configs, policyConfigs (Some st) watts = Ok configs ∧
    (pcCondition <$> configs) = monitoredPolicyConditions ∧
    omap MaxRetiredPages configs = [pages] ∧ omap MaxTemperature configs = [temp] ∧
    omap MaxPower configs = [watts] ∧
    omap pcAction configs = [psAction st] ∧ (pcAction <$> head configs) = Some (Some (psAction st)) ∧
    omap pcValidation configs = [psValidation st].
Proof.
  intros Hp Ht. eexists. split; [reflexivity|]. simpl.
  assert (Hp' : match psConditions st MaxRtPgPolicy with
                | Some v => policyThresholdUint32 v (u32 DefaultMaxRetiredPages)
                | None => u32 DefaultMaxRetiredPages end = pages)
    by (destruct (psConditions st MaxRtPgPolicy); [by apply threshold_fits|done]).
  assert (Ht' : match psConditions st ThermalPolicy with
                | Some v => policyThresholdUint32 v (u32 DefaultMaxTemperature)
                | None => u32 DefaultMaxTemperature end = temp)
    by (destruct (psConditions st ThermalPolicy); [by apply threshold_fits|done]).
  by rewrite Hp', Ht'.
Qed.

End Protocol.

(** A library whose constants are some numbers, and one that answers everything well
    but the initialization of its fields. *)
Definition ex_constants : DcgmConstants := {|
  DCGM_ST_INSUFFICIENT_SIZE := 26; DCGM_ST_NOT_CONFIGURED := 35;
  DefaultMaxRetiredPages := 10; DefaultMaxTemperature := 100
|}.

Definition ex_config : DCGMConfig :=
  mkDCGMConfig EmptyString Minute [FeaturePolicyViolations; FeatureFields] (Some 300).

Definition ex_status : PolicyStatus :=
  mkPolicyStatus 1 2 (λ c, if decide (c = ThermalPolicy) then Some (TInt64 85) else None).

Definition ex_answers (fields : Z) : Answers :=
  mkAnswers None None 0 None 0 None (Ok (Some ex_status)) None None None fields (Ok 7) None.

Lemma failed_setup_sticks_witness :
  let w := (@Reconcile ex_constants (ex_answers 1) (start ex_config None 0)).1 in
  destroys (shutdownHandlers (helper w)) = [] ∧
  helper (reconciles (H := ex_constants) [ex_answers 0; ex_answers 0] w).1 = helper w ∧
  Forall (λ r, r = Ok false) (reconciles (H := ex_constants) [ex_answers 0; ex_answers 0] w).2.
Proof.
  apply (failed_setup_sticks (H := ex_constants) [] ex_config None 0 (ex_answers 1)
           "failed to initialize DCGM fields modules"); [reflexivity|reflexivity|].
  repeat constructor.
Defined.

Lemma policy_rewrite_preserves_witness :
  ∃ configs, @policyConfigs ex_constants (Some ex_status) 300 = Ok configs ∧
    (pcCondition <$> configs) = monitoredPolicyConditions ∧
    omap MaxRetiredPages configs = [10] ∧ omap MaxTemperature configs = [85] ∧
    omap MaxPower configs = [300] ∧
    omap pcAction configs = [1] ∧ (pcAction <$> head configs) = Some (Some 1) ∧
    omap pcValidation configs = [2].
Proof.
  apply (policy_rewrite_preserves (H := ex_constants) ex_status 300 10 85);
    [reflexivity|split; [reflexivity|split; [discriminate|reflexivity]]].
Defined.

(** An operation of a client that connects, drops the connection and connects again. *)
Example reconnect_trace :
  trace (run_operations (H := ex_constants)
    [OReconcile (ex_answers 0); OGetValuesSince 5 (Ok ());
     OReconcile (mkAnswers (Some "down") None 0 None 0 None (Ok None) None None None 0 (Ok 8) None)]
    (start (mkDCGMConfig "host:1" Minute [FeaturePolicyViolations; FeatureFields] None) None 0)) =
  [CInit "host:1" true; CWithCancel 0; CListen 0 monitoredPolicyConditions; CFieldsInit; CFieldGroupCreate;
   CWatchFields 7; CGetValuesSince 7 5; CIntrospect; CCancel 0; CFieldGroupDestroy 7; CFieldsTerm; CShutdown;
   CInit "host:1" true; CWithCancel 1; CListen 1 monitoredPolicyConditions; CFieldsInit; CFieldGroupCreate;
   CWatchFields 8].
Proof. reflexivity. Qed.

(** A request passes its guard, the engine dies, and the call comes after the shutdown. *)
Example call_after_shutdown :
  let dead := mkAnswers (Some "down") None 0 (Some "refused") 0 None (Ok None) None None None 0 (Ok 8) None in
  let s := sys_run (H := ex_constants) (sys_start (mkDCGMConfig "host:1" Minute [] None) None 0)
    [Begin (ex_answers 0); Move; Move; Ask RGetDeviceCount; Begin dead; Move; Move; Make 0] in
  own s = [CInit "host:1" true; CIntrospect; CShutdown] ∧
  made s = [(mkTicket 1 RGetDeviceCount, CGetAllDeviceCount, 3%nat)].
Proof. split; reflexivity. Qed.
