(* ===== verification/Forward.v ===== *)
(** * Forward: the goroutines that forward the events of DCGM
    ([monitors/nvidia/dcgm/dcgm_client.go], in [Reconcile]).

    Each successful set-up of the policies starts a goroutine that reads the channel of the
    library until it is closed, and hands each event to the one channel that the monitor
    reads.  That channel has no buffer, so a goroutine waits with the event it holds until
    the monitor takes it.  After a shutdown the goroutine of the old channel may still hold
    an event while that of the new one starts. *)

From S2P Require Import Prelude.

Section Forward.
Context {V : Type}.
Implicit Types v : V.

(** The goroutine of one set-up: what the library's channel holds, whether it is closed, the
    event in hand, whether the loop goes on, and all that the library sent. *)
Record forwarder := mkForwarder {
  queued : list V; closed : bool; holding : option V; running : bool; emitted : list V
}.

Record state := mkState { forwarders : list forwarder; received : list (nat * V) }.

Definition new_forwarder : forwarder := mkForwarder [] false None true [].

(** [d.shutdownHandlers] closes a channel; [Take] is the monitor's receive. *)
Inductive event := Setup | Emit (k : nat) (v : V) | Close (k : nat) | Range (k : nat) | Take (k : nat) | Exit (k : nat).

Definition update (s : state) (k : nat) (f : forwarder) : state := mkState (<[k := f]> (forwarders s)) (received s).

Definition step (s : state) (e : event) : option state :=
  match e with
  | Setup => Some (mkState (forwarders s ++ [new_forwarder]) (received s))
  | Emit k v =>
      f ← forwarders s !! k;
      if closed f then None
      else Some (update s k (mkForwarder (queued f ++ [v]) false (holding f) (running f) (emitted f ++ [v])))
  | Close k => f ← forwarders s !! k; Some (update s k (mkForwarder (queued f) true (holding f) (running f) (emitted f)))
  | Range k =>
      f ← forwarders s !! k;
      match running f, holding f, queued f with
      | true, None, v :: rest => Some (update s k (mkForwarder rest (closed f) (Some v) true (emitted f)))
      | _, _, _ => None
      end
  | Take k =>
      f ← forwarders s !! k;
      match holding f with
      | Some v => Some (mkState (<[k := mkForwarder (queued f) (closed f) None (running f) (emitted f)]> (forwarders s))
                          (received s ++ [(k, v)]))
      | None => None
      end
  | Exit k =>
      f ← forwarders s !! k;
      match running f, closed f, holding f, queued f with
      | true, true, None, [] => Some (update s k (mkForwarder [] true None false (emitted f)))
      | _, _, _, _ => None
      end
  end.

Inductive reachable : state → Prop :=
| reachable_new : reachable (mkState [] [])
| reachable_step s e s' : reachable s → step s e = Some s' → reachable s'.

(** What the monitor got of channel [k]. *)
Definition received_of (s : state) (k : nat) : list V := snd <$> filter (λ x, x.1 = k) (received s).

(** Everything sent on a channel was received, is in hand or is still queued, in order. *)
Definition accounts (got : list V) (f : forwarder) : Prop :=
  emitted f = got ++ option_list (holding f) ++ queued f ∧
  (running f = false → holding f = None ∧ queued f = [] ∧ closed f = true).

Definition forwarder_ok (s : state) : Prop :=
  (∀ k f, forwarders s !! k = Some f → accounts (received_of s k) f) ∧
  (∀ k, (length (forwarders s) ≤ k)%nat → received_of s k = []).

Lemma received_snoc s fs k v j :
  received_of (mkState fs (received s ++ [(k, v)])) j = received_of s j ++ if decide (j = k) then [v] else [].
Proof.
  unfold received_of. simpl. rewrite filter_app, fmap_app. f_equal. case_decide as Hj.
  - subst. by rewrite filter_cons_True.
  - by rewrite filter_cons_False by (simpl; congruence).
Qed.

Lemma update_ok s k f f' :
  forwarder_ok s → forwarders s !! k = Some f → accounts (received_of s k) f' → forwarder_ok (update s k f').
Proof.
  intros [Hs Hn] Hk Hf. split; simpl.
  - intros j g. rewrite list_lookup_insert. case_decide as Hj; [|apply Hs]. destruct Hj as [<- _]. by intros [= <-].
  - intros j. rewrite length_insert. apply Hn.
Qed.

Lemma forward_step_keeps s e s' : forwarder_ok s → step s e = Some s' → forwarder_ok s'.
Proof.
  intros Hok. pose proof Hok as [Hs Hn].
  destruct e as [|k v|k|k|k|k]; simpl; [|destruct (forwarders s !! k) as [f|] eqn:Hk; simpl; [destruct (Hs k f Hk) as [He Hr]|done]..].
  - intros [= <-]. split; simpl.
    + intros k f. rewrite lookup_app. destruct (forwarders s !! k) eqn:Hk; [intros [= <-]; by apply Hs|].
      intros [Hj <-]%list_lookup_singleton_Some. apply lookup_ge_None in Hk.
      split; [|done]. change (received_of _ k) with (received_of s k). by rewrite Hn by lia.
    + intros k. rewrite length_app. simpl. intros Hl. apply (Hn k). lia.
  - destruct (closed f) eqn:Hc; [done|]. intros [= <-]. eapply update_ok; [done..|]. split; simpl.
    + by rewrite He, !(assoc_L app).
    + intros Hf. destruct (Hr Hf) as (_ & _ & [=]).
  - intros [= <-]. eapply update_ok; [done..|]. split; simpl; [done|]. intros Hf. by destruct (Hr Hf) as (-> & -> & _).
  - destruct (running f) eqn:Hrun, (holding f) eqn:Hh, (queued f) eqn:Hq; try done. intros [= <-].
    eapply update_ok; [done..|]. split; simpl; [by rewrite He|done].
  - destruct (holding f) as [v|] eqn:Hh; [|done]. intros [= <-]. split; simpl.
    + intros j g. rewrite list_lookup_insert, received_snoc. case_decide as Hj.
      * destruct Hj as [<- _]. intros [= <-]. rewrite decide_True by done. split; simpl.
        -- by rewrite He, <-(assoc_L app).
        -- intros Hf. by destruct (Hr Hf) as ([=] & _).
      * intros Hg. rewrite decide_False, app_nil_r; [by apply Hs|]. intros ->. apply Hj. split; [done|by eapply lookup_lt_Some].
    + intros j. rewrite length_insert. intros Hl. rewrite received_snoc, decide_False, app_nil_r by (apply lookup_lt_Some in Hk; lia).
      by apply Hn.
  - destruct (running f) eqn:Hrun, (closed f) eqn:Hc, (holding f) eqn:Hh, (queued f) eqn:Hq; try done. intros [= <-].
    eapply update_ok; [done..|]. by split.
Qed.

Lemma reachable_forwards s : reachable s → forwarder_ok s.
Proof. induction 1 as [|s e s' _ IH E]; [|by eapply forward_step_keeps]. by split. Qed.

(** What is left to do for a channel: its goroutine's receives, hand-overs and its end. *)
Definition left_of (f : forwarder) : nat :=
  2 * length (queued f) + (if holding f then 1 else 0) + (if running f then 1 else 0).

(** The goroutine and the monitor can go on with a closed channel until the goroutine has
    ended, in a number of steps fixed by what it held. *)
Lemma forwarder_goes_on s k f :
  forwarder_ok s → forwarders s !! k = Some f → closed f = true → running f = true →
  ∃ e s' f', (e = Range k ∨ e = Take k ∨ e = Exit k) ∧ step s e = Some s' ∧
             forwarders s' !! k = Some f' ∧ closed f' = true ∧ (left_of f' < left_of f)%nat.
Proof.
  intros Hok Hk Hc Hr. pose proof (lookup_lt_Some _ _ _ Hk) as Hlt.
  destruct (holding f) as [v|] eqn:Hh; [|destruct (queued f) as [|v rest] eqn:Hq].
  - eexists (Take k), _, _. split; [by right; left|]. simpl. rewrite Hk. simpl. rewrite Hh. split; [done|]. simpl.
    rewrite list_lookup_insert, decide_True by done. split; [done|]. split; [done|]. unfold left_of. simpl. rewrite Hh, Hr. lia.
  - eexists (Exit k), _, _. split; [by right; right|]. simpl. rewrite Hk. simpl. rewrite Hh, Hq, Hr, Hc. split; [done|]. simpl.
    rewrite list_lookup_insert, decide_True by done. split; [done|]. split; [done|]. unfold left_of. simpl. rewrite Hh, Hq, Hr. simpl. lia.
  - eexists (Range k), _, _. split; [by left|]. simpl. rewrite Hk. simpl. rewrite Hh, Hq, Hr. split; [done|]. simpl.
    rewrite list_lookup_insert, decide_True by done. split; [done|]. split; [done|]. unfold left_of. simpl. rewrite Hh, Hq, Hr. simpl. lia.
Qed.
End Forward.

(** C19. No event of DCGM is lost, repeated or reordered by the forwarding, across any number of
    shutdowns and set-ups: what the monitor received of a channel is a first part of what
    was sent on it, the goroutine of a closed channel ends as soon as the monitor has taken
    what it holds, and by then the monitor has received everything. *)
Theorem forwarding_complete {V} (s : state (V := V)) k f :
  reachable s → forwarders s !! k = Some f →
  received_of s k `prefix_of` emitted f ∧
  (running f = false → received_of s k = emitted f) ∧
  (closed f = true → running f = true →
   ∃ e s' f', (e = Range k ∨ e = Take k ∨ e = Exit k) ∧ step s e = Some s' ∧
              forwarders s' !! k = Some f' ∧ closed f' = true ∧ (left_of f' < left_of f)%nat).
Proof.
  intros Hr Hk. pose proof (reachable_forwards s Hr) as Hok. destruct (proj1 Hok k f Hk) as [He Hend].
  split_and!.
  - rewrite He. by eexists.
  - intros Hf. destruct (Hend Hf) as (Hh & Hq & _). by rewrite He, Hh, Hq, app_nil_r.
  - by apply forwarder_goes_on.
Qed.

Fixpoint steps {V} (s : state (V := V)) (es : list event) : option state :=
  match es with [] => Some s | e :: es' => s' ← step s e; steps s' es' end.

Lemma forward_steps_reachable {V} (es : list event) (s s' : state (V := V)) : reachable s → steps s es = Some s' → reachable s'.
Proof.
  revert s. induction es as [|e es IH]; simpl; intros s Hs E; [by simplify_eq|].
  destruct (step s e) as [s1|] eqn:E1; [|done]. eapply IH; [by eapply reachable_step|done].
Qed.

(** A shutdown while the first goroutine holds an event; the monitor takes it after the first
    event of the new channel. *)
Definition ex_events : list (event (V := nat)) :=
  [Setup; Emit 0 1; Emit 0 2; Range 0; Close 0; Setup; Emit 1 7; Range 1; Take 1; Take 0; Range 0; Take 0; Exit 0]%nat.

Lemma forwarding_complete_witness :
  ∃ s f, steps (mkState [] []) ex_events = Some s ∧ forwarders s !! 0%nat = Some f ∧ running f = false ∧
         received_of s 0 = emitted f ∧ received s = [(1, 7); (0, 1); (0, 2)]%nat.
Proof.
  destruct (steps (mkState [] []) ex_events) as [s|] eqn:E; [|vm_compute in E; discriminate].
  assert (Hr : reachable s) by (eapply forward_steps_reachable; [apply reachable_new|exact E]).
  destruct (forwarders s !! 0%nat) as [f|] eqn:Ef; [|vm_compute in E; injection E as <-; discriminate].
  destruct (forwarding_complete s 0 f Hr Ef) as (_ & H & _).
  assert (Hrun : running f = false) by (vm_compute in E; injection E as <-; vm_compute in Ef; injection Ef as <-; reflexivity).
  exists s, f. split; [done|]. split; [done|]. split; [exact Hrun|]. split; [exact (H Hrun)|].
  vm_compute in E. injection E as <-. reflexivity.
Defined.
