(* ===== verification/InstanceInfo.v ===== *)
(** * InstanceInfo: the type of the instance the agent runs on
    ([internal/pkg/instanceinfo]).

    A provider asks the metadata service for the type and looks it up in a table that
    is part of the binary; it keeps the first answer. *)

From S2P Require Import Prelude GoStrings.

(** ** Instance types *)

Record InstanceInfo := mkInstanceInfo { InstanceType : string; NvidiaGPUCount : Z }.

(** [ErrUnknownInstanceType], which callers recognize, or another error. *)
Inductive InfoError := ErrUnknownInstanceType (type : string) | InfoOther (text : string).

(** [lookup] is the embedded table, by instance type; [info] the cached answer. *)
Record ec2InstanceTypeInfoProvider := mkProvider {
  info : option InstanceInfo;
  embeddedLookup : gmap string InstanceInfo
}.

(** The table from the lines, [None] for one that does not parse; of two lines with one
    type the last stands. *)
Definition loadEmbeddedInstanceInfo (entries : list (option InstanceInfo)) : gmap string InstanceInfo :=
  foldl (λ m e, match e with Some i => <[InstanceType i := i]> m | None => m end) ∅ entries.

(** The configuration of the client, its answer and the body of the answer, each asked
    only when the one before succeeded. *)
Definition getInstanceTypeFromIMDS (cfg : result string ()) (resp : result string ())
    (body : result string string) : result string string :=
  match cfg with
  | Err e => Err (prefixed "failed to load AWS config" e)
  | Ok _ =>
      match resp with
      | Err e => Err (prefixed "failed to get instance type from IMDS" e)
      | Ok _ =>
          match body with
          | Err e => Err (prefixed "failed to read IMDS response" e)
          | Ok b => Ok b
          end
      end
  end.

Definition NewInstanceTypeInfoProvider (entries : list (option InstanceInfo)) : ec2InstanceTypeInfoProvider :=
  mkProvider None (loadEmbeddedInstanceInfo entries).

(** [imds] is the answer of the metadata service, asked only without a cached one. *)
Definition GetInstanceInfo (p : ec2InstanceTypeInfoProvider) (imds : result string string)
    : ec2InstanceTypeInfoProvider * result InfoError InstanceInfo :=
  match info p with
  | Some i => (p, Ok i)
  | None =>
      match imds with
      | Err e => (p, Err (InfoOther e))
      | Ok instanceType =>
          match embeddedLookup p !! instanceType with
          | None => (p, Err (ErrUnknownInstanceType instanceType))
          | Some i => (mkProvider (Some i) (embeddedLookup p), Ok i)
          end
      end
  end.

(** ** What a provider answers *)

(** The entry of a type is the last line of it that parses. *)
Lemma embedded_snoc entries e type :
  loadEmbeddedInstanceInfo (entries ++ [e]) !! type
  = match e with
    | Some i => if decide (InstanceType i = type) then Some i else loadEmbeddedInstanceInfo entries !! type
    | None => loadEmbeddedInstanceInfo entries !! type
    end.
Proof.
  unfold loadEmbeddedInstanceInfo. rewrite foldl_app. simpl. destruct e as [i|]; [|done].
  case_decide; [subst; apply lookup_insert_eq | by apply lookup_insert_ne].
Qed.

Lemma embedded_type entries type i :
  loadEmbeddedInstanceInfo entries !! type = Some i → InstanceType i = type ∧ Some i ∈ entries.
Proof.
  induction entries as [|e entries IH] using rev_ind; [done|].
  rewrite embedded_snoc. destruct e as [j|].
  - case_decide; intros; simplify_eq; [split; [done | set_solver]|].
    destruct IH; [done | set_solver].
  - intros [? ?]%IH. set_solver.
Qed.

(** Once it answers, it keeps the answer whatever the service says later; before, each
    call asks again, and a failure leaves it as it was. *)
Lemma GetInstanceInfo_sticks p imds imds' i :
  (GetInstanceInfo p imds).2 = Ok i → GetInstanceInfo (GetInstanceInfo p imds).1 imds' = ((GetInstanceInfo p imds).1, Ok i).
Proof.
  unfold GetInstanceInfo. destruct (info p) as [j|] eqn:Hi; simpl.
  - intros [= ->]. by rewrite Hi.
  - destruct imds as [type|]; [|done]. destruct (embeddedLookup p !! type); [|done]. by intros [= ->].
Qed.

Lemma GetInstanceInfo_error p imds e :
  (GetInstanceInfo p imds).2 = Err e → (GetInstanceInfo p imds).1 = p.
Proof. unfold GetInstanceInfo. repeat case_match; by intros. Qed.
