(* ===== verification/InstanceTable.v ===== *)
(** * InstanceTable: the table of instance types, from its generator
    ([hack/generate-instance-info]) to the agent ([internal/pkg/instanceinfo]).

    The generator asks EC2 for the instance types of every region and writes a line of JSON
    for each type with GPUs; the file becomes part of the binary, whose lines [InstanceInfo]
    loads.  The answers of EC2 and of the file system are arguments. *)

From stdpp Require Import sorting pretty.
From S2P Require Import Prelude GoStrings GoNet GoJson InstanceInfo.

(** ** The generator *)

(** What EC2 tells of a type: pointers that may be nil; a count is an [int32]. *)
Record GpuDeviceInfo := mkGpu { Count : option Z; Manufacturer : option string }.
Record InstanceTypeInfo := mkTypeInfo { ec2Type : string; GpuInfo : option (list GpuDeviceInfo) }.

Definition count_gpu (n : Z) (gpu : GpuDeviceInfo) : Z :=
  match Count gpu, Manufacturer gpu with
  | Some count, Some m => if String.eqb m "NVIDIA" then u64 (n + u64 count) else n
  | _, _ => n
  end.

Definition collectInstanceInfo (it : InstanceTypeInfo) : InstanceInfo :=
  mkInstanceInfo (ec2Type it) (match GpuInfo it with Some gpus => foldl count_gpu 0 gpus | None => 0 end).

Definition add_type (results : gmap string InstanceInfo) (it : InstanceTypeInfo) : gmap string InstanceInfo :=
  match results !! ec2Type it with Some _ => results | None => <[ec2Type it := collectInstanceInfo it]> results end.

(** The pages of a region: what was added before a page that fails stays. *)
Fixpoint addInstanceTypes (pages : list (result string (list InstanceTypeInfo))) (results : gmap string InstanceInfo)
    : gmap string InstanceInfo * option string :=
  match pages with
  | [] => (results, None)
  | Err e :: _ => (results, Some e)
  | Ok page :: rest => addInstanceTypes rest (foldl add_type results page)
  end.

Definition getOptedInRegions (resp : result string (list (option string))) : result string (list string) :=
  match resp with Err e => Err e | Ok regions => Ok (merge_sort String.le (omap id regions)) end.

(** The regions one after the other; one that fails is only warned about. *)
Definition scan_regions (pages : string → list (result string (list InstanceTypeInfo))) (regions : list string)
    : gmap string InstanceInfo :=
  foldl (λ m region, (addInstanceTypes (pages region) m).1) ∅ regions.

(** [json.Encoder.Encode] of an entry, with the fields that are zero left out. *)
Definition encode_entry (e : InstanceInfo) : string :=
  String (byte_of 123) (encode_string "instanceType" +:+ String colon (encode_string (InstanceType e) +:+
    (if NvidiaGPUCount e =? 0 then EmptyString
     else String (byte_of 44) (encode_string "nvidiaGpuCount" +:+ String colon (Itoa (NvidiaGPUCount e)))) +:+
    String (byte_of 125) EmptyString)).

Definition by_type (a b : InstanceInfo) : Prop := String.le (InstanceType a) (InstanceType b).
#[local] Instance by_type_dec a b : Decision (by_type a b) := _.

Definition lines_text (l : list string) : string := foldr (λ x s, x +:+ String (byte_of 10) s) EmptyString l.

Definition has_data (e : InstanceInfo) : bool := negb (NvidiaGPUCount e =? 0).

(** [range] is the order in which Go ranges over the map, [encode] the error of writing an
    entry; the result is the file. *)
Definition run (cfg : result string ()) (describe : result string (list (option string)))
    (pages : string → list (result string (list InstanceTypeInfo))) (range : gmap string InstanceInfo → list InstanceInfo)
    (create : option string) (encode : InstanceInfo → option string) : result string string :=
  match cfg with
  | Err e => Err (prefixed "failed to load AWS config" e)
  | Ok _ =>
      match getOptedInRegions describe with
      | Err e => Err (prefixed "failed to get regions" e)
      | Ok regions =>
          let entries := merge_sort by_type (filter has_data (range (scan_regions pages regions))) in
          match create, head (omap encode entries) with
          | Some e, _ => Err (prefixed "failed to create output file" e)
          | None, Some e => Err (prefixed "failed to encode entry" e)
          | None, None => Ok (lines_text (encode_entry <$> entries))
          end
      end
  end.

(** ** The loader *)

Definition info_fields : list (string * setter InstanceInfo) :=
  [("instanceType", set_string (λ s e, mkInstanceInfo s (NvidiaGPUCount e)));
   ("nvidiaGpuCount", set_uint (λ n e, mkInstanceInfo (InstanceType e) n))].

Definition unmarshal_info (line : string) : option InstanceInfo :=
  v ← parse line; decode_struct info_fields v (mkInstanceInfo EmptyString 0).

(** The provider with the table of a file. *)
Definition provider_of (file : string) : ec2InstanceTypeInfoProvider :=
  NewInstanceTypeInfoProvider (unmarshal_info <$> ScanLines file).

Example unmarshal_ex :
  unmarshal_info <$> ScanLines (text "{'instanceType':'p5.48xlarge','nvidiaGpuCount':8}") =
  [Some (mkInstanceInfo "p5.48xlarge" 8)].
Proof. vm_compute. reflexivity. Qed.
Example unmarshal_cases :
  unmarshal_info ∘ text <$> ["{'INSTANCETYPE':'a','nvidiaGpuCount':'8'}"; "{'InstanceType':'a','x':[{}]}"; "null"; EmptyString] =
  [None; Some (mkInstanceInfo "a" 0); Some (mkInstanceInfo EmptyString 0); None].
Proof. vm_compute. reflexivity. Qed.

(** ** Numbers *)

Lemma digit_char d : (d < 10)%N →
  digitb (pretty_N_char d) = true ∧ digit_of (pretty_N_char d) = Some (Z.of_N d) ∧ (d ≠ 0%N → is_byte 48 (pretty_N_char d) = false).
Proof.
  intros Hd. assert (H : d ∈ [0; 1; 2; 3; 4; 5; 6; 7; 8; 9]%N) by (set_unfold; lia).
  set_unfold in H. by destruct_or!; subst.
Qed.

Fixpoint all_digits (s : string) : bool :=
  match s with EmptyString => true | String c s' => digitb c && all_digits s' end.

(** The decimal digits of a number: what they spell, and that they are digits without a
    leading zero. *)
Lemma pretty_go_value x s : decimal_from 0 (pretty_N_go x s) = decimal_from (Z.of_N x) s.
Proof.
  revert s. induction (N.lt_wf_0 x) as [x _ IH]. intros s. destruct (decide (x = 0%N)) as [->|Hx].
  { by rewrite pretty_N_go_0. }
  rewrite pretty_N_go_step by lia. rewrite IH by (apply N.div_lt; lia). cbn [decimal_from].
  destruct (digit_char (x `mod` 10)) as (_ & -> & _); [by apply N.mod_lt|]. cbn [mbind option_bind].
  pose proof (N.div_mod x 10 ltac:(lia)). f_equal. lia.
Qed.

Lemma pretty_go_digits x s : (0 < x)%N →
  ∃ c r, pretty_N_go x s = String c (r +:+ s) ∧ digitb c = true ∧ is_byte 48 c = false ∧ all_digits r = true.
Proof.
  revert s. induction (N.lt_wf_0 x) as [x _ IH]. intros s Hx.
  rewrite pretty_N_go_step by lia. set (d := pretty_N_char (x `mod` 10)).
  destruct (digit_char (x `mod` 10)) as (Hd & _ & Hz); [by apply N.mod_lt|]. fold d in Hd, Hz.
  destruct (decide (x `div` 10 = 0)%N) as [E|E].
  - rewrite E, pretty_N_go_0. exists d, EmptyString. repeat split; [done|].
    apply Hz. rewrite (N.div_mod x 10), E in Hx by lia. lia.
  - destruct (IH (x / 10)%N) with (s := String d s) as (c & r & -> & Hc & H0 & Hr); [apply N.div_lt; lia|by apply N.neq_0_lt_0|].
    exists c, (r +:+ String d EmptyString). rewrite <- sapp_assoc. repeat split; [done..|].
    clear -Hr Hd. induction r as [|b r IH]; simpl in *; [by rewrite Hd|].
    apply andb_true_iff in Hr as [-> ?]. auto.
Qed.

Lemma Itoa_spec n : 0 < n →
  ∃ c r, Itoa n = String c r ∧ digitb c = true ∧ is_byte 48 c = false ∧ all_digits r = true ∧ decimal_from 0 (Itoa n) = Some n.
Proof.
  intros Hn. destruct n as [|p|]; [lia| |lia].
  assert (E : Itoa (Z.pos p) = pretty_N_go (N.pos p) EmptyString) by done.
  destruct (pretty_go_digits (N.pos p) EmptyString) as (c & r & Er & ? & ? & ?); [done|]. rewrite sapp_nil_r in Er.
  exists c, r. rewrite E. repeat split; [done..|]. by rewrite pretty_go_value.
Qed.

Lemma span_digits (p : Ascii.ascii → bool) r rest :
  (∀ c, digitb c = true → p c = true) → all_digits r = true → (match rest with String c _ => p c = false | EmptyString => True end) →
  span p (r +:+ rest) = (r, rest).
Proof.
  intros Hp Hr Hrest. induction r as [|c r IH]; simpl in *.
  - destruct rest as [|c rest]; [done|]. simpl. by rewrite Hrest.
  - apply andb_true_iff in Hr as [Hc Hr]. by rewrite Hp, IH.
Qed.

(** A decimal number in a document is read as its literal. *)
Lemma parse_number depth n rest :
  0 < n → (match rest with String c _ => number_byte c = false | EmptyString => True end) →
  parse_value depth (Itoa n +:+ rest) = Some (JNumber (Itoa n), rest).
Proof.
  intros Hn Hrest. destruct (Itoa_spec n Hn) as (c & r & E & Hc & H0 & Hr & _). rewrite E.
  assert (Hnb : ∀ d, digitb d = true → number_byte d = true) by (intros d Hd; unfold number_byte; by rewrite Hd).
  assert (Hspan : span number_byte (String c r +:+ rest) = (String c r, rest)).
  { apply span_digits; [done| |done]. simpl. by rewrite Hc, Hr. }
  assert (Hvalid : valid_number (String c r) = true).
  { unfold valid_number. assert (Hm : is_byte 45 c = false).
    { unfold digitb, between, is_byte in *. apply andb_true_iff in Hc as [?%Nat.leb_le ?]. apply Nat.eqb_neq. lia. }
    cbn [cut_byte existsb]. rewrite Hm. cbn [orb default]. rewrite <- (sapp_nil_r (String c r)), span_digits; [|done| |done].
    - cbn [cut_byte]. destruct r; [done|]. by rewrite H0.
    - simpl. by rewrite Hc, Hr. }
  assert (Hlow : (48 <= Ascii.nat_of_ascii c <= 57)%nat).
  { unfold digitb, between in Hc. apply andb_true_iff in Hc as [?%Nat.leb_le ?%Nat.leb_le]. done. }
  assert (Hb : ∀ k, (57 < k ∨ k < 48)%nat → is_byte k c = false) by (intros k ?; apply Nat.eqb_neq; lia).
  assert (Hcut : ∀ w d, (57 < Ascii.nat_of_ascii d)%nat → CutPrefix (String c r +:+ rest) (String d w) = None).
  { intros w d Hd. unfold CutPrefix. cbn [HasPrefix String.append].
    destruct (Ascii.eqb_spec d c) as [->|]; [lia|done]. }
  cbn [String.append] in *. destruct depth; cbn [parse_value]; rewrite (Hb 34%nat), (Hb 91%nat), (Hb 123%nat) by lia;
    rewrite !Hcut by (vm_compute; lia); by rewrite Hspan, Hvalid.
Qed.

(** ** An entry is read back *)

Definition entry_members (e : InstanceInfo) : list (string * json) :=
  ("instanceType", JString (ToValidUTF8 (InstanceType e))) ::
  if NvidiaGPUCount e =? 0 then [] else [("nvidiaGpuCount", JNumber (Itoa (NvidiaGPUCount e)))].

Lemma parse_entry e : 0 <= NvidiaGPUCount e → parse (encode_entry e) = Some (JObject (entry_members e)).
Proof.
  intros Hn. unfold parse. assert (Hd : ∃ d, maxNestingDepth = S d) by by eexists.
  destruct Hd as [d ->]. unfold encode_entry. rewrite skip_solid by done.
  set (body := encode_string "instanceType" +:+ _).
  assert (Hp : parse_value (S d) (String (byte_of 123) body) =
    ('(ms, rest) ← members (parse_value d) (S (String.length body)) body; Some (JObject ms, rest))) by done.
  rewrite Hp. clear Hp. unfold body at 2. unfold entry_members. destruct (Z.eqb_spec (NvidiaGPUCount e) 0) as [E|E].
  - erewrite members_encoded; [|apply solid_encode|apply parse_encoded]. reflexivity.
  - erewrite members_encoded; [|apply solid_encode|apply parse_encoded]. cbn [String.append].
    rewrite skip_solid by done. change (is_byte 44 (byte_of 44)) with true. cbv iota.
    assert (Hlen : ∃ f, String.length body = S f) by by eexists. destruct Hlen as [f ->].
    rewrite <- sapp_assoc. cbn [String.append].
    erewrite members_encoded; [|..|apply parse_number; [lia|done]].
    + reflexivity.
    + destruct (Itoa_spec (NvidiaGPUCount e) ltac:(lia)) as (c & r & -> & Hc & _). cbn [String.append solid].
      unfold digitb, between in Hc. apply andb_true_iff in Hc as [?%Nat.leb_le ?].
      cbn [existsb]. unfold is_byte. by rewrite !(proj2 (Nat.eqb_neq _ _)) by lia.
Qed.

Lemma ParseUint_Itoa n : 0 < n < 2 ^ 64 → ParseUint 64 (Itoa n) = Some n.
Proof.
  intros Hn. destruct (Itoa_spec n) as (c & r & E & _ & _ & _ & Hv); [lia|]. unfold ParseUint. rewrite Hv, E. cbn.
  by rewrite (proj2 (Z.ltb_lt _ _)) by lia.
Qed.

(** An entry with a name that is valid UTF-8 is read back as it was written. *)
Lemma unmarshal_entry e :
  is_u64 (NvidiaGPUCount e) → unmarshal_info (encode_entry e) = Some (mkInstanceInfo (ToValidUTF8 (InstanceType e)) (NvidiaGPUCount e)).
Proof.
  intros Hn. unfold unmarshal_info. rewrite parse_entry by (unfold is_u64 in Hn; lia). cbn [mbind option_bind].
  unfold decode_struct, entry_members. destruct (Z.eqb_spec (NvidiaGPUCount e) 0) as [->|E]; [done|]. cbn [foldl fst snd].
  change (find_field info_fields "instanceType") with (Some (set_string (λ s e, mkInstanceInfo s (NvidiaGPUCount e)))).
  change (find_field info_fields "nvidiaGpuCount") with (Some (set_uint (λ n e, mkInstanceInfo (InstanceType e) n))).
  cbn [mbind option_bind set_string set_uint]. rewrite ParseUint_Itoa; [done|]. unfold is_u64 in Hn. lia.
Qed.

Lemma pretty_go_length k x s : (x < 10 ^ N.of_nat k)%N → (String.length (pretty_N_go x s) <= k + String.length s)%nat.
Proof.
  revert x s. induction k as [|k IH]; intros x s Hx.
  - assert (x = 0%N) as -> by (simpl in Hx; lia). by rewrite pretty_N_go_0.
  - destruct (decide (x = 0%N)) as [->|]; [rewrite pretty_N_go_0; lia|]. rewrite pretty_N_go_step by lia.
    etrans; [apply IH|simpl; lia]. apply N.div_lt_upper_bound; [lia|].
    by rewrite Nat2N.inj_succ, N.pow_succ_r' in Hx.
Qed.

Lemma Itoa_length n : is_u64 n → 0 < n → (String.length (Itoa n) <= 20)%nat.
Proof.
  intros [_ Hn] H0. destruct n as [|p|]; [lia| |lia]. change (Itoa (Z.pos p)) with (pretty_N_go (N.pos p) EmptyString).
  etrans; [apply (pretty_go_length 20)|simpl; lia]. simpl. lia.
Qed.

Lemma digits_no_feed n : 0 < n → IndexByte (Itoa n) (byte_of 10) = None.
Proof.
  intros Hn. destruct (Itoa_spec n Hn) as (c & r & -> & Hc & _ & Hr & _).
  assert (H : all_digits (String c r) = true) by (simpl; by rewrite Hc).
  generalize dependent (String c r). intros s. clear. induction s as [|c s IH]; [done|]. cbn [all_digits IndexByte].
  intros [Hc Hs]%andb_true_iff. destruct (Ascii.eqb_spec c (byte_of 10)) as [->|]; [vm_compute in Hc; done|]. by rewrite IH.
Qed.

Lemma drop_cr_brace s : drop_cr (s +:+ String (byte_of 125) EmptyString) = s +:+ String (byte_of 125) EmptyString.
Proof.
  unfold drop_cr. rewrite slength_app. simpl String.length.
  replace (String.length s + 1 - 1)%nat with (String.length s) by lia. by rewrite drop_bytes_app.
Qed.

(** A line of the file: no line feed in it, and short enough for the scanner. *)
Lemma encode_entry_line e :
  Z.of_nat (String.length (InstanceType e)) < 10000 → is_u64 (NvidiaGPUCount e) →
  IndexByte (encode_entry e) (byte_of 10) = None ∧ drop_cr (encode_entry e) = encode_entry e ∧
  Z.of_nat (String.length (encode_entry e)) < MaxScanTokenSize.
Proof.
  intros Hl Hn. set (fields := encode_string "instanceType" +:+ String colon (encode_string (InstanceType e) +:+
    (if NvidiaGPUCount e =? 0 then EmptyString
     else String (byte_of 44) (encode_string "nvidiaGpuCount" +:+ String colon (Itoa (NvidiaGPUCount e)))))).
  assert (E : encode_entry e = String (byte_of 123) fields +:+ String (byte_of 125) EmptyString).
  { unfold encode_entry, fields. cbn [String.append]. rewrite <- !sapp_assoc. cbn [String.append]. by rewrite <- sapp_assoc. }
  assert (Hf : IndexByte fields (byte_of 10) = None ∧ Z.of_nat (String.length fields) <= 60200).
  { unfold fields. pose proof (proj2 (escape_length (String.length (InstanceType e)) (InstanceType e) ltac:(done))).
    assert (Hcons : ∀ c s, IndexByte (String c s) (byte_of 10) = None ↔ Ascii.eqb c (byte_of 10) = false ∧ IndexByte s (byte_of 10) = None).
    { intros c s. cbn [IndexByte]. destruct (Ascii.eqb c _); [by split; [|intros []]|]. rewrite fmap_None. naive_solver. }
    split.
    - apply IndexByte_app. split; [apply encode_no_feed|]. apply Hcons. split; [done|].
      apply IndexByte_app. split; [apply encode_no_feed|]. case_match eqn:E0; [done|]. apply Hcons. split; [done|].
      apply IndexByte_app. split; [apply encode_no_feed|]. apply Hcons. split; [done|].
      apply digits_no_feed. apply Z.eqb_neq in E0. unfold is_u64 in Hn. lia.
    - rewrite slength_app. cbn [String.length]. rewrite slength_app. unfold encode_string at 2. cbn [String.length]. rewrite slength_app.
      cbn [String.length]. assert (Hk : (String.length (encode_string "instanceType") = 14)%nat) by done. rewrite Hk.
      case_match eqn:E0; [simpl; lia|]. cbn [String.length]. rewrite slength_app. cbn [String.length].
      assert (Hk' : (String.length (encode_string "nvidiaGpuCount") = 16)%nat) by done. rewrite Hk'.
      apply Z.eqb_neq in E0. pose proof (Itoa_length (NvidiaGPUCount e) Hn ltac:(unfold is_u64 in Hn; lia)). lia. }
  destruct Hf as [Hf Hlen]. rewrite E. split; [|split].
  - apply IndexByte_app. split; [|done]. cbn [IndexByte]. change (Ascii.eqb (byte_of 123) (byte_of 10)) with false. cbv iota. by rewrite Hf.
  - apply drop_cr_brace.
  - rewrite slength_app. cbn [String.length]. unfold MaxScanTokenSize. lia.
Qed.

(** ** The file is the table *)

Lemma scan_lines_text l :
  Forall (λ x, IndexByte x (byte_of 10) = None ∧ drop_cr x = x ∧ Z.of_nat (String.length x) < MaxScanTokenSize) l →
  ScanLines (lines_text l) = l.
Proof.
  unfold ScanLines. induction 1 as [|x l (Hx & Hcr & Hlen) _ IH]; [done|]. cbn [lines_text foldr].
  rewrite Split_app, Split_elem by done. cbn [app scan_lines]. fold (lines_text l).
  destruct (Split (lines_text l) (byte_of 10)) as [|y ys] eqn:E; [by apply Split_not_nil in E|].
  rewrite (proj2 (Z.ltb_lt _ _) Hlen), Hcr. by f_equal.
Qed.

(** What the generator has collected of a type is under its name. *)
Definition table_ok (m : gmap string InstanceInfo) : Prop :=
  map_Forall (λ k i, InstanceType i = k ∧ is_u64 (NvidiaGPUCount i)) m.

Lemma collect_u64 it : is_u64 (NvidiaGPUCount (collectInstanceInfo it)).
Proof.
  unfold collectInstanceInfo. simpl. destruct (GpuInfo it) as [gpus|]; [|by unfold is_u64].
  assert (H : ∀ n, is_u64 n → is_u64 (foldl count_gpu n gpus)); [|by apply H; unfold is_u64].
  induction gpus as [|g gpus IH]; intros n Hn; [done|]. simpl. apply IH. unfold count_gpu.
  repeat case_match; try done. apply u64_range.
Qed.

Lemma scan_regions_ok pages regions : table_ok (scan_regions pages regions).
Proof.
  assert (Ha : ∀ ts m, table_ok m → table_ok (foldl add_type m ts)).
  { induction ts as [|t ts IH]; intros m Hm; [done|]. simpl. apply IH. unfold add_type.
    destruct (m !! ec2Type t); [done|]. apply map_Forall_insert_2; [|done]. split; [done|apply collect_u64]. }
  assert (Hp : ∀ ps m, table_ok m → table_ok (addInstanceTypes ps m).1).
  { induction ps as [|[p|e] ps IH]; intros m Hm; simpl; auto. }
  unfold scan_regions. assert (H : ∀ m, table_ok m → table_ok (foldl (λ m region, (addInstanceTypes (pages region) m).1) m regions)).
  { induction regions as [|r rs IH]; intros m Hm; simpl; auto. }
  apply H, map_Forall_empty.
Qed.

(** The last entry of a type stands; with one entry for each name it is the only one. *)
Lemma load_entries (m : gmap string InstanceInfo) (l : list InstanceInfo) type :
  table_ok m → l ≡ₚ filter has_data (map_to_list m).*2 →
  loadEmbeddedInstanceInfo (Some <$> l) !! type =
  match m !! type with Some i => if has_data i then Some i else None | None => None end.
Proof.
  intros Hm Hl. destruct (loadEmbeddedInstanceInfo (Some <$> l) !! type) as [i|] eqn:E.
  - apply embedded_type in E as [Ht Hin]. apply list_elem_of_fmap in Hin as (i' & [= <-] & Hin). rewrite Hl in Hin.
    apply list_elem_of_filter in Hin as [Hd Hin]. apply list_elem_of_fmap in Hin as ([k j] & -> & Hin). simpl in *.
    apply elem_of_map_to_list in Hin. destruct (Hm k j Hin) as [Hk _]. rewrite Hk in Ht. subst. rewrite Hin.
    apply Is_true_true in Hd. by rewrite Hd.
  - destruct (m !! type) as [i|] eqn:Ei; [|done]. destruct (has_data i) eqn:Hd; [|done]. exfalso.
    assert (Hin : i ∈ l).
    { rewrite Hl. apply list_elem_of_filter. split; [by rewrite Hd|]. apply list_elem_of_fmap. exists (type, i).
      split; [done|]. by apply elem_of_map_to_list. }
    destruct (Hm type i Ei) as [Ht _]. clear -E Hin Ht. revert E. induction l as [|j l IH] using rev_ind; [by apply elem_of_nil in Hin|].
    rewrite fmap_app. simpl. rewrite embedded_snoc. case_decide; [done|]. apply IH. set_solver.
Qed.

(** C32. The table that is generated is the table that the agent uses.  For whatever EC2
    answers, when the generator writes its file, the provider built from the file answers for
    a type with the very counts that the regions were scanned to, refuses a type without
    GPUs as unknown, and asks nothing else; the order in which Go ranges over the map, and
    the order of the regions' types, leave no trace.  The names are as EC2 gives them: valid
    UTF-8, below 10000 bytes. *)
Theorem generated_table_loads describe pages range create encode regions file type :
  run (Ok tt) describe pages range create encode = Ok file →
  getOptedInRegions describe = Ok regions →
  (∀ m, range m ≡ₚ (map_to_list m).*2) →
  map_Forall (λ name _, ToValidUTF8 name = name ∧ Z.of_nat (String.length name) < 10000) (scan_regions pages regions) →
  (GetInstanceInfo (provider_of file) (Ok type)).2 =
  match scan_regions pages regions !! type with
  | Some i => if decide (NvidiaGPUCount i = 0) then Err (ErrUnknownInstanceType type) else Ok i
  | None => Err (ErrUnknownInstanceType type)
  end.
Proof.
  intros Hrun Hreg Hrange Hnames. unfold run in Hrun. rewrite Hreg in Hrun. set (m := scan_regions pages regions) in *.
  destruct create; [done|]. destruct (head (omap encode _)); [done|]. injection Hrun as <-. pose proof (scan_regions_ok pages regions) as Hok. fold m in Hok.
  set (l := merge_sort by_type (filter has_data (range m))).
  assert (Hl : l ≡ₚ filter has_data (map_to_list m).*2) by (unfold l; by rewrite merge_sort_Permutation, Hrange).
  assert (Hin : ∀ i, i ∈ l → ToValidUTF8 (InstanceType i) = InstanceType i ∧ Z.of_nat (String.length (InstanceType i)) < 10000 ∧
    is_u64 (NvidiaGPUCount i)).
  { intros i Hi. rewrite Hl in Hi. apply list_elem_of_filter in Hi as [_ Hi].
    apply list_elem_of_fmap in Hi as ([k j] & -> & Hi%elem_of_map_to_list). simpl.
    destruct (Hok k j Hi) as [<- ?]. by destruct (Hnames _ _ Hi). }
  assert (Eload : unmarshal_info <$> ScanLines (lines_text (encode_entry <$> l)) = Some <$> l).
  { rewrite scan_lines_text.
    - rewrite <- list_fmap_compose. apply list_fmap_ext. intros n i Hi%list_elem_of_lookup_2. simpl.
      destruct (Hin i Hi) as (Hv & _ & Hu). rewrite unmarshal_entry, Hv by done. by destruct i.
    - apply Forall_fmap, Forall_forall. intros i Hi. destruct (Hin i Hi) as (_ & ? & ?). by apply encode_entry_line. }
  unfold provider_of, NewInstanceTypeInfoProvider. rewrite Eload. unfold GetInstanceInfo. simpl.
  rewrite (load_entries m l type Hok Hl). destruct (m !! type) as [i|]; [|done].
  unfold has_data. case_decide as E0; [by rewrite E0|]. by rewrite (proj2 (Z.eqb_neq _ _) E0).
Qed.

Definition ex_pages (region : string) : list (result string (list InstanceTypeInfo)) :=
  if String.eqb region "us-east-1" then
    [Ok [mkTypeInfo "p5.48xlarge" (Some [mkGpu (Some 8) (Some "NVIDIA")]); mkTypeInfo "m5.large" None];
     Ok [mkTypeInfo "g4ad.xlarge" (Some [mkGpu (Some 1) (Some "AMD")])]; Err "throttled"]
  else [Ok [mkTypeInfo "p5.48xlarge" (Some [mkGpu (Some 4) (Some "NVIDIA")]); mkTypeInfo "g5.xlarge" (Some [mkGpu (Some 1) (Some "NVIDIA")])]].

Lemma generated_table_loads_witness :
  ∃ file, run (Ok tt) (Ok [Some "us-west-2"; None; Some "us-east-1"]) ex_pages (λ m, (map_to_list m).*2) None (λ _, None) = Ok file ∧
    (GetInstanceInfo (provider_of file) (Ok "p5.48xlarge")).2 = Ok (mkInstanceInfo "p5.48xlarge" 8) ∧
    (GetInstanceInfo (provider_of file) (Ok "m5.large")).2 = Err (ErrUnknownInstanceType "m5.large").
Proof.
  destruct (run (Ok tt) (Ok [Some "us-west-2"; None; Some "us-east-1"]) ex_pages (λ m, (map_to_list m).*2) None (λ _, None))
    as [file|e] eqn:E; [|vm_compute in E; discriminate E]. exists file.
  assert (Hn : map_Forall (λ name _, ToValidUTF8 name = name ∧ Z.of_nat (String.length name) < 10000) (scan_regions ex_pages ["us-east-1"; "us-west-2"])).
  { apply (bool_decide_unpack _). vm_compute. exact I. }
  pose proof (λ type, generated_table_loads _ ex_pages _ _ _ ["us-east-1"; "us-west-2"] file type E eq_refl (λ m, reflexivity _) Hn) as H.
  split; [reflexivity|]. split; rewrite H; vm_compute; reflexivity.
Defined.
