(* ===== verification/DcgmSystem.v ===== *)
(** * DcgmSystem: the checks of the nvidia monitor ([monitors/nvidia/dcgm],
    [monitors/nvidia/monitor.go]).

    Each check takes what the client of [Dcgm] answers and gives conditions; the two
    that repeat warnings keep a tracker.  [DCGMSystem] is the state the checks share,
    [nvidiaMonitor] puts them on the client and notifies the manager of what they
    give. *)

From S2P Require Import Prelude GoStrings Monitor Reasons Renotify Registry Classify Osext NvmlDevices Dcgm InstanceInfo.

(** ** The system *)

Record DCGMSystem := mkSystem {
  diagType : Z;
  fieldWarnings : Tracker string;
  healthWarnings : Tracker string
}.

Definition fieldValueWindow : Duration := 5 * Minute.

Definition NewDCGMSystem (diag : Z) : DCGMSystem :=
  mkSystem diag (New EmptyString WarningReNotifyInterval) (New EmptyString WarningReNotifyInterval).

(** What the checks get from the client. *)
Record Incident := mkIncident { iSystem : Z; iHealth : Z; iCode : Z; iMessage : string }.
Record FieldValue := mkFieldValue { FieldID : Z; fvStatus : Z; Int64 : Z }.
Record DiagResult := mkDiagResult { drStatus : string; TestName : string; drErrorMessage : string }.

Inductive PolicyData :=
| XidData (ErrNum : Z)
| DbeData (NumErrors : Z) (Location : arg)
| NvlinkData (Counter : Z) (FieldId : arg)
| RetiredPagesData (SbePages DbePages : Z)
| PowerData (PowerViolation : Z)
| PciData (ReplayCounter : Z)
| ThermalData (ThermalViolation : Z)
| OtherData.

Record PolicyViolation := mkViolation { pvCondition : PolicyCondition; pvData : PolicyData }.

(** The constants of go-dcgm the checks compare with. *)
Class CheckConstants := {
  DCGM_HEALTH_RESULT_FAIL : Z;
  DCGM_HEALTH_WATCH_NVLINK : Z;
  DCGM_FR_NVLINK_ERROR_CRITICAL : Z;
  DCGM_FR_FABRIC_PROBE_STATE : Z;
  DCGM_ST_OK : Z;
  DCGM_ST_NO_DATA : Z;
  DCGM_FI_DEV_CLOCKS_EVENT_REASONS : Z;
  DCGM_FI_DEV_NVSWITCH_FATAL_ERRORS : Z;
  DCGM_FI_DEV_NVSWITCH_NON_FATAL_ERRORS : Z;
  DCGM_FI_DEV_FABRIC_MANAGER_STATUS : Z;
  DCGM_FI_DEV_FABRIC_HEALTH_MASK : Z
}.

(** *** dcgm_reconcile.go *)

Definition check_reconcile (r : result string bool) : list Condition :=
  match r with
  | Err e => [condition_of DCGMError [] e]
  | Ok _ => []
  end.

(** *** dcgm_activediagnostic.go *)

Definition diagnostic_condition (r : DiagResult) : option Condition :=
  if String.eqb (drStatus r) "fail" then
    Some (condition_of DCGMDiagnosticFailure []
            (Sprintf "DCGM Diagnostic failed for test %s with error: %s" [AStr (TestName r); AStr (drErrorMessage r)]))
  else None.

(** [runDiag] is what the client answers to [RunDiag]. *)
Definition ActiveDiagnostic (s : DCGMSystem) (runDiag : result DcgmError (option (list DiagResult)))
    : result string (list Condition) :=
  if diagType s <=? 0 then Ok []
  else match runDiag with
       | Err ErrNotInitialized => Ok []
       | Err (OtherError e) => Err (prefixed "failed to run DCGM diagnostics" e)
       | Ok results => Ok (omap diagnostic_condition (default [] results))
       end.

(** [env] is [DCGM_DIAG_LEVEL]; the level is what [strconv.Atoi] returns, with or
    without an error. *)
Definition GetDiagType (env : option string) : Z :=
  match env with
  | Some s => (ParseInt s).1
  | None => 0
  end.

(** *** dcgm_devices.go *)

(** [provider] is [None] without a provider of instance types. *)
Definition DeviceCount (count : result DcgmError (option Z)) (files : result string (nat * string))
    (provider : option (result InfoError InstanceInfo)) : result string (list Condition) :=
  match count with
  | Err ErrNotInitialized => Ok []
  | Err (OtherError e) => Err (prefixed "failed to call DCGM get device count" e)
  | Ok n =>
      match files with
      | Err dir => Err ("failed to get nvidia device count from " +:+ dir)
      | Ok (fileCount, path) =>
          let expected := match provider with Some (Ok i) => Some (NvidiaGPUCount i) | _ => None end in
          Ok (Classify (mkSignals [] None None false false false false false false
                          (Some (default 0 n)) (Some (Z.of_nat fileCount)) path expected))
      end
  end.

(** *** dcgm_policies.go *)

Definition withMessage (conds : list Condition) (msg : string) : list Condition :=
  Nvml.set_message msg <$> conds.

Definition uint (z : Z) : arg := AInt "uint" z.

Definition verb_v (a : arg) : string := match a with AInt _ z => Itoa z | AStr s => s end.

Definition handleXidFinding (ErrNum : Z) : list Condition :=
  Classify (mkSignals [ErrNum] None None false false false false false false None None EmptyString None).

Definition handleDbeFinding (n : Z) (location : arg) : list Condition :=
  withMessage (Classify (mkSignals [] None None true false false false false false None None EmptyString None))
    (Sprintf "detected %d Nvidia Double Bit error(s) on location " [uint n] +:+ verb_v location).

Definition handleNvlinkFinding (counter : Z) (fieldId : arg) : list Condition :=
  withMessage (Classify (mkSignals [] None None false true false false false false None None EmptyString None))
    (Sprintf "detected %d NVLink errors on fieldId " [uint counter] +:+ verb_v fieldId).

Definition handlePageRetirementFinding (sbe dbe : Z) : list Condition :=
  withMessage (Classify (mkSignals [] None None false false true false false false None None EmptyString None))
    (Sprintf "detected %d SBE, and %d DBE page retirements" [uint sbe; uint dbe]).

Definition handlePowerFinding (v : Z) : list Condition :=
  withMessage (Classify (mkSignals [] None None false false false (negb (v =? 0)) false false None None EmptyString None))
    (Sprintf "detected power usage outside of thresholds with severity code %d" [uint v]).

Definition handlePCIePolicyFinding (n : Z) : list Condition :=
  withMessage (Classify (mkSignals [] None None false false false false false true None None EmptyString None))
    (Sprintf "detected %d PCIe replays" [uint n]).

Definition handleThermalPolicyFinding (v : Z) : list Condition :=
  withMessage (Classify (mkSignals [] None None false false false false (negb (v =? 0)) false None None EmptyString None))
    (Sprintf "detected GPU thermals outside of thresholds with severity code %d" [uint v]).

(** [None] is the panic of a type assertion. *)
Definition handle (finding : PolicyViolation) : option (list Condition) :=
  match pvCondition finding with
  | XidPolicy => match pvData finding with XidData n => Some (handleXidFinding n) | _ => None end
  | DbePolicy => match pvData finding with DbeData n l => Some (handleDbeFinding n l) | _ => None end
  | NvlinkPolicy => match pvData finding with NvlinkData n f => Some (handleNvlinkFinding n f) | _ => None end
  | MaxRtPgPolicy =>
      match pvData finding with RetiredPagesData s d => Some (handlePageRetirementFinding s d) | _ => None end
  | PowerPolicy => match pvData finding with PowerData v => Some (handlePowerFinding v) | _ => None end
  | PCIePolicy => match pvData finding with PciData n => Some (handlePCIePolicyFinding n) | _ => None end
  | ThermalPolicy => match pvData finding with ThermalData v => Some (handleThermalPolicyFinding v) | _ => None end
  | OtherPolicy _ => Some []
  end.

Section Checks.
Context `{CheckConstants}.

(** *** dcgm_healthcheck.go *)

Definition nvlinkLifetimeCounterPrefixes : list string :=
  ["datalink layer CRC error counter"; "datalink layer recovery error counter";
   "datalink layer replay error counter"].

Definition isNVLinkLifetimeCounterIncident (inc : Incident) : bool :=
  if negb (iCode inc =? DCGM_FR_NVLINK_ERROR_CRITICAL) then false
  else if negb (iSystem inc =? DCGM_HEALTH_WATCH_NVLINK) then false
  else existsb (Contains (iMessage inc)) nvlinkLifetimeCounterPrefixes.

Definition incident_severity (inc : Incident) : Severity :=
  let failed := iHealth inc =? DCGM_HEALTH_RESULT_FAIL in
  let severity := if failed then SeverityFatal else SeverityWarning in
  let severity := if failed && isNVLinkLifetimeCounterIncident inc then SeverityWarning else severity in
  if failed && (iCode inc =? DCGM_FR_FABRIC_PROBE_STATE) then SeverityWarning else severity.

Definition incident_condition (inc : Incident) : option Condition :=
  if iCode inc =? 122 then None
  else Some (Build (WithSeverity
    (WithMessage (Builder DCGMHealthCode [uint (iCode inc)])
       (Sprintf "DCGM detected issues in health check system with error code %d" [uint (iCode inc)]))
    (incident_severity inc))).

Definition is_probe_state (c : Condition) : bool :=
  String.eqb (Reason c) (Reason (Build (Builder DCGMHealthCode [uint DCGM_FR_FABRIC_PROBE_STATE]))).

Definition HealthCheck (s : DCGMSystem) (now : Time) (res : result DcgmError (option (list Incident)))
    : DCGMSystem * result string (list Condition) :=
  match res with
  | Err ErrNotInitialized => (s, Ok [])
  | Err (OtherError e) => (s, Err (prefixed "failed to call DCGM health check" e))
  | Ok incidents =>
      let conditions := omap incident_condition (default [] incidents) in
      let '(out, t) := SuppressRepeatedWarnings (healthWarnings s) now conditions is_probe_state in
      (mkSystem (diagType s) (fieldWarnings s) t, Ok out)
  end.

(** *** dcgm_watchfield.go *)

(** [(nil, true)] is [Some None], [(nil, false)] is [None]. *)
Definition handleFabricField (fv : FieldValue) : option (option Condition) :=
  if FieldID fv =? DCGM_FI_DEV_FABRIC_MANAGER_STATUS then
    Some (head (Classify (mkSignals [] None (Some (Int64 fv)) false false false false false false
                            None None EmptyString None)))
  else if FieldID fv =? DCGM_FI_DEV_FABRIC_HEALTH_MASK then
    Some (head (Classify (mkSignals [] (Some (u64 (Int64 fv))) None false false false false false false
                            None None EmptyString None)))
  else None.

Definition clockThrottleReasons : list (Z * string) :=
  [(1, "gpu_idle"); (2, "clocks_setting"); (4, "sw_power_cap"); (8, "hw_slowdown"); (16, "sync_boost");
   (32, "sw_thermal"); (64, "hw_thermal"); (128, "hw_power_brake"); (256, "display_clocks")].

(** [range] over [clockThrottleReasons], in the order it happens to take. *)
Fixpoint first_reason (order : list (Z * string)) (v : Z) : option string :=
  match order with
  | [] => None
  | (mask, reason) :: rest =>
      if negb (Z.land v mask =? 0) then Some ("Clocks Throttle Reason " +:+ Quote reason)
      else first_reason rest v
  end.

(** [None] without a mapper for the field, [Some None] when it answers [false]. *)
Definition fieldValueMappers (order : list (Z * string)) (fv : FieldValue) : option (option string) :=
  if FieldID fv =? DCGM_FI_DEV_CLOCKS_EVENT_REASONS then Some (first_reason order (Int64 fv))
  else if FieldID fv =? DCGM_FI_DEV_NVSWITCH_FATAL_ERRORS then
    Some (Some (Sprintf "SXID Fatal Error Code %d" [AInt "int64" (Int64 fv)]))
  else if FieldID fv =? DCGM_FI_DEV_NVSWITCH_NON_FATAL_ERRORS then
    Some (Some (Sprintf "SXID Non-Fatal Error Code %d" [AInt "int64" (Int64 fv)]))
  else None.

Definition field_condition (order : list (Z * string)) (fv : FieldValue) : option Condition :=
  match handleFabricField fv with
  | Some c => c
  | None =>
      if (fvStatus fv =? DCGM_ST_OK) || (fvStatus fv =? DCGM_ST_NO_DATA) then None
      else
        let message := Sprintf "DCGM detected fieldID %d with statusCode %d"
                         [AInt "dcgm.Short" (FieldID fv); AInt "int" (fvStatus fv)] in
        match fieldValueMappers order fv with
        | None => None
        | Some r =>
            let message := match r with Some reason => message +:+ ": " +:+ reason | None => message end in
            Some (condition_of DCGMFieldError [AInt "dcgm.Short" (FieldID fv)] message)
        end
  end.

Definition is_fabric_warning (c : Condition) : bool :=
  String.eqb (Reason c) (Template FabricManagerNotRunningWarning).

Definition WatchFields (order : list (Z * string)) (s : DCGMSystem) (now : Time)
    (values : result DcgmError (option (list FieldValue))) : DCGMSystem * result string (list Condition) :=
  match values with
  | Err ErrNotInitialized => (s, Ok [])
  | Err (OtherError e) => (s, Err e)
  | Ok values =>
      let conditions := omap (field_condition order) (default [] values) in
      let '(out, t) := SuppressRepeatedWarnings (fieldWarnings s) now conditions is_fabric_warning in
      (mkSystem (diagType s) t (healthWarnings s), Ok out)
  end.

End Checks.

(** ** What each check makes fatal *)

(** Rate limiting drops no fatal condition. *)
Lemma suppress_fatal t now conds selected :
  has_fatal (SuppressRepeatedWarnings t now conds selected).1 ↔ has_fatal conds.
Proof.
  pose proof (proj1 (suppress_keeps_others t now conds selected)) as H.
  assert (Hf : ∀ c, CondSeverity c = SeverityFatal → ¬ is_selected selected c = true).
  { intros c Hc. unfold is_selected. by rewrite Hc. }
  assert (Hl : ∀ l : list Condition, has_fatal l ↔ has_fatal (filter (λ c, ¬ is_selected selected c = true) l)).
  { intros l. setoid_rewrite list_elem_of_filter. naive_solver. }
  rewrite (Hl conds), (Hl (SuppressRepeatedWarnings t now conds selected).1), <- H. done.
Qed.

Lemma has_fatal_omap {A} (f : A → option Condition) (l : list A) :
  has_fatal (omap f l) ↔ ∃ x c, x ∈ l ∧ f x = Some c ∧ CondSeverity c = SeverityFatal.
Proof. setoid_rewrite list_elem_of_omap. naive_solver. Qed.

Lemma has_fatal_withMessage (l : list Condition) msg : has_fatal (withMessage l msg) ↔ has_fatal l.
Proof.
  unfold withMessage. setoid_rewrite list_elem_of_fmap. split.
  - intros (c & (c' & -> & Hc') & Hs). by exists c'.
  - intros (c & Hc & Hs). eexists. split; [by exists c|done].
Qed.

Lemma reconcile_fatal r : has_fatal (check_reconcile r) ↔ ∃ e, r = Err e.
Proof.
  destruct r as [b|e]; simpl; [rewrite has_fatal_nil; naive_solver|].
  rewrite has_fatal_one. split; [by eexists|done].
Qed.

Lemma diagnostic_fatal (results : list DiagResult) :
  has_fatal (omap diagnostic_condition results) ↔ ∃ r, r ∈ results ∧ drStatus r = "fail".
Proof.
  rewrite has_fatal_omap. unfold diagnostic_condition. split.
  - intros (r & c & Hr & Hc & _). destruct (String.eqb_spec (drStatus r) "fail"); [|done]. eauto.
  - intros (r & Hr & Hs). exists r. eexists. split; [done|]. by rewrite Hs.
Qed.

(** A finding whose kind or code makes it fatal. *)
Definition finding_fatal (f : PolicyViolation) : Prop :=
  match pvCondition f, pvData f with
  | XidPolicy, XidData n => isWellKnownXid n = true
  | DbePolicy, DbeData _ _ | NvlinkPolicy, NvlinkData _ _ => True
  | _, _ => False
  end.

Lemma classify_events (xids : list Z) (ecc nvlink retired power thermal pcie : bool) :
  has_fatal (Classify (mkSignals xids None None ecc nvlink retired power thermal pcie None None EmptyString None)) ↔
  (∃ x, x ∈ xids ∧ isWellKnownXid x = true) ∨ ecc = true ∨ nvlink = true.
Proof. rewrite classify_fatal_iff. unfold counts. simpl. naive_solver. Qed.

Lemma handle_fatal f conds : handle f = Some conds → has_fatal conds ↔ finding_fatal f.
Proof.
  unfold handle, finding_fatal. destruct (pvCondition f), (pvData f); intros [= <-];
    unfold handleXidFinding, handleDbeFinding, handleNvlinkFinding, handlePageRetirementFinding,
      handlePowerFinding, handlePCIePolicyFinding, handleThermalPolicyFinding;
    rewrite ?has_fatal_withMessage, ?classify_events, ?has_fatal_nil, ?elem_of_nil;
    setoid_rewrite elem_of_nil || setoid_rewrite list_elem_of_singleton || idtac; naive_solver.
Qed.

(** *** Device counts *)

(** The GPUs the client counts differ from the device files, or are fewer than the
    instance type has. *)
Definition count_fatal (n : option Z) (files : nat) (provider : option (result InfoError InstanceInfo)) : Prop :=
  default 0 n ≠ Z.of_nat files ∨
  ∃ i, provider = Some (Ok i) ∧ default 0 n < NvidiaGPUCount i.

Lemma device_count_fatal n files path provider conds :
  DeviceCount (Ok n) (Ok (files, path)) provider = Ok conds →
  has_fatal conds ↔ count_fatal n files provider.
Proof.
  unfold DeviceCount. intros [= <-]. set (sig := mkSignals _ _ _ _ _ _ _ _ _ _ _ _ _).
  change (Classify sig) with (classify_files sig ++ classify_expected sig).
  rewrite has_fatal_counts. unfold counts, count_fatal, sig. simpl.
  destruct provider as [[i|e]|]; (split; [intros [(? & ? & [= <-] & [= <-] & ?)|(? & ? & [= <-] & ? & ?)]|
    intros [?|(? & ? & ?)]]); try discriminate; simplify_eq; eauto 10.
Qed.

Lemma device_count_ok n files path provider : ∃ conds, DeviceCount (Ok n) (Ok (files, path)) provider = Ok conds.
Proof. by eexists. Qed.

Section Fatal.
Context `{CheckConstants}.

(** *** Health incidents *)

(** An incident that DCGM fails on, other than the one of multi-node links, the state
    of the fabric, and a counter of the lifetime of a link. *)
Definition active_fault (inc : Incident) : Prop :=
  iHealth inc = DCGM_HEALTH_RESULT_FAIL ∧ iCode inc ≠ 122 ∧ iCode inc ≠ DCGM_FR_FABRIC_PROBE_STATE ∧
  ¬ (iCode inc = DCGM_FR_NVLINK_ERROR_CRITICAL ∧ iSystem inc = DCGM_HEALTH_WATCH_NVLINK ∧
     ∃ p, p ∈ nvlinkLifetimeCounterPrefixes ∧ Contains (iMessage inc) p = true).

Lemma lifetime_iff inc :
  isNVLinkLifetimeCounterIncident inc = true ↔
  iCode inc = DCGM_FR_NVLINK_ERROR_CRITICAL ∧ iSystem inc = DCGM_HEALTH_WATCH_NVLINK ∧
  ∃ p, p ∈ nvlinkLifetimeCounterPrefixes ∧ Contains (iMessage inc) p = true.
Proof.
  unfold isNVLinkLifetimeCounterIncident.
  destruct (Z.eqb_spec (iCode inc) DCGM_FR_NVLINK_ERROR_CRITICAL); cbn [negb]; [|naive_solver].
  destruct (Z.eqb_spec (iSystem inc) DCGM_HEALTH_WATCH_NVLINK); cbn [negb]; [|naive_solver].
  rewrite existsb_exists. setoid_rewrite list_elem_of_In. naive_solver.
Qed.

Lemma incident_fatal inc :
  (∃ c, incident_condition inc = Some c ∧ CondSeverity c = SeverityFatal) ↔ active_fault inc.
Proof.
  unfold incident_condition, active_fault. destruct (Z.eqb_spec (iCode inc) 122); [naive_solver|].
  assert (Hs : (∃ c, Some (Build (WithSeverity (WithMessage (Builder DCGMHealthCode [uint (iCode inc)])
            (Sprintf "DCGM detected issues in health check system with error code %d" [uint (iCode inc)]))
            (incident_severity inc))) = Some c ∧ CondSeverity c = SeverityFatal) ↔
            incident_severity inc = SeverityFatal).
  { split; [by intros (c & [= <-] & Hc)|]. intros Hc. eexists. split; [reflexivity|done]. }
  rewrite Hs. clear Hs. unfold incident_severity.
  destruct (Z.eqb_spec (iHealth inc) DCGM_HEALTH_RESULT_FAIL); cbn [andb]; [|naive_solver].
  destruct (Z.eqb_spec (iCode inc) DCGM_FR_FABRIC_PROBE_STATE); [naive_solver|].
  rewrite <- lifetime_iff. destruct (isNVLinkLifetimeCounterIncident inc); naive_solver.
Qed.

Lemma health_fatal s now incs conds s' :
  HealthCheck s now (Ok (Some incs)) = (s', Ok conds) →
  has_fatal conds ↔ ∃ inc, inc ∈ incs ∧ active_fault inc.
Proof.
  unfold HealthCheck. destruct (SuppressRepeatedWarnings _ _ _ _) as [out t] eqn:E.
  intros [= <- <-]. pose proof (suppress_fatal (healthWarnings s) now
    (omap incident_condition (default [] (Some incs))) is_probe_state) as Hf.
  rewrite E in Hf. simpl in Hf. rewrite Hf, has_fatal_omap.
  setoid_rewrite <- incident_fatal. naive_solver.
Qed.

Lemma health_ok s now incs : ∃ s' conds, HealthCheck s now (Ok (Some incs)) = (s', Ok conds).
Proof. unfold HealthCheck. destruct (SuppressRepeatedWarnings _ _ _ _) as [out t]. by eexists _, _. Qed.

(** *** Watched fields *)

(** A field of the fabric that was read and shows a fault. *)
Definition fabric_fault (fv : FieldValue) : Prop :=
  isInt64Blank (Int64 fv) = false ∧
  (FieldID fv = DCGM_FI_DEV_FABRIC_MANAGER_STATUS ∧
     fm_quiet (Int64 fv) = false ∧ fm_unknown (Int64 fv) = false ∨
   FieldID fv = DCGM_FI_DEV_FABRIC_HEALTH_MASK ∧ FieldID fv ≠ DCGM_FI_DEV_FABRIC_MANAGER_STATUS ∧
     fabricHealthMaskFaults (Int64 fv) ≠ []).

Lemma head_fatal (l : list Condition) : (length l ≤ 1)%nat →
  (∃ c, head l = Some c ∧ CondSeverity c = SeverityFatal) ↔ has_fatal l.
Proof.
  intros Hl. destruct l as [|c [|]]; simpl in *; [rewrite has_fatal_nil; naive_solver| |lia].
  rewrite has_fatal_one. naive_solver.
Qed.

Lemma i64_u64 z : is_i64 z → i64 (u64 z) = z.
Proof.
  unfold is_i64, i64, u64. intros Hz.
  rewrite Zplus_mod_idemp_l, Z.mod_small by lia. lia.
Qed.

Lemma Classify_status st :
  Classify (mkSignals [] None st false false false false false false None None EmptyString None) = classify_fm st.
Proof. unfold Classify. simpl. by rewrite app_nil_r. Qed.

Lemma Classify_mask m :
  Classify (mkSignals [] m None false false false false false false None None EmptyString None) = classify_mask m.
Proof. unfold Classify. simpl. by rewrite app_nil_r. Qed.

Lemma field_fatal order fv :
  is_i64 (Int64 fv) →
  (∃ c, field_condition order fv = Some c ∧ CondSeverity c = SeverityFatal) ↔ fabric_fault fv.
Proof.
  intros Hi. unfold field_condition, handleFabricField, fabric_fault.
  destruct (Z.eqb_spec (FieldID fv) DCGM_FI_DEV_FABRIC_MANAGER_STATUS) as [E1|E1];
    [|destruct (Z.eqb_spec (FieldID fv) DCGM_FI_DEV_FABRIC_HEALTH_MASK) as [E2|E2]].
  - rewrite Classify_status, head_fatal by (unfold classify_fm; repeat case_match; simpl; lia).
    rewrite has_fatal_fm. naive_solver.
  - rewrite Classify_mask, head_fatal by (unfold classify_mask; repeat case_match; simpl; lia).
    rewrite has_fatal_mask. pose proof (i64_u64 (Int64 fv) Hi) as E. split.
    + intros (m & [= <-] & Hb & Hf). rewrite E in Hb, Hf. by split; [|right].
    + intros [Hb [(? & _)|(_ & _ & Hf)]]; [done|]. eexists. rewrite E. by repeat split.
  - split; [|naive_solver]. intros (c & Hc & Hs). exfalso. revert Hc.
    destruct (_ || _); [done|]. destruct (fieldValueMappers order fv); [|done]. by intros [= <-].
Qed.

Lemma fields_fatal order s now values conds s' :
  Forall (λ fv, is_i64 (Int64 fv)) values →
  WatchFields order s now (Ok (Some values)) = (s', Ok conds) →
  has_fatal conds ↔ ∃ fv, fv ∈ values ∧ fabric_fault fv.
Proof.
  intros Hi. unfold WatchFields. destruct (SuppressRepeatedWarnings _ _ _ _) as [out t] eqn:E.
  intros [= <- <-]. pose proof (suppress_fatal (fieldWarnings s) now
    (omap (field_condition order) (default [] (Some values))) is_fabric_warning) as Hf.
  rewrite E in Hf. simpl in Hf. rewrite Hf, has_fatal_omap.
  rewrite Forall_forall in Hi. split.
  - intros (fv & c & Hv & Hc). exists fv. split; [done|]. apply (field_fatal order); eauto.
  - intros (fv & Hv & Hf'). apply (field_fatal order) in Hf' as (c & ?); [|eauto]. by exists fv, c.
Qed.

Lemma fields_ok order s now values :
  ∃ s' conds, WatchFields order s now (Ok (Some values)) = (s', Ok conds).
Proof. unfold WatchFields. destruct (SuppressRepeatedWarnings _ _ _ _) as [out t]. by eexists _, _. Qed.

End Fatal.
#[global] Arguments HealthCheck : simpl never.
#[global] Arguments WatchFields : simpl never.
#[global] Arguments DeviceCount : simpl never.

