(* ===== verification/NvidiaMonitor.v ===== *)
(** * NvidiaMonitor: the nvidia monitor ([monitors/nvidia/monitor.go]).

    The monitor runs a goroutine for each check of [DcgmSystem] over the client of
    [Dcgm], and one for the kernel messages; each pass of one of them is a step
    that notifies the manager of some conditions.  The steps are taken one at a time. *)

From S2P Require Import Prelude GoStrings Monitor Reasons Renotify Registry Classify Neuron Dcgm InstanceInfo DcgmSystem.

Record nvidiaMonitor := mkNvidia {
  dcgmClient : world;
  dcgmSystem : DCGMSystem;
  instanceTypeInfoProvider : option ec2InstanceTypeInfoProvider
}.

(** The features of the client that the monitor makes. *)
Definition monitorFeatures : list Feature :=
  [FeatureActiveDiagnostics; FeatureFields; FeatureHealthSystems; FeaturePolicyViolations].

(** [diagLevel] and [address] are variables of the environment, [grace] the parsed
    [DCGM_GRACE_PERIOD_DURATION] when it is set and valid. *)
Definition NewNvidiaMonitor (grace : option Duration) (diagLevel address : option string) (now : Time)
    (table : list (option InstanceInfo)) : nvidiaMonitor :=
  mkNvidia
    (start (mkDCGMConfig EmptyString (default Minute grace) monitorFeatures None) address now)
    (NewDCGMSystem (GetDiagType diagLevel))
    (Some (NewInstanceTypeInfoProvider table)).

Definition SetDCGMPowerThresholdWatts (watts : Z) (m : nvidiaMonitor) : nvidiaMonitor :=
  mkNvidia (mkWorld (SetPowerPolicyThresholdWatts watts (helper (dcgmClient m))) (trace (dcgmClient m)) (moves (dcgmClient m)))
    (dcgmSystem m) (instanceTypeInfoProvider m).

(** The goroutines of [Register], with the interval of those that tick. *)
Inductive loop := LReconcile | LDiagnostic | LPolicies | LHealth | LFields | LDevices | LNccl.

Definition period (l : loop) : option Duration :=
  match l with
  | LReconcile => Some (30 * Second)
  | LPolicies | LNccl => None
  | _ => Some (5 * Minute)
  end.

(** The loops [Register] leaves running, and its error. *)
Definition Register (subscribe : result string ()) : list loop * result string () :=
  let started := [LReconcile; LDiagnostic; LPolicies; LHealth; LFields; LDevices] in
  match subscribe with
  | Err e => (started, Err e)
  | Ok _ => (started ++ [LNccl], Ok ())
  end.

(** One pass of a loop, with what the library, the host and the services answer. *)
Inductive pass :=
| PReconcile (a : Answers)
| PDiagnostic (answer : result string (list DiagResult))
| PPolicies (finding : PolicyViolation)
| PHealth (now : Time) (answer : result string (list Incident))
| PFields (now : Time) (order : list (Z * string)) (answer : result string (list FieldValue))
| PDevices (answer : result string Z) (files : result string (nat * string)) (imds : result string string)
| PNccl (line : string).

(** What a loop notifies of the result of its check: an error is logged. *)
Definition notified (r : result string (list Condition)) : list Condition :=
  match r with Ok conditions => conditions | Err _ => [] end.

Section Monitor.
Context `{DcgmConstants} `{CheckConstants}.

(** The new state and the notifications; [None] is a panic. *)
Definition step (m : nvidiaMonitor) (p : pass) : option (nvidiaMonitor * list Condition) :=
  let '(mkNvidia w s provider) := m in
  match p with
  | PReconcile a =>
      let '(w, r) := Dcgm.Reconcile a w in Some (mkNvidia w s provider, check_reconcile r)
  | PDiagnostic answer =>
      if diagType s <=? 0 then Some (m, notified (ActiveDiagnostic s (Err ErrNotInitialized)))
      else
        let '(w, r) := RunDiag (diagType s) answer w in
        Some (mkNvidia w s provider, notified (ActiveDiagnostic s r))
  | PPolicies finding => conds ← handle finding; Some (m, conds)
  | PHealth now answer =>
      let '(w, r) := Dcgm.HealthCheck answer w in
      let '(s, r) := HealthCheck s now r in Some (mkNvidia w s provider, notified r)
  | PFields now order answer =>
      let '(w, r) := GetValuesSince (TimeAdd now (- fieldValueWindow)) answer w in
      let '(s, r) := WatchFields order s now r in Some (mkNvidia w s provider, notified r)
  | PDevices answer files imds =>
      let '(w, r) := GetDeviceCount answer w in
      match r, files with
      | Ok _, Ok _ =>
          let asked := (λ p, GetInstanceInfo p imds) <$> provider in
          Some (mkNvidia w s (fst <$> asked), notified (DeviceCount r files (snd <$> asked)))
      | _, _ => Some (mkNvidia w s provider, notified (DeviceCount r files None))
      end
  | PNccl line => Some (m, Neuron.Step line)
  end.

(** The monitor after some passes, when none panics. *)
Fixpoint run (m : nvidiaMonitor) (ps : list pass) : option nvidiaMonitor :=
  match ps with
  | [] => Some m
  | p :: ps' => r ← step m p; run r.1 ps'
  end.

(** The client keeps the features it was made with. *)
Definition full_features (m : nvidiaMonitor) : Prop :=
  Features (config (helper (dcgmClient m))) = monitorFeatures.

Lemma request_helper {A} f c wrap (answer : result string A) w : helper (request f c wrap answer w).1 = helper w.
Proof. unfold request. by repeat case_match. Qed.

Lemma step_features m p r : full_features m → step m p = Some r → full_features r.1.
Proof.
  destruct m as [w s provider]. unfold full_features. simpl. intros Hf. destruct p; simpl.
  - pose proof (Reconcile_configured (config (helper w)) a w eq_refl) as Hc.
    destruct (Dcgm.Reconcile a w) as [w' r']. intros [= <-]. simpl in *. by rewrite Hc.
  - destruct (_ <=? _); [by intros [= <-]|].
    pose proof (request_helper (Some FeatureActiveDiagnostics) (λ _, CRunDiag (diagType s)) id answer w) as Hr.
    unfold RunDiag. destruct (request _ _ _ answer w). intros [= <-]. simpl in *. by rewrite Hr.
  - destruct (handle finding); [|done]. by intros [= <-].
  - pose proof (request_helper (Some FeatureHealthSystems) (λ _, CHealthCheck)
      (prefixed "failed to call DCGM health check") answer w) as Hr.
    unfold Dcgm.HealthCheck. destruct (request _ _ _ answer w). destruct (HealthCheck _ _ _).
    intros [= <-]. simpl in *. by rewrite Hr.
  - set (c := λ h, CGetValuesSince (fieldHandle h) (TimeAdd now (- fieldValueWindow))).
    pose proof (request_helper (Some FeatureFields) c id answer w) as Hr.
    unfold GetValuesSince. fold c. destruct (request _ _ _ answer w). destruct (WatchFields _ _ _ _).
    intros [= <-]. simpl in *. by rewrite Hr.
  - pose proof (request_helper None (λ _, CGetAllDeviceCount) id answer w) as Hr.
    unfold GetDeviceCount. destruct (request _ _ _ answer w) as [w' [|]], files; intros [= <-]; simpl in *; by rewrite Hr.
  - by intros [= <-].
Qed.

Lemma run_features m ps m' : full_features m → run m ps = Some m' → full_features m'.
Proof.
  revert m. induction ps as [|p ps IH]; intros m Hm; simpl; [by intros [= <-]|].
  destruct (step m p) as [r|] eqn:E; [|done]. simpl. apply IH. by apply (step_features m p).
Qed.

(** ** Until DCGM answers *)

(** The passes that ask the client for results. *)
Definition asks (p : pass) : bool :=
  match p with PDiagnostic _ | PHealth _ _ | PFields _ _ _ | PDevices _ _ _ => true | _ => false end.

(** In any reachable state, while the client is not initialized the checks that ask it for results notify
    nothing, make no call of the library and leave the monitor as it is, whatever the
    host and the services answer. *)
Theorem disconnected_silent grace level address began table ps m p :
  run (NewNvidiaMonitor grace level address began table) ps = Some m →
  initialized (helper (dcgmClient m)) = false → asks p = true → step m p = Some (m, []).
Proof.
  intros Hm Hi Hp. assert (Hf : full_features m) by by apply run_features in Hm.
  destruct m as [w s provider]. unfold full_features in Hf. simpl in *. destruct p; try done; simpl;
    unfold RunDiag, Dcgm.HealthCheck, GetValuesSince, GetDeviceCount, request, guard, enabled; rewrite ?Hf, ?Hi; simpl.
  - unfold ActiveDiagnostic. by destruct (diagType s <=? 0).
  - done.
  - done.
  - done.
Qed.

(** ** What the monitor makes fatal *)

(** The values a pass may be given: the fields are 64-bit. *)
Definition well_typed (p : pass) : Prop :=
  match p with PFields _ _ (Ok values) => Forall (λ fv, is_i64 (Int64 fv)) values | _ => True end.

(** The faults a pass finds, in a monitor whose client has the state [h]. *)
Definition pass_fault (m : nvidiaMonitor) (p : pass) : Prop :=
  let up := initialized (helper (dcgmClient m)) = true in
  match p with
  | PReconcile a => ∃ e, (Dcgm.Reconcile a (dcgmClient m)).2 = Err e
  | PDiagnostic (Ok results) => up ∧ 0 < diagType (dcgmSystem m) ∧ ∃ r, r ∈ results ∧ drStatus r = "fail"
  | PPolicies finding => finding_fatal finding
  | PHealth _ (Ok incs) => up ∧ ∃ inc, inc ∈ incs ∧ active_fault inc
  | PFields _ _ (Ok values) => up ∧ ∃ fv, fv ∈ values ∧ fabric_fault fv
  | PDevices (Ok n) (Ok (files, _)) imds =>
      up ∧ count_fatal (Some n) files ((λ p, (GetInstanceInfo p imds).2) <$> instanceTypeInfoProvider m)
  | _ => False
  end.

(** C20. In any reachable state a pass of the nvidia monitor notifies a fatal condition exactly when it finds
    one of: a DCGM that cannot be reconciled, a failed diagnostic, a double-bit, NVLink
    or well-known XID violation, an active fault in the health incidents, a fault of the
    fabric, or GPUs missing; the last four only while DCGM is connected. *)
Theorem nvidia_fatal_iff grace level address began table ps m p m' conds :
  run (NewNvidiaMonitor grace level address began table) ps = Some m → well_typed p →
  step m p = Some (m', conds) →
  (∃ c, c ∈ conds ∧ CondSeverity c = SeverityFatal) ↔ pass_fault m p.
Proof.
  intros Hm Ht. assert (Hf : full_features m) by by apply run_features in Hm.
  destruct m as [w s provider]. unfold full_features in Hf. simpl in *. destruct p as [a|r|f|now r|now order r|r files imds|line]; simpl.
  - destruct (Dcgm.Reconcile a w) as [w' r]. intros [= <- <-]. apply reconcile_fatal.
  - unfold ActiveDiagnostic, RunDiag, request, guard, enabled. rewrite Hf. simpl.
    destruct (Z.leb_spec (diagType s) 0) as [Hd|Hd].
    { intros [= <- <-]. rewrite has_fatal_nil. destruct r; [|done]. split; [done|]. intros (_ & ? & _). lia. }
    destruct (initialized (helper w)); intros [= <- <-]; simpl.
    + destruct r as [l|e]; simpl; [|by rewrite has_fatal_nil].
      destruct (Z.leb_spec (diagType s) 0); [lia|]. simpl. rewrite diagnostic_fatal. naive_solver.
    + destruct (Z.leb_spec (diagType s) 0); [lia|]. simpl. rewrite has_fatal_nil. destruct r; naive_solver.
  - destruct (handle f) as [conds'|] eqn:E; [|done]. intros [= <- <-]. by apply handle_fatal.
  - unfold Dcgm.HealthCheck, request, guard, enabled. rewrite Hf. simpl.
    destruct (initialized (helper w)).
    + destruct r as [incs|e]; simpl; [|intros [= <- <-]; by rewrite has_fatal_nil].
      destruct (health_ok s now incs) as (s' & out & E). rewrite E. intros [= <- <-]. simpl.
      rewrite (health_fatal _ _ _ _ _ E). naive_solver.
    + intros [= <- <-]. rewrite has_fatal_nil. destruct r; naive_solver.
  - unfold GetValuesSince, request, guard, enabled. rewrite Hf. simpl.
    destruct (initialized (helper w)).
    + destruct r as [values|e]; simpl; [|intros [= <- <-]; by rewrite has_fatal_nil].
      destruct (fields_ok order s now values) as (s' & out & E). rewrite E. intros [= <- <-]. simpl.
      rewrite (fields_fatal _ _ _ _ _ _ Ht E). naive_solver.
    + intros [= <- <-]. rewrite has_fatal_nil. destruct r; naive_solver.
  - unfold GetDeviceCount, request, guard. simpl.
    destruct (initialized (helper w)); simpl.
    + destruct r as [n|e]; simpl; [|intros [= <- <-]; by rewrite has_fatal_nil].
      destruct files as [[k path]|dir]; simpl; [|intros [= <- <-]; by rewrite has_fatal_nil].
      pose proof (device_count_fatal (Some n) k path
        (snd <$> ((λ p, GetInstanceInfo p imds) <$> provider)) _ eq_refl) as Hc.
      intros [= <- <-]. etransitivity; [exact Hc|]. rewrite <- option_fmap_compose. naive_solver.
    + intros [= <- <-]. rewrite has_fatal_nil. destruct r as [n|], files as [[k path]|]; naive_solver.
  - intros [= <- <-]. unfold Neuron.Step. destruct (GoRegexp.MatchString _ _); [|by rewrite has_fatal_nil].
    by rewrite has_fatal_one.
Qed.

End Monitor.

(** Constants that are all different, as those of the library. *)
Definition ex_checks : CheckConstants := {|
  DCGM_HEALTH_RESULT_FAIL := 20; DCGM_HEALTH_WATCH_NVLINK := 2;
  DCGM_FR_NVLINK_ERROR_CRITICAL := 71; DCGM_FR_FABRIC_PROBE_STATE := 123;
  DCGM_ST_OK := 0; DCGM_ST_NO_DATA := -4;
  DCGM_FI_DEV_CLOCKS_EVENT_REASONS := 112; DCGM_FI_DEV_NVSWITCH_FATAL_ERRORS := 856;
  DCGM_FI_DEV_NVSWITCH_NON_FATAL_ERRORS := 857; DCGM_FI_DEV_FABRIC_MANAGER_STATUS := 170;
  DCGM_FI_DEV_FABRIC_HEALTH_MASK := 171
|}.

Abbreviation ex_step := (@step ex_constants ex_checks).
Abbreviation ex_run := (@run ex_constants ex_checks).

Definition ex_monitor : nvidiaMonitor := NewNvidiaMonitor None None None 0 [].

(** A monitor whose client has connected. *)
Definition ex_connected : nvidiaMonitor :=
  match ex_run ex_monitor [PReconcile (ex_answers 0)] with Some m => m | None => ex_monitor end.

Definition ex_incident : Incident := mkIncident 2 20 71 "NVLink 3 is down".

Lemma disconnected_silent_witness :
  ex_step ex_monitor (PHealth 5 (Ok [ex_incident])) = Some (ex_monitor, []).
Proof.
  apply (disconnected_silent (H := ex_constants) (H0 := ex_checks) None None None 0 [] [] ex_monitor);
    reflexivity.
Defined.

Lemma nvidia_fatal_iff_witness :
  ∃ m' conds, ex_step ex_connected (PHealth 5 (Ok [ex_incident])) = Some (m', conds) ∧
    ((∃ c, c ∈ conds ∧ CondSeverity c = SeverityFatal) ↔
     @pass_fault ex_constants ex_checks ex_connected (PHealth 5 (Ok [ex_incident]))).
Proof.
  eexists _, _. split; [vm_compute; reflexivity|].
  eapply (nvidia_fatal_iff (H := ex_constants) (H0 := ex_checks) None None None 0 [] [PReconcile (ex_answers 0)]
    ex_connected); [vm_compute; reflexivity|exact I|vm_compute; reflexivity].
Defined.

(** A diagnostic level out of range is the largest level, not none: [strconv.Atoi] gives
    the nearest value with its error, and the code only logs the error. *)
Lemma diag_level_out_of_range : GetDiagType (Some "99999999999999999999") = max_int64.
Proof. reflexivity. Qed.
