(* ===== verification/Top.v ===== *)
(** * Top: the summary of the processes ([pkg/log_collector/system/top.go]).

    The readings of [/proc] and of gopsutil are arguments; the text is what the code
    prints, with the columns of [text/tabwriter]. *)

From stdpp Require Import sorting.
From S2P Require Import Prelude GoStrings GoFloat Osext.
From Stdlib Require Import SpecFloat.

(** ** The counters of the processors *)

Record procInfo := mkProcInfo { label : string; total : Z; values : gmap string Z }.

(** A key that [rhs] does not have reads as 0. *)
Definition subtract (i rhs : procInfo) : procInfo :=
  mkProcInfo (label i) (i64 (total i - total rhs))
    (map_imap (λ k v, Some (i64 (v - default 0 (values rhs !! k)))) (values i)).

(** The columns the code reads. *)
Definition cpu_columns : list (string * nat) :=
  [("user", 1); ("nice", 2); ("system", 3); ("idle", 4); ("iowait", 5); ("irq", 6);
   ("softirq", 7); ("steal", 8); ("guest", 9); ("guest_nice", 9)]%nat.

(** A first letter of ASCII made a capital, which is what a label starts with. *)
Definition initialCase (s : string) : string :=
  match s with
  | String c s' =>
      let n := Ascii.nat_of_ascii c in
      String (if ((97 <=? n) && (n <=? 122))%nat then byte_of (n - 32) else c) s'
  | EmptyString => EmptyString
  end.

(** The columns of a line, in the order [columns] of the range over the map. *)
Fixpoint read_columns (columns : list (string * nat)) (fields : list string) (pi : procInfo)
    : result string procInfo :=
  match columns with
  | [] => Ok pi
  | (fieldName, fieldIdx) :: rest =>
      match fields !! fieldIdx with
      | None => read_columns rest fields pi
      | Some f =>
          match parse_number "ParseInt" f with
          | Err e => Err (prefixed ("parsing " +:+ fieldName +:+ " " +:+ Quote f) e)
          | Ok value =>
              read_columns rest fields
                (mkProcInfo (label pi) (i64 (total pi + value)) (<[fieldName := value]> (values pi)))
          end
      end
  end.

Definition cpu_line (columns : list (string * nat)) (line : string) : result string procInfo :=
  let fields := Fields line in
  pi <-? read_columns columns fields (mkProcInfo EmptyString 0 ∅);;
  let name := default EmptyString (head fields) in
  Ok (mkProcInfo (initialCase name +:+ (if String.eqb name "cpu" then "(s)" else EmptyString))
        (total pi) (values pi)).

Fixpoint cpu_lines (columns : list (string * nat)) (lines : list string) : result string (list procInfo) :=
  match lines with
  | [] => Ok []
  | line :: rest =>
      if negb (HasPrefix line "cpu") then cpu_lines columns rest
      else pi <-? cpu_line columns line;;
           pis <-? cpu_lines columns rest;;
           Ok (pi :: pis)
  end.

(** [stat] is [/proc/stat]. *)
Definition getProcInfo (columns : list (string * nat)) (stat : result string string)
    : result string (list procInfo) :=
  match stat with
  | Err e => Err (prefixed "open /proc/stat" e)
  | Ok text => cpu_lines columns (ScanLines text)
  end.

Definition pct (cpu : procInfo) (l : string) : float64 :=
  fmul (fdiv (of_int (default 0 (values cpu !! l))) (of_int (total cpu))) (of_int 100).

Definition nl : string := String (byte_of 10) EmptyString.

Definition cpu_text (cpu : procInfo) : string :=
  "%" +:+ label cpu +:+ ": " +:+ FormatFixed 1 (pct cpu "user") +:+ " us, " +:+
  FormatFixed 1 (pct cpu "system") +:+ "sy, " +:+ FormatFixed 1 (pct cpu "nice") +:+ " ni, " +:+
  FormatFixed 1 (pct cpu "idle") +:+ " id, " +:+ FormatFixed 1 (pct cpu "iowait") +:+ " wa, " +:+
  FormatFixed 1 (pct cpu "irq") +:+ " hi, " +:+ FormatFixed 1 (pct cpu "softirq") +:+ " si, " +:+
  FormatFixed 1 (pct cpu "steal") +:+ " st" +:+ nl.

(** The differences of the two readings; [None] is the panic of [end[i]]. *)
Fixpoint differences (start end_ : list procInfo) : option (list procInfo) :=
  match start, end_ with
  | [], _ => Some []
  | _ :: _, [] => None
  | s :: ss, e :: es => cons (subtract e s) <$> differences ss es
  end.

(** [None] is a panic; an error of a reading prints nothing. *)
Definition writeCPUInfo (start end_ : result string (list procInfo)) : option (result string string) :=
  match start, end_ with
  | Err e, _ | Ok _, Err e => Some (Err e)
  | Ok s, Ok e => (λ cpus, Ok (Join (cpu_text <$> cpus) EmptyString)) <$> differences s e
  end.

(** ** The other lines *)

(** The states gopsutil tells apart. *)
Inductive Status := Idle | Running | Sleep | Stop | Zombie | OtherStatus.
#[export] Instance Status_eq : EqDecision Status := ltac:(solve_decision).

(** What gopsutil says of a process; an error reads as the zero value. *)
Record proc := mkProc {
  Pid : Z;
  status : list Status;
  Username : string;
  priority : Z;                  (* [unix.Getpriority], 0 on an error *)
  VMS : Z; RSS : Z;              (* both 0 without an answer *)
  CPUPercent : float64;
  MemoryPercent : float64;
  times : option (list float64); (* user, system, idle, nice and so on, in the order of the sum *)
  Name : string
}.

Definition count_status (s : Status) (ps : list proc) : Z :=
  Z.of_nat (length (filter (λ p, head (status p) = Some s) ps)).

Definition writeTaskLine (ps : list proc) : string :=
  Sprintf "Tasks: %d total, %d running, %d sleeping, %d stopped, %d zombie"
    [AInt "int" (Z.of_nat (length ps)); AInt "int" (count_status Running ps);
     AInt "int" (count_status Sleep ps); AInt "int" (count_status Stop ps);
     AInt "int" (count_status Zombie ps)] +:+ nl.

Record VirtualMemory := mkMemory {
  Total : Z; Free : Z; Used : Z; Buffers : Z; Cached : Z; SwapTotal : Z; SwapFree : Z
}.

(** The memory in KiB, the swap in what gopsutil gives: bytes. *)
Definition writeMemoryInfo (vm : result string VirtualMemory) : result string string :=
  match vm with
  | Err e => Err e
  | Ok vm =>
      let n z := AInt "uint64" z in
      Ok (Sprintf "KiB Mem : %d Total, %d free, %d used, %d buffers/cache"
            [n (Total vm / 1024); n (Free vm / 1024); n (Used vm / 1024); n (u64 (Buffers vm + Cached vm) / 1024)] +:+ nl +:+
          Sprintf "KiB Swap: %d total, %d free, %d used."
            [n (SwapTotal vm); n (SwapFree vm); n (u64 (SwapTotal vm - SwapFree vm))] +:+ nl)
  end.

(** [int(f)]: towards zero. *)
Definition trunc (f : float64) : Z :=
  match f with
  | S754_finite b m e =>
      let z := if 0 <=? e then Zpos m * 2 ^ e else Zpos m / 2 ^ (- e) in
      if b then - z else z
  | _ => 0
  end.

Definition fsub (a b : float64) : float64 := SFsub 53 1024 a b.
Definition fadd (a b : float64) : float64 := SFadd 53 1024 a b.

(** [math.Mod] by a positive integer: exact, with the sign of [f]. *)
Definition fmod (f : float64) (n : Z) : float64 :=
  match f with
  | S754_finite b m e =>
      let r := if 0 <=? e then (Zpos m * 2 ^ e) mod n else Zpos m mod (n * 2 ^ (- e)) in
      binary_normalize 53 1024 (if b then - r else r) (Z.min e 0) b
  | S754_zero b => S754_zero b
  | _ => S754_nan
  end.

Definition secsPerMin : Z := 60.
Definition secsPerHour : Z := 60 * secsPerMin.
Definition secsPerDay : Z := secsPerHour * 24.

(** The text of an uptime of [up] seconds. *)
Definition uptime_text (up : float64) : string :=
  let upDays := trunc (fdiv up (of_int secsPerDay)) in
  let up := if 0 <? upDays then fsub up (of_int (upDays * secsPerDay)) else up in
  let upHours := trunc (fdiv up (of_int secsPerHour)) in
  let up := if 0 <? upHours then fsub up (of_int (upHours * secsPerHour)) else up in
  let upMinutes := trunc (fdiv up (of_int secsPerMin)) in
  if 0 <? upDays then
    " " +:+ Itoa upDays +:+ " days, " +:+ pad_digits 2 upHours +:+ ":" +:+ pad_digits 2 upMinutes
  else if 0 <? upHours then " " +:+ pad_digits 2 upHours +:+ ":" +:+ pad_digits 2 upMinutes
  else " " +:+ pad_digits 2 upMinutes +:+ " min".

(** [scanned] is what [fmt.Fscanf] reads of [/proc/uptime]: how many numbers, the first,
    and the error; [opened] the error of opening it. *)
Definition getUptime (opened : option string) (scanned : Z * float64 * option string) : result string string :=
  match opened, scanned with
  | Some e, _ => Err (prefixed "unable to read /proc/uptime" e)
  | None, (n, _, Some e) => Err ("unable to read /proc/uptime (read " +:+ Itoa n +:+ "), " +:+ e)
  | None, (n, up, None) =>
      if n =? 2 then Ok (uptime_text up)
      else Err ("unable to read /proc/uptime (read " +:+ Itoa n +:+ "), %!w(<nil>)")
  end.

Record loadAverage := mkLoad { oneMin : float64; fiveMin : float64; tenMin : float64 }.

Definition getLoadAverage (opened : option string) (scanned : Z * loadAverage * option string)
    : result string loadAverage :=
  match opened, scanned with
  | Some e, _ => Err (prefixed "failed to open /proc/loadavg" e)
  | None, (_, _, Some e) => Err (prefixed "failed to read loadavg" e)
  | None, (n, avg, None) =>
      if n =? 6 then Ok avg
      else Err (prefixed "failed to read loadavg, invalid number of fields" (Itoa n))
  end.

(** ** The table *)

(** [%05.2f] of what is not negative. *)
Definition pad_seconds (secs : float64) : string :=
  let s := FormatFixed 2 secs in
  string_of_codes (replicate (5 - String.length s) 48%nat) +:+ s.

Definition age_text (usageSeconds : float64) : string :=
  let secs := fmod usageSeconds 60 in
  let mins := trunc (fdiv usageSeconds (of_int 60)) in
  if 0 <? mins then Itoa mins +:+ ":" +:+ pad_seconds secs else FormatFixed 2 secs.

(** The sum of the times from the left, from the zero of an answer without them. *)
Definition usage_seconds (p : proc) : float64 :=
  match times p with
  | Some (t :: ts) => foldl fadd t ts
  | _ => S754_zero false
  end.

Definition proc_row (p : proc) : list string :=
  [Itoa (Pid p); Username p; Itoa (- priority p + 20); Itoa (VMS p / 1024); Itoa (RSS p / 1024);
   FormatFixed 1 (CPUPercent p); FormatFixed 1 (MemoryPercent p); age_text (usage_seconds p); Name p].

Definition header_row : list string :=
  ["PID"; "USER"; "NI"; "VIRT"; "RES"; "%CPU"; "%MEM"; "TIME+"; "COMMAND"].

(** [text/tabwriter] with the parameters of the code, for rows of as many cells, each a
    byte wide per byte: a column is as wide as its widest cell and two spaces, the last
    cell of a row is left as it is. *)
Definition pad_to (width : nat) (s : string) : string :=
  s +:+ string_of_codes (replicate (width - String.length s) 32%nat).

Definition column_width (rows : list (list string)) (j : nat) : nat :=
  (foldr Nat.max 0 (map (λ r, String.length (default EmptyString (r !! j))) rows) + 2)%nat.

Definition tab_row (rows : list (list string)) (r : list string) : string :=
  Join (imap (λ j cell, if (S j <? length r)%nat then pad_to (column_width rows j) cell else cell) r)
    EmptyString +:+ nl.

Definition tabwrite (rows : list (list string)) : string := Join (map (tab_row rows) rows) EmptyString.

(** The order of [sort.Slice]: no process before one with less of the CPU. *)
Definition cpu_le (p q : proc) : Prop := flt (CPUPercent q) (CPUPercent p) = false.
#[export] Instance cpu_le_dec p q : Decision (cpu_le p q) := ltac:(unfold cpu_le; apply _).

(** ** Top *)

Record readings := mkReadings {
  uptime : result string string;
  load : result string loadAverage;
  clock : string;                         (* [time.Now], as hours, minutes and seconds *)
  processes : result string (list proc);
  cpu_start : result string (list procInfo);
  cpu_end : result string (list procInfo);
  memory : result string VirtualMemory
}.

Definition text_of (r : result string string) : string := match r with Ok s => s | Err _ => EmptyString end.

(** The error or the text written; [None] is the panic of [writeCPUInfo].  The errors of
    the lines about the processors and the memory are dropped, and so are their lines. *)
Definition Run (r : readings) : option (result string string) :=
  match uptime r, load r with
  | Err e, _ | Ok _, Err e => Some (Err e)
  | Ok up, Ok avg =>
      let first := "top - " +:+ clock r +:+ " " +:+ up +:+ ", load average: " +:+
        FormatFixed 2 (oneMin avg) +:+ ", " +:+ FormatFixed 2 (fiveMin avg) +:+ ", " +:+
        FormatFixed 2 (tenMin avg) +:+ nl in
      match processes r with
      | Err e => Some (Err e)
      | Ok ps =>
          cpus ← writeCPUInfo (cpu_start r) (cpu_end r);
          Some (Ok (first +:+ writeTaskLine ps +:+ text_of cpus +:+ text_of (writeMemoryInfo (memory r)) +:+
                    tabwrite (header_row :: (proc_row <$> merge_sort cpu_le ps))))
      end
  end.

Definition Top (r : readings) : option (result string string) := Run r.

Example uptime_ex :
  map uptime_text [of_int 59; of_int 3725; of_int 1436220; fdiv (of_int 1436259) (of_int 10)] =
  [" 00 min"; " 01:02"; " 16 days, 14:57"; " 1 days, 15:53"].
Proof. vm_compute. reflexivity. Qed.

Example age_ex : map age_text [of_int 5; fdiv (of_int 12345) (of_int 100); of_int 3600] = ["5.00"; "2:03.45"; "60:00.00"].
Proof. vm_compute. reflexivity. Qed.

(** ** What the readings come to *)

(** The summary panics exactly when both readings of the counters succeed and the second
    has fewer processors. *)
Lemma writeCPUInfo_panics start end_ :
  writeCPUInfo start end_ = None ↔
  ∃ s e, start = Ok s ∧ end_ = Ok e ∧ (length e < length s)%nat.
Proof.
  assert (Hd : ∀ s e, differences s e = None ↔ (length e < length s)%nat).
  { induction s as [|p s IH]; intros [|q e]; simpl; [split; [done|lia]..|split; [lia|done]|].
    rewrite fmap_None, IH. lia. }
  unfold writeCPUInfo. destruct start as [s|], end_ as [e'|]; try (split; [done|naive_solver]).
  rewrite fmap_None, Hd. naive_solver.
Qed.

Lemma Top_panics r :
  Top r = None ↔
  is_ok (uptime r) = true ∧ is_ok (load r) = true ∧ is_ok (processes r) = true ∧
  ∃ s e, cpu_start r = Ok s ∧ cpu_end r = Ok e ∧ (length e < length s)%nat.
Proof.
  unfold Top, Run. rewrite <- writeCPUInfo_panics.
  destruct (uptime r), (load r), (processes r); simpl; try naive_solver.
  destruct (writeCPUInfo _ _); naive_solver.
Qed.

Lemma read_columns_app a b fields pi :
  read_columns (a ++ b) fields pi = (pi' <-? read_columns a fields pi;; read_columns b fields pi').
Proof.
  revert pi. induction a as [|[n i] a IH]; intros pi; simpl; [done|].
  destruct (fields !! i); [|apply IH]. destruct (parse_number _ _); [apply IH|done].
Qed.

Lemma read_columns_keys columns fields pi pi' k :
  read_columns columns fields pi = Ok pi' → k ∉ columns.*1 → values pi' !! k = values pi !! k.
Proof.
  revert pi. induction columns as [|[n i] cs IH]; intros pi; simpl; [by intros [= ->]|].
  intros E Hk%not_elem_of_cons. destruct (fields !! i); [|apply IH; tauto].
  destruct (parse_number _ _); [|done]. rewrite (IH _ E) by tauto. simpl.
  apply lookup_insert_ne. naive_solver.
Qed.

Lemma same_column a i k k' fields pi pi' :
  k ≠ k' → k ∉ a.*1 → k' ∉ a.*1 → values pi !! k = values pi !! k' →
  read_columns (a ++ [(k, i); (k', i)]) fields pi = Ok pi' → values pi' !! k = values pi' !! k'.
Proof.
  intros Hne Hk Hk' Hpi. rewrite read_columns_app.
  destruct (read_columns a fields pi) as [p|] eqn:E; [|done].
  rewrite <- (read_columns_keys _ _ _ _ k E Hk), <- (read_columns_keys _ _ _ _ k' E Hk') in Hpi.
  cbn [rbind read_columns]. destruct (fields !! i) as [f|]; [|by intros [= <-]].
  destruct (parse_number "ParseInt" f) as [v|]; [|done]. intros [= <-]. cbn [values].
  by rewrite lookup_insert_ne, !lookup_insert_eq by done.
Qed.

(** The column of guests is read for both names, and counted twice in the total. *)
Lemma guest_twice line pi :
  cpu_line cpu_columns line = Ok pi → values pi !! "guest" = values pi !! "guest_nice".
Proof.
  unfold cpu_line. intros E. apply rbind_ok in E as (p & E & [= <-]). cbn [values].
  eapply (same_column (take 8 cpu_columns) 9 "guest" "guest_nice"); [done| | | |exact E];
    [apply (bool_decide_unpack _); vm_compute; exact I..|done].
Qed.

Example guest_ex :
  (λ pi, (label pi, total pi, values pi !! "guest_nice")) <$>
    match cpu_line cpu_columns "cpu 1 0 0 20 0 0 0 0 5 7" with Ok pi => Some pi | Err _ => None end
  = Some ("Cpu(s)", 31, Some 5).
Proof. vm_compute. reflexivity. Qed.

(** Swap of 2 GiB under the heading KiB. *)
Example swap_in_bytes :
  match writeMemoryInfo (Ok (mkMemory 1048576 0 0 0 0 2147483648 2147483648)) with
  | Ok s => Contains s "KiB Mem : 1024 Total" && Contains s "KiB Swap: 2147483648 total"
  | Err _ => false
  end = true.
Proof. vm_compute. reflexivity. Qed.
