(* ===== verification/Accessor.v ===== *)
(** * Accessor: what a log collector does to the host and to its bundle
    ([pkg/log_collector/collect/accessor.go], [EnsureParentExists] of
    [pkg/util/file/archive.go]).

    A collector reads the host and writes files of the destination directory.  The
    host is a class of answers; the destination is the state of a small monad, together
    with how long the context of the capture still lives.  Errors are lists of
    messages: [errors.Join] is their concatenation, no error the empty list. *)

From S2P Require Import Prelude GoStrings Paths ExecPath.

(** ** The host *)

(** Errors of the file system, with [os.ErrNotExist] told apart. *)
Inductive fs_error := NotExist (text : string) | FsError (text : string).

Definition fs_text (e : fs_error) : string := match e with NotExist t | FsError t => t end.

(** What is at a path of the host, links followed: nothing that [os.Stat] finds; a file,
    with what [os.Open] says and then the chunks it reads and the error that ends them;
    a directory, with what [os.ReadDir] says.  A tree is finite: the kernel bounds the
    length of a path and the number of links in it. *)
Inductive node :=
| Absent (e : fs_error)
| File (open : result fs_error (list string * option string))
| Directory (entries : result fs_error (list (string * node))).

(** The error of a command: [*exec.ExitError], or another. *)
Inductive RunError := ExitError (ExitCode : Z) (text Stderr : string) | OtherRunError (text : string).

Definition run_text (e : RunError) : string := match e with ExitError _ t _ | OtherRunError t => t end.

Record Info := mkInfo { Source : string; Mountpoint : string; FSType : string; VFSOptions : string }.

(** The host and the file system of the destination.  [command env combined args] is
    what a command prints and its error, within its time; [command_writes env args] is
    the files that it writes itself, each with what it then holds; [shortWrite] tells how
    many bytes of a write get to the disk when not all do, and the error. *)
Class Host := {
  command : option (list string) → bool → list string → string * option RunError;
  command_writes : option (list string) → list string → list (string * string);
  node_at : string → node;
  Glob : string → result string (list string);
  mountTable : result string (list Info);
  ctxText : string;
  opens : string → bool;
  MkdirAll : string → option string;
  Create : string → option string;
  shortWrite : string → string → option (nat * string)
}.

Definition Concat (chunks : list string) : string := foldr String.append EmptyString chunks.

Definition chunks_content (open : result fs_error (list string * option string)) : result fs_error string :=
  match open with
  | Err e => Err e
  | Ok (_, Some e) => Err (FsError e)
  | Ok (chunks, None) => Ok (Concat chunks)
  end.

Definition ReadFile `{Host} (path : string) : result fs_error string :=
  match node_at path with
  | Absent e => Err e
  | File open => chunks_content open
  | Directory _ => Err (FsError (prefixed ("read " +:+ path) "is a directory"))
  end.

Definition stat `{Host} (path : string) : option bool :=
  match node_at path with Absent _ => None | File _ => Some false | Directory _ => Some true end.

(** ** The bundle and the monad *)

(** The files of the destination and of the rest of the host that the collection or a
    command of it wrote; how often the context will still be found alive, [None] for ever;
    and the commands that were run, the last one first, each with its environment. *)
Record bundle := mkBundle {
  contents : gmap string string;
  patience : option nat;
  ran : list (option (list string) * list string)
}.

Definition task (A : Type) : Type := bundle → bundle * A.

#[export] Instance task_ret : MRet task := λ A a b, (b, a).
#[export] Instance task_bind : MBind task := λ A B k m b, let '(b', a) := m b in k a b'.

Definition error : Type := list string.

Definition join (l : list (task error)) : task error :=
  foldr (λ m rest, e ← m; es ← rest; mret (e ++ es)) (mret []) l.

Definition fail (e : string) : task error := mret [e].

(** [ctx.Err()]. *)
Definition check_ctx `{Host} : task (option string) := λ b,
  match patience b with
  | None => (b, None)
  | Some O => (b, Some ctxText)
  | Some (S n) => (mkBundle (contents b) (Some n) (ran b), None)
  end.

Definition store (path content : string) : task () := λ b,
  (mkBundle (<[path := content]> (contents b)) (patience b) (ran b), ()).

Definition load (path : string) : task string := λ b, (b, default EmptyString (contents b !! path)).

(** ** Config *)

Record Config := mkConfig {
  Root : string;
  Destination : string;
  Tags : list string;
  CommandTimeout : Duration
}.

Definition DefaultCommandTimeout : Duration := 60 * Second.

Definition TagNvidia : string := "nvidia".
Definition TagBottlerocket : string := "bottlerocket".
Definition TagEKSAuto : string := "eks-auto".
Definition TagHybrid : string := "eks-hybrid".

Definition hasAnyTag (c : Config) (tags : list string) : bool :=
  existsb (λ t, bool_decide (t ∈ Tags c)) tags.

(** [sdk] is the error of [config.LoadDefaultConfig]. *)
Definition NewAccessor (sdk : option string) (cfg : Config) : result string Config :=
  let cfg := if CommandTimeout cfg <=? 0
             then mkConfig (Root cfg) (Destination cfg) (Tags cfg) DefaultCommandTimeout else cfg in
  match sdk with
  | Some e => Err ("unable to load SDK config, " +:+ e)
  | None => Ok cfg
  end.

(** ** CommandOptions, a bit set *)

Definition CommandOptionsNone : Z := 0.
Definition CommandOptionsIgnoreFailure : Z := 1.
Definition CommandOptionsAppend : Z := 2.
Definition CommandOptionsNoStderr : Z := 4.

Definition is_opt (o opt : Z) : bool := negb (Z.land o opt =? 0).

Section Accessor.
Context `{Host} (cfg : Config).

(** [EnsureParentExists]: the parent is there when it opens. *)
Definition EnsureParentExists (file : string) : option string :=
  let root := Dir file in
  if opens root then None else MkdirAll root.

Definition constructDestFile (filename : string) : result string string :=
  let destFile := PathJoin [Destination cfg; filename] in
  if negb (HasPrefix destFile (Destination cfg)) then
    Err ("invalid relative filename, " +:+ Quote filename)
  else match EnsureParentExists destFile with
       | Some e => Err ("ensuring parent exists, " +:+ e)
       | None => Ok destFile
       end.

(** One [Write] of [bytes] after what the file holds. *)
Definition write_after (destFile old bytes : string) : task error :=
  match shortWrite destFile bytes with
  | None => _ ← store destFile (old +:+ bytes); mret []
  | Some (n, e) =>
      _ ← store destFile (old +:+ take_bytes n bytes);
      if (n =? String.length bytes)%nat then mret [e]
      else fail (Sprintf "short write, wrote %d of %d"
                   [AInt "int" (Z.of_nat n); AInt "int" (Z.of_nat (String.length bytes))])
  end.

Definition output_to (append : bool) (filename bytes : string) : task error :=
  match constructDestFile filename with
  | Err e => fail ("constructing destination file, " +:+ e)
  | Ok destFile =>
      match Create destFile with
      | Some e => fail ("creating " +:+ Quote destFile +:+ ", " +:+ e)
      | None =>
          old ← load destFile;
          write_after destFile (if append then old else EmptyString) bytes
      end
  end.

Definition WriteOutput (filename bytes : string) : task error := output_to false filename bytes.
Definition appendOutput (filename bytes : string) : task error := output_to true filename bytes.

(** The command itself, with the files it writes. *)
Definition exec (env : option (list string)) (args : list string) : task () := λ b,
  (mkBundle (foldl (λ m '(path, content), <[path := content]> m) (contents b) (command_writes env args))
     (patience b) ((env, args) :: ran b), ()).

(** [osext.Output] and [osext.CombinedOutput]: a command whose context has ended does
    and prints nothing. *)
Definition run_command (env : option (list string)) (combined : bool) (args : list string)
    : task (string * option RunError) :=
  match args with
  | [] => mret (EmptyString, Some (OtherRunError "no command given"))
  | name :: _ =>
      ended ← check_ctx;
      match ended with
      | Some e => mret (EmptyString, Some (OtherRunError (prefixed ("running " +:+ Quote name) e)))
      | None => _ ← exec env args; mret (command env combined args)
      end
  end.

Definition Output (args : list string) : task (string * option RunError) := run_command None false args.

Definition CombinedOutputEnv (env : option (list string)) (args : list string)
    : task (string * option RunError) := run_command env true args.

Definition CombinedOutput (args : list string) : task (string * option RunError) :=
  CombinedOutputEnv None args.

(** The details of a failure: what the command printed, and the standard error kept in
    an [*exec.ExitError]. *)
Definition command_failure (args : list string) (output : string) (err : RunError) : string :=
  let details :=
    (if (0 <? String.length output)%nat then [TrimSpace output] else []) ++
    match err with ExitError _ _ stderr => [TrimSpace stderr] | OtherRunError _ => [] end in
  let wrapped := prefixed ("executing command " +:+ Quote (Join args " ")) (run_text err) in
  match details with [] => wrapped | _ => prefixed wrapped (Join details ": ") end.

Definition CommandOutput (args : list string) (destination : string) (opts : Z) : task error :=
  r ← (if is_opt opts CommandOptionsNoStderr then Output args else CombinedOutput args);
  match r with
  | (output, Some err) =>
      if is_opt opts CommandOptionsIgnoreFailure then mret []
      else fail (command_failure args output err)
  | (output, None) =>
      if is_opt opts CommandOptionsAppend then appendOutput destination output
      else WriteOutput destination output
  end.

(** ** Copies *)

(** [io.Copy] over [ctxReader]: the context is looked at before each read, the one that
    ends the file included. *)
Fixpoint copy_chunks (dst : string) (chunks : list string) (readErr : option string) : task error :=
  ended ← check_ctx;
  match ended with
  | Some e => mret [e]
  | None =>
      match chunks with
      | [] => mret (option_list readErr)
      | c :: chunks' =>
          old ← load dst;
          match shortWrite dst c with
          | Some (n, e) => _ ← store dst (old +:+ take_bytes n c); mret [e]
          | None => _ ← store dst (old +:+ c); copy_chunks dst chunks' readErr
          end
      end
  end.

Definition copyFileRaw (src : string) (open : result fs_error (list string * option string)) (dst : string)
    : task error :=
  match open with
  | Err e => fail ("opening source file, " +:+ fs_text e)
  | Ok (chunks, readErr) =>
      match Create dst with
      | Some e => fail ("creating destination file, " +:+ e)
      | None =>
          _ ← store dst EmptyString;
          es ← copy_chunks dst chunks readErr;
          match es with
          | [] => mret []
          | e :: _ => fail ("copying " +:+ Quote src +:+ " to " +:+ Quote dst +:+ ", " +:+ e)
          end
      end
  end.

(** The file a path of the host opens as; opening a directory succeeds and reading it
    does not. *)
Definition open_node (path : string) (n : node) : result fs_error (list string * option string) :=
  match n with
  | Absent e => Err e
  | File open => open
  | Directory _ => Ok ([], Some (prefixed ("read " +:+ path) "is a directory"))
  end.

(** The entries are visited in order; the first error ends the copy. *)
Fixpoint copyRecursive (srcDir : string) (src : node) (dstDir : string) {struct src} : task error :=
  ended ← check_ctx;
  match ended with
  | Some e => fail ("copying " +:+ Quote srcDir +:+ ", " +:+ e)
  | None =>
      match MkdirAll dstDir with
      | Some e => fail ("creating destination directory, " +:+ e)
      | None =>
          match src with
          | Absent e => fail ("reading directory " +:+ Quote srcDir +:+ ", " +:+ fs_text e)
          | File _ => fail ("reading directory " +:+ Quote srcDir +:+ ", not a directory")
          | Directory (Err e) => fail ("reading directory " +:+ Quote srcDir +:+ ", " +:+ fs_text e)
          | Directory (Ok entries) =>
              (fix copy_entries (entries : list (string * node)) : task error :=
                 match entries with
                 | [] => mret []
                 | (name, n) :: entries' =>
                     ended ← check_ctx;
                     match ended with
                     | Some e => fail ("copying " +:+ Quote srcDir +:+ ", " +:+ e)
                     | None =>
                         let srcPath := PathJoin [srcDir; name] in
                         let dstPath := PathJoin [dstDir; name] in
                         es ← match n with
                              | Absent e => fail ("stating " +:+ Quote srcPath +:+ ", " +:+ fs_text e)
                              | Directory _ => copyRecursive srcPath n dstPath
                              | File open => copyFileRaw srcPath open dstPath
                              end;
                         match es with
                         | [] => copy_entries entries'
                         | _ => mret es
                         end
                     end
                 end) entries
          end
      end
  end.

Definition CopyFile (src dst : string) : task error :=
  ended ← check_ctx;
  match ended with
  | Some e => fail ("copying " +:+ Quote src +:+ ", " +:+ e)
  | None =>
      match constructDestFile dst with
      | Err e => fail ("constructing destination file, " +:+ e)
      | Ok dstFilename => copyFileRaw src (open_node src (node_at src)) dstFilename
      end
  end.

Definition CopyDir (src dst : string) : task error :=
  ended ← check_ctx;
  match ended with
  | Some e => fail ("copying " +:+ Quote src +:+ ", " +:+ e)
  | None =>
      match constructDestFile dst with
      | Err e => fail ("constructing destination directory, " +:+ e)
      | Ok dstDirName => copyRecursive src (node_at src) dstDirName
      end
  end.
End Accessor.

(** ** Paths of the bundle *)

(** A joined path is again that of kept elements. *)
Lemma PathJoin_rooted hs p : Forall kept hs → ∃ es, Forall kept es ∧ PathJoin [abs_path hs; p] = abs_path es.
Proof.
  intros Hhs. eexists. split; [|by apply PathJoin_two].
  apply Forall_rev, clean_elems_kept; [apply Split_elems|by apply Forall_rev].
Qed.

Lemma abs_path_snoc hs e : hs ≠ [] → abs_path (hs ++ [e]) = abs_path hs +:+ "/" +:+ e.
Proof. intros Hhs. unfold abs_path. rewrite Join_app by done. by rewrite sapp_assoc. Qed.

Lemma HasPrefix_trans_app p t q : HasPrefix p q = true → HasPrefix (p +:+ t) q = true.
Proof. rewrite !HasPrefix_spec. intros [u ->]. exists (u +:+ t). by rewrite sapp_assoc. Qed.

Lemma abs_path_snoc_prefix hs e q :
  HasPrefix (abs_path hs) q = true → HasPrefix (abs_path (hs ++ [e])) q = true.
Proof.
  destruct hs as [|h hs].
  - change (abs_path []) with "/". unfold abs_path. simpl. by apply (HasPrefix_trans_app "/" e).
  - intros Hq. rewrite abs_path_snoc by done. by apply HasPrefix_trans_app.
Qed.

(** ** What a task may change *)

(** The files that commands write. *)
Definition command_files `{Host} (commands : list (option (list string) * list string)) : list string :=
  commands ≫= λ c, (command_writes c.1 c.2).*1.

(** [m] writes no file outside [P] but what the commands it runs write themselves. *)
Definition writes_only `{Host} {A} (P : string → Prop) (m : task A) : Prop :=
  ∀ b, ∃ commands, ran (m b).1 = commands ++ ran b ∧
    ∀ path, ¬ P path → path ∉ command_files commands → contents (m b).1 !! path = contents b !! path.

Section WritesOnly.
Context `{Host} (P : string → Prop).

(** A step that runs no command. *)
Lemma writes_silent {A} (m : task A) :
  (∀ b, ran (m b).1 = ran b ∧ ∀ path, ¬ P path → contents (m b).1 !! path = contents b !! path) →
  writes_only P m.
Proof. intros Hm b. destruct (Hm b) as [Hr Hc]. exists []. split; [done|]. auto. Qed.

Lemma writes_ret {A} (a : A) : writes_only P (mret a).
Proof. by apply writes_silent. Qed.

Lemma writes_bind {A B} (m : task A) (k : A → task B) :
  writes_only P m → (∀ a, writes_only P (k a)) → writes_only P (m ≫= k).
Proof.
  intros Hm Hk b. unfold mbind, task_bind. destruct (Hm b) as (new & Hr & Hc).
  destruct (m b) as [b' a]. destruct (Hk a b') as (new' & Hr' & Hc'). simpl in *.
  exists (new' ++ new). rewrite Hr', Hr. split; [by rewrite (assoc_L (++))|].
  intros path Hp Hn. unfold command_files in Hn. rewrite bind_app, not_elem_of_app in Hn.
  rewrite Hc', Hc; tauto.
Qed.

Lemma writes_store path c : P path → writes_only P (store path c).
Proof.
  intros Hp. apply writes_silent. intros b. split; [done|]. intros path' Hn.
  apply lookup_insert_ne. by intros ->.
Qed.

Lemma writes_load path : writes_only P (load path).
Proof. by apply writes_silent. Qed.

Lemma writes_ctx : writes_only P check_ctx.
Proof. apply writes_silent. intros b. unfold check_ctx. by repeat case_match. Qed.

Lemma writes_fail e : writes_only P (fail e).
Proof. apply writes_ret. Qed.

Lemma writes_join l : Forall (writes_only P) l → writes_only P (join l).
Proof.
  induction 1 as [|m l Hm _ IH]; [apply writes_ret|]. simpl.
  apply writes_bind; [done|]. intros e. apply writes_bind; [done|]. intros es. apply writes_ret.
Qed.

Lemma foldl_insert_other (files : list (string * string)) (m : gmap string string) path :
  path ∉ files.*1 → foldl (λ m '(p, c), <[p := c]> m) m files !! path = m !! path.
Proof.
  revert m. induction files as [|[p c] files IH]; intros m; [done|]. simpl.
  rewrite not_elem_of_cons. intros [Hp Hn]. rewrite IH by done. by apply lookup_insert_ne.
Qed.

Lemma writes_exec env args : writes_only P (exec env args).
Proof.
  intros b. exists [(env, args)]. split; [done|]. intros path _ Hn.
  unfold command_files in Hn. simpl in Hn. rewrite app_nil_r in Hn. by apply foldl_insert_other.
Qed.

Lemma writes_command env combined args : writes_only P (run_command env combined args).
Proof.
  unfold run_command. destruct args; [apply writes_ret|].
  apply writes_bind; [apply writes_ctx|]. intros [e|]; [apply writes_ret|].
  apply writes_bind; [apply writes_exec|]. intros _. apply writes_ret.
Qed.
End WritesOnly.

(** Hints, and case analysis on what the code looks at. *)
Create HintDb bundle discriminated.
#[export] Hint Resolve writes_ret writes_store writes_load writes_ctx writes_fail writes_command : bundle.

Ltac writes_step :=
  match goal with
  | |- writes_only _ (mbind _ _) => apply writes_bind; [|intros ?]
  | |- writes_only _ (join _) => apply writes_join; repeat apply Forall_cons_2; try apply Forall_nil_2
  | |- writes_only _ (if ?x then _ else _) => destruct x eqn:?
  | |- writes_only _ (match ?x with _ => _ end) => destruct x eqn:?
  | |- writes_only _ _ => solve [eauto with bundle]
  end.
Ltac writes := repeat writes_step; eauto with bundle.

Section Confined.
Context `{Host} (cfg : Config).

(** Inside the destination, as the code checks it. *)
Definition confined (path : string) : Prop := HasPrefix path (Destination cfg) = true.

Lemma constructDestFile_ok filename destFile :
  constructDestFile cfg filename = Ok destFile →
  destFile = PathJoin [Destination cfg; filename] ∧ confined destFile.
Proof.
  unfold constructDestFile. intros E.
  destruct (HasPrefix _ _) eqn:Hp; [|discriminate]. simpl in E.
  destruct (EnsureParentExists _); simplify_eq. done.
Qed.

Lemma writes_after P dst old bytes : P dst → writes_only P (write_after dst old bytes).
Proof. intros Hd. unfold write_after. writes. Qed.
#[local] Hint Resolve writes_after : bundle.

Lemma writes_output append filename bytes : writes_only confined (output_to cfg append filename bytes).
Proof.
  unfold output_to. destruct (constructDestFile cfg filename) eqn:E; [|writes].
  apply constructDestFile_ok in E as [_ Hc]. writes.
Qed.

Lemma writes_CommandOutput args dst opts : writes_only confined (CommandOutput cfg args dst opts).
Proof. unfold CommandOutput, Output, CombinedOutput, CombinedOutputEnv. writes; apply writes_output. Qed.

Lemma writes_copy_chunks P dst chunks e : P dst → writes_only P (copy_chunks dst chunks e).
Proof. intros Hd. induction chunks; simpl; writes. Qed.
#[local] Hint Resolve writes_copy_chunks : bundle.

Lemma writes_copyFileRaw P src open dst : P dst → writes_only P (copyFileRaw src open dst).
Proof. intros Hd. unfold copyFileRaw. writes. Qed.
End Confined.
#[export] Hint Resolve writes_output writes_CommandOutput writes_copyFileRaw : bundle.

(** ** Trees *)

(** Induction over a tree, with the hypothesis for each entry of a directory. *)
Lemma node_tree_ind (P : node → Prop) :
  (∀ e, P (Absent e)) → (∀ open, P (File open)) → (∀ e, P (Directory (Err e))) →
  (∀ entries, Forall (λ x, P x.2) entries → P (Directory (Ok entries))) →
  ∀ n, P n.
Proof.
  intros Ha Hf He Hd. fix IH 1. intros [e|open|[entries|e]]; [apply Ha|apply Hf| |apply He].
  apply Hd. induction entries as [|[x n] entries IHe]; constructor; [apply IH|apply IHe].
Qed.

(** The names of the entries of a directory are path elements. *)
Inductive named : node → Prop :=
| named_absent e : named (Absent e)
| named_file open : named (File open)
| named_unread e : named (Directory (Err e))
| named_dir entries :
    Forall (λ x, kept x.1 ∧ named x.2) entries → named (Directory (Ok entries)).

Section Copy.
Context `{Host}.

Definition copy_entries (srcDir dstDir : string) : list (string * node) → task error :=
  fix copy_entries (entries : list (string * node)) : task error :=
    match entries with
    | [] => mret []
    | (name, n) :: entries' =>
        ended ← check_ctx;
        match ended with
        | Some e => fail ("copying " +:+ Quote srcDir +:+ ", " +:+ e)
        | None =>
            let srcPath := PathJoin [srcDir; name] in
            let dstPath := PathJoin [dstDir; name] in
            es ← match n with
                 | Absent e => fail ("stating " +:+ Quote srcPath +:+ ", " +:+ fs_text e)
                 | Directory _ => copyRecursive srcPath n dstPath
                 | File open => copyFileRaw srcPath open dstPath
                 end;
            match es with
            | [] => copy_entries entries'
            | _ => mret es
            end
        end
    end.

(** One entry, whose context was found alive. *)
Definition copy_entry (srcPath : string) (n : node) (dstPath : string) : task error :=
  match n with
  | Absent e => fail ("stating " +:+ Quote srcPath +:+ ", " +:+ fs_text e)
  | Directory _ => copyRecursive srcPath n dstPath
  | File open => copyFileRaw srcPath open dstPath
  end.

Lemma copy_entries_cons srcDir dstDir name n entries :
  copy_entries srcDir dstDir ((name, n) :: entries) =
  (ended ← check_ctx;
   match ended with
   | Some e => fail ("copying " +:+ Quote srcDir +:+ ", " +:+ e)
   | None =>
       es ← copy_entry (PathJoin [srcDir; name]) n (PathJoin [dstDir; name]);
       match es with [] => copy_entries srcDir dstDir entries | _ => mret es end
   end).
Proof. reflexivity. Qed.

(** The equation of [copyRecursive], with its loop named. *)
Lemma copyRecursive_eq srcDir src dstDir :
  copyRecursive srcDir src dstDir =
  (ended ← check_ctx;
   match ended with
   | Some e => fail ("copying " +:+ Quote srcDir +:+ ", " +:+ e)
   | None =>
       match MkdirAll dstDir with
       | Some e => fail ("creating destination directory, " +:+ e)
       | None =>
           match src with
           | Absent e => fail ("reading directory " +:+ Quote srcDir +:+ ", " +:+ fs_text e)
           | File _ => fail ("reading directory " +:+ Quote srcDir +:+ ", not a directory")
           | Directory (Err e) => fail ("reading directory " +:+ Quote srcDir +:+ ", " +:+ fs_text e)
           | Directory (Ok entries) => copy_entries srcDir dstDir entries
           end
       end
   end).
Proof. destruct src as [| |[|]]; reflexivity. Qed.

Lemma writes_copyRecursive q src : named src → ∀ srcDir hs,
  Forall kept hs → HasPrefix (abs_path hs) q = true →
  writes_only (λ path, HasPrefix path q = true) (copyRecursive srcDir src (abs_path hs)).
Proof.
  induction src as [e|open|e|entries IH] using node_tree_ind; intros Hn srcDir hs Hhs Hq;
    rewrite copyRecursive_eq; writes.
  inversion_clear Hn as [| | |? Hes].
  induction entries as [|[name n] entries IHe]; [apply writes_ret|]. rewrite copy_entries_cons.
  apply Forall_cons in IH as [IHn IH]. apply Forall_cons in Hes as [[Hk Hn] Hes]. cbn [fst snd] in *.
  rewrite PathJoin_elem by done.
  pose proof (abs_path_snoc_prefix hs name q Hq).
  unfold copy_entry. writes. apply IHn; [done|by apply Forall_app_2; auto|done].
Qed.
End Copy.

Section Confined.
Context `{Host} (cfg : Config) (ds : list string).
Hypothesis destination : Destination cfg = abs_path ds ∧ Forall kept ds.
Hypothesis host_named : ∀ path, named (node_at path).

Lemma destFile_elems filename destFile :
  constructDestFile cfg filename = Ok destFile → ∃ es, Forall kept es ∧ destFile = abs_path es.
Proof.
  intros [-> _]%constructDestFile_ok. destruct destination as [-> Hds]. by apply PathJoin_rooted.
Qed.

Lemma writes_CopyFile src dst : writes_only (confined cfg) (CopyFile cfg src dst).
Proof.
  unfold CopyFile. writes. apply writes_copyFileRaw.
  by match goal with E : constructDestFile _ _ = Ok _ |- _ => apply constructDestFile_ok in E as [_ ?] end.
Qed.

Lemma writes_CopyDir src dst : writes_only (confined cfg) (CopyDir cfg src dst).
Proof.
  unfold CopyDir. writes.
  match goal with E : constructDestFile _ _ = Ok _ |- _ =>
    destruct (destFile_elems _ _ E) as (es & Hes & ->); apply constructDestFile_ok in E as [_ ?] end.
  by apply writes_copyRecursive.
Qed.
End Confined.

(** ** A copy of a tree is complete *)

Section Complete.
Context `{Host}.

(** A destination with room, and a context that is not cancelled. *)
Hypothesis room : (∀ p, MkdirAll p = None) ∧ (∀ p, Create p = None) ∧ (∀ p b, shortWrite p b = None).

(** A tree all of which can be read. *)
Inductive readable : node → Prop :=
| readable_file chunks : readable (File (Ok (chunks, None)))
| readable_dir entries :
    NoDup entries.*1 → Forall (λ x, kept x.1 ∧ readable x.2) entries →
    readable (Directory (Ok entries)).

(** The files below a node: the elements of their path, and what they hold. *)
Fixpoint tree_files (n : node) : list (list string * string) :=
  match n with
  | File (Ok (chunks, _)) => [([], Concat chunks)]
  | Directory (Ok entries) =>
      mjoin (map (λ '(name, m), map (λ '(rel, c), (name :: rel, c)) (tree_files m)) entries)
  | _ => []
  end.

(** The bundle with the files below [hs] put in. *)
Definition put_files (hs : list string) (files : list (list string * string)) (m : gmap string string)
    : gmap string string :=
  foldl (λ m '(rel, c), <[abs_path (hs ++ rel) := c]> m) m files.

Definition alive (m : gmap string string) : bundle := mkBundle m None [].

Lemma check_alive {B} (k : option string → task B) m : (check_ctx ≫= k) (alive m) = k None (alive m).
Proof. done. Qed.

Lemma load_alive {B} path (k : string → task B) m :
  (load path ≫= k) (alive m) = k (default EmptyString (m !! path)) (alive m).
Proof. done. Qed.

Lemma store_alive {B} path c (k : () → task B) m :
  (store path c ≫= k) (alive m) = k tt (alive (<[path := c]> m)).
Proof. done. Qed.

Lemma bind_alive {A B} (f : task A) (k : A → task B) m m' a :
  f (alive m) = (alive m', a) → (f ≫= k) (alive m) = k a (alive m').
Proof. intros E. unfold mbind, task_bind. by rewrite E. Qed.

Lemma copy_chunks_all dst chunks m old :
  m !! dst = Some old →
  copy_chunks dst chunks None (alive m) = (alive (<[dst := old +:+ Concat chunks]> m), []).
Proof.
  revert m old. induction chunks as [|c chunks IH]; intros m old Hm; simpl copy_chunks.
  - rewrite check_alive. simpl. by rewrite sapp_nil_r, insert_id.
  - rewrite check_alive. destruct room as (_ & _ & ->).
    rewrite load_alive, store_alive, Hm. simpl default.
    rewrite (IH _ (old +:+ c)) by apply lookup_insert_eq.
    by rewrite insert_insert_eq, <- sapp_assoc.
Qed.

Lemma copyFileRaw_all src chunks dst m :
  copyFileRaw src (Ok (chunks, None)) dst (alive m) = (alive (<[dst := Concat chunks]> m), []).
Proof.
  unfold copyFileRaw. destruct room as (_ & -> & _). rewrite store_alive.
  erewrite bind_alive by (apply copy_chunks_all, lookup_insert_eq).
  simpl. by rewrite insert_insert_eq.
Qed.

Lemma put_files_app hs fs gs m : put_files hs (fs ++ gs) m = put_files hs gs (put_files hs fs m).
Proof. apply foldl_app. Qed.

Lemma put_files_below hs name fs m :
  put_files hs (map (λ '(rel, c), (name :: rel, c)) fs) m = put_files (hs ++ [name]) fs m.
Proof.
  revert m. induction fs as [|[rel c] fs IH]; intros m; [done|].
  simpl. by rewrite IH, <- app_assoc.
Qed.

(** The copy of a directory puts its files in, and reports nothing. *)
Lemma copyRecursive_all src : readable src → ∀ srcDir hs m,
  Forall kept hs → is_Some (match src with Directory _ => Some () | _ => None end) →
  copyRecursive srcDir src (abs_path hs) (alive m) = (alive (put_files hs (tree_files src) m), []).
Proof.
  induction src as [e|open|e|entries IH] using node_tree_ind; intros Hr srcDir hs m Hhs Hd;
    try by destruct Hd.
  { inversion Hr. }
  rewrite copyRecursive_eq, check_alive. destruct room as (-> & _ & _).
  inversion_clear Hr as [|? _ Hes]. revert m.
  induction entries as [|[name n] entries IHe]; intros m; [done|].
  apply Forall_cons in IH as [IHn IH]. apply Forall_cons in Hes as [[Hk Hn] Hes]. cbn [fst snd] in *.
  rewrite copy_entries_cons, check_alive, PathJoin_elem by done.
  assert (He : copy_entry (PathJoin [srcDir; name]) n (abs_path (hs ++ [name])) (alive m) =
    (alive (put_files (hs ++ [name]) (tree_files n) m), [])).
  { inversion Hn; subst; unfold copy_entry.
    - rewrite copyFileRaw_all. unfold put_files. simpl foldl. by rewrite app_nil_r.
    - apply IHn; [done|apply Forall_app_2; auto|by eexists]. }
  erewrite bind_alive by exact He.
  rewrite IHe by done. f_equal. f_equal.
  change (tree_files (Directory (Ok ((name, n) :: entries))))
    with (map (λ '(rel, c), (name :: rel, c)) (tree_files n) ++ tree_files (Directory (Ok entries))).
  by rewrite put_files_app, put_files_below.
Qed.

Lemma tree_files_kept n : readable n → Forall (λ x, Forall kept x.1) (tree_files n).
Proof.
  induction n as [e|open|e|entries IH] using node_tree_ind; intros Hr; try by inversion Hr.
  { inversion_clear Hr. simpl. repeat constructor. }
  inversion_clear Hr as [|? _ Hes]. simpl.
  induction entries as [|[name n] entries IHe]; [constructor|].
  apply Forall_cons in IH as [IHn IH]. apply Forall_cons in Hes as [[Hk Hn] Hes].
  simpl. apply Forall_app_2; [|by apply IHe].
  apply Forall_map. eapply Forall_impl; [by apply IHn|]. intros [rel c]. by constructor.
Qed.

Lemma tree_files_heads entries rel c :
  (rel, c) ∈ tree_files (Directory (Ok entries)) → ∃ name rel', rel = name :: rel' ∧ name ∈ entries.*1.
Proof.
  intros (fs & Hx & (y & -> & Hy)%list_elem_of_fmap)%list_elem_of_join. destruct y as [name n].
  apply list_elem_of_fmap in Hx as ([rel' c'] & E & _). simplify_eq.
  exists name, rel'. split; [done|]. by apply list_elem_of_fmap_2' with (name, n).
Qed.

Lemma tree_files_nodup n : readable n → NoDup (tree_files n).*1.
Proof.
  induction n as [e|open|e|entries IH] using node_tree_ind; intros Hr; try by inversion Hr.
  { inversion_clear Hr. simpl. apply NoDup_singleton. }
  inversion_clear Hr as [|? Hnd Hes].
  induction entries as [|[name n] entries IHe]; [constructor|].
  apply Forall_cons in IH as [IHn IH]. apply Forall_cons in Hes as [[Hk Hn] Hes].
  apply NoDup_cons in Hnd as [Hnin Hnd].
  change (tree_files (Directory (Ok ((name, n) :: entries))))
    with (map (λ '(rel, c), (name :: rel, c)) (tree_files n) ++ tree_files (Directory (Ok entries))).
  rewrite fmap_app. apply NoDup_app. split_and!; [| |by apply IHe].
  - replace ((map _ _).*1) with (map (cons name) (tree_files n).*1).
    + apply NoDup_fmap_2; [by intros ? ? [= ->]|by apply IHn].
    + clear. induction (tree_files n) as [|[] l IH]; [done|]. simpl. by f_equal.
  - intros rel ([rel' c'] & -> & Hin)%list_elem_of_fmap Hin'.
    apply list_elem_of_fmap in Hin as ([r c] & E & _). simplify_eq. simpl in *.
    apply list_elem_of_fmap in Hin' as ([r' c''] & E & Hin'). simpl in E. subst r'.
    apply tree_files_heads in Hin' as (? & ? & [= <- <-] & ?). done.
Qed.

(** The files put in are found, and nothing else changes. *)
Lemma put_files_lookup hs fs m path :
  NoDup fs.*1 → Forall (λ x, Forall kept x.1) fs → Forall kept hs →
  (∀ rel c, (rel, c) ∈ fs → put_files hs fs m !! abs_path (hs ++ rel) = Some c) ∧
  ((∀ rel c, (rel, c) ∈ fs → path ≠ abs_path (hs ++ rel)) → put_files hs fs m !! path = m !! path).
Proof.
  intros Hnd Hk Hhs.
  induction fs as [|[rel c] fs IH] using rev_ind; [split; [by intros ? ? ?%not_elem_of_nil|done]|].
  rewrite fmap_app in Hnd. apply NoDup_app in Hnd as (Hnd & Hnin & _).
  apply Forall_app in Hk as [Hk Hr]. apply Forall_cons in Hr as [Hr _]. simpl in Hr.
  destruct (IH Hnd Hk) as [IH1 IH2]. rewrite put_files_app. unfold put_files at 1 3. simpl. split.
  - intros rel' c' [Hin|Hin]%elem_of_app.
    + rewrite lookup_insert_ne; [by apply IH1|].
      assert (rel' ∈ fs.*1) as Hin' by (by apply list_elem_of_fmap_2' with (rel', c')).
      assert (Forall kept rel') by (by apply (proj1 (Forall_forall _ _) Hk) in Hin).
      intros E. apply abs_path_inj in E; [|by apply Forall_app_2..].
      apply app_inv_head in E as <-. by eapply Hnin; [|left].
    + apply list_elem_of_singleton in Hin. simplify_eq. apply lookup_insert_eq.
  - intros Hp. rewrite lookup_insert_ne; [|by intros E; eapply Hp; [apply elem_of_app; right; by left|]].
    apply IH2. intros rel' c' Hin. apply Hp with c'. apply elem_of_app. by left.
Qed.

Lemma EnsureParentExists_room file : EnsureParentExists file = None.
Proof. unfold EnsureParentExists. destruct room as (Hm & _). by destruct (opens _). Qed.

Section Dest.
Context (cfg : Config) (ds : list string).
Hypothesis destination : Destination cfg = abs_path ds ∧ Forall kept ds.

Lemma abs_path_app_prefix es : HasPrefix (abs_path (ds ++ es)) (abs_path ds) = true.
Proof.
  induction es as [|e es IH] using rev_ind.
  - rewrite app_nil_r. rewrite <- (sapp_nil_r (abs_path ds)) at 1. apply HasPrefix_app.
  - rewrite app_assoc. by apply abs_path_snoc_prefix.
Qed.

Lemma constructDestFile_room es :
  Forall kept es → constructDestFile cfg (Join es "/") = Ok (abs_path (ds ++ es)).
Proof.
  intros Hes. unfold constructDestFile. destruct destination as [-> Hds].
  by rewrite PathJoin_elems, abs_path_app_prefix, EnsureParentExists_room.
Qed.

(** A file of the bundle holds what was written to it last, or what was appended to it. *)
Lemma output_to_room append es bytes m :
  Forall kept es →
  output_to cfg append (Join es "/") bytes (alive m) =
  (alive (<[abs_path (ds ++ es) :=
            (if append then default EmptyString (m !! abs_path (ds ++ es)) else EmptyString) +:+ bytes]> m), []).
Proof.
  intros Hes. unfold output_to. rewrite constructDestFile_room by done.
  destruct room as (_ & Hc & Hs). rewrite Hc, load_alive. unfold write_after. by rewrite Hs, store_alive.
Qed.
End Dest.
End Complete.

(** C17. A directory copy is complete: when every file of the tree can be read, the
    destination has room and the context lives, [CopyDir] returns no error, each file
    of the tree is in the bundle below the destination directory under the same relative
    path with the bytes of all its reads, and nothing else of the bundle changes. *)
Theorem CopyDir_complete `{Host} cfg ds es src m :
  (∀ p, MkdirAll p = None) ∧ (∀ p, Create p = None) ∧ (∀ p b, shortWrite p b = None) →
  Destination cfg = abs_path ds ∧ Forall kept ds → Forall kept es →
  readable (node_at src) ∧ stat src = Some true →
  ∃ m', CopyDir cfg src (Join es "/") (alive m) = (alive m', []) ∧
    (∀ rel c, (rel, c) ∈ tree_files (node_at src) → m' !! abs_path (ds ++ es ++ rel) = Some c) ∧
    (∀ path, (∀ rel c, (rel, c) ∈ tree_files (node_at src) → path ≠ abs_path (ds ++ es ++ rel)) →
             m' !! path = m !! path).
Proof.
  intros room Hd Hes [Hr Hs]. exists (put_files (ds ++ es) (tree_files (node_at src)) m).
  unfold stat in Hs.
  assert (Hk : Forall kept (ds ++ es)) by (apply Forall_app_2; tauto).
  split; [|split].
  - unfold CopyDir. rewrite check_alive, (constructDestFile_room room _ ds Hd es Hes).
    apply copyRecursive_all; [done..|]. by destruct (node_at src).
  - intros rel c Hin. rewrite app_assoc.
    apply put_files_lookup; auto using tree_files_nodup, tree_files_kept.
  - intros path Hp. apply put_files_lookup; auto using tree_files_nodup, tree_files_kept.
    intros rel c Hin. rewrite <- app_assoc. eauto.
Qed.

(** A host with a small tree and no command. *)
Definition ex_tree : node :=
  Directory (Ok [("a.log", File (Ok (["one "; "two"], None)));
                 ("sub", Directory (Ok [("b.log", File (Ok ([], None)))]))]).

Definition ex_host (n : string → node) (commands : list string → string * option RunError) : Host :=
  {| command := λ _ _, commands; command_writes := λ _ _, []; node_at := n; Glob := λ _, Ok []; mountTable := Ok [];
     ctxText := "context canceled"; opens := λ _, true; MkdirAll := λ _, None;
     Create := λ _, None; shortWrite := λ _ _, None |}.

Definition ex_cfg : Config := mkConfig "/host" "/tmp/logs" [] Minute.

Lemma CopyDir_complete_witness :
  let H := ex_host (λ _, ex_tree) (λ _, (EmptyString, None)) in
  ∃ m', CopyDir ex_cfg "/host/etc" (Join ["cni"] "/") (alive ∅) = (alive m', []) ∧
    m' !! "/tmp/logs/cni/a.log" = Some "one two" ∧ m' !! "/tmp/logs/cni/sub/b.log" = Some EmptyString.
Proof.
  intros H.
  destruct (CopyDir_complete ex_cfg ["tmp"; "logs"] ["cni"] "/host/etc" ∅) as (m' & E & Hin & _).
  - done.
  - split; [reflexivity|]. by repeat constructor.
  - by repeat constructor.
  - split; [|reflexivity]. repeat constructor; try done; set_solver.
  - exists m'. split; [exact E|]. split.
    + apply (Hin ["a.log"]). by left.
    + apply (Hin ["sub"; "b.log"]). right. by left.
Defined.

(** The test of the code is on the text of the path: a name that climbs out of the
    destination into a directory whose path only starts alike is let through. *)
Example sibling_accepted :
  let H := ex_host (λ _, ex_tree) (λ _, (EmptyString, None)) in
  (WriteOutput ex_cfg "../logs-of-others/x" "data" (alive ∅)).1 = alive {["/tmp/logs-of-others/x" := "data"]} ∧
  (WriteOutput ex_cfg "../other/x" "data" (alive ∅)).1 = alive ∅.
Proof. done. Qed.

(** A failing command whose failure is ignored is no error, and nothing is written but
    what the command itself wrote. *)
Lemma CommandOutput_ignored `{Host} cfg args dst opts b :
  is_opt opts CommandOptionsIgnoreFailure = true →
  let combined := negb (is_opt opts CommandOptionsNoStderr) in
  is_Some (run_command None combined args b).2.2 →
  CommandOutput cfg args dst opts b = ((run_command None combined args b).1, []).
Proof.
  intros Hi combined Hf.
  unfold CommandOutput, Output, CombinedOutput, CombinedOutputEnv, mbind, task_bind.
  replace ((if is_opt opts CommandOptionsNoStderr then run_command None false args else run_command None true args) b)
    with (run_command None combined args b) by (subst combined; by destruct (is_opt opts CommandOptionsNoStderr)).
  destruct (run_command None combined args b) as [b' [out [e|]]]; [|by destruct Hf].
  by rewrite Hi.
Qed.

(** Once its context has ended a copy writes nothing. *)
Lemma CopyDir_cancelled `{Host} cfg src dst m :
  CopyDir cfg src dst (mkBundle m (Some 0%nat) []) =
  (mkBundle m (Some 0%nat) [], ["copying " +:+ Quote src +:+ ", " +:+ ctxText]).
Proof. done. Qed.
