(* ===== verification/HostCollectors.v ===== *)
(** * HostCollectors: the collectors of the host's own state ([pkg/log_collector/collect]:
    automode.go, cni.go, commonlogs.go, containerd.go, disk.go, instance.go, kernel.go,
    kubernetes.go, nodeadm.go, nvidia.go, pressure.go, pstore.go, region.go, sandbox.go,
    selinux.go, system.go; [pkg/log_collector/aws]).

    A collector is a task of [Accessor].  What it asks of anything but the file system and
    the commands is a second class of answers. *)

From S2P Require Import Prelude GoStrings Paths ExecPath Top Accessor.

(** What the metadata service answers and the body of its answer; the endpoints of IPAMD;
    the interfaces of the host; the readings of [system.Top]; the expansion of
    [${KUBECONFIG}]; the order in which Go ranges over a map with these keys. *)
Class Services := {
  imds : string → result string (result string string);
  httpGet : string → result string (result string string);
  Interfaces : result string (list string);
  topReadings : readings;
  kubeconfigEnv : string;
  map_order : list string → list string
}.

(** [pkg/log_collector/aws/imds.go]. *)
Definition GetIMDSMetadata `{Services} (path : string) : result string string :=
  match imds path with
  | Err e => Err ("getting metadata for path " +:+ Quote path +:+ ", " +:+ e)
  | Ok (Err e) => Err ("reading metadata for path " +:+ Quote path +:+ ", " +:+ e)
  | Ok (Ok bytes) => Ok bytes
  end.

Section Collectors.
Context `{Host} `{Services} (cfg : Config).

Definition host (path : string) : string := PathJoin [Root cfg; path].
Definition cmd (args : list string) (destination : string) : task error :=
  CommandOutput cfg args destination CommandOptionsNone.
Definition journal (unit destination : string) : task error :=
  cmd ["journalctl"; "-o"; "short-iso-precise"; "-u"; unit] destination.

(** ** automode.go *)

Definition AutoMode_Collect : task error :=
  if negb (hasAnyTag cfg [TagEKSAuto]) then mret []
  else join [
    journal "eks-healthchecker" "automode/eks-healthchecker.txt";
    journal "kube-proxy" "automode/kube-proxy.txt";
    journal "coredns-bootstrap" "automode/coredns-boostrap.txt";
    journal "coredns" "automode/coredns.txt";
    journal "eks-ebs-csi-driver" "automode/eks-ebs-csi-driver.txt";
    journal "eks-node-monitoring-agent" "automode/eks-node-monitoring-agent.txt";
    journal "eks-networking-config-agent" "automode/eks-networking-config-agent.txt";
    journal "eks-pod-identity-agent" "automode/eks-pod-identity-agent.txt"].

(** ** cni.go *)

Definition cniConfig : task error := CopyDir cfg (host "/etc/cni/net.d") "cni".

(** The container of the first line that names the image. *)
Definition cni_container (listOutput : string) : option string :=
  line ← head (filter (λ l, Contains l "amazon-k8s-cni:v" = true) (Split listOutput (byte_of 10)));
  head (Split line (byte_of 32)).

Definition cniVariables : task error :=
  r ← CombinedOutput ["ctr"; "--namespace"; "k8s.io"; "container"; "list"];
  match r with
  | (_, Some _) => mret []
  | (listOutput, None) =>
      match cni_container listOutput with
      | None => mret []
      | Some containerId =>
          cmd ["ctr"; "--namespace"; "k8s.io"; "container"; "info"; containerId]
            "cni/cni-configuration-variables-containerd.json"
      end
  end.

Definition CNI_Collect : task error := join [cniConfig; cniVariables].

(** ** commonlogs.go *)

Definition DefaultVarLogFiles : list string :=
  ["syslog"; "messages"; "aws-routed-eni"; "cron"; "cloud-init.log"; "cloud-init-output.log";
   "user-data.log"; "kube-proxy.log"].

Definition DefaultPodLogPatterns : list string :=
  ["kube-system_aws-node*"; "kube-system_cni-metrics-helper*"; "kube-system_coredns*";
   "kube-system_kube-proxy*"; "kube-system_ebs-csi-*"; "kube-system_efs-csi-*";
   "kube-system_fsx-csi-*"; "kube-system_fsx-openzfs-csi-*"; "kube-system_file-cache-csi-*";
   "kube-system_eks-pod-identity-agent*"; "kube-system_s3-csi*"; "mount-s3_mp-*"; "mount-s3_hr-*";
   "kube-system_eks-node-monitoring-agent*"; "kube-system_kube-multus*"].

(** [None] is a nil slice, which stands for no files; an empty one for the defaults. *)
Record CommonLogs := mkCommonLogs { PodLogPatterns : option (list string); VarLogFiles : option (list string) }.

Definition defaulted (l : option (list string)) (defaults : list string) : option (list string) :=
  match l with Some [] => Some defaults | _ => l end.

(** The collector as [Collect] leaves it: the defaults are written into it. *)
Definition fill_defaults (c : CommonLogs) : CommonLogs :=
  mkCommonLogs (defaulted (PodLogPatterns c) DefaultPodLogPatterns)
    (defaulted (VarLogFiles c) DefaultVarLogFiles).

Definition common_log (logName : string) : task error :=
  let savePath := PathJoin ["var_log/"; logName] in
  let fullPath := PathJoin [Root cfg; "/var/log/"; logName] in
  match stat fullPath with
  | None => mret []
  | Some true => CopyDir cfg fullPath savePath
  | Some false => CopyFile cfg fullPath savePath
  end.

Definition common (logFiles : list string) : task error := join (map common_log logFiles).

Definition pod_logs (pod : string) : task error :=
  let podsDir := host "/var/log/pods/" in
  match Glob (PathJoin [podsDir; pod]) with
  | Err e => fail e
  | Ok podNames =>
      join (map (λ logName, CopyDir cfg logName (PathJoin ["var_log/"; TrimPrefix logName podsDir])) podNames)
  end.

Definition pods (podLogPatterns : list string) : task error := join (map pod_logs podLogPatterns).

Definition CommonLogs_Collect (c : CommonLogs) : task error :=
  let c := fill_defaults c in
  join [common (default [] (VarLogFiles c)); pods (default [] (PodLogPatterns c))].

(** ** containerd.go *)

Definition ctrdlogs : task error :=
  match Glob (host "/tmp/containerd.*.stacks.log") with
  | Err e => fail e
  | Ok containerLogs =>
      join (map (λ logPath, CopyFile cfg logPath (PathJoin ["containerd"; Base logPath])) containerLogs)
  end.

Definition Containerd_Collect : task error :=
  join [
    ctrdlogs;
    cmd ["containerd"; "config"; "dump"] "containerd/containerd-config.txt";
    journal "containerd" "containerd/containerd-log.txt";
    cmd ["ctr"; "version"] "containerd/containerd-version.txt";
    cmd ["ctr"; "namespaces"; "list"] "containerd/containerd-namespaces.txt";
    cmd ["ctr"; "--namespace"; "k8s.io"; "images"; "list"] "containerd/containerd-images.txt";
    cmd ["ctr"; "--namespace"; "k8s.io"; "containers"; "list"] "containerd/containerd-containers.txt";
    cmd ["ctr"; "--namespace"; "k8s.io"; "tasks"; "list"] "containerd/containerd-tasks.txt";
    cmd ["ctr"; "--namespace"; "k8s.io"; "plugins"; "list"] "containerd/containerd-plugins.txt"].

(** ** disk.go *)

Definition GetMounts (fstype : string) : result string (list Info) :=
  match mountTable with
  | Err e => Err e
  | Ok infos => Ok (filter (λ i, FSType i = fstype) infos)
  end.

Definition xfs_task (xfs : string) : task error :=
  let opts := Z.lor CommandOptionsAppend CommandOptionsNoStderr in
  join [CommandOutput cfg ["xfs_info"; xfs] "storage/xfs.txt" opts;
        CommandOutput cfg ["xfs_db"; "-r"; "-c"; "freesp -s"; xfs] "storage/xfs.txt" opts].

(** The upper directories of an overlay, where the files of the pods are. *)
Definition upper_dirs (mount : Info) : list string :=
  omap (λ opt, CutPrefix opt "upperdir=") (Split (VFSOptions mount) (byte_of 44)).

Definition du_task (dirPath : string) : task error :=
  CommandOutput cfg ["du"; "-sh"; dirPath] "storage/pod_local_storage.txt" CommandOptionsAppend.

Definition Disk_Collect : task error :=
  join [
    CommandOutput cfg ["mount"] "storage/mounts.txt" CommandOptionsAppend;
    CommandOutput cfg ["df"; "--human-readable"] "storage/mounts.txt" CommandOptionsAppend;
    cmd ["df"; "--inodes"] "storage/inodes.txt";
    cmd ["lsblk"] "storage/lsblk.txt";
    (if negb (hasAnyTag cfg [TagBottlerocket]) then
       join [
         CopyFile cfg (host "/etc/fstab") "storage/fstab.txt";
         CommandOutput cfg ["lvs"] "storage/lvs.txt" CommandOptionsIgnoreFailure;
         CommandOutput cfg ["pvs"] "storage/pvs.txt" CommandOptionsIgnoreFailure;
         CommandOutput cfg ["vgs"] "storage/vgs.txt" CommandOptionsIgnoreFailure]
     else mret []);
    match GetMounts "xfs" with
    | Err e => fail e
    | Ok xfsInfo =>
        join [
          join (map xfs_task (map_order (remove_dups (Source <$> xfsInfo))));
          match GetMounts "overlay" with
          | Err e => fail e
          | Ok overlayMounts => join (map du_task (mjoin (upper_dirs <$> overlayMounts)))
          end]
    end].

(** ** instance.go and region.go *)

Definition Instance_Collect : task error :=
  if hasAnyTag cfg [TagHybrid] then mret []
  else
    es ← CopyFile cfg "/var/lib/cloud/data/instance-id" "system/instance-id.txt";
    match es with
    | [] => mret []
    | _ =>
        match GetIMDSMetadata "/instance-id" with
        | Err e => fail (prefixed "failed to get instance-id metadata" e)
        | Ok bytes => WriteOutput cfg "system/instance-id.txt" (bytes +:+ nl)
        end
    end.

Definition metadata (path destination : string) : task error :=
  match GetIMDSMetadata path with
  | Err e => fail e
  | Ok bytes => WriteOutput cfg destination (bytes +:+ nl)
  end.

Definition Region_Collect : task error :=
  if hasAnyTag cfg [TagHybrid] then mret []
  else join [metadata "/placement/region" "system/region.txt";
             metadata "/placement/availability-zone" "system/availability-zone.txt"].

(** ** kernel.go *)

Definition defaultModules : list string := ["lustre"].

Definition dmesg : task error :=
  join [
    match stat (host "/var/log/dmesg") with
    | Some false => CopyFile cfg (host "/var/log/dmesg") "kernel/dmesg.boot"
    | _ => mret []
    end;
    cmd ["dmesg"] "kernel/dmesg.current";
    cmd ["dmesg"; "--ctime"] "kernel/dmesg.human.current";
    cmd ["uname"; "-a"] "kernel/uname.txt"].

Definition modinfo : task error :=
  join (map (λ m, CommandOutput cfg ["modinfo"; m] (PathJoin ["modinfo/"; m]) CommandOptionsIgnoreFailure)
          defaultModules).

Definition Kernel_Collect : task error := join [dmesg; modinfo].

(** ** kubernetes.go *)

Definition kubelet : task error :=
  let kubeletConfigPath := ResolveKubeletConfig stat (Root cfg) in
  let kubeletConfigDropinPath := ResolveKubeletConfigDropIn stat (Root cfg) in
  join [
    cmd ["journalctl"; "-o"; "short-iso-precise"; "-u"; "kubelet"; "--since"; "10 days ago"] "kubelet/kubelet.log";
    (if negb (hasAnyTag cfg [TagBottlerocket]) || hasAnyTag cfg [TagEKSAuto]
     then cmd ["systemctl"; "cat"; "kubelet"] "kubelet/kubelet_service.txt" else mret []);
    (if (0 <? String.length kubeletConfigPath)%nat
     then CopyFile cfg kubeletConfigPath "kubelet/config.json" else mret []);
    (if (0 <? String.length kubeletConfigDropinPath)%nat
     then CopyDir cfg kubeletConfigDropinPath "kubelet/config.json.d" else mret [])].

Definition kubeconfig : task error :=
  let kubeconfigPath := ResolveKubeconfig stat kubeconfigEnv (Root cfg) in
  if (String.length kubeconfigPath =? 0)%nat then fail "could not find kubeconfig"
  else CopyFile cfg kubeconfigPath "kubelet/kubeconfig.yaml".

Definition Kubernetes_Collect : task error := join [kubelet; kubeconfig].

(** ** nodeadm.go, nvidia.go, sandbox.go *)

Definition Nodeadm_Collect : task error :=
  join [journal "nodeadm-config" "nodeadm/nodeadm-config.log"; journal "nodeadm-run" "nodeadm/nodeadm-run.log"].

Definition nvidiaBugReport : task error :=
  if negb (hasAnyTag cfg [TagNvidia]) || hasAnyTag cfg [TagBottlerocket] then mret []
  else join [
    cmd ["nvidia-bug-report.sh"; "--output-file"; "/tmp/nvidia-bug-report.log"] "gpu/nvidia-bug-report-exec.log";
    CopyFile cfg (host "/tmp/nvidia-bug-report.log.gz") "gpu/nvidia-bug-report.log.gz"].

Definition Nvidia_Collect : task error := join [nvidiaBugReport].

Definition Sandbox_Collect : task error :=
  join [journal "sandbox-image" "sandbox-image/sandbox-image-log.txt"].

(** ** pressure.go *)

Definition pressureResources : list string := ["cpu"; "memory"; "io"].

Definition capturePressure (name : string) : task error :=
  match ReadFile (PathJoin [Root cfg; "/proc/pressure/"; name]) with
  | Err (NotExist _) => mret []
  | Err e => fail (fs_text e)
  | Ok data => WriteOutput cfg ("system/pressure_" +:+ name +:+ ".txt") data
  end.

Definition Pressure_Collect : task error := join (map capturePressure pressureResources).

(** ** pstore.go *)

Record pstoreSource := mkPstore {
  src : string; destDir : string; destNote : string; missingMsg : string; emptyMsg : string
}.

Definition pstoreSources : list pstoreSource :=
  [mkPstore "/sys/fs/pstore" "pstore/sys_fs_pstore" "pstore/sys_fs_pstore.txt"
     ("/sys/fs/pstore is not present on this system (pstore backend may not be configured)." +:+ nl)
     ("/sys/fs/pstore is present but empty (no captured crash records)." +:+ nl);
   mkPstore "/var/lib/systemd/pstore" "pstore/systemd_pstore" "pstore/systemd_pstore.txt"
     ("/var/lib/systemd/pstore is not present on this system (systemd-pstore.service may not be enabled)." +:+ nl)
     ("/var/lib/systemd/pstore is present but empty (no archived crash records)." +:+ nl)].

Definition capturePstoreSource (s : pstoreSource) : task error :=
  let dir := host (src s) in
  match node_at dir with
  | Absent (NotExist _) => WriteOutput cfg (destNote s) (missingMsg s)
  | Absent e => fail (fs_text e)
  | File _ => WriteOutput cfg (destNote s) (src s +:+ " exists but is not a directory." +:+ nl)
  | Directory (Err e) => fail (fs_text e)
  | Directory (Ok []) => WriteOutput cfg (destNote s) (emptyMsg s)
  | Directory (Ok _) => CopyDir cfg dir (destDir s)
  end.

Definition Pstore_Collect : task error := join (map capturePstoreSource pstoreSources).

(** ** selinux.go *)

Definition selinux_mode (mode : string) : string :=
  "SELinux mode:" +:+ nl +:+ String (byte_of 9) (" " +:+ mode +:+ nl).

Definition getSELinux : result string string :=
  match GetMounts "selinux" with
  | Err e => Err ("finding selinux mountpoint, " +:+ e)
  | Ok [] => Ok (selinux_mode "Disabled (no mountpoint)")
  | Ok (m :: _) =>
      match ReadFile (PathJoin [Root cfg; Mountpoint m; "enforce"]) with
      | Err e => Err ("reading enforce file, " +:+ fs_text e)
      | Ok EmptyString => Err "empty enforce file"
      | Ok (String c _) =>
          Ok (selinux_mode (if Ascii.eqb c (byte_of 48) then "Permissive" else "Enforcing"))
      end
  end.

Definition SELinux_Collect : task error :=
  if negb (hasAnyTag cfg [TagBottlerocket]) then
    match getSELinux with
    | Err e => fail e
    | Ok res => WriteOutput cfg "system/selinux.txt" res
    end
  else mret [].

(** ** system.go *)

(** The panic of [Top] ends the agent: [None]. *)
Definition top : option (task error) :=
  match Top topReadings with
  | None => None
  | Some (Err e) => Some (fail e)
  | Some (Ok text) => Some (WriteOutput cfg "system/top.txt" text)
  end.

Definition unless_bottlerocket (t : task error) : task error :=
  if negb (hasAnyTag cfg [TagBottlerocket]) then t else mret [].

Definition networking : task error :=
  unless_bottlerocket (cmd ["netstat"; "-plant"] "system/netstat.txt").

Definition systemd : task error :=
  if negb (hasAnyTag cfg [TagBottlerocket]) || hasAnyTag cfg [TagEKSAuto]
  then join [cmd ["systemctl"; "list-units"] "system/services.txt";
             cmd ["systemd-analyze"; "plot"] "system/systemd-analyze.svg"]
  else mret [].

Definition ps : task error :=
  join [cmd ["ps"; "fauxwww"; "--headers"] "system/ps.txt"; cmd ["ps"; "-eTF"; "--headers"] "system/ps-threads.txt"].

(** What [io.Copy] of a file gets to the buffer before it ends or fails. *)
Definition read_part (open : result fs_error (list string * option string)) : string :=
  match open with Ok (chunks, _) => Concat chunks | Err _ => EmptyString end.

(** The errors of the single files are collected, and dropped. *)
Definition userProcStat : task error :=
  match Glob (host "/proc/[0-9]*/stat") with
  | Err e => fail e
  | Ok statPaths =>
      WriteOutput cfg "system/allprocstat.txt" (Concat (map (λ p, read_part (open_node p (node_at p))) statPaths))
  end.

Definition procs : task error :=
  join [CopyFile cfg (host "/proc/stat") "system/procstat.txt"; userProcStat].

Definition sysctl : task error :=
  r ← CombinedOutput ["sysctl"; "--all"];
  let '(output, err) := r in
  let err := match err with
             | Some (ExitError 1 _ _) => if (0 <? String.length output)%nat then None else err
             | _ => err
             end in
  match err with
  | Some e => fail (prefixed ("executing command " +:+ Quote "sysctl --all") (run_text e))
  | None => WriteOutput cfg "sysctls/sysctl_all.txt" output
  end.

Definition pkgs : task error :=
  if hasAnyTag cfg [TagBottlerocket] then mret []
  else
    rpmErr ← cmd ["rpm"; "-qa"] "system/pkglist.txt";
    debErr ← cmd ["deb"; "--list"] "system/pkglist.txt";
    match rpmErr, debErr with
    | [], _ | _, [] => mret []
    | _, _ => mret (rpmErr ++ debErr)
    end.

Definition reboots : task error := unless_bottlerocket (cmd ["last"; "reboot"] "system/last_reboot.txt").

Definition bottlerocket : task error :=
  if negb (hasAnyTag cfg [TagBottlerocket]) then mret []
  else join [
    CopyFile cfg (host "/usr/share/bottlerocket/application-inventory.json") "bottlerocket/application-inventory.json";
    cmd ["logdog"] "bottlerocket/logdog/command-output.log";
    CopyFile cfg (host "/var/log/support/bottlerocket-logs.tar.gz") "bottlerocket/logdog/bottlerocket-logs.tar.gz"].

Definition System_Collect : option (task error) :=
  t ← top;
  Some (join [t; systemd; ps; procs; sysctl; pkgs; networking; bottlerocket; reboots]).
End Collectors.

(** ** What the collectors leave *)

(** Filling in the defaults once is enough, whatever collection comes next. *)
Lemma fill_defaults_idem c : fill_defaults (fill_defaults c) = fill_defaults c.
Proof. by destruct c as [[[|]|] [[|]|]]. Qed.

Lemma join_bundle (l : list (task error)) b :
  (join l b).1 = foldl (λ b m, (m b).1) b l.
Proof.
  revert b. induction l as [|m l IH]; intros b; [done|]. simpl.
  unfold mbind, task_bind. destruct (m b) as [b1 e]. specialize (IH b1).
  by destruct (join l b1) as [b2 es].
Qed.

(** The errors of a join are those of its tasks, each run whatever the others report. *)
Lemma join_errors (l : list (task error)) b e :
  e ∈ (join l b).2 ↔ ∃ l1 m l2, l = l1 ++ m :: l2 ∧ e ∈ (m (foldl (λ b m, (m b).1) b l1)).2.
Proof.
  revert b. induction l as [|m l IH]; intros b.
  - split; [by intros ?%not_elem_of_nil|]. intros (l1 & ? & ? & El & _). by apply app_cons_not_nil in El.
  - simpl. unfold mbind, task_bind. destruct (m b) as [b1 es] eqn:E. specialize (IH b1).
    destruct (join l b1) as [b2 es'] eqn:E'. cbn [fst snd mret task_ret] in *.
    rewrite elem_of_app, IH. split.
    + intros [Hin|(l1 & m' & l2 & -> & Hin)].
      * exists [], m, l. split; [done|]. simpl. by rewrite E.
      * exists (m :: l1), m', l2. split; [done|]. simpl. by rewrite E.
    + intros ([|m1 l1] & m' & l2 & [= -> ->] & Hin); simpl in Hin; rewrite E in Hin.
      * by left.
      * right. by exists l1, m', l2.
Qed.

Section Facts.
Context `{Host} `{Services} (cfg : Config).

(** The collector asks for mounts of type [selinux]: a host without one is said to have
    SELinux disabled, whatever its file system of type [selinuxfs] holds. *)
Lemma selinuxfs_disabled infos :
  mountTable = Ok infos → Forall (λ i, FSType i ≠ "selinux") infos →
  getSELinux cfg = Ok (selinux_mode "Disabled (no mountpoint)").
Proof.
  intros Hm Hi. unfold getSELinux, GetMounts. rewrite Hm. clear Hm.
  replace (filter _ infos) with (@nil Info); [done|]. symmetry.
  induction Hi as [|i infos Hi _ IH]; [done|]. by rewrite filter_cons_False.
Qed.

(** The list of packages is in error exactly when both commands are, and no later command
    runs on the failure of an earlier one. *)
Lemma pkgs_errors b :
  hasAnyTag cfg [TagBottlerocket] = false →
  let r1 := cmd cfg ["rpm"; "-qa"] "system/pkglist.txt" b in
  let r2 := cmd cfg ["deb"; "--list"] "system/pkglist.txt" r1.1 in
  (pkgs cfg b).2 = match r1.2, r2.2 with [], _ | _, [] => [] | e1, e2 => e1 ++ e2 end ∧
  (pkgs cfg b).1 = r2.1.
Proof.
  intros Ht r1 r2. unfold pkgs. rewrite Ht. unfold mbind, task_bind. fold r1.
  destruct r1 as [b1 e1] eqn:E1. subst r2. simpl.
  destruct (cmd _ _ _ b1) as [b2 e2]. by destruct e1, e2.
Qed.

(** A file of a process that cannot be read is not reported: the collector fails only
    when the listing or the file of the bundle does. *)
Lemma userProcStat_silent names b :
  Glob (host cfg "/proc/[0-9]*/stat") = Ok names →
  Forall (λ n, ∃ e, node_at n = Absent e) names →
  userProcStat cfg b = WriteOutput cfg "system/allprocstat.txt" EmptyString b.
Proof.
  intros Hg Hn. unfold userProcStat. rewrite Hg. do 2 f_equal.
  clear Hg. induction Hn as [|n names [e He] _ IH]; [done|]. simpl. by rewrite He.
Qed.

(** The source of the instance's id is not below the root of the host. *)
Lemma Instance_ignores_root root b :
  Instance_Collect cfg b = Instance_Collect (mkConfig root (Destination cfg) (Tags cfg) (CommandTimeout cfg)) b.
Proof. done. Qed.
End Facts.
