(* ===== verification/Web.v ===== *)
(** * Web: the URLs the agent accepts and its HTTP requests ([pkg/util/validation/url.go],
    [pkg/util/net/http.go]).

    Parsing a URL and the IDNA check of its host are [net/url] and [x/net/idna]; a request
    is what the client answers. *)

From S2P Require Import Prelude GoStrings.

Record URL := mkURL { Scheme : string; UrlHost : string; UrlPath : string; RawQuery : string }.

(** [ToASCII] gives an error or none. *)
Class UrlLib := { Parse : string → result string URL; ToASCII : string → option string }.

Section Url.
Context `{UrlLib}.

Definition ParseURL (input : string) : result string URL :=
  match Parse input with
  | Err err => Err (prefixed ("invalid URL " +:+ input) err)
  | Ok parsedUrl =>
      match ToASCII (UrlHost parsedUrl) with
      | Some err => Err (prefixed ("invalid hostname " +:+ UrlHost parsedUrl) err)
      | None => Ok parsedUrl
      end
  end.

Definition ParseAPIServerURL (serverURL : string) : result string URL :=
  parsedUrl <-? ParseURL serverURL;;
  if negb (String.eqb (Scheme parsedUrl) "https") then Err "API server URL must use HTTPS scheme"
  else Ok parsedUrl.

Definition ParseProviderID (providerID : string) : result string string :=
  parsedUrl <-? ParseURL providerID;;
  if negb (String.eqb (Scheme parsedUrl) "aws") || negb (HasPrefix providerID "aws:///")
  then Err "invalid AWS provider ID format"
  else match Split (UrlPath parsedUrl) (byte_of 47) with
       | [_; _; instanceID] =>
           if negb (HasPrefix instanceID "i-") then Err "invalid instance ID format" else Ok instanceID
       | _ => Err "invalid AWS provider ID path format"
       end.

(** An instance is taken from an identifier exactly when it parses as an [aws] URL with an
    empty host whose path is a zone and the instance. *)
Lemma ParseProviderID_ok providerID i :
  ParseProviderID providerID = Ok i ↔
  ∃ u root zone, Parse providerID = Ok u ∧ ToASCII (UrlHost u) = None ∧ Scheme u = "aws" ∧
    HasPrefix providerID "aws:///" = true ∧ Split (UrlPath u) (byte_of 47) = [root; zone; i] ∧
    HasPrefix i "i-" = true.
Proof.
  unfold ParseProviderID, ParseURL. split.
  - intros (u & E1 & E2)%rbind_ok. destruct (Parse providerID) as [u'|]; [|done].
    destruct (ToASCII _) eqn:Ha; simplify_eq.
    destruct (String.eqb_spec (Scheme u) "aws") as [Hs|]; [|done].
    destruct (HasPrefix providerID _) eqn:Hp; [|done]. cbn [negb orb] in E2.
    destruct (Split _ _) as [|r [|z [|i' [|]]]] eqn:Hl; try done.
    destruct (HasPrefix i' "i-") eqn:Hi; [|done]. cbn [negb orb] in E2. simplify_eq. by exists u, r, z.
  - intros (u & r & z & -> & Ha & Hs & Hp & Hl & Hi). rewrite Ha. cbn [rbind].
    by rewrite Hs, Hp, Hl, Hi.
Qed.

(** Only [https] servers are asked. *)
Lemma ParseAPIServerURL_https s u : ParseAPIServerURL s = Ok u → Scheme u = "https".
Proof.
  unfold ParseAPIServerURL. intros (u' & _ & E)%rbind_ok.
  destruct (String.eqb_spec (Scheme u') "https"); simplify_eq/=; done.
Qed.
End Url.

(** ** http.go *)

(** A body is read to its end or to an error. *)
Abbreviation body := (result string string).

Definition StatusOK : Z := 200.

(** [res] is what [client.Do] answers: an error, or a status and a body. *)
Definition DoRequest (res : result string (Z * body)) : result string body :=
  match res with
  | Err e => Err e
  | Ok (StatusCode, b) =>
      if negb (StatusCode =? StatusOK) then
        match b with
        | Err e => Err (prefixed "failed to read body of response due to" e)
        | Ok text => Err (prefixed "request failed, response body" (Quote text))
        end
      else Ok b
  end.

Lemma DoRequest_ok res b : DoRequest res = Ok b ↔ res = Ok (StatusOK, b).
Proof.
  unfold DoRequest. destruct res as [[s b']|]; [|naive_solver].
  destruct (Z.eqb_spec s StatusOK) as [->|]; simpl; [naive_solver|].
  destruct b'; naive_solver.
Qed.
