(* ===== verification/NetCollectors.v ===== *)
(** * NetCollectors: the collectors of the network and of the throttles
    ([pkg/log_collector/collect]: ipamd.go, iptables.go, nftables.go, networking.go,
    networking_cli.go, throttles.go; [GetNetworkInterfaces] of [pkg/util/networkutils]). *)

From stdpp Require Import sorting.
From S2P Require Import Prelude GoStrings Paths NodeDiag ExecPath Top Accessor HostCollectors Osext Web.

(** A cluster of a kubeconfig: its server, and its authority. *)
Record KubeCluster := mkKubeCluster { Server : string; authority : Cluster }.

Record NetworkInterface := mkInterface { IfName : string; LinkFile : string }.

(** [clientcmd.LoadFromFile], whose clusters come in the order Go ranges over them; the
    request to a URL with an authority, which may not be built; the JSON of [networkctl];
    links, and the paths [filepath.Walk] visits below a directory; the environment. *)
Class NetServices := {
  url_lib : UrlLib;
  LoadFromFile : string → result string (list KubeCluster);
  url_string : URL → string;
  NewRequest : string → option string;
  Do : string → string → result string (Z * body);
  unmarshal_interfaces : string → result string (list NetworkInterface);
  ReadLink : string → option string;
  Walk : string → list string;
  Environ : list string;
  Getenv : string → string
}.
#[export] Existing Instance url_lib.

(** [strings.Index]: what comes after the first [sub]. *)
Fixpoint after (s sub : string) : option string :=
  match CutPrefix s sub with
  | Some rest => Some rest
  | None => match s with EmptyString => None | String _ s' => after s' sub end
  end.

(** [%q] of a list of strings. *)
Definition quote_list (l : list string) : string := "[" +:+ Join (Quote <$> l) " " +:+ "]".

Section Collectors.
Context `{Host} `{Services} `{NetServices} (cfg : Config).

(** ** ipamd.go *)

Definition introspectionDataPoints : list string :=
  ["enis"; "pods"; "networkutils-env-settings"; "ipamd-env-settings"; "eni-configs"].

(** The hosts of the code end in a slash, so that joining is appending. *)
Definition collectEndpoint (host entry : string) : result string string :=
  match httpGet (host +:+ entry) with
  | Err e | Ok (Err e) => Err e
  | Ok (Ok body) => Ok body
  end.

Definition endpoint_task (host entry filename : string) : task error :=
  match collectEndpoint host entry with
  | Err e => fail e
  | Ok resp => WriteOutput cfg filename resp
  end.

Definition IPAMD_Collect : task error :=
  if hasAnyTag cfg [TagHybrid] then mret []
  else
    let ipamdCheckpointPath := if hasAnyTag cfg [TagBottlerocket] then "/run/aws-node/ipam.json"
                               else "/var/run/aws-node/ipam.json" in
    join [
      join (map (λ entry, endpoint_task "http://localhost:61679/v1/" entry ("ipamd/" +:+ entry +:+ ".json"))
              introspectionDataPoints);
      endpoint_task "http://localhost:61678/" "metrics" "ipamd/metrics.json";
      CopyFile cfg (host cfg ipamdCheckpointPath) "ipamd/ipam.json"].

(** ** iptables.go *)

Definition is_rule (text : string) : bool :=
  let line := TrimSpace text in
  negb ((String.length line =? 0)%nat || HasPrefix line "Chain" || HasPrefix line "num" || HasPrefix line "pkts").

Definition ruleCount (output : string) : Z :=
  Z.of_nat (length (filter (λ l, is_rule l = true) (ScanLines output))).

Definition collectRules (args : list string) (filename : string) : task error :=
  r ← CombinedOutput args;
  match r with
  | (_, Some err) => fail ("error running " +:+ quote_list args +:+ ", " +:+ run_text err)
  | (output, None) =>
      WriteOutput cfg filename
        (output +:+ "=======" +:+ nl +:+ "Total Number of Rules: " +:+ Itoa (ruleCount output) +:+ nl)
  end.

Definition list_rules (binary : string) (table : list string) (filename : string) : task error :=
  collectRules ([binary; "--wait"; "1"; "--numeric"; "--verbose"; "--list"] ++ table) filename.

Definition IPTables_Collect : task error :=
  join [
    join (map (λ tableType,
      join [list_rules "iptables" ["--table"; tableType] ("networking/iptables-" +:+ tableType +:+ ".txt");
            list_rules "ip6tables" ["--table"; tableType] ("networking/ip6tables-" +:+ tableType +:+ ".txt")])
      ["mangle"; "filter"; "nat"]);
    list_rules "iptables" [] "networking/iptables.txt";
    list_rules "ip6tables" [] "networking/ip6tables.txt";
    cmd cfg ["iptables-save"] "networking/iptables-save.txt";
    cmd cfg ["ip6tables-save"] "networking/ip6tables-save.txt"].

(** ** nftables.go *)

Record nftable := mkNftable { family : string; name : string }.

Definition parse_table (text : string) : option nftable :=
  match Fields (TrimSpace text) with
  | first :: family :: name :: _ =>
      if String.eqb first "table" then Some (mkNftable family name) else None
  | _ => None
  end.

Definition listTables : task (result string (list nftable)) :=
  r ← CombinedOutput ["nft"; "list"; "tables"];
  match r with
  | (_, Some err) => mret (Err (prefixed "error running 'nft list tables'" (run_text err)))
  | (output, None) => mret (Ok (omap parse_table (ScanLines output)))
  end.

Definition isNftAvailable : task bool :=
  r ← CombinedOutput ["nft"; "--version"];
  mret (match r.2 with None => true | Some _ => false end).

Definition collectNftRules (args : list string) (filename : string) : task error :=
  r ← CombinedOutput args;
  match r with
  | (_, Some err) => fail ("error running " +:+ quote_list args +:+ ", " +:+ run_text err)
  | (output, None) => WriteOutput cfg filename output
  end.

Definition table_task (t : nftable) : task error :=
  collectNftRules ["nft"; "list"; "table"; family t; name t]
    ("networking/nftables-" +:+ family t +:+ "-" +:+ name t +:+ ".txt").

Definition NFTables_Collect : task error :=
  available ← isNftAvailable;
  if negb available then mret []
  else
    tables ← listTables;
    match tables with
    | Err err => fail (prefixed "error listing nftables" err)
    | Ok tables => join (map table_task tables)
    end.

(** ** networking.go *)

Definition multicard : task error :=
  journal cfg "configure-multicard-interfaces" "networking/configure-multicard-interfaces.txt".

Definition resolv : task error := CopyFile cfg (host cfg "/etc/resolv.conf") "networking/resolv.conf".

Definition ping : task error :=
  unless_bottlerocket cfg (join [
    cmd cfg ["ping"; "-A"; "-c"; "10"; "www.amazon.com"] "networking/ping_amazon.com.txt";
    cmd cfg ["ping"; "-A"; "-c"; "10"; "public.ecr.aws"] "networking/ping_public.ecr.aws.txt"]).

Definition conntrack : task error :=
  let opts := Z.lor CommandOptionsAppend CommandOptionsNoStderr in
  join [
    appendOutput cfg "networking/conntrack.txt" ("*** Output of conntrack -S ***" +:+ nl);
    CommandOutput cfg ["conntrack"; "-S"] "networking/conntrack.txt" opts;
    appendOutput cfg "networking/conntrack.txt" ("*** Output of conntrack -L ***" +:+ nl);
    CommandOutput cfg ["conntrack"; "-L"] "networking/conntrack.txt" opts;
    appendOutput cfg "networking/conntrack6.txt" ("*** Output of conntrack -L -f ipv6 ***" +:+ nl);
    CommandOutput cfg ["conntrack"; "-L"; "-f"; "ipv6"] "networking/conntrack6.txt" opts].

Definition interface_task (netInterface : string) : task error :=
  r ← CombinedOutput ["ethtool"; "-S"; netInterface];
  let report output :=
    join [appendOutput cfg "networking/ethtool.txt" ("Interface " +:+ netInterface +:+ nl);
          appendOutput cfg "networking/ethtool.txt" output;
          appendOutput cfg "networking/ethtool.txt" nl] in
  match r with
  | (EmptyString, Some err) => fail (run_text err)
  | (output, _) => report output
  end.

Definition interfaces : task error :=
  match Interfaces with
  | Err e => fail e
  | Ok netInterfaces => join (map interface_task netInterfaces)
  end.

Definition ipInfo : task error :=
  join [
    unless_bottlerocket cfg (cmd cfg ["ifconfig"] "networking/ifconfig.txt");
    cmd cfg ["ip"; "rule"; "show"] "networking/iprule.txt";
    cmd cfg ["ip"; "-6"; "rule"; "show"] "networking/ip6rule.txt";
    cmd cfg ["ip"; "route"; "show"; "table"; "all"] "networking/iproute.txt";
    cmd cfg ["ip"; "-6"; "route"; "show"; "table"; "all"] "networking/ip6route.txt"].

(** The authority of a cluster: its embedded data, or the file that holds it. *)
Definition cluster_ca (cluster : Cluster) : result string string :=
  if (0 <? String.length (CertificateAuthorityData cluster))%nat then Ok (CertificateAuthorityData cluster)
  else match ResolveClusterCACert stat (Root cfg) (Some cluster) with
       | Err e => Err e
       | Ok caCertPath =>
           match ReadFile caCertPath with
           | Err e => Err (prefixed "failed to read caCert" (fs_text e))
           | Ok caBytes => Ok caBytes
           end
       end.

(** The request a cluster is asked with: its URL as text, and its authority. *)
Definition livez_request (cluster : KubeCluster) : result string (string * string) :=
  match ParseAPIServerURL (Server cluster) with
  | Err e => Err (prefixed "failed to parse server url" e)
  | Ok u =>
      let text := url_string (mkURL (Scheme u) (UrlHost u) "/livez" "verbose") in
      match NewRequest text with
      | Some e => Err (prefixed "failed to build request" e)
      | None => caData <-? cluster_ca (authority cluster);; Ok (text, caData)
      end
  end.

(** The errors so far, [merr], are lost when a cluster has no request. *)
Fixpoint ask_clusters (clusters : list KubeCluster) (merr : error) : task error :=
  match clusters with
  | [] => mret merr
  | cluster :: rest =>
      match livez_request cluster with
      | Err e => fail e
      | Ok (text, caData) =>
          es ← appendOutput cfg "networking/get_api_server.txt" ("sending GET request to " +:+ text +:+ nl);
          es' ← match DoRequest (Do text caData) with
                | Err e => fail (prefixed "failed to make api server request" e)
                | Ok (Err e) => fail (prefixed "failed to read api server response" e)
                | Ok (Ok data) => appendOutput cfg "networking/get_api_server.txt" data
                end;
          ask_clusters rest (merr ++ es ++ es')
      end
  end.

Definition apiServerConnectivity : task error :=
  let kubeconfigPath := ResolveKubeconfig stat kubeconfigEnv (Root cfg) in
  if (String.length kubeconfigPath =? 0)%nat then fail "could not find kubeconfig"
  else match LoadFromFile kubeconfigPath with
       | Err e => fail (prefixed "failed to build kubernetes config from kubeconfig" e)
       | Ok clusters => ask_clusters clusters []
       end.

(** [GetNetworkInterfaces]: the environment of the command lacks the address of the bus
    when the agent has one. *)
Definition env_without_dbus : option (list string) :=
  if negb (String.eqb (Getenv "DBUS_SYSTEM_BUS_ADDRESS") EmptyString)
  then Some (filter (λ e, HasPrefix e "DBUS_SYSTEM_BUS_ADDRESS=" = false) Environ) else None.

Definition GetNetworkInterfaces : task (result string (list NetworkInterface)) :=
  r ← CombinedOutputEnv env_without_dbus ["networkctl"; "--json=short"];
  mret match r with
       | (_, Some err) => Err (prefixed "networkctl command failed" (run_text err))
       | (output, None) =>
           match unmarshal_interfaces output with
           | Err e => Err (prefixed "failed to parse networkctl JSON" e)
           | Ok l => Ok l
           end
       end.

(** The link files in the order of the interfaces, each once, the empty one left out. *)
Fixpoint link_files (seen : list string) (ifaces : list NetworkInterface) : list string :=
  match ifaces with
  | [] => []
  | i :: rest =>
      if String.eqb (LinkFile i) EmptyString || bool_decide (LinkFile i ∈ seen) then link_files seen rest
      else LinkFile i :: link_files (LinkFile i :: seen) rest
  end.

Definition link_task (linkFile : string) : task error :=
  let safeFileName := ReplaceAll (Base linkFile) "/" "_" in
  CommandOutput cfg ["systemd-analyze"; "cat-config"; linkFile]
    (PathJoin ["networking/systemd-network"; safeFileName]) CommandOptionsIgnoreFailure.

Definition systemdNetworkConfig : task error :=
  r ← GetNetworkInterfaces;
  match r with
  | Err err =>
      appendOutput cfg "networking/CheckMacAddressPolicy.log"
        ("Failed to get network interfaces: " +:+ err +:+ nl)
  | Ok ifaces =>
      match MkdirAll (PathJoin [Destination cfg; "networking/systemd-network"]) with
      | Some e => fail e
      | None => join (map link_task (link_files [] ifaces))
      end
  end.

(** ** networking_cli.go *)

Definition naCLIDefault : string := "aws-eks-na-cli".
Definition naCLIv6Named : string := "aws-eks-na-cli-v6".
Definition ebpfDataFile : string := "networking/ebpf-data.txt".
Definition ebpfMapsDataFile : string := "networking/ebpf-maps-data.txt".
Definition cliSelectionLinePrefix : string := "*** network-policy CLI selection:".
Definition mapIDMarker : string := "Map ID:".
Definition cliExecFailedLinePrefix : string := "*** failed to execute".
Definition networkPolicyCLIDirs : list string := ["/usr/bin"; "/opt/cni/bin"].
Definition naCLIPublishedDir : string := "/run/aws-network-policy-agent".

Definition findNetworkPolicyCLI (n : string) : option string :=
  head (filter (λ p, is_Some (stat p)) (map (λ dir, PathJoin [Root cfg; dir; n]) networkPolicyCLIDirs)).

Definition findPublishedNetworkPolicyCLI : option string :=
  let link := PathJoin [Root cfg; naCLIPublishedDir; naCLIDefault] in
  match ReadLink link with
  | None => None
  | Some target =>
      let resolved := if is_rooted target then PathJoin [Root cfg; target] else PathJoin [Dir link; target] in
      match stat resolved with None => None | Some _ => Some link end
  end.

(** The binary to run, or none, and the reason; an absent path is [None]. *)
Definition chooseNetworkPolicyCLI (published defaultCLI : option string) (haveV6Named : bool)
    : option string * string :=
  match published, defaultCLI, haveV6Named with
  | Some p, _, _ => (Some p, "NPA-published family-correct symlink present")
  | None, None, false =>
      (None, "neither " +:+ naCLIDefault +:+ " nor " +:+ naCLIv6Named +:+ " found in [" +:+
             Join networkPolicyCLIDirs " " +:+ "]; network policy agent not installed")
  | None, Some d, false =>
      (Some d, "single binary (aws-eks-na-cli) present — installed family-correct by the CNI daemonset")
  | None, _, true => (None, "family unconfirmed (no NPA-published symlink), skipping map dumps")
  end.

(** The identifiers of the maps, each once, sorted. *)
Definition map_id (line : string) : option string :=
  rest ← after line mapIDMarker;
  let id := TrimSpace rest in
  if String.eqb id EmptyString then None else Some id.

Definition uniqueMapIDs (loaded : string) : list string :=
  merge_sort String.le (remove_dups (omap map_id (Split loaded (byte_of 10)))).

(** An error of writing the file ends the collector with [wrap]ped text. *)
Definition or_wrap (wrap : string) (m : task error) (k : task error) : task error :=
  es ← m;
  match es with [] => k | _ => fail (prefixed wrap (Join es nl)) end.

Definition map_task (cliPath mapID : string) : task error :=
  join [
    appendOutput cfg ebpfMapsDataFile ("*** EBPF map data for " +:+ mapIDMarker +:+ " " +:+ mapID +:+ " ***" +:+ nl);
    CommandOutput cfg [cliPath; "ebpf"; "dump-maps"; mapID] ebpfMapsDataFile
      (Z.lor (Z.lor CommandOptionsAppend CommandOptionsNoStderr) CommandOptionsIgnoreFailure)].

Definition networkPolicyEbpfInfo : task error :=
  let haveV6Named := match findNetworkPolicyCLI naCLIv6Named with Some _ => true | None => false end in
  let '(cliPath, reason) :=
    chooseNetworkPolicyCLI findPublishedNetworkPolicyCLI (findNetworkPolicyCLI naCLIDefault) haveV6Named in
  or_wrap ("failed to append CLI selection to " +:+ ebpfDataFile)
    (appendOutput cfg ebpfDataFile (cliSelectionLinePrefix +:+ " " +:+ reason +:+ " ***" +:+ nl))
    match cliPath with
    | None => mret []
    | Some cliPath =>
        or_wrap ("failed to append output to " +:+ ebpfDataFile)
          (appendOutput cfg ebpfDataFile ("*** EBPF loaded data ***" +:+ nl))
          (r ← CombinedOutput [cliPath; "ebpf"; "loaded-ebpfdata"];
           match r with
           | (_, Some err) =>
               appendOutput cfg ebpfDataFile
                 (cliExecFailedLinePrefix +:+ " " +:+ cliPath +:+ " ebpf loaded-ebpfdata: " +:+ run_text err +:+ " ***" +:+ nl)
           | (loaded, None) =>
               or_wrap ("failed to append output to " +:+ ebpfDataFile) (appendOutput cfg ebpfDataFile loaded)
                 (join (map (map_task cliPath) (uniqueMapIDs loaded)))
           end)
    end.

Definition Networking_Collect : task error :=
  join [multicard; resolv; ping; conntrack; interfaces; ipInfo; apiServerConnectivity;
        systemdNetworkConfig; networkPolicyEbpfInfo].

(** ** throttles.go *)

(** A line of a [cpu.stat] file: an error, or the processes of a cgroup it says was
    throttled; [procsFile] is its list of processes. *)
Definition stat_line (procsFile : result fs_error string) (line : string) : error * list string :=
  if (String.length line =? 0)%nat then ([], [])
  else match Split line (byte_of 32) with
       | [key; value] =>
           if String.eqb key "nr_throttled" then
             match parse_number "Atoi" value with
             | Err e => ([e], [])
             | Ok count =>
                 if 0 <? count then
                   match procsFile with
                   | Err e => ([fs_text e], [])
                   | Ok pids => ([], Split pids (byte_of 10))
                   end
                 else ([], [])
             end
           else ([], [])
       | _ => (["incorrect cpu.stat entry " +:+ Quote line], [])
       end.

(** A path of the walk. *)
Definition visit (path : string) : error * list string :=
  if negb (String.eqb (Base path) "cpu.stat") then ([], [])
  else match ReadFile path with
       | Err e => ([fs_text e], [])
       | Ok text =>
           let found := map (stat_line (ReadFile (ReplaceAll path "cpu.stat" "cgroup.procs"))) (Split text (byte_of 10)) in
           (mjoin found.*1, mjoin found.*2)
       end.

(** The lines of [ps] that start with one of the processes. *)
Definition throttled_lines (psOut : string) (throttledPids : list string) : string :=
  Concat (map (λ psLine, psLine +:+ nl)
            (filter (λ psLine, existsb (HasPrefix psLine) throttledPids = true) (Split psOut (byte_of 10)))).

Definition cpuThrottles : task error :=
  let visits := map visit (Walk (host cfg "/sys/fs/cgroup/")) in
  let merr := mjoin visits.*1 in
  let throttledPids := mjoin visits.*2 in
  r ← CombinedOutput ["ps"; "ax"];
  match r with
  | (_, Some err) => mret (merr ++ [run_text err])
  | (psOut, None) =>
      let buf := throttled_lines psOut throttledPids in
      es ← WriteOutput cfg "system/cpu_throttling.txt"
             (if String.eqb buf EmptyString then "No CPU Throttling Found" else buf);
      mret (merr ++ es)
  end.

Record ioEntry := mkIoEntry { id : string; ioName : string; metric : Z }.

(** A file of [/proc]: nothing when the process has gone, an error, or an entry when the
    delay is not written as 0. *)
Definition io_entry (proc : string) : error * option ioEntry :=
  match ReadFile proc with
  | Err (NotExist _) => ([], None)
  | Err e => ([fs_text e], None)
  | Ok data =>
      let parts := Split data (byte_of 32) in
      match parts !! 0%nat, parts !! 1%nat, parts !! 41%nat with
      | Some id, Some n, Some delay =>
          if String.eqb delay "0" then ([], None)
          else match parse_number "Atoi" delay with
               | Err e => (["incorrect format of value " +:+ Quote delay +:+ ": " +:+ e], None)
               | Ok m => ([], Some (mkIoEntry id n m))
               end
      | _, _, _ => (["incorrect number of arguments in file"], None)
      end
  end.

(** The largest delay first; [slices.SortFunc] may put equal ones in any order. *)
Definition metric_ge (a b : ioEntry) : Prop := metric b ≤ metric a.
#[export] Instance metric_ge_dec a b : Decision (metric_ge a b) := ltac:(unfold metric_ge; apply _).

Definition io_text (entries : list ioEntry) : string :=
  "PID Name Block IO Delay (centisconds)" +:+
  Concat (map (λ e, nl +:+ id e +:+ " " +:+ ioName e +:+ " " +:+ Itoa (metric e)) entries).

Definition ioThrottles : task error :=
  match Glob (host cfg "/proc/[0-9]*/stat") with
  | Err e => fail e
  | Ok procs =>
      let read := map io_entry procs in
      es ← WriteOutput cfg "system/io_throttling.txt" (io_text (merge_sort metric_ge (omap snd read)));
      mret (mjoin read.*1 ++ es)
  end.

Definition Throttles_Collect : task error := join [ioThrottles; cpuThrottles].
End Collectors.

(** ** The network policy agent *)

(** A binary is chosen when the agent has published it, or when it is the only one
    installed; a name of the other family alone, or beside the first, chooses nothing. *)
Lemma chosen_cli_confirmed published defaultCLI v6 p :
  (chooseNetworkPolicyCLI published defaultCLI v6).1 = Some p ↔
  published = Some p ∨ (published = None ∧ defaultCLI = Some p ∧ v6 = false).
Proof. destruct published, defaultCLI, v6; simpl; naive_solver. Qed.

Section MapIDs.

Lemma after_app a sub b : after (a +:+ sub +:+ b) sub ≠ None.
Proof.
  induction a as [|c a IH]; simpl.
  - destruct (CutPrefix (sub +:+ b) sub) eqn:E.
    + destruct (sub +:+ b); simpl; by rewrite E.
    + unfold CutPrefix in E. by rewrite HasPrefix_app in E.
  - by destruct (CutPrefix _ sub).
Qed.

(** What follows the first marker. *)
Lemma after_spec s sub rest : after s sub = Some rest → ∃ a, s = a +:+ sub +:+ rest.
Proof.
  induction s as [|c s IH]; simpl; destruct (CutPrefix _ sub) eqn:E; intros; simplify_eq.
  - apply CutPrefix_spec in E. by exists EmptyString.
  - apply CutPrefix_spec in E. by exists EmptyString.
  - destruct IH as [a ->]; [done|]. by exists (String c a).
Qed.

(** The dumps come in an order that depends on the identifiers only, one for each. *)
Lemma uniqueMapIDs_spec loaded :
  StronglySorted String.le (uniqueMapIDs loaded) ∧ NoDup (uniqueMapIDs loaded) ∧
  ∀ id, id ∈ uniqueMapIDs loaded ↔ ∃ line, line ∈ Split loaded (byte_of 10) ∧ map_id line = Some id.
Proof.
  unfold uniqueMapIDs. split_and!.
  - apply (StronglySorted_merge_sort _).
  - rewrite merge_sort_Permutation. apply NoDup_remove_dups.
  - intros id. rewrite merge_sort_Permutation, elem_of_remove_dups. apply list_elem_of_omap.
Qed.
End MapIDs.

(** The same identifiers give the same sequence of dumps. *)
Lemma uniqueMapIDs_deterministic a b :
  (∀ id, id ∈ omap map_id (Split a (byte_of 10)) ↔ id ∈ omap map_id (Split b (byte_of 10))) →
  uniqueMapIDs a = uniqueMapIDs b.
Proof.
  intros Hab. unfold uniqueMapIDs. apply (StronglySorted_unique String.le); [apply (StronglySorted_merge_sort _)..|].
  apply NoDup_Permutation.
  - rewrite merge_sort_Permutation. apply NoDup_remove_dups.
  - rewrite merge_sort_Permutation. apply NoDup_remove_dups.
  - intros id. by rewrite !merge_sort_Permutation, !elem_of_remove_dups.
Qed.

(** ** The throttles *)

Lemma Split_newline_end p : EmptyString ∈ Split (p +:+ nl) (byte_of 10).
Proof. unfold nl. rewrite Split_app. apply elem_of_app. right. by left. Qed.

Lemma Concat_lines s : Concat (map (λ l, l +:+ nl) (Split s (byte_of 10))) = s +:+ nl.
Proof.
  induction s as [|c s IH]; [done|]. simpl Split.
  destruct (Ascii.eqb c (byte_of 10)) eqn:Hc.
  - apply Ascii.eqb_eq in Hc as ->. simpl in *. by rewrite IH.
  - destruct (Split s (byte_of 10)) as [|e es] eqn:Hs; [by apply Split_not_nil in Hs|].
    simpl in *. by rewrite IH.
Qed.

(** Every line starts with the empty process. *)
Lemma throttled_lines_all psOut pids : EmptyString ∈ pids → throttled_lines psOut pids = psOut +:+ nl.
Proof.
  intros Hp. unfold throttled_lines. rewrite <- Concat_lines. do 2 f_equal.
  induction (Split psOut (byte_of 10)) as [|l ls IH]; [done|].
  rewrite filter_cons_True; [by f_equal|]. apply existsb_exists. exists EmptyString.
  split; [by apply list_elem_of_In|]. by destruct l.
Qed.

Section CpuThrottles.
Context `{Host} `{Services} `{NetServices} (cfg : Config).

(** A cgroup that the walk finds throttled, with a list of processes that ends, as the
    kernel writes it, in a newline, or that is empty. *)
Definition throttled_cgroup (path : string) : Prop :=
  Base path = "cpu.stat" ∧ ∃ text line value count pids,
    ReadFile path = Ok text ∧ line ∈ Split text (byte_of 10) ∧
    line ≠ EmptyString ∧ Split line (byte_of 32) = ["nr_throttled"; value] ∧
    parse_number "Atoi" value = Ok count ∧ 0 < count ∧
    ReadFile (ReplaceAll path "cpu.stat" "cgroup.procs") = Ok pids ∧
    (pids = EmptyString ∨ ∃ p, pids = p +:+ nl).

Lemma throttled_cgroup_empty_pid path : throttled_cgroup path → EmptyString ∈ (visit path).2.
Proof.
  intros (Hb & text & line & value & count & pids & Ht & Hl & Hne & Hs & Hv & Hc & Hp & Hpids).
  unfold visit. rewrite Hb, Ht. cbn [String.eqb negb]. simpl.
  apply list_elem_of_join. exists (Split pids (byte_of 10)). split.
  - destruct Hpids as [->|[p ->]]; [by left|apply Split_newline_end].
  - apply list_elem_of_fmap. exists (stat_line (Ok pids) line). split.
    + unfold stat_line. destruct line; [done|]. rewrite Hs, Hv.
      by replace (0 <? count) with true by (symmetry; by apply Z.ltb_lt).
    + rewrite Hp. apply list_elem_of_fmap. by exists line.
Qed.
End CpuThrottles.

(** One throttled cgroup makes the report list every process: the list of its
    processes ends in a newline, so that it has an empty entry, with which every line of
    [ps] starts; the report is the whole output of [ps], header included. *)
Theorem throttled_reports_all `{Host} `{Services} `{NetServices} cfg path b b' psOut :
  path ∈ Walk (host cfg "/sys/fs/cgroup/") → throttled_cgroup path →
  run_command None true ["ps"; "ax"] b = (b', (psOut, None)) →
  (cpuThrottles cfg b).1 = (WriteOutput cfg "system/cpu_throttling.txt" (psOut +:+ nl) b').1.
Proof.
  intros Hw Hp%throttled_cgroup_empty_pid Hr. unfold cpuThrottles, CombinedOutput, CombinedOutputEnv.
  unfold mbind, task_bind. rewrite Hr. rewrite throttled_lines_all.
  - destruct (String.eqb_spec (psOut +:+ nl) EmptyString) as [E|_]; [by destruct psOut|].
    by destruct (WriteOutput _ _ _ _).
  - apply list_elem_of_join. exists (visit path).2. split; [done|].
    apply list_elem_of_fmap. exists (visit path). split; [done|]. by apply list_elem_of_fmap_2.
Qed.

(** ** Examples *)

Definition ex_readings : readings :=
  mkReadings (Err "no uptime") (Err "no load") EmptyString (Err EmptyString) (Err EmptyString)
    (Err EmptyString) (Err EmptyString).

Definition ex_services : Services :=
  {| imds := λ p, Ok (Ok ("value of " +:+ p)); httpGet := λ _, Err "connection refused";
     Interfaces := Ok ["lo"]; topReadings := ex_readings; kubeconfigEnv := EmptyString; map_order := λ l, l |}.

Definition ex_net (walked : list string) : NetServices :=
  {| url_lib := {| Parse := λ _, Err "no URL"; ToASCII := λ _, None |};
     LoadFromFile := λ _, Ok []; url_string := λ u, UrlPath u; NewRequest := λ _, None;
     Do := λ _ _, Err "refused"; unmarshal_interfaces := λ _, Ok []; ReadLink := λ _, None;
     Walk := λ _, walked; Environ := []; Getenv := λ _, EmptyString |}.

(** A host whose commands all print a line and which has one file tree. *)
Definition ex_line_host : Host := ex_host (λ _, ex_tree) (λ args, (Join args " " +:+ nl, None)).

(** One throttled cgroup with the process 17, and a [ps] that also lists others. *)
Definition ex_cgroup : string := "/host/sys/fs/cgroup/pod/cpu.stat".

Definition ex_throttled_host : Host :=
  ex_host (λ p, if String.eqb p ex_cgroup then File (Ok (["nr_periods 9" +:+ nl; "nr_throttled 3" +:+ nl], None))
                else if String.eqb p "/host/sys/fs/cgroup/pod/cgroup.procs" then File (Ok (["17" +:+ nl], None))
                else Absent (NotExist "no such file"))
    (λ _, ("  PID COMMAND" +:+ nl +:+ "    1 init" +:+ nl +:+ "   17 app", None)).

Lemma throttled_reports_all_witness :
  let H := ex_throttled_host in let H0 := ex_services in let H1 := ex_net [ex_cgroup] in
  contents (cpuThrottles ex_cfg (alive ∅)).1 =
  {["/tmp/logs/system/cpu_throttling.txt" :=
            "  PID COMMAND" +:+ nl +:+ "    1 init" +:+ nl +:+ "   17 app" +:+ nl]}.
Proof.
  intros H H0 H1.
  rewrite (throttled_reports_all ex_cfg ex_cgroup (alive ∅) (mkBundle ∅ None [(None, ["ps"; "ax"])])
    ("  PID COMMAND" +:+ nl +:+ "    1 init" +:+ nl +:+ "   17 app")).
  - reflexivity.
  - left.
  - split; [reflexivity|]. exists ("nr_periods 9" +:+ nl +:+ "nr_throttled 3" +:+ nl), "nr_throttled 3", "3", 3, ("17" +:+ nl).
    split; [reflexivity|]. split; [right; left|]. split; [discriminate|]. split; [reflexivity|].
    split; [reflexivity|]. split; [lia|]. split; [reflexivity|]. right. by exists "17".
  - reflexivity.
Defined.

(** The delay of a process whose name has a space is read from the column before. *)
Example io_space_in_name :
  let stat comm := "7 (" +:+ comm +:+ ") S" +:+ Concat (replicate 37 " 1") +:+ " 0 5 0" in
  let H := ex_host (λ p, File (Ok ([stat p], None))) (λ _, (EmptyString, None)) in
  (io_entry "app", io_entry "tmux: server") = (([], Some (mkIoEntry "7" "(app)" 5)), ([], None)).
Proof. vm_compute. reflexivity. Qed.

(** The errors of the clusters before one without a request are not returned. *)
Example cluster_errors_lost :
  let H := ex_host (λ _, ex_tree) (λ _, (EmptyString, None)) in let H0 := ex_services in
  let H1 := {| url_lib := {| Parse := λ s, if String.eqb s "bad" then Err "bad" else Ok (mkURL "https" s s EmptyString);
                             ToASCII := λ _, None |};
     LoadFromFile := λ _, Ok []; url_string := λ u, UrlPath u; NewRequest := λ _, None;
     Do := λ _ _, Err "refused"; unmarshal_interfaces := λ _, Ok []; ReadLink := λ _, None;
     Walk := λ _, []; Environ := []; Getenv := λ _, EmptyString |} in
  let c s := mkKubeCluster s (mkCluster "ca" EmptyString) in
  ((ask_clusters ex_cfg [c "a"] [] (alive ∅)).2, (ask_clusters ex_cfg [c "a"; c "bad"] [] (alive ∅)).2) =
  (["failed to make api server request: refused"], ["failed to parse server url: invalid URL bad: bad"]).
Proof. vm_compute. reflexivity. Qed.
