(* ===== verification/HostDocs.v ===== *)
(** * HostDocs: the JSON documents that the networking monitor and the collectors read
    ([monitors/networking/corefile], [monitors/networking/networkutils] and
    [pkg/util/networkutils]).

    Here the bytes of a response or of the output of [networkctl] are decoded as the code
    decodes them, and handed to the handlers of [Networking] and [NetCollectors]. *)

From S2P Require Import Prelude GoStrings GoJson Monitor Reasons Renotify Networking NetCollectors.

(** ** The Corefile agent *)

Definition ReadyzURL : string := "http://localhost:62350/readyz".
Definition probeTimeout : Duration := 3 * Second.

(** [nodeName] and [updatedAt] are decoded, and used nowhere. *)
Definition readyz_fields : list (string * setter readyzResponse) :=
  [("reason", set_string (λ s r, mkReadyz s (rzDetail r) (AppliedSHA r) (FailedSHA r)));
   ("detail", set_string (λ s r, mkReadyz (rzReason r) s (AppliedSHA r) (FailedSHA r)));
   ("appliedSha", set_string (λ s r, mkReadyz (rzReason r) (rzDetail r) s (FailedSHA r)));
   ("failedSha", set_string (λ s r, mkReadyz (rzReason r) (rzDetail r) (AppliedSHA r) s));
   ("nodeName", set_string (λ _ r, r)); ("updatedAt", set_string (λ _ r, r))].

Definition decode_readyz (body : string) : option readyzResponse :=
  v ← parse body; decode_struct readyz_fields v (mkReadyz EmptyString EmptyString EmptyString EmptyString).

(** [io.LimitReader]: what is read of a body. *)
Definition readyzLimit : nat := 4096.

(** The response to the request: its status, and its body or the error of reading it. *)
Definition readyz_answer (resp : result string (Z * result string string)) : Readyz :=
  match resp with
  | Err _ | Ok (_, Err _) => NoAnswer
  | Ok (code, Ok body) => Answer code (decode_readyz (take_bytes readyzLimit body))
  end.

(** A detector is its tracker; [build] is the error of building the request, and [notify]
    that of notifying, [None] when the condition is sent. *)
Definition NewDetector : Tracker notifyKey := New zero_key reNotifyInterval.

Definition HandleState (now : Time) (build : option string) (resp : result string (Z * result string string))
    (notify : option string) (t : Tracker notifyKey) : (list Condition * Tracker notifyKey) * option string :=
  match build with
  | Some e => (([], t), Some (prefixed "build readyz request" e))
  | None =>
      let r := HandleCorefileState now (readyz_answer resp) (bool_decide (notify = None)) t in
      (r, match r.1 with [] => None | _ => notify end)
  end.

(** An error is returned for a condition that could not be sent, and then the next call
    tries again. *)
Lemma HandleState_error now resp e t cs t' err :
  HandleState now None resp (Some e) t = ((cs, t'), err) → (err = Some e ↔ cs ≠ []) ∧ (cs ≠ [] → t' = t).
Proof.
  unfold HandleState. rewrite bool_decide_false by done. set (r := HandleCorefileState _ _ _ _). intros E.
  assert (Ht : r.1 ≠ [] → r.2 = t).
  { unfold r, HandleCorefileState. repeat case_match; done. }
  destruct r as [cs1 t1]. simpl in *. simplify_eq. split; [|done]. by destruct cs.
Qed.

(** A failure whose report does not fit in 4096 bytes is never reported: its JSON is cut. *)
Definition long_report : string :=
  text "{'reason':'CoreDNSCorefileReloadFailed','detail':'" +:+ String.concat EmptyString (repeat "0123456789" 410) +:+ text "'}".

Lemma long_report_silent now notify t :
  is_Some (decode_readyz long_report) ∧ HandleState now None (Ok (503, Ok long_report)) notify t = (([], t), None).
Proof.
  assert (Hd : decode_readyz (take_bytes readyzLimit long_report) = None) by (vm_compute; reflexivity).
  split; [apply (bool_decide_unpack _); vm_compute; exact I|]. unfold HandleState, readyz_answer. by rewrite Hd.
Qed.

(** A report that fits is, with the commits that the response names. *)
Example short_report :
  (map (λ c, (Reason c, Message c)) ∘ fst ∘ fst)
    (HandleState 1 None (Ok (503, Ok (text "{'Reason':'CoreDNSCorefileReloadFailed','detail':'x','other':{'a':[1]}}"))) None NewDetector)
  = [("CoreDNSCorefileReloadFailed", "x")].
Proof. vm_compute. reflexivity. Qed.

(** ** networkctl *)

Definition interface_fields : list (string * setter NetworkInterface) :=
  [("Name", set_string (λ s i, mkInterface s (LinkFile i))); ("LinkFile", set_string (λ s i, mkInterface (IfName i) s))].

(** [NetworkctlOutput] is its interfaces; the text of a syntax error is an argument. *)
Definition NetworkctlOutput : list (string * setter (list NetworkInterface)) :=
  [("Interfaces", set_structs (decode_struct interface_fields) (mkInterface EmptyString EmptyString) (λ l, l) (λ l _, l))].

Definition decode_networkctl (error_text : string → string) (output : string) : result string (list NetworkInterface) :=
  match v ← parse output; decode_struct NetworkctlOutput v [] with
  | Some l => Ok l
  | None => Err (error_text output)
  end.

Example networkctl_ex :
  decode_networkctl (λ e, e) (text "{'Interfaces':[{'Index':1,'Name':'lo','LinkFile':null},{'Name':'eth0','LinkFile':'/x.link'}]}") =
  Ok [mkInterface "lo" EmptyString; mkInterface "eth0" "/x.link"].
Proof. vm_compute. reflexivity. Qed.

(** [GetNetworkInterfaces] of the monitors, which sets the environment of a command, and of
    [pkg/util], which hands it to its commander; [run] is how a command ends in an
    environment. *)
Section Interfaces.
Context (error_text : string → string) (Environ : list string) (Getenv : string → string)
  (run : list string → list string → result string string).

Definition without_dbus : list string := filter (λ e, HasPrefix e "DBUS_SYSTEM_BUS_ADDRESS=" = false) Environ.

Definition parse_networkctl (r : result string string) : result string (list NetworkInterface) :=
  match r with
  | Err e => Err (prefixed "networkctl command failed" e)
  | Ok output => match decode_networkctl error_text output with
                 | Err e => Err (prefixed "failed to parse networkctl JSON" e)
                 | Ok l => Ok l
                 end
  end.

(** The environment of the command is [nil], that of the agent, when it is not set. *)
Definition monitor_GetNetworkInterfaces : result string (list NetworkInterface) :=
  let originalDBusAddr := Getenv "DBUS_SYSTEM_BUS_ADDRESS" in
  let envWithoutDbus := if negb (String.eqb originalDBusAddr EmptyString) then without_dbus else Environ in
  let cmdEnv := if negb (String.eqb originalDBusAddr EmptyString) then Some envWithoutDbus else None in
  parse_networkctl (run (default Environ cmdEnv) ["networkctl"; "--json=short"]).

Definition util_GetNetworkInterfaces : result string (list NetworkInterface) :=
  let envWithoutDbus := if negb (String.eqb (Getenv "DBUS_SYSTEM_BUS_ADDRESS") EmptyString) then Some without_dbus else None in
  parse_networkctl (run (default Environ envWithoutDbus) ["networkctl"; "--json=short"]).

(** The two copies of the function do the same, and never show the command the address of
    the bus when it is set. *)
Lemma interfaces_agree : monitor_GetNetworkInterfaces = util_GetNetworkInterfaces.
Proof. unfold monitor_GetNetworkInterfaces, util_GetNetworkInterfaces. by destruct (negb _). Qed.

(** The link files of the interfaces, each once, in the order Go ranges over their set. *)
Definition unique_link_files (range : list string → list string) (l : list NetworkInterface) : list string :=
  range (remove_dups (filter (λ f, f ≠ EmptyString) (LinkFile <$> l))).

(** [handleMACAddressPolicy] from the interfaces that [networkctl] lists. *)
Definition handle_mac_policy (tags : list string) (installed : result string bool) (range : list string → list string)
    (config : string → option string) : result string (list Condition) :=
  handleMACAddressPolicy tags installed
    (match monitor_GetNetworkInterfaces with Ok l => Ok (unique_link_files range l) | Err e => Err e end) config.
End Interfaces.

(** Each link file is read once, however many interfaces use it, and an interface without
    one is passed over. *)
Lemma link_files_once range l :
  (∀ l, range l ≡ₚ l) →
  NoDup (unique_link_files range l) ∧ ∀ f, f ∈ unique_link_files range l ↔ f ≠ EmptyString ∧ f ∈ LinkFile <$> l.
Proof.
  intros Hr. unfold unique_link_files. split.
  - rewrite Hr. apply NoDup_remove_dups.
  - intros f. rewrite Hr, elem_of_remove_dups, list_elem_of_filter. done.
Qed.

(** [networkctl] failing is the error of the check: no policy is read and nothing reported. *)
Lemma mac_policy_error error_text environ getenv run tags range config e :
  monitor_GetNetworkInterfaces error_text environ getenv run = Err e →
  handle_mac_policy error_text environ getenv run tags (Ok true) range config =
  handleMACAddressPolicy tags (Ok true) (Err e) config.
Proof. intros H. unfold handle_mac_policy. by rewrite H. Qed.

(** *** The copy of the check in [pkg/util]: the loop over the lines, by index, from the last *)

Fixpoint policy_loop (lines : list string) (i : nat) : string :=
  match i with
  | O => EmptyString
  | S i' =>
      match CutPrefix (TrimSpace (default EmptyString (lines !! i'))) "MACAddressPolicy=" with
      | Some p => p
      | None => policy_loop lines i'
      end
  end.

Definition util_CheckMACAddressPolicy (content : string) : string * bool :=
  if negb (Contains content "MACAddressPolicy=") then (EmptyString, true)
  else
    let lines := Split content (byte_of 10) in
    let currentPolicy := policy_loop lines (length lines) in
    (currentPolicy, String.eqb currentPolicy "none" || String.eqb currentPolicy EmptyString).

Lemma policy_loop_last lines n :
  (n ≤ length lines)%nat → policy_loop lines n = default EmptyString (last_policy (rev (take n lines))).
Proof.
  induction n as [|n IH]; intros Hn; [done|].
  destruct (lookup_lt_is_Some_2 lines n ltac:(lia)) as [l Hl].
  rewrite (take_S_r _ _ _ Hl), rev_app_distr. simpl. rewrite Hl. simpl.
  destruct (CutPrefix (TrimSpace l) _); [done|]. apply IH. lia.
Qed.

(** The last assignment decides, as in the monitor. *)
Lemma policies_agree content : util_CheckMACAddressPolicy content = CheckMACAddressPolicy content.
Proof.
  unfold util_CheckMACAddressPolicy, CheckMACAddressPolicy.
  by rewrite policy_loop_last, take_ge by done.
Qed.
