(* ===== verification/NetMonitor.v ===== *)
(** * NetMonitor: the networking monitor as an object ([monitors/networking/monitor.go]): its
    construction and options, the keys of its caches, and the handler of the ticks that read
    the counters of [ethtool].

    The checks themselves are in [Networking], [NetHost] and [HostDocs]. *)

From S2P Require Import Prelude GoStrings Monitor Reasons Renotify Config Networking.

(** ** The monitor *)

(** [S] is the runtime service of the CRI client. *)
Section Construction.
Context {S R : Type}.

Record NetworkingMonitor := mkMonitor {
  ctrdRuntimeService : option S;
  execRoot : string;
  runtimeContext : RuntimeContext;
  allowedIPTablesChains : list string;
  excludedInterfaceNameRegexps : list R
}.

Definition Option : Type := NetworkingMonitor → NetworkingMonitor.

Definition WithExec (root : string) : Option :=
  λ m, mkMonitor (ctrdRuntimeService m) root (runtimeContext m) (allowedIPTablesChains m) (excludedInterfaceNameRegexps m).
Definition WithRuntimeContext (rc : RuntimeContext) : Option :=
  λ m, mkMonitor (ctrdRuntimeService m) (execRoot m) rc (allowedIPTablesChains m) (excludedInterfaceNameRegexps m).
Definition WithRuntimeService (svc : S) : Option :=
  λ m, mkMonitor (Some svc) (execRoot m) (runtimeContext m) (allowedIPTablesChains m) (excludedInterfaceNameRegexps m).
Definition SetAllowedIPTablesChains (chains : list string) : Option :=
  λ m, mkMonitor (ctrdRuntimeService m) (execRoot m) (runtimeContext m) chains (excludedInterfaceNameRegexps m).

(** [hostRoot] and [rc] are what [config] gives. *)
Definition NewNetworkingMonitor (hostRoot : string) (rc : RuntimeContext) (options : list Option) : NetworkingMonitor :=
  foldl (λ m option, option m) (mkMonitor None hostRoot rc [] []) options.

(** The last option of a kind decides. *)
Lemma last_context_wins hostRoot rc options rc' :
  runtimeContext (NewNetworkingMonitor hostRoot rc (options ++ [WithRuntimeContext rc'])) = rc'.
Proof. unfold NewNetworkingMonitor. by rewrite foldl_app. Qed.
End Construction.

(** [IPAMD] uses the service of the monitor, or dials the endpoint. *)
Definition criCacheFunc (d : criIPDetails) : string := containerId d.
Definition interfaceCacheKeyFunc (i : Interface) : string := ifName i.

(** ** The ethtool ticks *)

Section Ethtool.
Context {Limiter : Type} (AllowN : Limiter → Time → Z → bool * Limiter) (NewLimiter : Duration → Z → Limiter).
Context (sent : Condition → bool) (order : list (string * ReasonMeta)).
Abbreviation ethtool := (ethtoolMonitor (Limiter := Limiter)).

Definition makeEthtoolMonitor : ethtool := mkEthtool ∅ ∅.

(** The monitor is made once; a tick reads the counters by interface, with the readings of
    the clock. *)
Definition tick : Type := list (string * gmap string Z) * (nat → Time).
Definition ethtool_tick (m : ethtool) (t : tick) : list Condition * ethtool :=
  handleEthtool AllowN NewLimiter sent order t.1 t.2 m.

Fixpoint ethtoolTickHandler (m : ethtool) (ticks : list tick) : list (list Condition) :=
  match ticks with
  | [] => []
  | t :: rest => let '(out, m') := ethtool_tick m t in out :: ethtoolTickHandler m' rest
  end.

Definition dash : Ascii.ascii := byte_of 45.

Fixpoint has_dash (s : string) : bool :=
  match s with EmptyString => false | String c s' => Ascii.eqb c dash || has_dash s' end.

Lemma has_dash_app s t : has_dash (s +:+ t) = has_dash s || has_dash t.
Proof. induction s as [|c s IH]; [done|]. cbn [String.append has_dash]. by rewrite IH, orb_assoc. Qed.

(** The keys of the cache tell interfaces apart, for statistics without a dash. *)
Lemma compound_key_inj n n' k k' :
  has_dash k = false → has_dash k' = false → makeCompoundStatKey n k = makeCompoundStatKey n' k' → n = n' ∧ k = k'.
Proof.
  intros Hk Hk'. unfold makeCompoundStatKey. revert n'. induction n as [|c n IH]; intros [|c' n']; cbn [String.append]; intros E.
  - by injection E.
  - injection E as _ E. apply (f_equal has_dash) in E. rewrite !has_dash_app, Hk in E. by destruct (has_dash n').
  - injection E as _ E. apply (f_equal has_dash) in E. rewrite !has_dash_app, Hk' in E. by destruct (has_dash n).
  - injection E as -> E. destruct (IH n' E) as [-> ->]. done.
Qed.

(** Counters that are seen for the first time report nothing, and touch only the keys of
    their interface. *)
Lemma check_stats_first o name stats now notify (cache : gmap string (statTracker (Limiter := Limiter))) :
  NoDup o.*1 → Forall (λ k, has_dash k = false) o.*1 →
  (∀ k, k ∈ o.*1 → cache !! makeCompoundStatKey name k = None) →
  let r := check_stats AllowN NewLimiter o name stats now notify cache in
  r.1 = [] ∧ ∀ n k, n ≠ name → has_dash k = false → r.2 !! makeCompoundStatKey n k = cache !! makeCompoundStatKey n k.
Proof.
  revert cache. induction o as [|[k reason] o IH]; intros cache Hd Hk Hc; [by split|]. simpl in *.
  apply NoDup_cons in Hd as [Hn Hd]. apply Forall_cons in Hk as [Hk Hks].
  destruct (stats !! k) as [v|]; [|apply IH; try done; intros; apply Hc; by constructor].
  rewrite Hc by constructor.
  destruct (IH (<[makeCompoundStatKey name k := mkStatTracker v (statLimiterConstructors NewLimiter k)]> cache) Hd Hks) as [H1 H2].
  - intros k' Hk'. rewrite lookup_insert_ne; [apply Hc; by constructor|]. intros E.
    apply compound_key_inj in E as [_ <-]; [done|done|]. by apply (proj1 (Forall_forall _ _) Hks).
  - split; [exact H1|]. intros n k' Hnn Hkk. rewrite H2 by done. rewrite lookup_insert_ne; [done|].
    intros E. apply compound_key_inj in E as [-> _]; done.
Qed.

(** The statistics in the order Go ranges over their constructors. *)
Hypothesis Horder : order ≡ₚ statReasons.

Lemma order_keys : NoDup order.*1 ∧ Forall (λ k, has_dash k = false) order.*1.
Proof.
  assert (E : order.*1 ≡ₚ statReasons.*1) by (by rewrite Horder). rewrite E.
  split; apply (bool_decide_unpack _); vm_compute; exact I.
Qed.

(** The first tick of a monitor reports nothing: a monitor made at every tick would never
    report, which is why the handler keeps one. *)
Lemma first_tick_silent t : NoDup t.1.*1 → (ethtool_tick makeEthtoolMonitor t).1 = [].
Proof.
  destruct order_keys as [Hd Hk]. destruct t as [l now]. unfold ethtool_tick. simpl. intros Hl.
  assert (Hm : ∀ n k, n ∈ l.*1 → k ∈ order.*1 → statExceededCache makeEthtoolMonitor !! makeCompoundStatKey n k = None)
    by (intros; apply lookup_empty).
  revert Hl Hm. generalize makeEthtoolMonitor. induction l as [|[name stats] l IH]; intros m Hl Hm; [done|]. simpl in *.
  apply NoDup_cons in Hl as [Hn Hl]. unfold checkEthtool.
  destruct (check_stats_first order name stats (now (length l))
              match ethNotified m !! name with None => true | Some t => ShouldNotify t tt (now (length l)) end
              (statExceededCache m) Hd Hk) as [H1 H2]; [intros; apply Hm; [constructor|done]|].
  destruct (check_stats _ _ _ _ _ _ _ _) as [out cache]. simpl in H1, H2. subst out. simpl.
  specialize (IH (mkEthtool cache (ethNotified m)) Hl). destruct (handleEthtool _ _ _ _ _ _ _) as [outs m']. simpl in *.
  apply IH. intros n k Hin Hk'. rewrite H2.
  - apply Hm; [by constructor|done].
  - intros ->. done.
  - by apply (proj1 (Forall_forall _ _) Hk).
Qed.
End Ethtool.

(** A counter that jumps between two ticks is reported at the second. *)
Example jump_reported :
  let stats v := {["pps_allowance_exceeded" := v]} : gmap string Z in
  map (map Message) (ethtoolTickHandler (λ l (_ : Time) n, (n <=? l, l - n)) (λ _ burst, burst) (λ _, true) statReasons makeEthtoolMonitor
      [([("eth0", stats 5)], λ _, 0); ([("eth0", stats 400)], λ _, 300)])
  = [[]; ["pps_allowance_exceeded increased on interface " +:+ Quote "eth0" +:+ " from 5 to 400"]].
Proof. vm_compute. reflexivity. Qed.
