(* ===== verification/Startup.v ===== *)
(** * Startup: how the parts are put together ([cmd/eks-node-monitoring-agent]: main.go,
    bootstrap.go, restconfig.go, monitor.go; [cmd/chroot]; the [plugin.go] files of the
    monitors).

    The flags, the controller manager and the Kubernetes clients are libraries; what they
    answer is an argument.  The monitors that the agent is built with are a list here,
    each under its plugin. *)

From S2P Require Import Prelude GoStrings Paths Monitor Reasons Registry Exporter Manager ExecPath Config.

(** ** The agent's own setup *)

(** [flag] is the hostname of the flag or of the environment variable. *)
Definition ensureHostname (flag : string) (os : result string string) : result string string :=
  if (0 <? String.length flag)%nat then Ok flag else os.

(** The address of the message bus that [run] puts into the environment, if any. *)
Definition dbusAddress (env : string → option string) : option string :=
  if negb (String.eqb (HostRoot env) EmptyString)
  then Some ("unix:path=" +:+ ToHostPath env "/run/dbus/system_bus_socket") else None.

Definition EKSAuto : string := "eks-auto".
Definition Hybrid : string := "hybrid".

(** ** monitor.go *)

Record monitorConfig := mkMonitorCfg { cfgMonitor : string; cfgConditionType : NodeConditionType }.
Record settings := mkStartSettings {
  MonitorConfigs : list monitorConfig;
  ConditionConfigs : gmap NodeConditionType NodeConditionConfig
}.

Definition NewMonitorSettings : settings := mkStartSettings [] ∅.

Definition Add (s : settings) (monitor : string) (nodeConditionType : NodeConditionType)
    (readyReason readyMessage : string) : settings :=
  mkStartSettings (MonitorConfigs s ++ [mkMonitorCfg monitor nodeConditionType])
    (<[nodeConditionType := mkNodeConditionConfig readyReason readyMessage]> (ConditionConfigs s)).

(** ** bootstrap.go *)

Definition hybridProviderPrefix : string := "eks-hybrid://".
Definition computeTypeLabelKey : string := "eks.amazonaws.com/compute-type".

Record KubeNode := mkKubeNode { ProviderID : string; Labels : gmap string string }.

Definition isHybridNode (node : KubeNode) : bool :=
  HasPrefix (ProviderID node) hybridProviderPrefix ||
  bool_decide (Labels node !! computeTypeLabelKey = Some Hybrid).

(** What the API server answers: the node, that there is none, or another error. *)
Inductive GetNode := Found (node : KubeNode) | NodeNotFound | GetError (e : string).

Definition populateInfo (rc : RuntimeContext) (answer : GetNode) : RuntimeContext * option GetNode :=
  match answer with
  | Found node => (if isHybridNode node then AddTags rc [Hybrid] else rc, None)
  | _ => (rc, Some answer)
  end.

(** [answers] are those of one poll per second, until the context ends the list: then the
    error is that of the context. *)
Fixpoint Bootstrap (rc : RuntimeContext) (answers : list GetNode) : RuntimeContext * result string () :=
  match answers with
  | [] => (rc, Err "context canceled")
  | answer :: rest =>
      match populateInfo rc answer with
      | (rc', None) => (rc', Ok tt)
      | (rc', Some NodeNotFound) => Bootstrap rc' rest
      | (rc', Some (GetError e)) => (rc', Err e)
      | (rc', Some (Found _)) => (rc', Ok tt)
      end
  end.

(** ** restconfig.go *)

(** The credentials of a kubeconfig user, and the configuration of a client as far as the
    code looks at it. *)
Record AuthInfo := mkAuthInfo {
  ClientCertificate : string; ClientCertificateData : string;
  ClientKey : string; ClientKeyData : string;
  Token : string; TokenFile : string
}.

Record RestConfig := mkRest { Impersonate : option string; ExecProvider : option (string * list string) }.

(** The code of [autoRestConfigProvider]. *)
Definition AutoProvide (baseConfig : RestConfig) : RestConfig := mkRest None (ExecProvider baseConfig).

(** The overrides; the empty string overrides nothing. *)
Record ConfigOverrides := mkOverrides { overrideCA : string; overrideCert : string; overrideKey : string; overrideToken : string }.

Definition is_empty (s : string) : bool := (String.length s =? 0)%nat.

(** [loaded] is what [clientcmd.LoadFromFile] says of the kubeconfig. *)
Definition hostPathOverrides (stat : string → option bool) (hostRoot kubeconfigPath : string)
    (loaded : result string (Config (AuthInfo := AuthInfo))) : result string ConfigOverrides :=
  match loaded with
  | Err e => Err (prefixed ("failed to load kubeconfig " +:+ Quote kubeconfigPath) e)
  | Ok kubeconfig =>
      caCertPath <-? ResolveClusterCACert stat hostRoot (ClusterForCurrentContext kubeconfig);;
      Ok match AuthInfoForCurrentContext kubeconfig with
         | None => mkOverrides caCertPath EmptyString EmptyString EmptyString
         | Some a =>
             let unless data path := if is_empty data then HostPath hostRoot path else EmptyString in
             mkOverrides caCertPath (unless (ClientCertificateData a) (ClientCertificate a))
               (unless (ClientKeyData a) (ClientKey a)) (unless (Token a) (TokenFile a))
         end
  end.

(** [executable] is the path of the agent, or the error of asking for it. *)
Definition Map (hostRoot : string) (executable : result string string) (command : string) (args : list string)
    : result string (string * list string) :=
  match executable with
  | Err e => Err (prefixed "failed to get executable" e)
  | Ok exe => Ok (PathJoin [Dir exe; "chroot"], hostRoot :: command :: args)
  end.

Definition rewriteExecProvider (hostRoot : string) (executable : result string string) (c : RestConfig)
    : result string RestConfig :=
  match ExecProvider c with
  | None => Ok c
  | Some (command, args) =>
      p <-? Map hostRoot executable command args;; Ok (mkRest (Impersonate c) (Some p))
  end.

(** [ClientConfig] is clientcmd's, from a path and overrides. *)
Definition PodProvide (stat : string → option bool) (kubeconfigEnv hostRoot : string)
    (load : string → result string (Config (AuthInfo := AuthInfo)))
    (ClientConfig : string → ConfigOverrides → result string RestConfig) (executable : result string string)
    : result string RestConfig :=
  let kubeconfigPath := ResolveKubeconfig stat kubeconfigEnv hostRoot in
  if String.eqb kubeconfigPath EmptyString then Err "could not locate host kubeconfig in expected paths"
  else overrides <-? hostPathOverrides stat hostRoot kubeconfigPath (load kubeconfigPath);;
       restConfig <-? ClientConfig kubeconfigPath overrides;;
       rewriteExecProvider hostRoot executable restConfig.

(** The configuration [run] monitors with: an error of a provider leaves the base. *)
Definition choose_config (tags : list string) (legacyNodeRBAC : bool) (base : RestConfig)
    (pod : result string RestConfig) : RestConfig :=
  if bool_decide (EKSAuto ∈ tags) then AutoProvide base
  else if negb legacyNodeRBAC then match pod with Ok c => c | Err _ => base end
  else base.

(** [cmd/chroot]: the root, the command and its arguments; [None] is the panic of an index
    out of range. *)
Definition chroot_main (argv : list string) : option (string * string * list string) :=
  match argv with
  | _ :: root :: command :: args => Some (root, command, args)
  | _ => None
  end.

(** ** The monitors of the agent *)

(** The plugins that register themselves, and the one [run] registers, with the names of
    their monitors. *)
Definition agent_plugins : list (string * list string) :=
  [("kernel-monitor", ["kernel"]); ("networking", ["networking"]); ("neuron", ["neuron"]);
   ("nvidia", ["nvidia"]); ("storage-monitor", ["storage"]); ("runtime", ["container-runtime"])].

Definition pluginNames (plugins : list (string * list string)) : list string := plugins.*1.

Definition enabledMonitors (cfg : option MonitorConfig) (plugins : list (string * list string)) : list string :=
  mjoin (filter (λ p, IsMonitorEnabled cfg p.1 = true) plugins).*2.

(** The settings handed to monitors. *)
Inductive setting := AllowedChains (chains : list string) | PowerThreshold (watts : Z) | ExcludedRegexps (exprs : list string).

(** [takes m] is whether a monitor has the method for a setting, and [refuses] its error. *)
Definition inject (takes : string → setting → bool) (refuses : string → setting → option string)
    (monitors : list string) (s : setting) : result string (list (string * setting)) :=
  foldl (λ acc m,
    done <-? acc;;
    if takes m s then
      match s, refuses m s with
      | ExcludedRegexps _, Some e => Err e
      | _, _ => Ok (done ++ [(m, s)])
      end
    else Ok done) (Ok []) monitors.

Definition inject_all (takes : string → setting → bool) (refuses : string → setting → option string)
    (cfg : option MonitorConfig) (monitors : list string) : result string (list (string * setting)) :=
  a <-? match GetAllowedIPTablesChains cfg with
        | [] => Ok [] | chains => inject takes refuses monitors (AllowedChains chains)
        end;;
  b <-? match GetNvidiaDCGMPowerThresholdWatts cfg with
        | None => Ok [] | Some w => inject takes refuses monitors (PowerThreshold w)
        end;;
  c <-? match GetExcludedInterfaceNameRegexps cfg with
        | [] => Ok [] | exprs => inject takes refuses monitors (ExcludedRegexps exprs)
        end;;
  Ok (a ++ b ++ c).

Definition config_if (b : bool) (t : NodeConditionType) (readyReason readyMessage : string)
    (m : gmap NodeConditionType NodeConditionConfig) : gmap NodeConditionType NodeConditionConfig :=
  if b then <[t := mkNodeConditionConfig readyReason readyMessage]> m else m.

Definition conditionConfigs_of (cfg : option MonitorConfig) (hardware : string)
    : gmap NodeConditionType NodeConditionConfig :=
  let m := config_if (IsMonitorEnabled cfg "kernel-monitor") KernelReady
             "KernelIsReady" "Monitoring for the Kernel system is active" ∅ in
  let m := config_if (IsMonitorEnabled cfg "storage-monitor") StorageReady
             "DiskIsReady" "Monitoring for the Disk system is active" m in
  let m := config_if (IsMonitorEnabled cfg "runtime") ContainerRuntimeReady
             "ContainerRuntimeIsReady" "Monitoring for the ContainerRuntime system is active" m in
  let m := config_if (IsMonitorEnabled cfg "networking") NetworkingReady
             "NetworkingIsReady" "Monitoring for the Networking system is active" m in
  if String.eqb hardware AcceleratedHardwareNvidia then
    config_if (IsMonitorEnabled cfg "nvidia") AcceleratedHardwareReady
      "NvidiaGPUIsReady" "Monitoring for the Nvidia GPU system is active" m
  else if String.eqb hardware AcceleratedHardwareNeuron then
    config_if (IsMonitorEnabled cfg "neuron") AcceleratedHardwareReady
      "NeuronAcceleratedHardwareIsReady" "Monitoring for the Neuron AcceleratedHardware system is active" m
  else m.

(** The condition a monitor is registered under, [None] for one that is skipped. *)
Definition conditionType_of (hardware name : string) : option NodeConditionType :=
  if String.eqb name "kernel" then Some KernelReady
  else if String.eqb name "storage" then Some StorageReady
  else if String.eqb name "container-runtime" then Some ContainerRuntimeReady
  else if String.eqb name "networking" then Some NetworkingReady
  else if String.eqb name "nvidia" then
    if negb (String.eqb hardware AcceleratedHardwareNvidia) then None else Some AcceleratedHardwareReady
  else if String.eqb name "neuron" then
    if negb (String.eqb hardware AcceleratedHardwareNeuron) then None else Some AcceleratedHardwareReady
  else Some KernelReady.

(** The loop that registers the monitors; [reg] is the monitor's own [Register]. *)
Fixpoint register_all
    (reg : string → MonitorManager nodeExporter → MonitorManager nodeExporter * result string unit)
    (hardware : string) (monitors : list string) (m : MonitorManager nodeExporter)
    : MonitorManager nodeExporter * result string unit :=
  match monitors with
  | [] => (m, Ok tt)
  | name :: rest =>
      match conditionType_of hardware name with
      | None => register_all reg hardware rest m
      | Some t =>
          match Manager.Register m name t (reg name) with
          | (m', Err e) => (m', Err e)
          | (m', Ok _) => register_all reg hardware rest m'
          end
      end
  end.

(** The runnable of [run] up to the start of the manager: the manager, and whether the
    channel that the readiness check looks at was closed.  [plugins] is the registry's list,
    in any order. *)
Definition start (plugins : list (string * list string)) (rc : RuntimeContext) (load : result string (option MonitorConfig))
    (takes : string → setting → bool) (refuses : string → setting → option string)
    (reg : string → MonitorManager nodeExporter → MonitorManager nodeExporter * result string unit)
    (now : Time) : result string (MonitorManager nodeExporter * bool) :=
  cfg <-? load;;
  let monitors := enabledMonitors cfg plugins in
  _ <-? inject_all takes refuses cfg monitors;;
  let exporter := NewNodeExporter now (conditionConfigs_of cfg (acceleratedHardware rc)) in
  match register_all reg (acceleratedHardware rc) monitors (NewMonitorManager exporter) with
  | (_, Err e) => Err e
  | (m, Ok _) => Ok (m, true)
  end.

(** The readiness check. *)
Definition registeredCheck (closed : bool) : result string () :=
  if closed then Ok tt else Err "monitor registration in progress".

(** ** Bootstrap *)

(** A node that appears after some polls is looked at once, and its tag is added when it
    is a hybrid node. *)
Lemma Bootstrap_found rc n node rest :
  Bootstrap rc (replicate n NodeNotFound ++ Found node :: rest) =
  (if isHybridNode node then AddTags rc [Hybrid] else rc, Ok tt).
Proof. by induction n. Qed.

(** Until then it keeps the tags it had, and any other error ends it. *)
Lemma Bootstrap_error rc n e rest :
  Bootstrap rc (replicate n NodeNotFound ++ GetError e :: rest) = (rc, Err e) ∧
  Bootstrap rc (replicate n NodeNotFound) = (rc, Err "context canceled").
Proof. by split; induction n. Qed.

(** ** The commands of an exec provider *)

(** What the wrapper is asked to run is the original command with its arguments, below
    the root of the host. *)
Lemma Map_chroot hostRoot exe command args c newArgs :
  Map hostRoot exe command args = Ok (c, newArgs) → chroot_main (c :: newArgs) = Some (hostRoot, command, args).
Proof. destruct exe; intros [= <- <-]. done. Qed.

(** Each file of the credentials is read below the root of the host, or not at all. *)
Lemma hostPathOverrides_below stat hostRoot path loaded o :
  hostPathOverrides stat hostRoot path loaded = Ok o →
  Forall (λ p, p = EmptyString ∨ ∃ q, p = HostPath hostRoot q) [overrideCert o; overrideKey o; overrideToken o].
Proof.
  unfold hostPathOverrides. destruct loaded as [k|]; [|done]. intros (ca & _ & E)%rbind_ok.
  destruct (AuthInfoForCurrentContext k) as [a|]; simplify_eq/=; repeat apply Forall_cons_2; auto;
    destruct (is_empty _); eauto.
Qed.

(** The message bus is set with the default root too. *)
Example dbus_at_default_root : dbusAddress (λ _, None) = Some "unix:path=/run/dbus/system_bus_socket".
Proof. reflexivity. Qed.

(** ** Registration *)

Section Register.
Context (reg : string → MonitorManager nodeExporter → MonitorManager nodeExporter * result string unit).

(** The [Register] of a monitor subscribes to observers: the types and the exporter of the
    manager stay what they are. *)
Definition reg_keeps : Prop :=
  ∀ name m, conditionTypeMap (reg name m).1 = conditionTypeMap m ∧ exporter (reg name m).1 = exporter m.

Lemma register_all_types hardware monitors m m' :
  reg_keeps → register_all reg hardware monitors m = (m', Ok tt) →
  exporter m' = exporter m ∧
  ∀ name t, conditionTypeMap m' !! name = Some t ↔
    (name ∈ monitors ∧ conditionType_of hardware name = Some t) ∨
    ((name ∉ monitors ∨ conditionType_of hardware name = None) ∧ conditionTypeMap m !! name = Some t).
Proof.
  intros Hreg. revert m. induction monitors as [|n ms IH]; intros m E; simpl in E.
  { simplify_eq. split; [done|]. intros name t. rewrite elem_of_nil. tauto. }
  destruct (conditionType_of hardware n) as [t0|] eqn:Hn.
  - destruct (Manager.Register m n t0 (reg n)) as [m1 [[]|]] eqn:Em; [|done].
    destruct (Hreg n (set_types m ({[n]} ∪ monitors m) (<[n := t0]> (conditionTypeMap m)))) as [Ht He].
    unfold Manager.Register in Em. rewrite Em in Ht, He. simpl in Ht, He.
    destruct (IH m1 E) as [IHe IHt]. split; [by rewrite IHe, He|].
    intros name t. rewrite IHt, Ht. destruct (decide (name = n)) as [->|Hne].
    + rewrite lookup_insert_eq, Hn, elem_of_cons. destruct (decide (n ∈ ms)); intuition congruence.
    + rewrite lookup_insert_ne, elem_of_cons by done. intuition congruence.
  - destruct (IH m E) as [IHe IHt]. split; [done|]. intros name t. rewrite IHt.
    rewrite elem_of_cons. destruct (decide (name = n)) as [->|]; [rewrite Hn|]; intuition congruence.
Qed.

End Register.

Lemma config_if_lookup b t r msg (m : gmap NodeConditionType NodeConditionConfig) t' :
  is_Some (config_if b t r msg m !! t') ↔ (b = true ∧ t' = t) ∨ is_Some (m !! t').
Proof.
  unfold config_if. destruct b; [|naive_solver].
  destruct (decide (t' = t)) as [->|]; [rewrite lookup_insert_eq|rewrite lookup_insert_ne by done]; naive_solver.
Qed.

Lemma conditionConfigs_spec cfg hardware t :
  is_Some (conditionConfigs_of cfg hardware !! t) ↔
  (IsMonitorEnabled cfg "kernel-monitor" = true ∧ t = KernelReady) ∨
  (IsMonitorEnabled cfg "storage-monitor" = true ∧ t = StorageReady) ∨
  (IsMonitorEnabled cfg "runtime" = true ∧ t = ContainerRuntimeReady) ∨
  (IsMonitorEnabled cfg "networking" = true ∧ t = NetworkingReady) ∨
  (hardware = AcceleratedHardwareNvidia ∧ IsMonitorEnabled cfg "nvidia" = true ∧ t = AcceleratedHardwareReady) ∨
  (hardware = AcceleratedHardwareNeuron ∧ IsMonitorEnabled cfg "neuron" = true ∧ t = AcceleratedHardwareReady).
Proof.
  unfold conditionConfigs_of.
  destruct (String.eqb_spec hardware AcceleratedHardwareNvidia) as [->|];
    [|destruct (String.eqb_spec hardware AcceleratedHardwareNeuron) as [->|]];
    rewrite !config_if_lookup, lookup_empty;
    intuition (done || match goal with H : is_Some None |- _ => by destruct H end).
Qed.

Lemma enabledMonitors_cons cfg p ms ps name :
  name ∈ enabledMonitors cfg ((p, ms) :: ps) ↔
  (IsMonitorEnabled cfg p = true ∧ name ∈ ms) ∨ name ∈ enabledMonitors cfg ps.
Proof.
  unfold enabledMonitors. rewrite filter_cons. simpl. case_decide as Hp; simpl in Hp.
  - simpl. rewrite elem_of_app. tauto.
  - tauto.
Qed.

Lemma enabledMonitors_agent cfg name :
  name ∈ enabledMonitors cfg agent_plugins ↔
  (IsMonitorEnabled cfg "kernel-monitor" = true ∧ name = "kernel") ∨
  (IsMonitorEnabled cfg "networking" = true ∧ name = "networking") ∨
  (IsMonitorEnabled cfg "neuron" = true ∧ name = "neuron") ∨
  (IsMonitorEnabled cfg "nvidia" = true ∧ name = "nvidia") ∨
  (IsMonitorEnabled cfg "storage-monitor" = true ∧ name = "storage") ∨
  (IsMonitorEnabled cfg "runtime" = true ∧ name = "container-runtime").
Proof.
  unfold agent_plugins. rewrite !enabledMonitors_cons, !list_elem_of_singleton.
  assert (name ∈ enabledMonitors cfg [] ↔ False) as -> by (unfold enabledMonitors; simpl; apply elem_of_nil).
  tauto.
Qed.

(** The types under which monitors are registered are those that have a configuration. *)
Lemma types_configured cfg hardware t :
  (∃ name, name ∈ enabledMonitors cfg agent_plugins ∧ conditionType_of hardware name = Some t) ↔
  is_Some (conditionConfigs_of cfg hardware !! t).
Proof.
  rewrite conditionConfigs_spec. setoid_rewrite enabledMonitors_agent.
  unfold conditionType_of, AcceleratedHardwareNvidia, AcceleratedHardwareNeuron. split.
  - intros (name & [[He ->]|[[He ->]|[[He ->]|[[He ->]|[[He ->]|[He ->]]]]]] & Ht); cbn in Ht;
      repeat match type of Ht with
      | context [String.eqb hardware ?s] => destruct (String.eqb_spec hardware s); cbn in Ht
      end; simplify_eq; tauto.
  - intros [[He ->]|[[He ->]|[[He ->]|[[He ->]|[(-> & He & ->)|(-> & He & ->)]]]]];
      [exists "kernel"|exists "storage"|exists "container-runtime"|exists "networking"|
       exists "nvidia"|exists "neuron"]; (split; [tauto|reflexivity]).
Qed.

(** The agent starts coherent: whatever its configuration and its hardware, and
    whatever the monitors subscribe to, once the registration has succeeded (and only then
    is the agent ready) each registered monitor reports to a condition that the exporter
    manages and shows True, and each condition the exporter manages is one that a
    registered monitor reports to. *)
Theorem start_coherent plugins rc load takes refuses reg now m closed :
  plugins ≡ₚ agent_plugins → reg_keeps reg → start plugins rc load takes refuses reg now = Ok (m, closed) →
  is_ok (registeredCheck closed) = true ∧
  (∀ name t, conditionTypeMap m !! name = Some t →
     ∃ c, managedConditions (exporter m) !! t = Some c ∧ ncStatus c = ConditionTrue) ∧
  (∀ t c, managedConditions (exporter m) !! t = Some c → ∃ name, conditionTypeMap m !! name = Some t).
Proof.
  intros Hpl Hreg. unfold start. intros (cfg & _ & (inj & _ & E)%rbind_ok)%rbind_ok.
  set (hw := acceleratedHardware rc) in *.
  destruct (register_all reg hw _ _) as [m' [[]|]] eqn:Er; [|done]. simplify_eq.
  destruct (register_all_types reg _ _ _ _ Hreg Er) as [He Ht]. rewrite He. simpl.
  split; [done|].
  assert (Hm : ∀ t, managedConditions (NewNodeExporter now (conditionConfigs_of cfg hw)) !! t =
    (λ c, mkNodeCondition t ConditionTrue (ReadyReason c) (ReadyMessage c) now now) <$>
      conditionConfigs_of cfg hw !! t).
  { intros t. simpl. unfold initializeManagedConditions. rewrite map_lookup_imap.
    by destruct (conditionConfigs_of cfg hw !! t). }
  assert (Hen : ∀ name, name ∈ enabledMonitors cfg plugins ↔ name ∈ enabledMonitors cfg agent_plugins)
    by (intros name; unfold enabledMonitors; by rewrite Hpl).
  split.
  - intros name t [[Hin%Hen Hty]|[_ Hl]]%Ht; [|done].
    destruct (proj1 (types_configured cfg hw t)) as [c Hc]; [by exists name|].
    rewrite Hm, Hc. simpl. by eexists.
  - intros t c Hc. rewrite Hm in Hc.
    destruct (proj2 (types_configured cfg hw t)) as (name & Hin & Hty).
    { destruct (conditionConfigs_of cfg hw !! t); [by eexists|done]. }
    exists name. apply Ht. left. by rewrite Hen.
Qed.

Definition ex_rc : RuntimeContext := mkRuntimeContext "linux" "nvidia" [].
Definition ex_mc : option MonitorConfig :=
  Some (mkMonitorConfig (Some {["kernel-monitor" := mkSettings (Some false) [] None None]})).

Abbreviation ex_start := (start agent_plugins ex_rc (Ok ex_mc) (λ _ _, false) (λ _ _, None) (λ _ m, (m, Ok tt)) 0).

Lemma start_coherent_witness :
  ∃ m closed, ex_start = Ok (m, closed) ∧ is_ok (registeredCheck closed) = true ∧
    conditionTypeMap m !! "nvidia" = Some AcceleratedHardwareReady ∧
    conditionTypeMap m !! "kernel" = None ∧
    ∃ c, managedConditions (exporter m) !! AcceleratedHardwareReady = Some c ∧ ncStatus c = ConditionTrue.
Proof.
  assert (Hs : match ex_start with
               | Ok (m, _) => (conditionTypeMap m !! "nvidia", conditionTypeMap m !! "kernel")
               | Err _ => (None, None)
               end = (Some AcceleratedHardwareReady, None)) by (vm_compute; reflexivity).
  destruct ex_start as [[m closed]|] eqn:E; [|discriminate Hs].
  assert (H1 : conditionTypeMap m !! "nvidia" = Some AcceleratedHardwareReady) by congruence.
  assert (H2 : conditionTypeMap m !! "kernel" = None) by congruence.
  destruct (start_coherent agent_plugins ex_rc (Ok ex_mc) (λ _ _, false) (λ _ _, None) (λ _ m, (m, Ok tt)) 0 m closed)
    as (Hc & Hm & _); [reflexivity|by split|exact E|].
  exists m, closed. split; [reflexivity|]. split; [exact Hc|]. split; [exact H1|]. split; [exact H2|].
  exact (Hm _ _ H1).
Defined.
