(* ===== verification/Plugins.v ===== *)
(** * Plugins: the plugins of the agent ([monitors/*/plugin.go], the names and conditions of
    the monitors in [monitors/*/monitor.go]) and how they get into the registry.

    The packages that [main.go] imports register their plugins when they are initialised,
    before [main] runs; [run] registers the plugin of the container runtime.  A panic of an
    initialisation is [None]. *)

From S2P Require Import Prelude GoStrings Monitor Registry Config Startup.

(** ** The monitors *)

Definition KernelMonitor : MonitorI := mkMonitorI "kernel" [].
Definition StorageMonitor : MonitorI := mkMonitorI "storage" [].
Definition neuronMonitor : MonitorI := mkMonitorI "neuron" [].
Definition nvidiaMonitor : MonitorI := mkMonitorI "nvidia" [].
Definition runtimeMonitor : MonitorI := mkMonitorI "container-runtime" [].
Definition NetworkingMonitorI : MonitorI := mkMonitorI "networking" [].

(** ** The plugins *)

Section Plugins.
Context {CRD : Type}.
Abbreviation registry := (pluginRegistry (CRD := CRD)).
Implicit Types r : registry.

Definition plugin_of (name : string) (m : MonitorI) : MonitorPlugin (CRD := CRD) := NewPlugin name [Some m].

(** The packages with an initialisation. *)
Inductive package := PKernel | PStorage | PNeuron | PNetworking | PNvidia.
#[global] Instance package_eq_dec : EqDecision package.
Proof. solve_decision. Defined.

Definition package_plugin (p : package) : MonitorPlugin :=
  match p with
  | PKernel => plugin_of "kernel-monitor" KernelMonitor
  | PStorage => plugin_of "storage-monitor" StorageMonitor
  | PNeuron => plugin_of "neuron" neuronMonitor
  | PNetworking => plugin_of "networking" NetworkingMonitorI
  | PNvidia => plugin_of "nvidia" nvidiaMonitor
  end.

Definition runtimePlugin : MonitorPlugin := plugin_of "runtime" runtimeMonitor.

(** [init]: [ctx] is the runtime context, which the networking monitor is made with. *)
Definition init (ctx : result string RuntimeContext) (p : package) (r : registry) : option registry :=
  match p with
  | PKernel | PStorage | PNeuron => MustRegister r (Some (package_plugin p))
  | PNvidia => match ValidateAndRegister r (Some (package_plugin p)) with Ok r' => Some r' | Err _ => None end
  | PNetworking =>
      match ctx with
      | Err _ => None
      | Ok _ => match ValidateAndRegister r (Some (package_plugin p)) with Ok r' => Some r' | Err _ => None end
      end
  end.

Fixpoint init_all (ctx : result string RuntimeContext) (ps : list package) (r : registry) : option registry :=
  match ps with [] => Some r | p :: ps' => r' ← init ctx p r; init_all ctx ps' r' end.

(** The plugins of a registry as [Startup] lists them. *)
Definition monitor_name (m : option MonitorI) : string := match m with Some m => Name m | None => EmptyString end.
Definition listed (r : registry) : list (string * list string) :=
  (λ p, (pluginName p, monitor_name <$> pluginMonitors p)) <$> Registry.List r.

(** ** They register *)

Lemma plugin_validates name m :
  name ≠ EmptyString → Name m ≠ EmptyString → Conditions m = [] →
  ValidatePlugin (Some (plugin_of name m)) = Ok tt.
Proof.
  intros Hn Hm Hc. unfold ValidatePlugin, plugin_of, NewPlugin. cbn [pluginName pluginMonitors validate_each].
  unfold ValidateMonitor. rewrite Hc.
  destruct (String.eqb_spec name EmptyString), (String.eqb_spec (Name m) EmptyString); done.
Qed.

Lemma package_validates p : ValidatePlugin (Some (package_plugin p)) = Ok tt.
Proof. destruct p; by apply plugin_validates. Qed.

Lemma Register_fresh r name m :
  name ≠ EmptyString → plugins r !! name = None →
  Register r (Some (plugin_of name m)) = Ok (mkRegistry (<[name := plugin_of name m]> (plugins r))).
Proof.
  intros Hn Hr. unfold Register, plugin_of, NewPlugin. cbn [pluginName]. rewrite Hr.
  by destruct (String.eqb_spec name EmptyString).
Qed.

Lemma init_fresh ctx p r :
  is_ok ctx = true → plugins r !! pluginName (package_plugin p) = None →
  init ctx p r = Some (mkRegistry (<[pluginName (package_plugin p) := package_plugin p]> (plugins r))).
Proof.
  intros Hc Hr. destruct ctx as [rc|]; [|done]. pose proof (package_validates p) as Hv.
  destruct p; unfold init, MustRegister, ValidateAndRegister; rewrite ?Hv; cbn [package_plugin] in *; by rewrite Register_fresh.
Qed.

Definition by_name (ps : list (MonitorPlugin (CRD := CRD))) : gmap string (MonitorPlugin (CRD := CRD)) := list_to_map ((λ p, (pluginName p, p)) <$> ps).

Lemma init_all_fresh ctx ps r :
  is_ok ctx = true → NoDup ps → (∀ p, p ∈ ps → plugins r !! pluginName (package_plugin p) = None) →
  ∃ r', init_all ctx ps r = Some r' ∧ plugins r' = by_name (package_plugin <$> ps) ∪ plugins r.
Proof.
  intros Hc. revert r. induction ps as [|p ps IH]; intros r Hd Hf; simpl.
  - exists r. split; [done|]. unfold by_name; simpl; by rewrite (left_id_L ∅ (∪)).
  - apply NoDup_cons in Hd as [Hp Hd]. rewrite init_fresh; [|done|apply Hf; constructor]. simpl.
    assert (Hinj : ∀ q, pluginName (package_plugin p) = pluginName (package_plugin q) → p = q) by (intros q; by destruct p, q).
    destruct (IH (mkRegistry (<[pluginName (package_plugin p) := package_plugin p]> (plugins r))) Hd) as (r' & E & Hr').
    { intros q Hq. simpl. rewrite lookup_insert_ne; [apply Hf; by constructor|]. intros Heq. apply Hp. by rewrite (Hinj q Heq). }
    exists r'. split; [exact E|]. rewrite Hr'. unfold by_name. simpl. rewrite <-insert_union_l, <-insert_union_r; [done|].
    apply not_elem_of_list_to_map. intros Hin. rewrite <-list_fmap_compose in Hin.
    apply list_elem_of_fmap in Hin as (pl & Hpl & Hin). apply list_elem_of_fmap in Hin as (q & -> & Hq).
    apply Hp. by rewrite (Hinj q Hpl).
Qed.

(** However Go orders the initialisations of the packages, the agent starts with a
    registry of exactly its six plugins, each validated under its own name, if the runtime
    context can be generated; otherwise it panics before [main] runs. *)
Theorem plugins_register ctx ps :
  ps ≡ₚ [PKernel; PNetworking; PNeuron; PNvidia; PStorage] →
  match ctx with
  | Ok _ => ∃ r r', init_all ctx ps NewRegistry = Some r ∧ ValidateAndRegister r (Some runtimePlugin) = Ok r' ∧
                    listed r' ≡ₚ agent_plugins ∧ registry_ok r'
  | Err _ => init_all ctx ps NewRegistry = None
  end.
Proof.
  intros Hps.
  assert (Hd : NoDup ps) by (rewrite Hps; apply (bool_decide_unpack _); vm_compute; exact I).
  destruct ctx as [rc|e].
  - destruct (init_all_fresh (Ok rc) ps NewRegistry eq_refl Hd) as (r & E & Hr); [by intros p _|].
    exists r. cbn [plugins NewRegistry] in Hr. rewrite (right_id_L ∅ (∪)) in Hr.
    assert (Hperm : by_name (package_plugin <$> ps) = by_name (package_plugin <$> [PKernel; PNetworking; PNeuron; PNvidia; PStorage])).
    { apply list_to_map_proper; [|by rewrite Hps].
      rewrite <-!list_fmap_compose. apply NoDup_fmap_2_strong; [by intros [] []|done]. }
    rewrite Hperm in Hr.
    assert (Hv : ValidatePlugin (Some runtimePlugin) = Ok tt) by by apply plugin_validates.
    eexists. split; [exact E|]. split; [|split].
    + unfold ValidateAndRegister. rewrite Hv. apply Register_fresh; [done|]. rewrite Hr. vm_compute. reflexivity.
    + rewrite Hr. apply (bool_decide_unpack _). vm_compute. exact I.
    + apply (map_Forall_insert_2 _ (plugins r)); [split; [done|by apply ValidatePlugin_ok]|]. rewrite Hr.
      intros n p Hp. apply elem_of_list_to_map_2, list_elem_of_fmap in Hp as (q & [= -> ->] & Hq).
      apply list_elem_of_fmap in Hq as (k & -> & _). split; [done|]. apply ValidatePlugin_ok, package_validates.
  - clear Hd. assert (Hin : PNetworking ∈ ps) by (rewrite Hps; set_solver).
    clear Hps. revert Hin. generalize (NewRegistry (CRD := CRD)). induction ps as [|p ps IH]; intros r Hin; [by apply elem_of_nil in Hin|].
    simpl. apply elem_of_cons in Hin as [<-|Hin]; [done|]. destruct (init (Err e) p r) as [r'|]; [|done]. simpl. by apply IH.
Qed.
End Plugins.

Lemma plugins_register_witness :
  ∃ r r' : pluginRegistry (CRD := ()),
    init_all (Ok (mkRuntimeContext "linux" "none" [])) [PStorage; PKernel; PNvidia; PNeuron; PNetworking] NewRegistry = Some r ∧
    ValidateAndRegister r (Some runtimePlugin) = Ok r' ∧ listed r' ≡ₚ agent_plugins.
Proof.
  assert (H : [PStorage; PKernel; PNvidia; PNeuron; PNetworking] ≡ₚ [PKernel; PNetworking; PNeuron; PNvidia; PStorage])
    by (apply (bool_decide_unpack _); vm_compute; exact I).
  destruct (plugins_register (CRD := ()) (Ok (mkRuntimeContext "linux" "none" [])) _ H) as (r & r' & E & E' & Hl & _).
  exists r, r'. split; [exact E|]. split; [exact E'|exact Hl].
Defined.
