(* ===== verification/Wiring.v ===== *)
(** * Wiring: how the monitors attach themselves to the manager (the [Register] methods of
    [monitors/kernel], [monitors/storage], [monitors/runtime], [monitors/networking],
    [monitors/neuron] and [monitors/nvidia]; [pkg/util/subscription.go]).

    A registration subscribes to streams of lines through the manager and starts
    goroutines, each of which runs a handler on the items of a channel or at the ticks of
    a timer.  A registration is a computation on the manager and the list of the
    goroutines started so far; its rules are those of total Hoare triples. *)

From S2P Require Import Prelude GoStrings Paths Monitor Observer Registry Exporter Manager Probe IPRoutes Networking.
From S2P Require Import Neuron NvidiaMonitor Config Startup.

(** ** Goroutines *)

(** The handlers of the monitors, by the method or the closure they run. *)
Inductive handler :=
| KernelDmesg | KernelKubelet | KernelCron | KernelPids | KernelZombies | KernelOpenedFiles | KernelEnvironment
| KernelZram | KernelClockSync
| StorageVarLogMessages | StorageKubeletLogs | StorageBlockDeviceIOErrors | StorageXFS | StorageIODelays
| StorageCacheCleanup | StorageEBSThrottles
| RuntimeKubelet | RuntimeSystemd | RuntimeContainerd | RuntimeSystemdServices
| NetworkingIPAMDLogs | NetworkingKubeProxy (path : string) | NetworkingNPALogs | NetworkingEthtool
| NetworkingIPRulesAndRoutes | NetworkingIPTables | NetworkingInterfaces | NetworkingSysctl | NetworkingIPAMD
| NetworkingMACAddressPolicy | NetworkingProbe (runner : Runner) | NetworkingNPAState | NetworkingCorefile
| NetworkingEFA | NetworkingCriCacheCleanup | NetworkingInterfaceCacheCleanup
| NeuronDmesg
| NvidiaLoop (l : loop).

(** A channel is the observer's identifier and the index of the subscriber. *)
Inductive source := FromChannel (ch : string * nat) | Every (d : Duration) | Always.
Abbreviation goroutine := (source * handler)%type.

(** ** Registrations *)

Inductive regError := SubscribeFailed (e : SubscribeError) | ProbeRejected (e : SpecError).

Abbreviation manager := (MonitorManager nodeExporter).
Definition reg (A : Type) : Type := manager → list goroutine → manager * list goroutine * result regError A.

Definition ret {A} (a : A) : reg A := λ m gs, (m, gs, Ok a).
Definition fails {A} (e : regError) : reg A := λ m gs, (m, gs, Err e).
Definition bind {A B} (r : reg A) (k : A → reg B) : reg B :=
  λ m gs, match r m gs with
          | (m, gs, Ok a) => k a m gs
          | (m, gs, Err e) => (m, gs, Err e)
          end.

Declare Scope reg_scope.
Notation "x '<~' r ';;' k" := (bind r (λ x, k)) (at level 100, r at next level, right associativity) : reg_scope.
Notation "r ';;~' k" := (bind r (λ _, k)) (at level 100, right associativity) : reg_scope.
Local Open Scope reg_scope.

Definition spawn (g : goroutine) : reg () := λ m gs, (m, gs ++ [g], Ok tt).
Definition spawn_all (l : list goroutine) : reg () := foldr (λ g r, spawn g;;~ r) (ret tt) l.

Section Registrations.
(** The environment of the process, and its runtime context. *)
Context (env : string → option string) (rc : RuntimeContext).

Definition kmsg : string := ToHostPath env "/dev/kmsg".

Definition subscribe (t : ResourceType) (parts : list Part) : reg (string * nat) :=
  λ m gs, match SubscribeResource kmsg m t parts with
          | (m, Ok ch) => (m, gs, Ok ch)
          | (m, Err e) => (m, gs, Err (SubscribeFailed e))
          end.

(** [NewChannelHandlerFromSubscriptionArgs] and the start of the handler. *)
Definition attach (arg : ResourceType * list Part * handler) : reg () :=
  let '(t, parts, h) := arg in ch <~ subscribe t parts;; spawn (FromChannel ch, h).

Definition attach_all (args : list (ResourceType * list Part * handler)) : reg () :=
  foldr (λ arg r, attach arg;;~ r) (ret tt) args.

(** *** The kernel monitor *)

Definition kernelRegister : reg () :=
  dmesg <~ subscribe ResourceTypeDmesg [];;
  kubelet_log <~ subscribe ResourceTypeJournal ["kubelet"];;
  cron_log <~ subscribe ResourceTypeFile [ToHostPath env "/var/log/cron.log"];;
  spawn_all
    [(FromChannel dmesg, KernelDmesg); (FromChannel kubelet_log, KernelKubelet); (FromChannel cron_log, KernelCron);
     (Every (5 * Minute), KernelPids); (Every (5 * Minute), KernelZombies); (Every (5 * Minute), KernelOpenedFiles);
     (Every (5 * Minute), KernelEnvironment); (Every (5 * Minute), KernelZram); (Every (5 * Minute), KernelClockSync)].

(** *** The storage monitor *)

Definition SystemMessagesPath : string := ToHostPath env "/var/log/messages".
Definition IODelayCacheDefaultExpirationTime : Duration := 15 * Minute.

Definition storageRegister : reg () :=
  var_log_messages <~ subscribe ResourceTypeFile [SystemMessagesPath];;
  kubelet_logs <~ subscribe ResourceTypeJournal ["kubelet"];;
  dmesg <~ subscribe ResourceTypeDmesg [];;
  spawn_all
    [(FromChannel var_log_messages, StorageVarLogMessages); (FromChannel kubelet_logs, StorageKubeletLogs);
     (FromChannel dmesg, StorageBlockDeviceIOErrors); (Every (10 * Minute), StorageXFS);
     (Every (10 * Minute), StorageIODelays)];;~
  spawn (Every IODelayCacheDefaultExpirationTime, StorageCacheCleanup);;~
  spawn (Every (10 * Minute), StorageEBSThrottles).

(** *** The container runtime monitor *)

Definition Bottlerocket : string := "bottlerocket".
Definition hasTag (t : string) : bool := bool_decide (t ∈ tags rc).

Definition runtimeRegister : reg () :=
  attach_all
    [(ResourceTypeJournal, ["kubelet"], RuntimeKubelet); (ResourceTypeJournal, ["systemd"], RuntimeSystemd)];;~
  spawn (Every Hour, RuntimeContainerd);;~
  if negb (hasTag Bottlerocket) || hasTag EKSAuto then spawn (Every (5 * Minute), RuntimeSystemdServices) else ret tt.

(** *** The networking monitor *)

Definition IPAMDLogPath : string := ToHostPath env "/var/log/aws-routed-eni/ipamd.log".
Definition NPALogPath : string := ToHostPath env "/var/log/aws-routed-eni/network-policy-agent.log".
Definition criIPCacheTTL : Duration := 2 * Hour.
Definition interfaceMonitorPeriod : Duration := 5 * Minute.
Definition interfaceCacheTTL : Duration := interfaceMonitorPeriod * 2.

(** An entry of the walk of the directory of pod logs. *)
Record walkEntry := mkWalkEntry { walkPath : string; walkIsDir : bool; walkFailed : bool }.

Definition kubeProxyLogs (entries : list walkEntry) : list (ResourceType * list Part * handler) :=
  (λ e, (ResourceTypeFile, [walkPath e], NetworkingKubeProxy (walkPath e))) <$>
    filter (λ e, walkFailed e = false ∧ walkIsDir e = false ∧ Contains (walkPath e) "kube-proxy" = true) entries.

Definition start_probes (specs : list Spec) : reg () :=
  foldr (λ s r, match NewRunner s with
                | Ok runner => spawn (Every (Interval s), NetworkingProbe runner);;~ r
                | Err e => fails (ProbeRejected e)
                end) (ret tt) specs.

(** [podLogs] is the walk, [loadState] the answer of systemd about the Corefile agent. *)
Definition networkingRegister (podLogs : list walkEntry) (loadState : option string) : reg () :=
  spawn (Every criIPCacheTTL, NetworkingCriCacheCleanup);;~
  spawn (Every interfaceCacheTTL, NetworkingInterfaceCacheCleanup);;~
  let npaEnabled := hasTag EKSAuto in
  attach_all
    ([(ResourceTypeFile, [IPAMDLogPath], NetworkingIPAMDLogs)] ++ kubeProxyLogs podLogs ++
     if npaEnabled then [(ResourceTypeFile, [NPALogPath], NetworkingNPALogs)] else []);;~
  spawn_all
    [(Every (5 * Minute), NetworkingEthtool); (Every (5 * Minute), NetworkingIPRulesAndRoutes);
     (Every (5 * Minute), NetworkingIPTables); (Every interfaceMonitorPeriod, NetworkingInterfaces);
     (Every (5 * Minute), NetworkingSysctl); (Every (5 * Minute), NetworkingIPAMD);
     (Every (5 * Minute), NetworkingMACAddressPolicy)];;~
  start_probes (probeSpecs (tags rc));;~
  (if npaEnabled then spawn (Every (5 * Minute), NetworkingNPAState) else ret tt);;~
  (if hasTag EKSAuto && agentInstalled loadState then spawn (Every (30 * Second), NetworkingCorefile) else ret tt);;~
  spawn (Every Minute, NetworkingEFA).

(** *** The accelerator monitors *)

Definition neuronRegister : reg () :=
  dmesg <~ subscribe ResourceTypeDmesg [];; spawn_all [(FromChannel dmesg, NeuronDmesg)].

(** The loops start before the subscription; that of NCCL reads its channel. *)
Definition nvidiaRegister : reg () :=
  spawn_all ((λ l, (match period l with Some d => Every d | None => Always end, NvidiaLoop l)) <$>
    fst (NvidiaMonitor.Register (Err EmptyString)));;~
  kmsg_ <~ subscribe ResourceTypeDmesg [];; spawn (FromChannel kmsg_, NvidiaLoop LNccl).

Definition monitorRegister (podLogs : list walkEntry) (loadState : option string) (name : string) : reg () :=
  if String.eqb name "kernel" then kernelRegister
  else if String.eqb name "storage" then storageRegister
  else if String.eqb name "container-runtime" then runtimeRegister
  else if String.eqb name "networking" then networkingRegister podLogs loadState
  else if String.eqb name "neuron" then neuronRegister
  else if String.eqb name "nvidia" then nvidiaRegister
  else ret tt.

(** [Register] of a monitor, as the manager calls it: goroutines aside. *)
Definition reg_error (e : regError) : string :=
  match e with
  | SubscribeFailed (NotHandled t) => "the resource type " +:+ Quote t +:+ " was not handled"
  | SubscribeFailed (PartCount want got) =>
      "part count must be " +:+ Itoa (Z.of_nat want) +:+ ", but was " +:+ Itoa (Z.of_nat got)
  | ProbeRejected _ => "invalid probe spec"
  end.

Definition agentRegister (podLogs : list walkEntry) (loadState : option string) (name : string) (m : manager)
    : manager * result string unit :=
  match monitorRegister podLogs loadState name m [] with
  | (m', _, Ok _) => (m', Ok tt)
  | (m', _, Err e) => (m', Err (reg_error e))
  end.

(** The registration of all monitors, with the goroutines. *)
Definition set_type (name : string) (t : NodeConditionType) : reg () :=
  λ m gs, (set_types m ({[name]} ∪ monitors m) (<[name := t]> (conditionTypeMap m)), gs, Ok tt).

Definition wire_all (podLogs : list walkEntry) (loadState : option string) (hardware : string) (names : list string) : reg () :=
  foldr (λ name r, match conditionType_of hardware name with
                   | None => r
                   | Some t => (set_type name t;;~ monitorRegister podLogs loadState name);;~ r
                   end) (ret tt) names.

(** ** The rules *)

(** The stream a handler is written for, [None] for those that run at the ticks of a timer. *)
Definition wants (h : handler) : option (ResourceType * list Part) :=
  match h with
  | KernelDmesg | StorageBlockDeviceIOErrors | NeuronDmesg | NvidiaLoop LNccl => Some (ResourceTypeDmesg, [])
  | KernelKubelet | StorageKubeletLogs | RuntimeKubelet => Some (ResourceTypeJournal, ["kubelet"])
  | RuntimeSystemd => Some (ResourceTypeJournal, ["systemd"])
  | KernelCron => Some (ResourceTypeFile, [ToHostPath env "/var/log/cron.log"])
  | StorageVarLogMessages => Some (ResourceTypeFile, [ToHostPath env "/var/log/messages"])
  | NetworkingIPAMDLogs => Some (ResourceTypeFile, [ToHostPath env "/var/log/aws-routed-eni/ipamd.log"])
  | NetworkingKubeProxy path => Some (ResourceTypeFile, [path])
  | NetworkingNPALogs => Some (ResourceTypeFile, [ToHostPath env "/var/log/aws-routed-eni/network-policy-agent.log"])
  | _ => None
  end.

Definition channel_of (g : goroutine) : option (string * nat) := match g.1 with FromChannel ch => Some ch | _ => None end.
Definition served (gs : list goroutine) : list (string * nat) := omap channel_of gs.

(** The channels that observers write to. *)
Definition attached (m : manager) (ch : string * nat) : Prop :=
  ∃ k o, observers m !! ch.1 = Some (k, o) ∧ (ch.2 < length (subscribers o))%nat.

(** A goroutine reads the stream its handler is written for. *)
Definition well_wired (g : goroutine) : Prop :=
  match channel_of g, wants g.2 with
  | Some ch, Some (t, parts) => ch.1 = resourceID t parts ∧ is_ok (construct kmsg t parts) = true
  | None, None => True
  | _, _ => False
  end.

(** [pending] are the channels that are subscribed to and not read yet. *)
Record wired (m : manager) (gs : list goroutine) (pending : list (string * nat)) : Prop := {
  wired_observers : observers_ok kmsg m;
  wired_once : NoDup (served gs ++ pending);
  wired_attached : ∀ ch, attached m ch ↔ ch ∈ served gs ++ pending;
  wired_empty : map_Forall (λ _ ko, Forall (λ l, l = []) (subscribers ko.2)) (observers m);
  wired_handlers : Forall well_wired gs
}.

(** From a wired state the computation succeeds, in a wired state. *)
Definition triple {A} (pending : list (string * nat)) (r : reg A) (post : A → list (string * nat) → Prop) : Prop :=
  ∀ m gs, wired m gs pending →
    ∃ m' gs' a pending', r m gs = (m', gs', Ok a) ∧ wired m' gs' pending' ∧ post a pending'.

Lemma t_ret {A} pending (a : A) (post : A → list (string * nat) → Prop) : post a pending → triple pending (ret a) post.
Proof. intros Hp m gs Hw. by exists m, gs, a, pending. Qed.

Lemma t_bind {A B} pending (r : reg A) (k : A → reg B) mid (post : B → list (string * nat) → Prop) :
  triple pending r mid → (∀ a p, mid a p → triple p (k a) post) → triple pending (bind r k) post.
Proof.
  intros Hr Hk m gs Hw. destruct (Hr m gs Hw) as (m1 & gs1 & a & p1 & E1 & Hw1 & Hm).
  destruct (Hk a p1 Hm m1 gs1 Hw1) as (m2 & gs2 & b & p2 & E2 & Hw2 & Hp).
  exists m2, gs2, b, p2. unfold bind. by rewrite E1, E2.
Qed.

Lemma t_post {A} pending (r : reg A) (p q : A → list (string * nat) → Prop) :
  triple pending r p → (∀ a l, p a l → q a l) → triple pending r q.
Proof. intros Hr Hpq m gs Hw. destruct (Hr m gs Hw) as (m' & gs' & a & l & ? & ? & ?). exists m', gs', a, l. eauto. Qed.

(** A subscription adds one channel, which nobody reads yet. *)
Lemma t_subscribe pending t parts :
  is_ok (construct kmsg t parts) = true →
  triple pending (subscribe t parts) (λ ch p, p = ch :: pending ∧ ch.1 = resourceID t parts).
Proof.
  intros Hok m gs [Ho Hn Ha He Hh]. unfold subscribe.
  set (id := resourceID t parts).
  assert (Hs : ∃ k o, SubscribeResource kmsg m t parts =
      (set_observers m (<[id := (k, (Subscribe o).1)]> (observers m)), Ok (id, length (subscribers o))) ∧
      (observers m !! id = Some (k, o) ∨ observers m !! id = None ∧ subscribers o = [])).
  { unfold SubscribeResource. fold id. destruct (observers m !! id) as [[k o]|] eqn:E; [by exists k, o; auto|].
    destruct (construct kmsg t parts) as [k|]; [|done]. exists k, (mkBaseObserver []). auto. }
  destruct Hs as (k & o & Es & Hold). rewrite Es.
  eexists _, gs, _, _. split; [done|]. split; [|done].
  pose proof (SubscribeResource_ok kmsg m t parts Ho) as Ho'. rewrite Es in Ho'.
  assert (Hnew : ¬ attached m (id, length (subscribers o))).
  { intros (k' & o' & Eo & Hlt). simpl in Eo, Hlt. destruct Hold as [Hold|[Hold _]]; rewrite Hold in Eo; simplify_eq. lia. }
  split; [done| | | |done].
  - apply (NoDup_Permutation_proper _ ((id, length (subscribers o)) :: served gs ++ pending)); [by rewrite Permutation_middle|].
    constructor; [|done]. by rewrite <- Ha.
  - intros [id' i]. rewrite <- Permutation_middle, elem_of_cons, <- Ha. unfold attached. simpl.
    destruct (decide (id' = id)) as [->|Hne].
    + rewrite lookup_insert_eq. split.
      * intros (k' & o' & [= <- <-] & Hlt). simpl in Hlt. rewrite length_app in Hlt. simpl in Hlt.
        destruct (decide (i = length (subscribers o))) as [->|]; [by left|right].
        destruct Hold as [Hold|[_ Hold]]; [|rewrite Hold in *; simpl in *; lia]. exists k, o. split; [done|lia].
      * intros [[= ->]|(k' & o' & Eo & Hlt)]; eexists k, _; (split; [done|]); simpl; rewrite length_app; simpl; [lia|].
        destruct Hold as [Hold|[Hold _]]; rewrite Hold in Eo; simplify_eq. lia.
    + rewrite lookup_insert_ne by done. split; [by right|]. by intros [[= -> ->]|].
  - simpl. apply map_Forall_insert_2; [|done]. simpl. apply Forall_app. split; [|by repeat constructor].
    destruct Hold as [Hold|[_ ->]]; [exact (He _ _ Hold)|constructor].
Qed.

Lemma served_app gs gs' : served (gs ++ gs') = served gs ++ served gs'.
Proof. apply omap_app. Qed.

#[local] Instance wired_perm m gs : Proper (Permutation ==> iff) (wired m gs).
Proof.
  assert (H : ∀ p q, p ≡ₚ q → wired m gs p → wired m gs q).
  { intros p q Hpq [Ho Hn Ha He Hh]. split; [done|by rewrite <- Hpq| |done..]. intros ch. by rewrite <- Hpq. }
  intros p q Hpq. by split; apply H.
Qed.

(** Starting goroutines serves the channels they read. *)
Lemma t_spawn_all pending pending' l :
  Forall well_wired l → pending ≡ₚ served l ++ pending' → triple pending (spawn_all l) (λ _ p, p = pending').
Proof.
  intros Hl Hp m gs Hw. rewrite Hp in Hw. exists m, (gs ++ l), tt, pending'.
  assert (E : spawn_all l m gs = (m, gs ++ l, Ok tt)).
  { clear. revert gs. induction l as [|g l IH]; intros gs; simpl; [by rewrite app_nil_r|].
    unfold bind, spawn. rewrite IH. by rewrite <- app_assoc. }
  split; [done|]. split; [|done]. destruct Hw as [Ho Hn Ha He Hh]. split; [done| | |done|by apply Forall_app].
  - by rewrite served_app, <- app_assoc.
  - intros ch. by rewrite served_app, <- app_assoc.
Qed.

Lemma t_spawn pending pending' g :
  well_wired g → pending ≡ₚ served [g] ++ pending' → triple pending (spawn g) (λ _ p, p = pending').
Proof. intros Hg Hp m gs. apply (t_spawn_all pending pending' [g]); auto. Qed.

Lemma t_attach arg :
  wants arg.2 = Some arg.1 → is_ok (construct kmsg arg.1.1 arg.1.2) = true → triple [] (attach arg) (λ _ p, p = []).
Proof.
  destruct arg as [[t parts] h]. simpl. intros Hh Hok. eapply t_bind; [by apply t_subscribe|].
  intros ch p [-> Hch]. apply t_spawn; [|done]. unfold well_wired. simpl. by rewrite Hh.
Qed.

Lemma t_attach_all args :
  Forall (λ arg, wants arg.2 = Some arg.1 ∧ is_ok (construct kmsg arg.1.1 arg.1.2) = true) args →
  triple [] (attach_all args) (λ _ p, p = []).
Proof.
  induction 1 as [|arg args [Hw Hok] _ IH]; [by apply t_ret|].
  eapply t_bind; [by apply t_attach|]. by intros _ p ->.
Qed.

(** A timer alone. *)
Lemma t_timer pending d h : wants h = None → triple pending (spawn (Every d, h)) (λ _ p, p = pending).
Proof. intros Hh. apply t_spawn; [|done]. unfold well_wired. simpl. by rewrite Hh. Qed.

Lemma t_timer_if pending (b : bool) d h :
  wants h = None → triple pending (if b then spawn (Every d, h) else ret tt) (λ _ p, p = pending).
Proof. intros Hh. destruct b; [by apply t_timer|by apply t_ret]. Qed.

Lemma t_probes pending specs :
  Forall (λ s, Probe.Validate s = Ok tt) specs → triple pending (start_probes specs) (λ _ p, p = pending).
Proof.
  induction 1 as [|s specs Hs _ IH]; [by apply t_ret|]. simpl. unfold NewRunner. rewrite Hs. simpl.
  eapply t_bind; [by apply t_timer|]. by intros _ p ->.
Qed.

Local Ltac subscribes := eapply t_bind; [by apply t_subscribe|]; intros ? ? [-> ?].
Local Ltac starts := apply t_spawn_all; [repeat constructor; done|simpl; solve_Permutation].
Local Ltac on tac := eapply t_bind; [tac|]; intros ? ? ->.

Lemma kernelRegister_ok : triple [] kernelRegister (λ _ p, p = []).
Proof. do 3 subscribes. starts. Qed.

Lemma storageRegister_ok : triple [] storageRegister (λ _ p, p = []).
Proof. do 3 subscribes. on starts. on ltac:(by apply t_timer). by apply t_timer. Qed.

Lemma runtimeRegister_ok : triple [] runtimeRegister (λ _ p, p = []).
Proof. on ltac:(apply t_attach_all; by repeat constructor). on ltac:(by apply t_timer). by apply t_timer_if. Qed.

Lemma networkingRegister_ok podLogs loadState : triple [] (networkingRegister podLogs loadState) (λ _ p, p = []).
Proof.
  do 2 on ltac:(by apply t_timer).
  eapply t_bind; [apply t_attach_all|intros ? ? ->].
  { apply Forall_app. split; [by repeat constructor|]. apply Forall_app. split; [|destruct (hasTag _); by repeat constructor].
    apply Forall_fmap, Forall_true. done. }
  on starts. on ltac:(apply t_probes, probeSpecs_valid). do 2 on ltac:(by apply t_timer_if). by apply t_timer.
Qed.

Lemma neuronRegister_ok : triple [] neuronRegister (λ _ p, p = []).
Proof. subscribes. starts. Qed.

Lemma nvidiaRegister_ok : triple [] nvidiaRegister (λ _ p, p = []).
Proof. on starts. subscribes. apply t_spawn; [done|]. simpl. solve_Permutation. Qed.

Lemma monitorRegister_ok podLogs loadState name : triple [] (monitorRegister podLogs loadState name) (λ _ p, p = []).
Proof.
  unfold monitorRegister. repeat case_match;
    eauto using kernelRegister_ok, storageRegister_ok, runtimeRegister_ok, networkingRegister_ok, neuronRegister_ok,
      nvidiaRegister_ok. by apply t_ret.
Qed.

Lemma wire_all_ok podLogs loadState hardware names :
  triple [] (wire_all podLogs loadState hardware names) (λ _ p, p = []).
Proof.
  induction names as [|name names IH]; [by apply t_ret|]. simpl. destruct (conditionType_of hardware name) as [t|]; [|done].
  apply (t_bind _ _ _ (λ _ p, p = [])); [|by intros _ p ->].
  apply (t_bind _ _ _ (λ _ p, p = [])); [|intros ? ? ->; apply monitorRegister_ok].
  intros m gs [Ho Hn Ha He Hh]. by exists (set_types m ({[name]} ∪ monitors m) (<[name:=t]> (conditionTypeMap m))), gs, tt, [].
Qed.

Definition same_rest (m m' : manager) : Prop :=
  exporter m' = exporter m ∧ notifyChan m' = notifyChan m ∧ conditionCountMap m' = conditionCountMap m.

(** What a registration does to the manager does not depend on the goroutines, and leaves
    all but the observers alone. *)
Record uniform {A} (r : reg A) : Prop := {
  uni_goroutines : ∀ m gs gs', (r m gs).1.1 = (r m gs').1.1 ∧ (r m gs).2 = (r m gs').2;
  uni_types : ∀ m gs, conditionTypeMap (r m gs).1.1 = conditionTypeMap m ∧ same_rest m (r m gs).1.1
}.

Lemma uniform_bind {A B} (r : reg A) (k : A → reg B) : uniform r → (∀ a, uniform (k a)) → uniform (bind r k).
Proof.
  intros [Hg Ht] Hk. split.
  - intros m gs gs'. unfold bind. destruct (Hg m gs gs') as [E1 E2].
    destruct (r m gs) as [[m1 g1] [a|e]], (r m gs') as [[m2 g2] [b|e']]; simpl in *; simplify_eq; try done. by apply Hk.
  - intros m gs. unfold bind. destruct (Ht m gs) as [E1 E2]. destruct (r m gs) as [[m1 g1] [a|e]]; simpl in *; [|done].
    destruct (Hk a) as [_ Hk']. destruct (Hk' m1 g1) as [E3 E4]. unfold same_rest in *. intuition congruence.
Qed.

Lemma uniform_ret {A} (a : A) : uniform (ret a). Proof. done. Qed.
Lemma uniform_fails {A} e : uniform (@fails A e). Proof. done. Qed.
Lemma uniform_spawn g : uniform (spawn g). Proof. done. Qed.
Lemma uniform_subscribe t parts : uniform (subscribe t parts).
Proof.
  split; intros m gs; [intros gs'|]; unfold subscribe, SubscribeResource;
    (destruct (observers m !! _) as [[k o]|]; [|destruct (construct _ _ _)]); done.
Qed.

Lemma uniform_foldr {A} (f : A → reg () → reg ()) l :
  (∀ a r, uniform r → uniform (f a r)) → uniform (foldr f (ret tt) l).
Proof. intros Hf. induction l; simpl; [apply uniform_ret|auto]. Qed.

Lemma uniform_spawn_all l : uniform (spawn_all l).
Proof. apply uniform_foldr. intros g r Hr. apply uniform_bind; [apply uniform_spawn|done]. Qed.

Lemma uniform_attach_all l : uniform (attach_all l).
Proof.
  apply uniform_foldr. intros [[t parts] h] r Hr. repeat apply uniform_bind; intros; eauto using uniform_bind, uniform_subscribe, uniform_spawn.
Qed.

Lemma uniform_probes l : uniform (start_probes l).
Proof.
  apply uniform_foldr. intros s r Hr. destruct (NewRunner s); [apply uniform_bind; [apply uniform_spawn|done]|apply uniform_fails].
Qed.

Lemma monitorRegister_uniform podLogs loadState name : uniform (monitorRegister podLogs loadState name).
Proof.
  unfold monitorRegister. repeat case_match;
    unfold kernelRegister, storageRegister, runtimeRegister, networkingRegister, neuronRegister, nvidiaRegister;
    repeat first
      [ apply uniform_spawn_all | apply uniform_attach_all | apply uniform_probes | apply uniform_subscribe
      | apply uniform_spawn | apply uniform_ret | apply uniform_bind; [|intros ?] | case_match ].
Qed.

Lemma agentRegister_keeps podLogs loadState : reg_keeps (agentRegister podLogs loadState).
Proof.
  intros name m. unfold agentRegister. destruct (monitorRegister_uniform podLogs loadState name) as [_ Ht].
  destruct (Ht m []) as [? [? _]]. by destruct (monitorRegister _ _ _ m []) as [[m' gs] [a|e]].
Qed.

(** The loop of the agent registers what [wire_all] does. *)
Lemma register_all_wire podLogs loadState hardware names m gs m' gs' :
  wire_all podLogs loadState hardware names m gs = (m', gs', Ok tt) →
  register_all (agentRegister podLogs loadState) hardware names m = (m', Ok tt).
Proof.
  revert m gs. induction names as [|name names IH]; intros m gs; [by intros [= -> ->]|].
  simpl. destruct (conditionType_of hardware name) as [t|]; [|apply IH].
  unfold bind, set_type, Manager.Register, agentRegister.
  set (m0 := set_types m _ _). destruct (monitorRegister_uniform podLogs loadState name) as [Hg _].
  destruct (Hg m0 gs []) as [E1 E2].
  destruct (monitorRegister podLogs loadState name m0 gs) as [[m1 g1] [[]|e]]; [|done].
  destruct (monitorRegister podLogs loadState name m0 []) as [[m2 g2] [[]|e]]; simpl in *; [|done]. subst. apply IH.
Qed.

(** ** The agent *)

(** Each monitor reports to a condition that the exporter manages and shows True, and each
    managed condition has a monitor that reports to it. *)
Definition coherent (m : manager) : Prop :=
  (∀ name t, conditionTypeMap m !! name = Some t →
     ∃ c, managedConditions (exporter m) !! t = Some c ∧ ncStatus c = ConditionTrue) ∧
  (∀ t c, managedConditions (exporter m) !! t = Some c → ∃ name, conditionTypeMap m !! name = Some t).

(** A goroutine reads a channel of the observer of the stream its handler is written for, or
    runs at the ticks of a timer when its handler needs no stream. *)
Definition fed (m : manager) (g : goroutine) : Prop :=
  match wants g.2 with
  | None => channel_of g = None
  | Some (t, parts) =>
      ∃ i k o, g.1 = FromChannel (resourceID t parts, i) ∧ construct kmsg t parts = Ok k ∧
        observers m !! resourceID t parts = Some (k, o) ∧ (i < length (subscribers o))%nat
  end.

Lemma wired_fed m gs : wired m gs [] → Forall (fed m) gs.
Proof.
  intros [Ho Hn Ha _ Hh]. rewrite app_nil_r in Ha. rewrite Forall_forall in *. intros g Hg. specialize (Hh g Hg).
  unfold well_wired, fed in *. destruct (channel_of g) as [[id i]|] eqn:Ec; destruct (wants g.2) as [[t parts]|]; try done.
  simpl in Hh. destruct Hh as [-> Hok]. destruct (construct kmsg t parts) as [k|] eqn:Ek; [|done].
  assert (Hat : attached m (resourceID t parts, i)) by (apply Ha, list_elem_of_omap; by exists g).
  destruct Hat as (k' & o & Eo & Hlt). exists i, k, o. simpl in *. split; [|split; [done|]].
  - destruct g as [[ch| |] h]; unfold channel_of in Ec; simpl in *; congruence.
  - destruct (Ho _ _ Eo) as (t0 & p0 & Hc & Hid). simpl in Hc.
    destruct (resourceID_inj_construct kmsg t0 p0 t parts k' k) as [-> ->]; try done. rewrite Ek in Hc. by simplify_eq.
Qed.

Lemma wired_new e : wired (NewMonitorManager e) [] [].
Proof.
  split; [intros ? ?; simpl; by rewrite lookup_empty|constructor| |intros ? ?; simpl; by rewrite lookup_empty|constructor].
  intros ch. split; [|by intros ?%elem_of_nil]. intros (k & o & Eo & _). simpl in Eo. by rewrite lookup_empty in Eo.
Qed.

(** The registration of all monitors leaves the exporter, the counts and the channel of
    notifications as they were. *)
Lemma wire_all_frame podLogs loadState hardware names m gs : same_rest m (wire_all podLogs loadState hardware names m gs).1.1.
Proof.
  revert m gs. induction names as [|name names IH]; intros m gs; [done|]. simpl.
  destruct (conditionType_of hardware name) as [t|]; [|apply IH]. unfold bind, set_type.
  set (m0 := set_types m _ _). destruct (monitorRegister_uniform podLogs loadState name) as [_ Hf].
  destruct (Hf m0 gs) as [_ Hr]. destruct (monitorRegister podLogs loadState name m0 gs) as [[m1 g1] [[]|e]]; [|done].
  specialize (IH m1 g1). unfold same_rest in *. simpl in *. intuition congruence.
Qed.

(** C3. The agent starts: once its configuration is loaded and accepted, the registration
    of every monitor succeeds, whatever the configuration, the hardware, the host and the
    order of the plugins; the agent is ready, and its state is coherent.  Each channel
    that an observer writes to is read by exactly one goroutine, and the goroutines of
    the monitors read the streams their handlers are written for. *)
Theorem agent_starts plugins cfg takes refuses now podLogs loadState :
  plugins ≡ₚ agent_plugins →
  is_ok (inject_all takes refuses cfg (enabledMonitors cfg plugins)) = true →
  ∃ m gs,
    start plugins rc (Ok cfg) takes refuses (agentRegister podLogs loadState) now = Ok (m, true) ∧
    wire_all podLogs loadState (acceleratedHardware rc) (enabledMonitors cfg plugins)
      (NewMonitorManager (NewNodeExporter now (conditionConfigs_of cfg (acceleratedHardware rc)))) [] = (m, gs, Ok tt) ∧
    coherent m ∧ NoDup (served gs) ∧ (∀ ch, attached m ch ↔ ch ∈ served gs) ∧ Forall (fed m) gs.
Proof.
  intros Hpl Hinj. set (hw := acceleratedHardware rc). set (e := NewNodeExporter now _).
  destruct (wire_all_ok podLogs loadState hw (enabledMonitors cfg plugins) (NewMonitorManager e) [])
    as (m & gs & [] & p & Ew & Hw & ->).
  { apply wired_new. }
  assert (Hs : start plugins rc (Ok cfg) takes refuses (agentRegister podLogs loadState) now = Ok (m, true)).
  { unfold start. simpl. destruct (inject_all takes refuses cfg _); [|done]. simpl. fold hw e.
    by rewrite (register_all_wire _ _ _ _ _ _ _ _ Ew). }
  exists m, gs. split; [done|]. split; [done|].
  destruct (start_coherent plugins rc (Ok cfg) takes refuses _ now m true Hpl (agentRegister_keeps podLogs loadState) Hs)
    as (_ & Hc1 & Hc2).
  pose proof (wired_fed _ _ Hw) as Hf. destruct Hw as [_ Hn Ha _ _]. rewrite app_nil_r in Hn, Ha. done.
Qed.

End Registrations.

(** ** A concrete agent *)

Definition ex_env : string → option string := λ _, None.
Definition ex_auto : RuntimeContext := mkRuntimeContext "bottlerocket" "nvidia" ["bottlerocket"; "eks-auto"; "nvidia"].
Definition ex_pods : list walkEntry :=
  [mkWalkEntry "/var/log/pods/kube-system_kube-proxy-x_1/kube-proxy" true false;
   mkWalkEntry "/var/log/pods/kube-system_kube-proxy-x_1/kube-proxy/0.log" false false;
   mkWalkEntry "/var/log/pods/default_web_2/web/0.log" false false].

Abbreviation ex_wired hw := (wire_all ex_env ex_auto ex_pods None hw (enabledMonitors None agent_plugins)
  (NewMonitorManager (NewNodeExporter 0 (conditionConfigs_of None hw))) []).

Lemma agent_starts_witness :
  ∃ m gs, start agent_plugins ex_auto (Ok None) (λ _ _, true) (λ _ _, None) (agentRegister ex_env ex_auto ex_pods None) 0 = Ok (m, true) ∧
    attached m ("dmesg", 2%nat) ∧ ¬ attached m ("dmesg", 3%nat) ∧ length (served gs) = 12%nat.
Proof.
  destruct (agent_starts ex_env ex_auto agent_plugins None (λ _ _, true) (λ _ _, None) 0 ex_pods None)
    as (m & gs & Hs & Ew & _ & _ & Ha & _); [reflexivity|vm_compute; reflexivity|].
  assert (Eg : served (ex_wired "nvidia").1.2 = served gs) by (change "nvidia" with (acceleratedHardware ex_auto); rewrite Ew; reflexivity).
  exists m, gs. split; [exact Hs|]. rewrite !Ha. clear Ha Ew Hs. generalize dependent (served gs). intros l Eg. vm_compute in Eg. subst l. split; [|split; [|reflexivity]].
  - by apply (bool_decide_unpack _).
  - by apply (bool_decide_unpack _).
Defined.
