(* ===== verification/System.v ===== *)
(** * System: the agent as a whole ([cmd/eks-node-monitoring-agent/main.go],
    [pkg/manager/manager.go], [pkg/observer], [pkg/util/subscription.go]).

    The observers broadcast lines; each goroutine of a monitor takes the lines of its
    channel, or the ticks of its timer, and notifies what its handler finds, one condition
    after the other; the loop of the manager takes the notifications and passes them to the
    exporter, which reports to the API server.  A run is any interleaving of these
    steps.  The handlers are arguments: each has a state, is given the line and what it
    reads of the host, and may panic, which ends the process.  The fields [taken], [queued], [exported] and [lines] record the
    history, for the theorems. *)

From S2P Require Import Prelude GoStrings Paths Monitor Observer Exporter ExporterSpec Manager Kernel Storage Runtime.
From S2P Require Import Networking Neuron NvidiaMonitor Config Startup Wiring.

(** The monitor a handler belongs to. *)
Definition monitor_of (h : handler) : string :=
  match h with
  | KernelDmesg | KernelKubelet | KernelCron | KernelPids | KernelZombies | KernelOpenedFiles | KernelEnvironment
  | KernelZram | KernelClockSync => "kernel"
  | StorageVarLogMessages | StorageKubeletLogs | StorageBlockDeviceIOErrors | StorageXFS | StorageIODelays
  | StorageCacheCleanup | StorageEBSThrottles => "storage"
  | RuntimeKubelet | RuntimeSystemd | RuntimeContainerd | RuntimeSystemdServices => "container-runtime"
  | NetworkingIPAMDLogs | NetworkingKubeProxy _ | NetworkingNPALogs | NetworkingEthtool | NetworkingIPRulesAndRoutes
  | NetworkingIPTables | NetworkingInterfaces | NetworkingSysctl | NetworkingIPAMD | NetworkingMACAddressPolicy
  | NetworkingProbe _ | NetworkingNPAState | NetworkingCorefile | NetworkingEFA | NetworkingCriCacheCleanup
  | NetworkingInterfaceCacheCleanup => "networking"
  | NeuronDmesg => "neuron"
  | NvidiaLoop _ => "nvidia"
  end.

(** ** Exporters *)

(** An exporter that differs in its events only. *)
Lemma implements_same cfgs e e' s :
  implements cfgs e s → conditionConfigs e' = conditionConfigs e → reportSeq e' = reportSeq e →
  fatalEntries e' = fatalEntries e → (∀ t, view e' t = view e t) → implements cfgs e' s.
Proof.
  intros (Hc & H0 & Hr & Hv & He) Ec Es Ef Ev. unfold implements. rewrite Ec, Es. split_and!; try done.
  - intros t. rewrite (entries_of_eq _ _ Ef). apply Hr.
  - intros t. by rewrite Ev.
Qed.

Lemma heartbeat_implements cfgs e now s : implements cfgs e s → implements cfgs (updateHeartbeatTimes e now) s.
Proof.
  intros Hi. apply (implements_same cfgs e); [done..|]. intros t. unfold view. simpl. rewrite lookup_fmap.
  by destruct (managedConditions e !! t).
Qed.

(** ** The state and the steps of the agent *)

Section Agent.
(** [St] is the state of a handler and [I] what it reads of the host and of the clock when it
    runs; the line is [None] at the tick of a timer.  A handler that is [None] panics. *)
Context {St I : Type} (handle : handler → option string → I → St → option (St * list Condition)).

Record process := mkProcess {
  gor : goroutine;
  pstate : St;
  pending : list Condition;        (* found, and not notified yet *)
  taken : list (option string * I) (* what it has run on *)
}.

Record agent := mkAgent {
  mgr : manager;
  processes : list process;
  apiNode : list NodeCondition;
  queued : list nat;                               (* the process of each notification in the channel *)
  exported : list (Time * nat * Condition);        (* what the loop has taken from it *)
  lines : list (string * string)                   (* the broadcasts *)
}.

Definition with_mgr (a : agent) (m : manager) : agent :=
  mkAgent m (processes a) (apiNode a) (queued a) (exported a) (lines a).
Definition with_process (a : agent) (k : nat) (p : process) : agent :=
  mkAgent (mgr a) (<[k := p]> (processes a)) (apiNode a) (queued a) (exported a) (lines a).

(** How the requests of a report end: a patch that fails may have been applied. *)
Inductive outcome := Applied | GetFailed (e : string) | PatchFailed (e : string) (applied : bool).

Inductive event :=
| Line (id line : string)             (* an observer broadcasts *)
| Run (k : nat) (i : I)               (* a goroutine handles the next line of its channel, or a tick *)
| Push (k : nat)                      (* and notifies *)
| Loop (now : Time)                   (* the loop of the manager takes a notification *)
| Heartbeat (now : Time)
| Report (order : list NodeCondition) (o : outcome)
| OtherClient (node : list NodeCondition).

Definition run_process (p : process) (line : option string) (i : I) : option process :=
  '(s, found) ← handle (gor p).2 line i (pstate p); Some (mkProcess (gor p) s found (taken p ++ [(line, i)])).

(** What a goroutine that has notified everything goes on with: the next line of its
    channel, if there is one, or a tick; and the manager after that. *)
Definition next_input (a : agent) (p : process) : option (option string * manager) :=
  match pending p, (gor p).1 with
  | [], FromChannel (id, ix) =>
      '(kind, o) ← observers (mgr a) !! id;
      '(line, o') ← receive o ix;
      Some (Some line, set_observers (mgr a) (<[id := (kind, o')]> (observers (mgr a))))
  | [], _ => Some (None, mgr a)
  | _ :: _, _ => None
  end.

(** The exporter's report, over the node that the API server holds. *)
Definition report (e : nodeExporter) (node order : list NodeCondition) (o : outcome) : nodeExporter * list NodeCondition :=
  let get := match o with GetFailed err => Err err | _ => Ok node end in
  let patch := λ _, match o with PatchFailed err _ => Err err | _ => Ok tt end in
  let '(e', sent, _) := reportManagedConditions e order get patch in
  (e', match sent, o with
       | Some conds, Applied => conds
       | Some conds, PatchFailed _ true => conds
       | _, _ => node
       end).

(** One step; one that is not enabled leaves the state as it is, [None] is a panic. *)
Definition step (a : agent) (ev : event) : option agent :=
  match ev with
  | Line id line =>
      Some match observers (mgr a) !! id with
           | Some (k, o) =>
               mkAgent (set_observers (mgr a) (<[id := (k, Broadcast o line)]> (observers (mgr a)))) (processes a) (apiNode a)
                 (queued a) (exported a) (lines a ++ [(id, line)])
           | None => a
           end
  | Run k i =>
      match processes a !! k with
      | Some p =>
          match next_input a p with
          | Some (line, m) => p' ← run_process p line i; Some (with_process (with_mgr a m) k p')
          | None => Some a
          end
      | None => Some a
      end
  | Push k =>
      Some match processes a !! k with
           | Some p =>
               match pending p with
               | c :: rest =>
                   match Notify (mgr a) (monitor_of (gor p).2) c with
                   | Some m => mkAgent m (<[k := mkProcess (gor p) (pstate p) rest (taken p)]> (processes a)) (apiNode a)
                                 (queued a ++ [k]) (exported a) (lines a)
                   | None => a
                   end
               | [] => a
               end
           | None => a
           end
  | Loop now =>
      match notifyChan (mgr a), queued a with
      | notif :: _, k :: ks =>
          m ← run_event (mgr a) now EvLoop;
          Some (mkAgent m (processes a) (apiNode a) ks (exported a ++ [(now, k, condition notif)]) (lines a))
      | _, _ => Some a
      end
  | Heartbeat now => Some (with_mgr a (set_exporter (mgr a) (updateHeartbeatTimes (exporter (mgr a)) now)))
  | Report order o =>
      let '(e, node) := report (exporter (mgr a)) (apiNode a) order o in
      Some (mkAgent (set_exporter (mgr a) e) (processes a) node (queued a) (exported a) (lines a))
  | OtherClient node => Some (mkAgent (mgr a) (processes a) node (queued a) (exported a) (lines a))
  end.

Fixpoint run (a : agent) (evs : list event) : option agent :=
  match evs with
  | [] => Some a
  | ev :: evs' => a' ← step a ev; run a' evs'
  end.

Lemma run_app a evs evs' : run a (evs ++ evs') = (a' ← run a evs; run a' evs').
Proof.
  revert a. induction evs as [|ev evs IH]; intros a; [done|]. cbn [run app].
  destruct (step a ev) as [a1|]; [apply IH|done].
Qed.

(** A panic of the process: a goroutine runs its handler, and that panics. *)
Definition crashes (a : agent) (ev : event) : Prop :=
  ∃ k i p line m, ev = Run k i ∧ processes a !! k = Some p ∧ next_input a p = Some (line, m) ∧
    handle (gor p).2 line i (pstate p) = None.
Definition crashed (a : agent) (evs : list event) : Prop :=
  ∃ evs1 ev evs2 a1, evs = evs1 ++ ev :: evs2 ∧ run a evs1 = Some a1 ∧ crashes a1 ev.

(** A run has the property [P] of its last state, unless a handler panics on the way. *)
Definition unless_handler_panics (a : agent) (evs : list event) (P : agent → Prop) : Prop :=
  match run a evs with Some a' => P a' | None => crashed a evs end.

(** A report visits each managed condition once, and another client leaves the managed
    conditions of the node alone. *)
Definition fair (a : agent) (ev : event) : Prop :=
  match ev with
  | Report order _ => order ≡ₚ managed_values (exporter (mgr a))
  | OtherClient node => ∀ t, is_Some (managedConditions (exporter (mgr a)) !! t) → first_condition t node = first_condition t (apiNode a)
  | _ => True
  end.

Fixpoint all_fair (a : agent) (evs : list event) : Prop :=
  match evs with
  | [] => True
  | ev :: evs' => fair a ev ∧ ∀ a', step a ev = Some a' → all_fair a' evs'
  end.

(** The agent after its registration; [s0] are the first states of the handlers. *)
Definition started (m : manager) (gs : list goroutine) (s0 : handler → St) (node : list NodeCondition) : agent :=
  mkAgent m ((λ g, mkProcess g (s0 g.2) [] []) <$> gs) node [] [] [].

(** ** What the steps keep *)

(** The handler of a process on what it has taken: its state, and all it has found. *)
Definition outputs (h : handler) (s : St) (xs : list (option string * I)) : option (St * list Condition) :=
  foldl (λ acc x, '(s, all) ← acc; '(s', found) ← handle h x.1 x.2 s; Some (s', all ++ found)) (Some (s, [])) xs.
Definition found (h : handler) (s : St) (xs : list (option string * I)) : list Condition :=
  match outputs h s xs with Some (_, all) => all | None => [] end.

Lemma outputs_snoc h s xs x :
  outputs h s (xs ++ [x]) =
  ('(s, all) ← outputs h s xs; '(s', found) ← handle h x.1 x.2 s; Some (s', all ++ found)).
Proof. unfold outputs. by rewrite foldl_app. Qed.

(** The notifications of process [k] in the channel, and those that are exported. *)
Definition in_channel (a : agent) (k : nat) : list Condition :=
  (condition ∘ snd) <$> filter (λ x, x.1 = k) (zip (queued a) (notifyChan (mgr a))).
Definition exported_by (a : agent) (k : nat) : list Condition := snd <$> filter (λ x, x.1.2 = k) (exported a).

(** The exported conditions with the monitors they come from. *)
Definition monitor_at (gs : list goroutine) (k : nat) : string :=
  match gs !! k with Some g => monitor_of g.2 | None => EmptyString end.
Definition exports (gs : list goroutine) (a : agent) : list (Time * string * Condition) :=
  (λ x, (x.1.1, monitor_at gs x.1.2, x.2)) <$> exported a.

(** The lines of a stream, and those a process has taken. *)
Definition lines_of (a : agent) (id : string) : list string := snd <$> filter (λ x, x.1 = id) (lines a).
Definition taken_lines (p : process) : list string := omap fst (taken p).
Definition waiting (a : agent) (ch : string * nat) : list string :=
  match observers (mgr a) !! ch.1 with Some (_, o) => default [] (subscribers o !! ch.2) | None => [] end.

(** A process and its history: it has found what its handler finds on what it took, and
    each of that is exported, in the channel or still to be notified, in order; the lines
    it took are lines of its stream, in order. *)
Definition process_ok (s0 : handler → St) (a : agent) (k : nat) (p : process) : Prop :=
  outputs (gor p).2 (s0 (gor p).2) (taken p) = Some (pstate p, exported_by a k ++ in_channel a k ++ pending p) ∧
  match (gor p).1 with
  | FromChannel ch => taken_lines p ++ waiting a ch `sublist_of` lines_of a ch.1 ∧ Forall (λ x, is_Some x.1) (taken p)
  | _ => taken_lines p = []
  end.

Record agent_ok (cfgs : gmap NodeConditionType NodeConditionConfig) (types : gmap string NodeConditionType)
    (gs : list goroutine) (s0 : handler → St) (a : agent) : Prop := {
  ok_types : conditionTypeMap (mgr a) = types;
  ok_spec : implements cfgs (exporter (mgr a)) (spec_run (routed types (exports gs a)).2);
  ok_counts : conditionCountMap (mgr a) = (routed types (exports gs a)).1;
  ok_seq : reportSeq (exporter (mgr a)) ≤ Z.of_nat (length (exported a));
  ok_gor : gor <$> processes a = gs;
  ok_queue : Forall2 (λ k n, monitorName n = monitor_at gs k ∧ is_Some (gs !! k)) (queued a) (notifyChan (mgr a));
  ok_exported : Forall (λ x, is_Some (gs !! x.1.2)) (exported a);
  ok_process : ∀ k p, processes a !! k = Some p → process_ok s0 a k p;
  ok_published : types_ok (exporter (mgr a)) ∧ published (exporter (mgr a)) (apiNode a)
}.

(** A process is as it was when its history, its channel and its lines are. *)
Lemma process_ok_same s0 a a' k p :
  process_ok s0 a k p → exported_by a' k = exported_by a k → in_channel a' k = in_channel a k →
  (∀ ch, (gor p).1 = FromChannel ch → waiting a' ch = waiting a ch ∧ lines_of a' ch.1 = lines_of a ch.1) →
  process_ok s0 a' k p.
Proof.
  intros [Ho Hc] He Hi Hl. split; [by rewrite He, Hi|]. destruct (gor p).1 as [ch| |]; [|done..].
  destruct (Hl ch eq_refl) as [-> ->]. done.
Qed.

Lemma gor_lookup gs (a : agent) k p : gor <$> processes a = gs → processes a !! k = Some p → gs !! k = Some (gor p).
Proof. intros <- Hp. by rewrite list_lookup_fmap, Hp. Qed.

(** Two processes do not share a channel. *)
Lemma served_once gs j k g g' ch :
  NoDup (served gs) → gs !! j = Some g → gs !! k = Some g' → g.1 = FromChannel ch → g'.1 = FromChannel ch → j = k.
Proof.
  revert j k. induction gs as [|x gs IH]; intros j k Hn Hj Hk Eg Eg'; [done|].
  assert (Hin : ∀ i y, gs !! i = Some y → y.1 = FromChannel ch → ch ∈ served gs).
  { intros i y Hi Ey. apply list_elem_of_omap. exists y. split; [by eapply list_elem_of_lookup_2|].
    unfold channel_of. by rewrite Ey. }
  unfold served in *. simpl in Hn. destruct j as [|j], k as [|k]; simpl in *; simplify_eq; try done.
  - unfold channel_of in Hn at 1. rewrite Eg in Hn. apply NoDup_cons in Hn as [Hn _]. destruct Hn. by eapply Hin.
  - unfold channel_of in Hn at 1. rewrite Eg' in Hn. apply NoDup_cons in Hn as [Hn _]. destruct Hn. by eapply Hin.
  - f_equal. apply IH; try done. destruct (channel_of x); [by apply NoDup_cons in Hn as [_ Hn]|done].
Qed.

(** *** Lines *)

Lemma step_line cfgs types gs s0 a id line a' :
  agent_ok cfgs types gs s0 a → step a (Line id line) = Some a' → agent_ok cfgs types gs s0 a'.
Proof.
  intros Hok. simpl. destruct (observers (mgr a) !! id) as [[kind o]|] eqn:Eo; intros [= <-]; [|done].
  destruct Hok as [Ht Hs Hc Hq Hg Hf Hx Hp Hpub]. split; try done. intros k p Hk. destruct (Hp k p Hk) as [Ho Hch].
  split; [done|]. destruct (gor p).1 as [[id' ix]| |]; [|done..]. destruct Hch as [Hsub Hall]. split; [|done].
  unfold waiting, lines_of in *. simpl in *. rewrite filter_app, fmap_app. simpl.
  destruct (decide (id' = id)) as [->|Hne].
  - rewrite Eo in Hsub. rewrite lookup_insert_eq. simpl. rewrite list_lookup_fmap. rewrite filter_cons_True by done. simpl.
    destruct (subscribers o !! ix) as [l|]; simpl in *; [|by apply sublist_inserts_r].
    unfold try_send. destruct (_ <? _)%nat; [|by apply sublist_inserts_r].
    rewrite app_assoc. by apply sublist_app.
  - rewrite lookup_insert_ne by done. rewrite filter_cons_False by naive_solver. simpl. by rewrite app_nil_r.
Qed.

(** *** Handlers *)

Lemma run_process_keeps p line i p' :
  run_process p line i = Some p' → gor p' = gor p ∧ taken p' = taken p ++ [(line, i)] ∧
  ∀ s all, outputs (gor p).2 s (taken p) = Some (pstate p, all) →
           outputs (gor p').2 s (taken p') = Some (pstate p', all ++ pending p').
Proof.
  unfold run_process. destruct (handle _ _ _ _) as [[s' fs]|] eqn:Eh; [|done]. intros [= <-].
  split; [done|]. split; [done|]. intros s all Ho. simpl. rewrite outputs_snoc, Ho. simpl. by rewrite Eh.
Qed.

(** The process that ran is as it should be, if the channel and the history are as they were. *)
Lemma process_ok_ran s0 a a1 k p line i p' :
  process_ok s0 a k p → pending p = [] → run_process p line i = Some p' →
  exported_by a1 k = exported_by a k → in_channel a1 k = in_channel a k →
  match (gor p).1, line with
  | FromChannel ch, Some l => waiting a ch = l :: waiting a1 ch ∧ lines_of a1 ch.1 = lines_of a ch.1
  | FromChannel _, None => False
  | _, _ => line = None
  end → process_ok s0 a1 k p'.
Proof.
  intros [Ho Hch] Ep (Eg & Et & Hout)%run_process_keeps Ee Ei Hl. rewrite Ep, app_nil_r in Ho.
  split; [rewrite Ee, Ei, Eg in *; rewrite (Hout _ _ Ho); by rewrite (assoc_L app)|].
  rewrite Eg. unfold taken_lines in *. rewrite Et, omap_app.
  destruct (gor p).1 as [ch|d|].
  - destruct line as [l|]; [|done]. destruct Hl as [Ew El]. destruct Hch as [Hsub Hall].
    split; [|apply Forall_app; split; [done|by repeat constructor]]. rewrite Ew, <-El in Hsub. simpl.
    by rewrite <-(assoc_L app).
  - subst line. simpl. by rewrite Hch.
  - subst line. simpl. by rewrite Hch.
Qed.

(** What the next input of a process takes from its channel, and from no other. *)
Lemma next_input_takes a k p line m :
  next_input a p = Some (line, m) →
  pending p = [] ∧ conditionTypeMap m = conditionTypeMap (mgr a) ∧ conditionCountMap m = conditionCountMap (mgr a) ∧
  exporter m = exporter (mgr a) ∧ notifyChan m = notifyChan (mgr a) ∧
  let a1 := with_process (with_mgr a m) k p in
  match (gor p).1, line with
  | FromChannel ch, Some l => waiting a ch = l :: waiting a1 ch ∧ ∀ ch', ch' ≠ ch → waiting a1 ch' = waiting a ch'
  | FromChannel _, None => False
  | _, _ => line = None ∧ ∀ ch', waiting a1 ch' = waiting a ch'
  end.
Proof.
  unfold next_input. destruct (pending p); [|done].
  destruct (gor p).1 as [[id ix]|d|]; [|by intros [= <- <-]..].
  destruct (observers (mgr a) !! id) as [[kind o]|] eqn:Eo; [|done]. cbn. unfold receive.
  destruct (subscribers o !! ix) as [[|l ls]|] eqn:Ei; [done| |done]. cbn. intros [= <- <-].
  do 5 (split; [done|]). unfold waiting. cbn. split.
  - rewrite Eo, lookup_insert_eq, Ei. cbn. by rewrite list_lookup_insert_eq by (by eapply lookup_lt_Some).
  - intros [id' ix'] Hne. cbn. destruct (decide (id' = id)) as [->|]; [|by rewrite lookup_insert_ne].
    rewrite lookup_insert_eq, Eo. cbn. rewrite list_lookup_insert_ne; [done|congruence].
Qed.

Lemma step_run cfgs types gs s0 a k i a' :
  NoDup (served gs) → agent_ok cfgs types gs s0 a → step a (Run k i) = Some a' → agent_ok cfgs types gs s0 a'.
Proof.
  intros Hn Hok. simpl. destruct (processes a !! k) as [p|] eqn:Ek; [|by intros [= <-]].
  destruct (next_input a p) as [[line m]|] eqn:Ein; [|by intros [= <-]].
  destruct (run_process p line i) as [p'|] eqn:Er; [|done]. simpl. intros [= <-].
  destruct (next_input_takes a k p line m Ein) as (Ep & Et & Ec & Ex & En & Hin).
  pose proof (run_process_keeps _ _ _ _ Er) as (Eg & _ & _).
  destruct Hok as [Ht Hs Hc Hq Hg Hf Hx Hp Hpub]. split; simpl; rewrite ?Et, ?Ec, ?Ex, ?En; try done.
  - rewrite list_fmap_insert, Eg, Hg. apply list_insert_id. by eapply gor_lookup.
  - assert (Hw : ∀ a1 k' q', waiting (with_process (with_mgr a m) k q') a1 = waiting (with_process (with_mgr a m) k' p) a1) by done.
    intros j q. rewrite list_lookup_insert. case_decide as Hd.
    + destruct Hd as [<- _]. intros [= <-]. apply (process_ok_ran s0 a _ k p line i); try done; [by apply Hp|..].
      * unfold in_channel. simpl. by rewrite En.
      * destruct (gor p).1, line; try done; [by destruct Hin|by destruct Hin|by destruct Hin].
    + intros Hj. assert (Hjk : j ≠ k) by (intros ->; destruct Hd; split; [done|by eapply lookup_lt_Some]).
      apply (process_ok_same s0 a); [by apply Hp|done|unfold in_channel; simpl; by rewrite En|]. intros ch Egq. split; [|done].
      destruct (gor p).1 as [ch0|d|] eqn:Egp, line as [l|]; try done; try (destruct Hin as [_ Hin]); try done; apply Hin.
      intros ->. apply Hjk. eapply (served_once gs); [done|by eapply gor_lookup|by eapply gor_lookup|done|done].
Qed.

(** *** Notifications *)

(** The notifications of a process in the channel of a new state, by an equation on states. *)
Local Ltac new_channel := match goal with H : ∀ a1, _ → _ → ∀ j, in_channel _ j = _ |- context [in_channel (mkAgent ?m ?p ?n ?q ?e ?l) _] =>
  rewrite (H (mkAgent m p n q e l)) by done end.

Lemma step_push cfgs types gs s0 a k a' :
  agent_ok cfgs types gs s0 a → step a (Push k) = Some a' → agent_ok cfgs types gs s0 a'.
Proof.
  intros Hok. simpl. destruct (processes a !! k) as [p|] eqn:Ek; [|by intros [= <-]].
  destruct (pending p) as [|c rest] eqn:Ep; [by intros [= <-]|].
  unfold Notify. destruct (_ <? _)%nat; [|by intros [= <-]]. intros [= <-].
  destruct Hok as [Ht Hs Hc Hq Hg Hf Hx Hp Hpub]. pose proof (gor_lookup _ _ _ _ Hg Ek) as Egs.
  assert (Hchan : ∀ a1, mgr a1 = set_chan (mgr a) (notifyChan (mgr a) ++ [mkNotification (monitor_of (gor p).2) c]) →
    queued a1 = queued a ++ [k] → ∀ j, in_channel a1 j = in_channel a j ++ if decide (j = k) then [c] else []).
  { intros a1 Em Eq j. unfold in_channel. rewrite Em, Eq. simpl. rewrite zip_with_app by (by eapply Forall2_length).
    rewrite filter_app, fmap_app. f_equal. simpl. destruct (decide (j = k)) as [->|]; [by rewrite filter_cons_True|].
    by rewrite filter_cons_False by naive_solver. }
  split; try done.
  - simpl. rewrite list_fmap_insert, Hg. by apply list_insert_id.
  - simpl. apply Forall2_app; [done|]. constructor; [|constructor]. simpl. unfold monitor_at. by rewrite Egs.
  - intros j q. simpl. rewrite list_lookup_insert. case_decide as Hd.
    + destruct Hd as [<- _]. intros [= <-]. destruct (Hp k p Ek) as [Ho Hch]. split; [|done]. simpl. rewrite Ho. f_equal.
      new_channel. rewrite decide_True, Ep by done. by rewrite <- app_assoc.
    + intros Hj. assert (Hjk : j ≠ k) by (intros ->; destruct Hd; split; [done|by eapply lookup_lt_Some]).
      apply (process_ok_same s0 a); [by apply Hp|done| |done].
      new_channel. rewrite decide_False by done. apply app_nil_r.
Qed.

(** *** The loop *)

Lemma step_loop cfgs types gs s0 a now :
  agent_ok cfgs types gs s0 a → Z.of_nat (length (exported a)) + 1 < 2 ^ 64 →
  ∃ a', step a (Loop now) = Some a' ∧ agent_ok cfgs types gs s0 a' ∧ (length (exported a') ≤ S (length (exported a)))%nat.
Proof.
  intros Hok Hlen. simpl. destruct Hok as [Ht Hs Hc Hq Hg Hf Hx Hp [Hty Hpub]].
  destruct (notifyChan (mgr a)) as [|n ns] eqn:En.
  { exists a. split; [done|]. split; [|lia]. split; rewrite ?En; done. }
  inversion Hf as [|k ? ks ? [Hn Hk] Hf' Ek]; subst. simpl.
  set (m0 := set_chan (mgr a) ns).
  destruct (exportCondition_routed cfgs m0 now (monitorName n) (condition n) (routed (conditionTypeMap (mgr a)) (exports (gor <$> processes a) a)).2)
    as (m' & r & Ex & Ec & Ei & Esq & [Hty' Hd] & Ety & Eob & Ech); [done|done|simpl; lia|].
  rewrite Ex. simpl. eexists. split; [done|].
  assert (Hexp : ∀ a1, exported a1 = exported a ++ [(now, k, condition n)] →
    exports (gor <$> processes a) a1 = exports (gor <$> processes a) a ++ [(now, monitorName n, condition n)]).
  { intros a1 E. unfold exports. rewrite E, fmap_app. simpl. by rewrite Hn. }
  split; [|simpl; rewrite length_app; simpl; lia]. split; try done; simpl.
  - erewrite Hexp by done. rewrite routed_snoc. unfold route_step. simpl in *. rewrite <- Hc.
    by destruct (route _ _ now (monitorName n) (condition n)).
  - erewrite Hexp by done. rewrite routed_snoc. unfold route_step. simpl in *. rewrite <- Hc.
    by destruct (route _ _ now (monitorName n) (condition n)).
  - simpl in Esq. rewrite length_app. simpl. lia.
  - by rewrite Ech.
  - apply Forall_app. split; [done|by repeat constructor].
  - intros j p Hj. destruct (Hp j p Hj) as [Ho Hch]. split.
    + rewrite Ho. f_equal. unfold exported_by, in_channel. simpl. rewrite <- Ek, En, Ech. simpl.
      rewrite filter_app, fmap_app. simpl. destruct (decide (k = j)) as [->|].
      * rewrite !filter_cons_True by done. simpl. by rewrite <- app_assoc.
      * rewrite !filter_cons_False by done. simpl. by rewrite app_nil_r.
    + destruct (gor p).1; try done. unfold waiting. simpl. by rewrite Eob.
  - split; [done|]. unfold published. destruct Hd as [Hd|[Em Hd]]; [by rewrite Hd|]. simpl in *. rewrite Em, Hd. done.
Qed.

(** *** The API server *)

Lemma step_exporter cfgs types gs s0 a e node :
  agent_ok cfgs types gs s0 a → implements cfgs e (spec_run (routed types (exports gs a)).2) →
  reportSeq e = reportSeq (exporter (mgr a)) → types_ok e ∧ published e node →
  agent_ok cfgs types gs s0 (mkAgent (set_exporter (mgr a) e) (processes a) node (queued a) (exported a) (lines a)).
Proof. intros [Ht Hs Hc Hq Hg Hf Hx Hp Hpub] Hi Hr Hpub'. split; try done. simpl. by rewrite Hr. Qed.

Lemma step_report cfgs types gs s0 a order o a' :
  agent_ok cfgs types gs s0 a → fair a (Report order o) → step a (Report order o) = Some a' →
  agent_ok cfgs types gs s0 a' ∧ exported a' = exported a.
Proof.
  intros Hok Hfair. simpl in *. destruct (report _ _ _ _) as [e node] eqn:Er. intros [= <-]. split; [|done].
  pose proof Hok as [_ Hs _ _ _ _ _ _ Hpub].
  assert (Hstep : sys_step (exporter (mgr a), apiNode a) (e, node)).
  { unfold report in Er. destruct (reportManagedConditions _ _ _ _) as [[e' sent] res] eqn:Em. injection Er as <- <-.
    eapply (SReport _ _ order); [done| |exact Em|].
    - destruct o; [by left|by right; eexists|by left].
    - unfold reportManagedConditions in Em. repeat case_match; simplify_eq; eauto 10. }
  apply step_exporter; [done| | |].
  - unfold report, reportManagedConditions in Er. repeat case_match; simplify_eq; try done; by apply (implements_same cfgs (exporter (mgr a))).
  - unfold report, reportManagedConditions in Er. by repeat case_match; simplify_eq.
  - destruct Hpub. by apply (sys_step_published _ _ Hstep).
Qed.

Lemma step_ok cfgs types gs s0 a ev :
  NoDup (served gs) → agent_ok cfgs types gs s0 a → fair a ev → Z.of_nat (length (exported a)) + 1 < 2 ^ 64 →
  match step a ev with
  | Some a' => agent_ok cfgs types gs s0 a' ∧ (length (exported a') ≤ S (length (exported a)))%nat
  | None => crashes a ev
  end.
Proof.
  intros Hn Hok Hfair Hlen. destruct ev as [id line|k i|k|now|now|order o|node].
  - destruct (step a (Line id line)) as [a'|] eqn:E; [|done].
    split; [by eapply step_line|]. simpl in E. repeat case_match; simplify_eq; simpl; lia.
  - destruct (step a (Run k i)) as [a'|] eqn:E.
    + split; [by eapply step_run|]. simpl in E. destruct (processes a !! k) as [p|]; simplify_eq; [|lia].
      destruct (next_input a p) as [[line m]|]; simplify_eq; [|lia]. destruct (run_process p line i); simplify_eq/=. lia.
    + simpl in E. destruct (processes a !! k) as [p|] eqn:Ek; [|done].
      destruct (next_input a p) as [[line m]|] eqn:Ein; [|done]. exists k, i, p, line, m. split_and!; try done.
      unfold run_process in E. by destruct (handle _ _ _ _) as [[??]|].
  - destruct (step a (Push k)) as [a'|] eqn:E; [|done].
    split; [by eapply step_push|]. simpl in E. repeat case_match; simplify_eq; simpl; lia.
  - destruct (step_loop _ _ _ _ _ now Hok Hlen) as (a' & -> & ?). done.
  - split; [|simpl; lia]. pose proof Hok as [_ Hs _ _ _ _ _ _ [Hty _]].
    apply step_exporter; [done|by apply heartbeat_implements|done|]. split; [|done].
    intros t c. simpl. rewrite lookup_fmap. intros (c0 & Hc0 & ->)%fmap_Some. simpl. by apply Hty.
  - destruct (step a (Report order o)) as [a'|] eqn:E; [|simpl in E; by destruct (report _ _ _ _)].
    destruct (step_report _ _ _ _ _ _ _ _ Hok Hfair E) as [? ->]. auto.
  - split; [|simpl; lia]. destruct Hok as [Ht Hs Hc Hq Hg Hf Hx Hp [Hty Hpub]]. split; try done.
    split; [done|]. intros Hd t c Hm. simpl in *. rewrite Hfair by eauto. by apply Hpub.
Qed.

Lemma crashed_later a ev evs a1 : step a ev = Some a1 → crashed a1 evs → crashed a (ev :: evs).
Proof.
  intros E (evs1 & ev' & evs2 & a2 & -> & Er & Hc). exists (ev :: evs1), ev', evs2, a2. split_and!; [done| |done].
  cbn [run]. by rewrite E.
Qed.

Lemma run_ok cfgs types gs s0 evs a :
  NoDup (served gs) → agent_ok cfgs types gs s0 a → all_fair a evs →
  Z.of_nat (length (exported a)) + Z.of_nat (length evs) < 2 ^ 64 →
  unless_handler_panics a evs (λ a', agent_ok cfgs types gs s0 a' ∧ (length (exported a') ≤ length (exported a) + length evs)%nat).
Proof.
  intros Hn. unfold unless_handler_panics. revert a. induction evs as [|ev evs IH]; intros a Hok Hfair Hlen.
  { simpl. split; [done|lia]. }
  cbn [run]. destruct Hfair as [Hf Hrest]. cbn [length] in *.
  pose proof (step_ok _ _ _ _ _ _ Hn Hok Hf) as Hs. destruct (step a ev) as [a1|] eqn:E; cbn [mbind option_bind].
  2: { exists [], ev, evs, a. split_and!; [done|done|]. apply Hs. lia. }
  destruct Hs as [Hok1 Hl1]; [lia|]. specialize (IH a1 Hok1 (Hrest a1 eq_refl)).
  destruct (run a1 evs) as [a'|]; [destruct IH; [lia|]; split; [done|lia]|]. apply (crashed_later a ev evs a1 E), IH. lia.
Qed.

(** *** Progress *)

(** What remains to be notified, a notification of a handler counting twice: once for the
    channel and once for the loop. *)
Definition backlog (a : agent) : nat :=
  (2 * sum_list (length ∘ pending <$> processes a) + length (notifyChan (mgr a)))%nat.

Lemma sum_list_insert {A} (f : A → nat) (l : list A) k x y :
  l !! k = Some x → (sum_list (f <$> <[k:=y]> l) + f x = sum_list (f <$> l) + f y)%nat.
Proof.
  revert k. induction l as [|z l IH]; intros [|k] Hk; simplify_eq/=; [lia|]. specialize (IH k Hk).
  change (list_fmap A nat f) with (fmap (M := list) f). lia.
Qed.

Lemma sum_list_zero {A} (f : A → nat) (l : list A) : sum_list (f <$> l) = 0%nat ↔ Forall (λ x, f x = 0%nat) l.
Proof.
  induction l as [|x l IH]; [done|]. rewrite Forall_cons, <- IH. simpl.
  change (list_fmap A nat f) with (fmap (M := list) f). lia.
Qed.

Definition notifying (ev : event) : Prop := match ev with Push _ | Loop _ => True | _ => False end.

(** Unless nothing remains, the loop can take a notification or a goroutine can notify. *)
Lemma backlog_step cfgs types gs s0 a :
  agent_ok cfgs types gs s0 a → Z.of_nat (length (exported a)) + 1 < 2 ^ 64 → backlog a ≠ 0%nat →
  ∃ ev a', notifying ev ∧ step a ev = Some a' ∧ agent_ok cfgs types gs s0 a' ∧ backlog a = S (backlog a') ∧
    taken <$> processes a' = taken <$> processes a ∧ (length (exported a') + backlog a' ≤ length (exported a) + backlog a)%nat.
Proof.
  intros Hok Hlen Hb. destruct (notifyChan (mgr a)) as [|n ns] eqn:En.
  - unfold backlog in Hb. rewrite En in Hb. simpl in Hb.
    assert (Hp : ∃ k p c rest, processes a !! k = Some p ∧ pending p = c :: rest).
    { assert (Hne : ¬ Forall (λ p, (length ∘ pending) p = 0%nat) (processes a)) by (rewrite <- sum_list_zero; lia).
      apply not_Forall_Exists in Hne; [|intros ?; apply _]. apply Exists_exists in Hne as (p & [k Hk]%list_elem_of_lookup & Hp).
      simpl in Hp. destruct (pending p) as [|c rest] eqn:Ep; [done|]. by exists k, p, c, rest. }
    destruct Hp as (k & p & c & rest & Hk & Hp).
    destruct (step a (Push k)) as [a'|] eqn:E; [|done]. exists (Push k), a'. split; [done|]. split; [done|].
    split; [by eapply step_push|]. simpl in E. rewrite Hk, Hp in E. unfold Notify in E. rewrite En in E. simpl in E. injection E as <-.
    pose proof (sum_list_insert (length ∘ pending) _ k p (mkProcess (gor p) (pstate p) rest (taken p)) Hk) as Hsum.
    simpl in Hsum. rewrite Hp in Hsum. unfold backlog. simpl in *. rewrite En. simpl. split; [lia|]. split; [|lia].
    rewrite list_fmap_insert. simpl. apply list_insert_id. by rewrite list_lookup_fmap, Hk.
  - destruct (step_loop cfgs types gs s0 a 0 Hok Hlen) as (a' & E & Hok' & Hl). exists (Loop 0), a'.
    split; [done|]. split; [done|]. split; [done|]. simpl in E. destruct Hok as [_ Hs _ Hq _ Hf _ _ [Hty _]].
    rewrite En in *. inversion Hf as [|k ? ks ? _ _ Ek]; subst. rewrite <- Ek in E. simpl in E.
    destruct (exportCondition_routed cfgs (set_chan (mgr a) ns) 0 (monitorName n) (condition n) _ Hs Hty)
      as (m' & r & Ex & _ & _ & _ & _ & _ & _ & Ech); [simpl; lia|]. rewrite Ex in E. simpl in E. injection E as <-.
    unfold backlog. simpl in *. rewrite Ech, En. simpl. split; [lia|]. split; [done|]. lia.
Qed.

Lemma drains cfgs types gs s0 a :
  agent_ok cfgs types gs s0 a → Z.of_nat (length (exported a)) + Z.of_nat (backlog a) < 2 ^ 64 →
  ∃ evs a', Forall notifying evs ∧ run a evs = Some a' ∧ agent_ok cfgs types gs s0 a' ∧ backlog a' = 0%nat ∧
    taken <$> processes a' = taken <$> processes a.
Proof.
  remember (backlog a) as n eqn:En. revert a En. induction n as [|n IH]; intros a En Hok Hlen; [by exists [], a|].
  destruct (backlog_step cfgs types gs s0 a Hok) as (ev & a1 & Hev & E1 & Hok1 & Hb & Ht & Hl); [lia|lia|].
  destruct (IH a1) as (evs & a' & Hevs & Er & Hok' & Hb' & Ht'); [lia|done|lia|].
  exists (ev :: evs), a'. split; [by constructor|]. split; [cbn [run]; by rewrite E1|]. split; [done|]. split; [done|].
  by rewrite Ht'.
Qed.

(** The agent after its registration is as it should be. *)
Lemma started_ok env rc podLogs loadState hardware names now cfgs m gs s0 node :
  wire_all env rc podLogs loadState hardware names (NewMonitorManager (NewNodeExporter now cfgs)) [] = (m, gs, Ok tt) →
  NoDup (served gs) ∧ agent_ok cfgs (conditionTypeMap m) gs s0 (started m gs s0 node).
Proof.
  intros Ew. set (e := NewNodeExporter now cfgs) in *.
  destruct (wire_all_ok env rc podLogs loadState hardware names (NewMonitorManager e) [] (wired_new env e))
    as (m' & gs' & [] & p & Ew' & [_ Hn _ Hem _] & ->). rewrite Ew in Ew'. injection Ew' as <- <-. rewrite app_nil_r in Hn.
  pose proof (wire_all_frame env rc podLogs loadState hardware names (NewMonitorManager e) []) as (Ee & Ec & Eo).
  rewrite Ew in Ee, Ec, Eo. simpl in Ee, Ec, Eo.
  split; [done|]. split; try done; simpl.
  - rewrite Ee. apply new_implements.
  - by rewrite Ee.
  - rewrite <- list_fmap_compose. apply list_fmap_id.
  - by rewrite Ec.
  - intros k p. rewrite list_lookup_fmap. intros (g & Hg & ->)%fmap_Some. split.
    + unfold exported_by, in_channel. simpl. done.
    + simpl. destruct g.1 as [[id ix]| |]; [|done..]. split; [|constructor]. unfold waiting, lines_of. simpl.
      destruct (observers m !! id) as [[kind o]|] eqn:Eobs; [|done]. pose proof (Hem _ _ Eobs) as Hall. simpl in Hall.
      destruct (subscribers o !! ix) as [l|] eqn:Ei; [|done]. simpl.
      rewrite Forall_forall in Hall. by rewrite (Hall l) by (by eapply list_elem_of_lookup_2).
  - rewrite Ee. split; [apply new_types_ok|done].
Qed.

Section Run.
Context (env : string → option string) (rc : RuntimeContext) (podLogs : list walkEntry) (loadState : option string)
  (hardware : string) (names : list string) (now : Time) (cfgs : gmap NodeConditionType NodeConditionConfig)
  (s0 : handler → St) (node : list NodeCondition) (m : manager) (gs : list goroutine) (evs : list event).
Hypothesis registered :
  wire_all env rc podLogs loadState hardware names (NewMonitorManager (NewNodeExporter now cfgs)) [] = (m, gs, Ok tt).
Hypothesis fair_run : all_fair (started m gs s0 node) evs.
Hypothesis bounded : Z.of_nat (length evs) < 2 ^ 64.

Lemma run_started : unless_handler_panics (started m gs s0 node) evs
  (λ a, agent_ok cfgs (conditionTypeMap m) gs s0 a ∧ (length (exported a) ≤ length evs)%nat).
Proof.
  destruct (started_ok _ _ _ _ _ _ _ _ _ _ s0 node registered) as [Hn Hok].
  apply (run_ok cfgs (conditionTypeMap m) gs s0); [done..|simpl; lia].
Qed.

Lemma run_gives (P : agent → Prop) :
  (∀ a, agent_ok cfgs (conditionTypeMap m) gs s0 a → (length (exported a) ≤ length evs)%nat → P a) →
  unless_handler_panics (started m gs s0 node) evs P.
Proof.
  intros HP. pose proof run_started as H. unfold unless_handler_panics in *.
  destruct (run _ _); [destruct H; by apply HP|done].
Qed.

(** C1. The agent refines its specification.  Whatever the handlers find and however the
    observers, the goroutines, the loop of the manager, the reports and other clients of
    the API server interleave, nothing panics unless the handler of some goroutine does,
    on the line or the tick it was given; and until then: the condition of every type is
    the one the abstract specification gives for the notifications exported so far, less
    those that have not occurred often enough; a node that shows nothing out of date shows
    it; and of what a handler finds on the lines it took - lines of its stream, in order -
    nothing is lost, repeated or reordered on the way to the exporter. *)
Theorem agent_refines :
  unless_handler_panics (started m gs s0 node) evs (λ a,
    (∀ t, view (exporter (mgr a)) t = spec_view (cfgs !! t) (spec_run (routed (conditionTypeMap m) (exports gs a)).2 t)) ∧
    (managedConditionsDirty (exporter (mgr a)) = false →
     ∀ t c, managedConditions (exporter (mgr a)) !! t = Some c → first_condition t (apiNode a) = Some c) ∧
    (∀ k p, processes a !! k = Some p → process_ok s0 a k p)).
Proof.
  apply run_gives. intros a [_ (_ & _ & _ & Hv & _) _ _ _ _ _ Hp [_ Hpub]] _. by split.
Qed.

(** C7. Nothing is stuck, and nothing is lost.  After any run that no handler ended by a
    panic, notifications and steps of the loop alone lead to a state in which the exporter
    has been given everything: there is a merge of what the goroutines found - for each,
    all that its handler finds on what it took, in order - such that every condition is
    the one the specification gives for this merge, and the manager has counted what has
    not occurred often enough. *)
Theorem findings_reach_exporter :
  unless_handler_panics (started m gs s0 node) evs (λ a,
    Z.of_nat (length evs) + Z.of_nat (backlog a) < 2 ^ 64 →
    ∃ evs' a' (merge : list (Time * nat * Condition)), Forall notifying evs' ∧ run a evs' = Some a' ∧
      (∀ k p, processes a !! k = Some p → snd <$> filter (λ x, x.1.2 = k) merge = found (gor p).2 (s0 (gor p).2) (taken p)) ∧
      Forall (λ x, is_Some (processes a !! x.1.2)) merge ∧
      let merged := routed (conditionTypeMap m) ((λ x, (x.1.1, monitor_at gs x.1.2, x.2)) <$> merge) in
      (∀ t, view (exporter (mgr a')) t = spec_view (cfgs !! t) (spec_run merged.2 t)) ∧
      conditionCountMap (mgr a') = merged.1).
Proof.
  apply run_gives. intros a Hok Hx Hlen.
  destruct (drains _ _ _ _ _ Hok) as (evs' & a' & Hev & Er & Hok' & Hb & Ht); [lia|]. exists evs', a', (exported a').
  split; [done|]. split; [done|].
  pose proof Hok' as [_ (_ & _ & _ & Hv & _) Hcounts _ Hg' _ Hx' _ _].
  split; [|split; [|done]].
  - intros k p Hk.
    assert (Hp : ∃ p', processes a' !! k = Some p' ∧ taken p' = taken p).
    { apply (f_equal (λ l, l !! k)) in Ht. rewrite !list_lookup_fmap, Hk in Ht. simpl in Ht. by apply fmap_Some in Ht as (p' & ? & ?); exists p'. }
    destruct Hp as (p' & Hk' & Et). assert (Eg : gor p' = gor p).
    { apply (gor_lookup gs) in Hk'; [|done]. apply (gor_lookup gs) in Hk; [|apply Hok]. congruence. }
    destruct (ok_process _ _ _ _ _ Hok' k p' Hk') as [Ho _]. rewrite Eg, Et in Ho. unfold found. rewrite Ho.
    unfold backlog in Hb. assert (Hq : notifyChan (mgr a') = []) by (destruct (notifyChan (mgr a')); [done|simpl in Hb; lia]).
    assert (Hpend : pending p' = []).
    { assert (H0 : sum_list (length ∘ pending <$> processes a') = 0%nat) by lia. apply sum_list_zero in H0.
      rewrite Forall_forall in H0. apply nil_length_inv, (H0 p'). by eapply list_elem_of_lookup_2. }
    rewrite Hpend, app_nil_r. unfold in_channel. rewrite Hq. destruct (queued a'); simpl; by rewrite app_nil_r.
  - eapply Forall_impl; [exact Hx'|]. intros x [g Hxg]. rewrite <- (ok_gor _ _ _ _ _ Hok), list_lookup_fmap in Hxg.
    apply fmap_Some in Hxg as (p & ? & _). eauto.
Qed.

Lemma failing_reported tr t r : failing tr t r = true → ∃ now c, (now, OpFatal t c) ∈ tr ∧ Reason c = r.
Proof.
  unfold failing. induction tr as [|[now' o] tr IH] using rev_ind; [done|]. rewrite foldl_app. cbn [foldl snd].
  assert (Hkeep : foldl (λ b (o : Time * op), failing_step t r b o.2) false tr = true →
    ∃ now c, (now, OpFatal t c) ∈ tr ++ [(now', o)] ∧ Reason c = r).
  { intros H. destruct (IH H) as (n & c & ? & ?). exists n, c. split; [by apply elem_of_app; left|done]. }
  destruct o as [t' c|t' c]; simpl; case_decide as Hd; try done; try apply Hkeep.
  destruct Hd as [-> ->]. intros _. exists now', c. split; [apply elem_of_app; right; by left|done].
Qed.

Lemma routed_fatal types xs now' t c :
  (now', OpFatal t c) ∈ (routed types xs).2 →
  ∃ name, (now', name, c) ∈ xs ∧ types !! name = Some t ∧ CondSeverity c = SeverityFatal ∧ Resolved c = false.
Proof.
  induction xs as [|[[n name] d] xs IH] using rev_ind; [by intros ?%elem_of_nil|].
  rewrite routed_snoc. unfold route_step, route. simpl.
  intros H. assert (Hnew : (now', OpFatal t c) ∈ (routed types xs).2 ∨
    (now', c) = (n, d) ∧ types !! name = Some t ∧ CondSeverity d = SeverityFatal ∧ Resolved d = false).
  { destruct (types !! name) as [t'|]; simpl in H; [|rewrite app_nil_r in H; by left].
    destruct (String.eqb_spec (CondSeverity d) SeverityFatal) as [Ef|]; destruct (Resolved d); simpl in H;
      try destruct (_ <? _); simpl in H; rewrite ?app_nil_r in H; try (by left);
      apply elem_of_app in H as [H|H%list_elem_of_singleton]; (by left) || simplify_eq; by right. }
  destruct Hnew as [Hin|([= -> ->] & ? & ? & ?)].
  - destruct (IH Hin) as (nm & ? & ?). exists nm. split; [by apply elem_of_app; left|done].
  - exists name. split; [apply elem_of_app; right; by left|done].
Qed.

(** C2. Every alarm has a cause: when the exporter shows a type False, some goroutine of a
    monitor registered under that type has found, on the lines it took of its stream or at
    the ticks of its timer, a fatal condition with the reason that is shown.  So it is after
    every run that no handler ended by a panic. *)
Theorem unhealthy_has_cause t c :
  unless_handler_panics (started m gs s0 node) evs (λ a,
    managedConditions (exporter (mgr a)) !! t = Some c → ncStatus c = ConditionFalse →
    ∃ k p x, processes a !! k = Some p ∧ conditionTypeMap m !! monitor_of (gor p).2 = Some t ∧
       x ∈ found (gor p).2 (s0 (gor p).2) (taken p) ∧
       CondSeverity x = SeverityFatal ∧ Resolved x = false ∧ Reason x = ncReason c).
Proof.
  apply run_gives. intros a [_ (_ & _ & _ & Hv & _) _ _ Hg _ Hx Hp _] _ Hm Hs. set (tr := (routed (conditionTypeMap m) (exports gs a)).2) in *.
  specialize (Hv t). unfold view in Hv. rewrite Hm in Hv. simpl in Hv. rewrite Hs in Hv.
  assert (Hrec : ncReason c ∈ recency (spec_run tr t)).
  { clear -Hv. unfold spec_view in Hv. destruct (arrivals _) as [|? ?], (recency _) as [|r rs];
      try (destruct (cfgs !! t); [done|by destruct (ever _)]). injection Hv as -> _. by left. }
  apply spec_failing, failing_reported in Hrec as (n & x & Hin & Ex).
  apply routed_fatal in Hin as (name & Hin & Hty & Hsev & Hres).
  unfold exports in Hin. apply list_elem_of_fmap in Hin as ([[n' k] x'] & [= -> -> ->] & Hin). simpl in *.
  rewrite Forall_forall in Hx. destruct (Hx _ Hin) as [g Egk]. simpl in Egk.
  assert (Hpk : ∃ p, processes a !! k = Some p ∧ gor p = g).
  { rewrite <- Hg, list_lookup_fmap in Egk. apply fmap_Some in Egk as (p & Ep & ->). eauto. }
  destruct Hpk as (p & Ep & Egor). exists k, p, x'. unfold monitor_at in Hty. rewrite Egk in Hty. rewrite Egor. split; [done|].
  split; [done|]. split; [|done]. destruct (Hp k p Ep) as [Ho _]. unfold found. rewrite <- Egor, Ho.
  apply elem_of_app. left. unfold exported_by. apply list_elem_of_fmap. exists (n', k, x'). split; [done|].
  by apply list_elem_of_filter.
Qed.
End Run.
End Agent.

(** ** A concrete agent: the handlers of lines that keep no state *)

Definition line_handler (h : handler) (line : string) : list Condition :=
  match h with
  | KernelDmesg => Kernel.handleDmesg line
  | KernelKubelet => Kernel.handleKubelet line
  | StorageVarLogMessages => Storage.handleVarLogMessages line
  | StorageKubeletLogs => Storage.handleKubeletLogs line
  | StorageBlockDeviceIOErrors => Storage.handleBlockDeviceIOErrors line
  | RuntimeSystemd => Runtime.handleSystemd line
  | NetworkingIPAMDLogs => Networking.handleIPAMDLogs line
  | NeuronDmesg => fst (Neuron.handleNeuron (λ _, None) line)
  | NvidiaLoop LNccl => Neuron.Step line
  | _ => []
  end.

(** The handlers of lines, and the one of the I/O delays on the first process of a host,
    with the stat file it reads of it: nothing is known of the process yet. *)
Definition ex_handle (h : handler) (line : option string) (stat : string) (_ : ()) : option (() * list Condition) :=
  match h, line with
  | StorageIODelays, _ => _ ← checkIODelays (λ _, None) stat; Some (tt, [])
  | _, Some l => Some (tt, line_handler h l)
  | _, None => Some (tt, [])
  end.

Definition ex_names : list string := ["kernel"; "storage"].
Definition ex_configs : gmap NodeConditionType NodeConditionConfig := conditionConfigs_of None EmptyString.
Abbreviation ex_wiring := (wire_all ex_env ex_auto [] None EmptyString ex_names (NewMonitorManager (NewNodeExporter 0 ex_configs)) []).

(** The kubelet cannot fork: the line is read by two monitors, and the kernel's finds it. *)
Definition ex_events : list (event (I := string)) :=
  [Line "journal-kubelet" "err: fork/exec /opt/cni/bin/x: resource temporarily unavailable"; Run 10 EmptyString;
   Run 1 EmptyString; Push 1; Loop 7].

Lemma ex_registered : ∃ m gs, ex_wiring = (m, gs, Ok tt) ∧
  (λ a, view (exporter (mgr a)) KernelReady) <$> run ex_handle (started m gs (λ _, tt) []) ex_events =
  Some (Some (ConditionFalse, "ForkFailedOutOfPIDs", "A fork or exec call has failed due to the system being out of process IDs or memory")).
Proof.
  assert (H : match ex_wiring with
              | (m, gs, Ok _) => (λ a, view (exporter (mgr a)) KernelReady) <$> run ex_handle (started m gs (λ _, tt) []) ex_events
              | _ => None
              end = Some (Some (ConditionFalse, "ForkFailedOutOfPIDs",
                "A fork or exec call has failed due to the system being out of process IDs or memory"))) by (vm_compute; reflexivity).
  destruct ex_wiring as [[m gs] [[]|e]]; [|done]. by exists m, gs.
Qed.

(** A process whose stat file has 41 fields ends the agent at the tick of the I/O delays. *)
Example ex_io_delays_panic :
  match ex_wiring with
  | (m, gs, Ok _) =>
      match list_find (λ g : goroutine, is_true (match g.2 with StorageIODelays => true | _ => false end)) gs with
      | Some (k, _) => bool_decide (is_Some (run ex_handle (started m gs (λ _, tt) []) [Run k (Join (replicate 41 "0") " ")]))
      | None => true
      end
  | _ => true
  end = false.
Proof. vm_compute. reflexivity. Qed.

Lemma agent_refines_witness : ∃ m gs a, ex_wiring = (m, gs, Ok tt) ∧
  run ex_handle (started m gs (λ _, tt) []) ex_events = Some a ∧ ∀ k p, processes a !! k = Some p → process_ok ex_handle (λ _, tt) a k p.
Proof.
  destruct ex_registered as (m & gs & Hw & Hv).
  pose proof (agent_refines ex_handle ex_env ex_auto [] None EmptyString ex_names 0 ex_configs (λ _, tt) [] m gs ex_events Hw) as H.
  unfold unless_handler_panics in H.
  destruct (run ex_handle (started m gs (λ _, tt) []) ex_events) as [a|] eqn:Hr; [|discriminate Hv].
  destruct H as (_ & _ & Hp); [repeat split|reflexivity|]. exists m, gs, a. auto.
Defined.

Lemma unhealthy_has_cause_witness : ∃ m gs a k p x, ex_wiring = (m, gs, Ok tt) ∧
  run ex_handle (started m gs (λ _, tt) []) ex_events = Some a ∧ processes a !! k = Some p ∧
  conditionTypeMap m !! monitor_of (gor p).2 = Some KernelReady ∧
  x ∈ found ex_handle (gor p).2 tt (taken p) ∧ Reason x = "ForkFailedOutOfPIDs".
Proof.
  destruct ex_registered as (m & gs & Hw & Hv).
  pose proof (unhealthy_has_cause ex_handle ex_env ex_auto [] None EmptyString ex_names 0 ex_configs (λ _, tt) [] m gs ex_events Hw) as H.
  unfold unless_handler_panics in H.
  destruct (run ex_handle (started m gs (λ _, tt) []) ex_events) as [a|] eqn:Hr; [|discriminate Hv].
  injection Hv as Hv. unfold view in Hv. destruct (managedConditions (exporter (mgr a)) !! KernelReady) as [c|] eqn:Hc; [|discriminate Hv].
  injection Hv as Hs Hreason _.
  destruct (H ltac:(repeat split) eq_refl KernelReady c Hc Hs) as (k & p & x & Hk & Ht & Hx & _ & _ & Ex).
  exists m, gs, a, k, p, x. rewrite Ex. repeat split; assumption.
Defined.

Lemma findings_reach_exporter_witness : ∃ m gs a, ex_wiring = (m, gs, Ok tt) ∧
  run ex_handle (started m gs (λ _, tt) []) (firstn 3 ex_events) = Some a ∧
  (Z.of_nat 3 + Z.of_nat (backlog a) < 2 ^ 64 →
   ∃ evs' a' (merge : list (Time * nat * Condition)), Forall notifying evs' ∧ run ex_handle a evs' = Some a' ∧
     ∀ k p, processes a !! k = Some p → snd <$> filter (λ x, x.1.2 = k) merge = found ex_handle (gor p).2 tt (taken p)).
Proof.
  destruct ex_registered as (m & gs & Hw & Hv).
  pose proof (findings_reach_exporter ex_handle ex_env ex_auto [] None EmptyString ex_names 0 ex_configs (λ _, tt) [] m gs (firstn 3 ex_events) Hw) as H.
  unfold unless_handler_panics in H.
  destruct (run ex_handle (started m gs (λ _, tt) []) (firstn 3 ex_events)) as [a|] eqn:Hr.
  2: { exfalso. revert Hv. change ex_events with (firstn 3 ex_events ++ skipn 3 ex_events). rewrite run_app, Hr. discriminate. }
  exists m, gs, a. split; [exact Hw|]. split; [exact Hr|]. intros Hlen.
  destruct H as (evs' & a' & merge & ? & ? & ? & _); [repeat split|reflexivity|exact Hlen|]. exists evs', a', merge. auto.
Defined.
