(* ===== verification/LogCollection.v ===== *)
(** * LogCollection: a whole collection ([pkg/logcollection], [TarGzipDir] of
    [pkg/util/file/archive.go], [collectLogs] of [pkg/controllers/nodediagnostic.go]).

    The collectors of the categories run one after the other on one bundle; the errors
    go to a report in the bundle, and the archive holds what is in the bundle. *)

From S2P Require Import Prelude GoStrings Paths NodeDiag ExecPath Top Accessor HostCollectors Web NetCollectors.
From S2P Require Config Startup.

(** ** pkg/logcollection/collectors.go *)

Inductive Collector :=
| CommonLogsC (c : CommonLogs)
| InstanceC | RegionC | NvidiaC | CNIC | IPAMDC | IPTablesC | NetworkingC | NFTablesC
| ContainerdC | KubernetesC | NodeadmC | SandboxC
| DiskC | KernelC | SELinuxC | AutoModeC | SystemC | ThrottlesC | PressureC | PstoreC.

(** The name of the type of a collector. *)
Definition collectorName (c : Collector) : string :=
  match c with
  | CommonLogsC _ => "CommonLogs" | InstanceC => "Instance" | RegionC => "Region" | NvidiaC => "Nvidia"
  | CNIC => "CNI" | IPAMDC => "IPAMD" | IPTablesC => "IPTables" | NetworkingC => "Networking"
  | NFTablesC => "NFTables" | ContainerdC => "Containerd" | KubernetesC => "Kubernetes"
  | NodeadmC => "Nodeadm" | SandboxC => "Sandbox" | DiskC => "Disk" | KernelC => "Kernel"
  | SELinuxC => "SELinux" | AutoModeC => "AutoMode" | SystemC => "System" | ThrottlesC => "Throttles"
  | PressureC => "Pressure" | PstoreC => "Pstore"
  end.

Definition LogCategoryBase : string := "Base".
Definition LogCategoryDevice : string := "Device".
Definition LogCategoryNetworking : string := "Networking".
Definition LogCategoryRuntime : string := "Runtime".
Definition LogCategorySystem : string := "System".
Definition LogCategoryAll : string := "All".

(** The map of the package, as it is before a collection writes defaults into it. *)
Definition collectorMap : list (string * list Collector) :=
  [(LogCategoryBase,
    [CommonLogsC (mkCommonLogs (Some [])
       (Some ["syslog"; "messages"; "aws-routed-eni"; "cron"; "cloud-init.log"; "cloud-init-output.log";
              "kube-proxy.log"]));
     InstanceC; RegionC]);
   (LogCategoryDevice,
    [CommonLogsC (mkCommonLogs
       (Some ["kube-system_ebs-csi-*"; "kube-system_efs-csi-*"; "kube-system_fsx-csi-*";
              "kube-system_fsx-openzfs-csi-*"; "kube-system_file-cache-csi-*"; "kube-system_s3-csi*";
              "mount-s3_mp-*"; "mount-s3_hr-*"])
       (Some []));
     NvidiaC]);
   (LogCategoryNetworking,
    [CNIC;
     CommonLogsC (mkCommonLogs
       (Some ["kube-system_aws-node*"; "kube-system_cni-metrics-helper*"; "kube-system_coredns*";
              "kube-system_kube-proxy*"; "kube-system_kube-multus*"])
       (Some []));
     IPAMDC; IPTablesC; NetworkingC; NFTablesC]);
   (LogCategoryRuntime, [ContainerdC; KubernetesC; NodeadmC; SandboxC]);
   (LogCategorySystem,
    [CommonLogsC (mkCommonLogs
       (Some ["kube-system_eks-pod-identity-agent*"; "kube-system_eks-node-monitoring-agent*"])
       (Some []));
     DiskC; KernelC; SELinuxC; AutoModeC; SystemC; ThrottlesC; PressureC; PstoreC])].

(** [ranged] is the map in the order of one range over it. *)
Definition GetCollectors (ranged : list (string * list Collector)) (categories : list string) : list Collector :=
  if bool_decide (LogCategoryAll ∈ categories) then mjoin ranged.*2
  else mjoin (filter (λ e, e.1 ∈ categories) ranged).*2.

(** ** A collection *)

Section Collection.
Context `{Host} `{Services} `{NetServices} (cfg : Config).

(** What a collector does; [None] is a panic. *)
Definition Collect (c : Collector) : option (task error) :=
  match c with
  | CommonLogsC c => Some (CommonLogs_Collect cfg c)
  | InstanceC => Some (Instance_Collect cfg)
  | RegionC => Some (Region_Collect cfg)
  | NvidiaC => Some (Nvidia_Collect cfg)
  | CNIC => Some (CNI_Collect cfg)
  | IPAMDC => Some (IPAMD_Collect cfg)
  | IPTablesC => Some (IPTables_Collect cfg)
  | NetworkingC => Some (Networking_Collect cfg)
  | NFTablesC => Some (NFTables_Collect cfg)
  | ContainerdC => Some (Containerd_Collect cfg)
  | KubernetesC => Some (Kubernetes_Collect cfg)
  | NodeadmC => Some (Nodeadm_Collect cfg)
  | SandboxC => Some (Sandbox_Collect cfg)
  | DiskC => Some (Disk_Collect cfg)
  | KernelC => Some (Kernel_Collect cfg)
  | SELinuxC => Some (SELinux_Collect cfg)
  | AutoModeC => Some (AutoMode_Collect cfg)
  | SystemC => System_Collect cfg
  | ThrottlesC => Some (Throttles_Collect cfg)
  | PressureC => Some (Pressure_Collect cfg)
  | PstoreC => Some (Pstore_Collect cfg)
  end.

(** The collectors in order, each with the text of its error. *)
Fixpoint collect_each (collectors : list Collector) : option (task (list (string * option string))) :=
  match collectors with
  | [] => Some (mret [])
  | c :: rest =>
      m ← Collect c;
      ms ← collect_each rest;
      Some (es ← m;
            results ← ms;
            mret ((collectorName c, match es with [] => None | _ => Some (Join es nl) end) :: results))
  end.
End Collection.

(** ** TarGzipDir *)

(** A step of [filepath.Walk]: the path; whether it is a directory, [None] when [Lstat]
    failed and there is no information; and its content, or the first error of its
    header, of opening, copying or closing it. *)
Record walk_step := mkStep { stepPath : string; stepDir : option bool; stepEntry : result string string }.

(** The entries of the archive; [None] is the panic of asking nothing whether it is a
    directory. *)
Fixpoint TarGzipDir (dir : string) (steps : list walk_step) : option (result string (list (string * string))) :=
  match steps with
  | [] => Some (Ok [])
  | s :: rest =>
      match stepDir s, stepEntry s with
      | None, _ => None
      | Some true, _ => TarGzipDir dir rest
      | Some false, Err e => Some (Err e)
      | Some false, Ok content =>
          r ← TarGzipDir dir rest;
          Some (entries <-? r;; Ok ((TrimPrefix (stepPath s) (dir +:+ "/"), content) :: entries))
      end
  end.

(** The walk of a destination that holds a bundle: its files, each once, and any
    directories. *)
Definition walks (m : gmap string string) (steps : list walk_step) : Prop :=
  Forall (λ s, stepDir s = Some true ∨
               (stepDir s = Some false ∧ ∃ c, m !! stepPath s = Some c ∧ stepEntry s = Ok c)) steps ∧
  ∀ p c, m !! p = Some c → mkStep p (Some false) (Ok c) ∈ steps.

Definition reportLog : string := "log-capture-errors.log".

(** [collectLogs] without its own errors: the collectors, then the report of those that
    failed when there are any, and how many. *)
Definition collect_and_report `{Host} `{Services} `{NetServices} (cfg : Config)
    (collectors : list Collector) : option (task Z) :=
  ms ← collect_each cfg collectors;
  Some (results ← ms;
        let '(buf, failed) := run_collectors results in
        _ ← (if String.eqb buf EmptyString then mret () else store (PathJoin [Destination cfg; reportLog]) buf);
        mret failed).

(** What [collectLogs] makes an accessor with. *)
Definition collect_config (rc : Config.RuntimeContext) (hostRoot logDir : string) : Config :=
  mkConfig hostRoot logDir (Config.tags rc ++ [Config.osDistro rc; Config.acceleratedHardware rc]) 0.

(** ** The collectors chosen *)

(** A collector is run when its category is asked for, or all are, in whatever order Go
    ranges over the map. *)
Lemma GetCollectors_spec ranged categories c :
  ranged ≡ₚ collectorMap →
  c ∈ GetCollectors ranged categories ↔
  ∃ category cs, (category, cs) ∈ collectorMap ∧ c ∈ cs ∧
    (LogCategoryAll ∈ categories ∨ category ∈ categories).
Proof.
  intros Hr. unfold GetCollectors. setoid_rewrite <- Hr. case_bool_decide as Ha.
  - rewrite list_elem_of_join. split.
    + intros (cs & Hc & ((k, cs') & -> & Hin)%list_elem_of_fmap). naive_solver.
    + intros (k & cs & Hin & Hc & _). exists cs. split; [done|]. by apply list_elem_of_fmap_2' with (k, cs).
  - rewrite list_elem_of_join. split.
    + intros (cs & Hc & ((k, cs') & -> & [Hk Hin]%list_elem_of_filter)%list_elem_of_fmap). naive_solver.
    + intros (k & cs & Hin & Hc & [?|Hk]); [done|]. exists cs. split; [done|].
      apply list_elem_of_fmap_2' with (k, cs); [|done]. by apply list_elem_of_filter.
Qed.

(** ** Confinement *)

#[local] Arguments PathJoin : simpl never.

Section Confinement.
Context `{Host} `{Services} `{NetServices} (cfg : Config) (ds : list string).
Hypothesis destination : Destination cfg = abs_path ds ∧ Forall kept ds.
Hypothesis host_named : ∀ path, named (node_at path).

#[local] Hint Extern 1 (writes_only _ (CopyFile _ _ _)) => (eapply writes_CopyFile; eassumption) : bundle.
#[local] Hint Extern 1 (writes_only _ (CopyDir _ _ _)) => (eapply writes_CopyDir; eassumption) : bundle.

Lemma writes_map {A} (f : A → task error) (l : list A) P :
  (∀ a, writes_only P (f a)) → writes_only P (join (map f l)).
Proof. intros Hf. apply writes_join, Forall_map, Forall_true, Hf. Qed.

Lemma writes_or_wrap P wrap m k :
  writes_only P m → writes_only P k → writes_only P (or_wrap wrap m k).
Proof. intros. unfold or_wrap. writes. Qed.

Lemma writes_ask_clusters clusters merr : writes_only (confined cfg) (ask_clusters cfg clusters merr).
Proof. revert merr. induction clusters; intros merr; simpl; writes. Qed.

#[local] Hint Resolve writes_ask_clusters : bundle.

(** The steps of a collector: its joins over lists, and the parts it is made of. *)
Ltac collector_step :=
  match goal with
  | |- writes_only _ (join (map _ _)) => apply writes_map; intros ?
  | |- writes_only _ (ask_clusters _ _ _) => apply writes_ask_clusters
  | |- writes_only _ (or_wrap _ _ _) => apply writes_or_wrap
  | |- writes_only _ (join (_ :: _)) => writes_step
  | |- writes_only _ (mbind _ _) => writes_step
  | |- writes_only _ (if _ then _ else _) => writes_step
  | |- writes_only _ (match _ with _ => _ end) => writes_step
  | |- writes_only _ (WriteOutput _ _ _) => apply writes_output
  | |- writes_only _ (appendOutput _ _ _) => apply writes_output
  | |- writes_only _ (CombinedOutput _) => apply writes_command
  | |- writes_only _ (CombinedOutputEnv _ _) => apply writes_command
  | |- writes_only _ (CommandOutput _ _ _ _) => apply writes_CommandOutput
  | |- writes_only _ (CopyFile _ _ _) => eapply writes_CopyFile; eassumption
  | |- writes_only _ (CopyDir _ _ _) => eapply writes_CopyDir; eassumption
  | |- writes_only _ (mret _) => apply writes_ret
  | |- writes_only _ (fail _) => apply writes_fail
  | |- writes_only _ ?t => let h := head_of t in unfold h
  end
with head_of t := lazymatch t with ?f _ => head_of f | ?f => f end.
Ltac collector := repeat collector_step.

(** A collector writes inside the destination. *)
Lemma writes_Collect c t : Collect cfg c = Some t → writes_only (confined cfg) t.
Proof.
  destruct c; simpl Collect; intros E; try (injection E as <-; collector).
  unfold System_Collect, top in E.
  destruct (Top topReadings) as [[text|e]|]; simplify_eq/=; collector.
Qed.

Lemma writes_collect_each collectors t :
  collect_each cfg collectors = Some t → writes_only (confined cfg) t.
Proof.
  revert t. induction collectors as [|c cs IH]; intros t E; simpl in E; [simplify_eq; apply writes_ret|].
  destruct (Collect cfg c) as [m|] eqn:Em; [|done]. simpl in E.
  destruct (collect_each cfg cs) as [ms|]; simplify_eq/=.
  apply writes_bind; [by eapply writes_Collect|]. intros es. apply writes_bind; [by apply IH|]. writes.
Qed.
End Confinement.


(** ** Every collector runs *)

Section Runs.
Context `{Host} `{Services} `{NetServices} (cfg : Config).

Lemma Collect_panics c : Collect cfg c = None ↔ c = SystemC ∧ Top topReadings = None.
Proof.
  destruct c; simpl; try (split; [done|by intros [? _]]).
  unfold System_Collect, top. destruct (Top topReadings) as [[|]|]; simpl; naive_solver.
Qed.

(** The agent panics in a collection exactly when the summary of the processes does. *)
Lemma collect_each_panics collectors :
  collect_each cfg collectors = None ↔ SystemC ∈ collectors ∧ Top topReadings = None.
Proof.
  induction collectors as [|c cs IH]; simpl; [split; [done|by intros [?%not_elem_of_nil _]]|].
  rewrite elem_of_cons. pose proof (Collect_panics c) as Hc. destruct (Collect cfg c) as [m|]; simpl.
  - destruct (collect_each cfg cs) as [ms|]; simpl; [|naive_solver].
    split; [done|]. intros [[<-|Hin] Ht]; [naive_solver|].
    assert (Some ms = None) by (by apply IH). done.
  - split; [|done]. intros _. destruct Hc as [[-> ?] _]; auto.
Qed.

(** Each collector has its turn, whatever those before it report. *)
Lemma collect_each_names collectors t b :
  collect_each cfg collectors = Some t → (t b).2.*1 = collectorName <$> collectors.
Proof.
  revert t b. induction collectors as [|c cs IH]; intros t b E; simpl in E; [by simplify_eq|].
  destruct (Collect cfg c) as [m|]; [|done]. simpl in E.
  destruct (collect_each cfg cs) as [ms|]; simplify_eq/=.
  unfold mbind, task_bind. destruct (m b) as [b1 es]. specialize (IH ms b1 eq_refl).
  destruct (ms b1) as [b2 results]. simpl in *. by f_equal.
Qed.
End Runs.

(** A hybrid node is not told apart by the collectors: the bootstrap marks it with the
    tag of [pkg/config], which is not the one the collectors look for, so that without the
    latter in the environment every collector that means to skip a hybrid node asks the
    metadata service and the endpoints that such a node does not have. *)
Theorem hybrid_not_skipped `{Host} `{Services} `{NetServices} rc n node rest hostRoot logDir :
  Startup.isHybridNode node = true →
  TagHybrid ∉ [Config.osDistro rc; Config.acceleratedHardware rc] ++ Config.tags rc →
  let rc' := (Startup.Bootstrap rc (replicate n Startup.NodeNotFound ++ Startup.Found node :: rest)).1 in
  let cfg := collect_config rc' hostRoot logDir in
  Startup.Hybrid ∈ Tags cfg ∧ hasAnyTag cfg [TagHybrid] = false ∧
  Region_Collect cfg = join [metadata cfg "/placement/region" "system/region.txt";
                             metadata cfg "/placement/availability-zone" "system/availability-zone.txt"].
Proof.
  intros Hn Ht rc' cfg.
  assert (Hrc : rc' = Config.AddTags rc [Startup.Hybrid]) by (subst rc'; by rewrite Startup.Bootstrap_found, Hn).
  assert (Htags : Tags cfg = (Config.tags rc ++ [Startup.Hybrid]) ++ [Config.osDistro rc; Config.acceleratedHardware rc]).
  { subst cfg. by rewrite Hrc. }
  assert (Hh : hasAnyTag cfg [TagHybrid] = false).
  { unfold hasAnyTag. cbn [existsb]. rewrite orb_false_r. apply bool_decide_eq_false. rewrite Htags.
    rewrite !elem_of_app, list_elem_of_singleton in *. intros [[?|?]|?]; [tauto|done|tauto]. }
  split; [rewrite Htags; apply elem_of_app; left; apply elem_of_app; right; by left|].
  split; [done|]. unfold Region_Collect. by rewrite Hh.
Qed.

(** ** The archive *)

Lemma TarGzipDir_walks dir (m : gmap string string) steps :
  Forall (λ s, stepDir s = Some true ∨
               (stepDir s = Some false ∧ ∃ c, m !! stepPath s = Some c ∧ stepEntry s = Ok c)) steps →
  ∃ entries, TarGzipDir dir steps = Some (Ok entries) ∧
    ∀ name c, (name, c) ∈ entries ↔
      ∃ s, s ∈ steps ∧ stepDir s = Some false ∧ stepEntry s = Ok c ∧ name = TrimPrefix (stepPath s) (dir +:+ "/").
Proof.
  induction 1 as [|s steps Hs _ (entries & IH & IHe)].
  { exists []. split; [done|]. intros ??. split; [by intros ?%not_elem_of_nil|].
    by intros (? & ?%not_elem_of_nil & _). }
  destruct Hs as [Hd|(Hd & c & Hm & He)].
  - exists entries. simpl. rewrite Hd. split; [done|]. intros name c'. rewrite IHe.
    split; intros (s' & Hin & ? & ?); exists s'; (split; [|done]); [by right|].
    apply elem_of_cons in Hin as [->|]; [congruence|done].
  - exists ((TrimPrefix (stepPath s) (dir +:+ "/"), c) :: entries). simpl. rewrite Hd, He, IH. split; [done|].
    intros name c'. rewrite elem_of_cons, IHe. split.
    + intros [[= -> ->]|(s' & Hin & ?)]; [exists s; split; [by left|done]|exists s'; split; [by right|done]].
    + intros (s' & Hin & Hd' & He' & ->). apply elem_of_cons in Hin as [->|Hin]; [left; congruence|].
      right. by exists s'.
Qed.

Lemma TrimPrefix_app p t : TrimPrefix (p +:+ t) p = t.
Proof.
  unfold TrimPrefix. by replace (CutPrefix (p +:+ t) p) with (Some t) by (symmetry; by apply CutPrefix_spec).
Qed.

Lemma TrimPrefix_below dir name : TrimPrefix (dir +:+ "/" +:+ name) (dir +:+ "/") = name.
Proof. rewrite sapp_assoc. apply TrimPrefix_app. Qed.

(** The archive holds the bundle: when the walk of the destination meets the files of
    the bundle, each readable and at a path below the destination, and any directories,
    [TarGzipDir] succeeds, and its entries are exactly the files of the bundle, each
    under its path relative to the destination. *)
Theorem archive_holds_bundle dir (m : gmap string string) steps :
  walks m steps → (∀ p c, m !! p = Some c → ∃ name, p = dir +:+ "/" +:+ name) →
  ∃ entries, TarGzipDir dir steps = Some (Ok entries) ∧
    ∀ name c, (name, c) ∈ entries ↔ m !! (dir +:+ "/" +:+ name) = Some c.
Proof.
  intros [Hs Hm] Hin. destruct (TarGzipDir_walks dir m steps Hs) as (entries & E & He).
  exists entries. split; [done|]. intros name c. rewrite He. split.
  - intros (s & Hsin & Hd & Hc & ->).
    apply (proj1 (Forall_forall _ _) Hs) in Hsin as [?|(_ & c' & Hm' & Hc')]; [congruence|].
    assert (c' = c) as -> by congruence.
    destruct (Hin _ _ Hm') as [name Hn]. rewrite Hn in Hm' |- *. by rewrite TrimPrefix_below.
  - intros Hc. eexists. split; [by apply Hm|]. simpl. split; [done|]. split; [done|].
    symmetry. apply TrimPrefix_below.
Qed.

(** ** Examples *)

Definition ex_collectors : list Collector := [NodeadmC; RegionC; SystemC; PstoreC; NvidiaC].

(** A host with an NVIDIA device, whose report is written to [/tmp]. *)
Definition ex_nvidia_cfg : Config := mkConfig "/host" "/tmp/logs" [TagNvidia] Minute.

Definition ex_nvidia_host : Host :=
  {| command := λ _ _ args, (Join args " " +:+ nl, None);
     command_writes := λ _ args, if bool_decide (head args = Some "nvidia-bug-report.sh")
                                then [("/tmp/nvidia-bug-report.log.gz", "report")] else [];
     node_at := λ _, ex_tree; Glob := λ _, Ok []; mountTable := Ok []; ctxText := "context canceled";
     opens := λ _, true; MkdirAll := λ _, None; Create := λ _, None; shortWrite := λ _ _, None |}.


Lemma archive_holds_bundle_witness :
  let m : gmap string string := {["/tmp/logs/a/b.txt" := "one"]} in
  ∃ entries, TarGzipDir "/tmp/logs" [mkStep "/tmp/logs" (Some true) (Err EmptyString);
                                     mkStep "/tmp/logs/a/b.txt" (Some false) (Ok "one")] = Some (Ok entries) ∧
    ("a/b.txt", "one") ∈ entries.
Proof.
  intros m. destruct (archive_holds_bundle "/tmp/logs" m
    [mkStep "/tmp/logs" (Some true) (Err EmptyString); mkStep "/tmp/logs/a/b.txt" (Some false) (Ok "one")])
    as (entries & E & He).
  - split.
    + constructor; [by left|]. constructor; [|constructor]. right. split; [reflexivity|].
      exists "one". split; reflexivity.
    + intros p c Hp. apply lookup_singleton_Some in Hp as [<- <-]. right. by left.
  - intros p c Hp. apply lookup_singleton_Some in Hp as [<- <-]. exists "a/b.txt". reflexivity.
  - exists entries. split; [exact E|]. apply He. reflexivity.
Defined.

Lemma hybrid_not_skipped_witness :
  let H := ex_line_host in let H0 := ex_services in let H1 := ex_net [] in
  let node := Startup.mkKubeNode "eks-hybrid:///a/b" ∅ in
  let rc := Config.mkRuntimeContext "linux" "none" [] in
  let cfg := collect_config (Startup.Bootstrap rc [Startup.Found node]).1 "/host" "/tmp/logs" in
  Startup.Hybrid ∈ Tags cfg ∧
  (Region_Collect cfg (alive ∅)).1 =
    alive (<["/tmp/logs/system/availability-zone.txt" := "value of /placement/availability-zone" +:+ nl]>
           {["/tmp/logs/system/region.txt" := "value of /placement/region" +:+ nl]}).
Proof.
  intros H H0 H1 node rc cfg.
  destruct (hybrid_not_skipped rc 0 node [] "/host" "/tmp/logs") as (Ht & _ & Hr);
    [reflexivity|apply (bool_decide_unpack _); vm_compute; exact I|].
  change (Region_Collect cfg = join [metadata cfg "/placement/region" "system/region.txt";
    metadata cfg "/placement/availability-zone" "system/availability-zone.txt"]) in Hr.
  split; [exact Ht|]. rewrite Hr. reflexivity.
Defined.
