(* ===== verification/Console.v ===== *)
(** * Console: the diagnostics written to the device console ([pkg/diagnostic/logger.go]).

    A cycle writes one section for each producer, through a writer that hands the bytes
    on in paced chunks.  A producer that does not return in time is left behind and
    skipped until it does. *)

From S2P Require Import Prelude GoStrings.

Definition lf : Ascii.ascii := byte_of 10.
Definition nl : string := String lf EmptyString.

(** ** pacedWriter *)

Definition consoleBytesPerSecond : nat := 32 * 1024.
Definition consoleWriteChunk : nat := 2 * 1024.

Section Paced.
(** [WaitN i] is the error of the limiter before the [i]th write; [write i p] what the
    device answers to it: how many bytes it took, and its error. *)
Context (WaitN : nat → option string) (write : nat → string → nat * option string).

(** The loop of [Write]: what is left of [p]; the chunks handed to the device, how many
    bytes it took, and the error.  [None] is a loop that has not ended. *)
Fixpoint paced_loop (fuel i chunk : nat) (p : string) : option (list string * nat * option string) :=
  match p with
  | EmptyString => Some ([], 0%nat, None)
  | _ =>
      match fuel with
      | O => None
      | S fuel' =>
          match WaitN i with
          | Some e => Some ([], 0%nat, Some e)
          | None =>
              let c := take_bytes chunk p in
              match write i c with
              | (n, Some e) => Some ([c], n, Some e)
              | (n, None) =>
                  '(cs, m, e) ← paced_loop fuel' (S i) chunk (drop_bytes n p);
                  Some (c :: cs, (n + m)%nat, e)
              end
          end
      end
  end.
(** The writer: the rate and the burst of its limiter, and its chunk. *)
Record pacedWriter := mkPaced { limiterRate : nat; limiterBurst : nat; chunk : nat }.

Definition newPacedWriter (bytesPerSecond chunkBytes : nat) : pacedWriter := mkPaced bytesPerSecond chunkBytes chunkBytes.

Definition pacedWrite (pw : pacedWriter) (p : string) : option (list string * nat * option string) :=
  paced_loop (String.length p) 0 (chunk pw) p.
End Paced.

(** ** tailx *)

(** [s] is the buffer from the byte before the next candidate. *)
Fixpoint after_line_feed (window s : string) : string :=
  match s with
  | String c s' =>
      match s' with
      | EmptyString => window
      | _ => if Ascii.eqb c lf then s' else after_line_feed window s'
      end
  | EmptyString => window
  end.

Definition tailx (buf : string) (n : nat) : string :=
  let headOfWindow := (String.length buf - n)%nat in
  if (headOfWindow =? 0)%nat then buf
  else after_line_feed (drop_bytes headOfWindow buf) (drop_bytes (headOfWindow - 1) buf).

Example tailx_ex :
  let buf := "one" +:+ nl +:+ "two" +:+ nl +:+ "three" +:+ nl in
  map (tailx buf) [100; 12; 10; 9; 4; 0]%nat =
  [buf; "two" +:+ nl +:+ "three" +:+ nl; "two" +:+ nl +:+ "three" +:+ nl; "three" +:+ nl; "ree" +:+ nl; EmptyString].
Proof. reflexivity. Qed.

(** ** The collectors of the sections *)

Definition maxTailReadBytes : Z := 256 * 1024.
Definition journalMaxLines : string := "2000".

(** [run] is what [exec.Cmd.Output] answers. *)
Definition commandOutput (run : list string → result string string) (args : list string) : string :=
  match run args with
  | Ok out => out
  | Err e => "failed to call " +:+ default EmptyString (head args) +:+ " due to: " +:+ e
  end.

Definition systemdStatus (run : list string → result string string) (services : list string) : string :=
  commandOutput run (["systemctl"; "status"; "--all"; "-n"; "0"] ++ services).

Definition journalctl (run : list string → result string string) (unit : string) : string :=
  commandOutput run ["journalctl"; "-o"; "short-iso-precise"; "--unit"; unit; "--lines"; journalMaxLines].

Definition cpuUsage (run : list string → result string string) : string := commandOutput run ["ps"; "aux"].
Definition diskUsage (run : list string → result string string) : string := commandOutput run ["df"; "-T"].
Definition dmesg (run : list string → result string string) : string := commandOutput run ["dmesg"].

Definition memoryUsage (file : result string string) : string :=
  match file with Ok out => out | Err e => "failed to read /pro/meminfo due to: " +:+ e end.

Record NetInterface := mkNetInterface {
  Index : Z; IfaceName : string; Addrs : list string; HardwareAddr : string; MTU : Z; Flags : string
}.

Definition interface_line (i : NetInterface) : string :=
  Itoa (Index i) +:+ " " +:+ IfaceName i +:+
  Join (map (λ a, " " +:+ a) (Addrs i)) EmptyString +:+
  (if (0 <? String.length (HardwareAddr i))%nat then " MAC: " +:+ HardwareAddr i else EmptyString) +:+
  " MTU: " +:+ Itoa (MTU i) +:+ " Flags: " +:+ Flags i +:+ nl.

Definition listNetworkInterfaces (interfaces : result string (list NetInterface)) : string :=
  match interfaces with
  | Err e => "failed to get network interfaces due to: " +:+ e
  | Ok ifs => Join (map interface_line ifs) EmptyString
  end.

(** A log file: its content, with the error of opening it, of asking its size, of moving
    to an offset, and of reading from there. *)
Record logFile := mkLogFile {
  openErr : option string; statErr : option string; seekErr : option string;
  fileBytes : string; readErr : option string
}.

Definition readFileTail (path : string) (f : logFile) (n : nat) : string :=
  let failed what e := "failed to " +:+ what +:+ " " +:+ path +:+ " due to: " +:+ e in
  match openErr f, statErr f with
  | Some e, _ => failed "read" e
  | None, Some e => failed "stat" e
  | None, None =>
      let size := String.length (fileBytes f) in
      match (if (n <? size)%nat then seekErr f else None), readErr f with
      | Some e, _ => failed "seek" e
      | None, Some e => failed "read" e
      | None, None => take_bytes n (drop_bytes (size - n) (fileBytes f))
      end
  end.

Definition ipamd (f : logFile) : string := readFileTail "/var/log/aws-routed-eni/ipamd.log" f (Z.to_nat maxTailReadBytes).

(** The client of the checks: its timeout, and that of an idle connection. *)
Definition apiServerTimeout : Duration := 5 * Second.
Definition apiServerIdleTimeout : Duration := 90 * Second.

Definition testAPIServerEndpoint (get : string → result string (result string string)) (host : string) : string :=
  match get (host +:+ "/livez?verbose") with
  | Err e => "failed to make request endpoint due to: " +:+ e +:+ nl
  | Ok (Err e) => "failed to read response body due to: " +:+ e +:+ nl
  | Ok (Ok body) => body
  end.

(** ** The logger *)

Definition sectionMarker : string := "NMA::LOG".
Definition defaultCollectorTimeout : Duration := 30 * Second.

Record Settings := mkSettings { LogInterval : Duration; ApiServerEndpoint : string; CollectorTimeout : Duration }.

(** [live] counts the goroutines of the producer that have not returned. *)
Record producer := mkProducer { name : string; running : bool; startedAt : Time; live : nat }.

Record diagnosticLogger := mkLogger { loggerSettings : Settings; producers : list producer; sectionBytes : nat }.

Definition producer_names : list string :=
  ["cpu"; "memory"; "disk"; "interfaces"; "ipamd"; "apiserver"; "dmesg"; "systemd"; "kubelet"; "containerd"].

Definition bufferLength : nat := 68 * 1000.
Definition headerBytes : nat := 40.
Definition constLengthSections : list nat := [1503; 1505; 2900; 5000]%nat.

(** [freeBytes / (len(producers) - len(constLengthSections))]. *)
Definition section_budget (n : nat) : nat :=
  ((bufferLength - (foldr Nat.add 0 constLengthSections + n * headerBytes)) / (n - length constLengthSections))%nat.

(** [kubeconfigHost] is the server of the recommended kubeconfig, when it loads. *)
Definition NewDiagnosticLogger (settings : Settings) (kubeconfigHost : option string) : diagnosticLogger :=
  let interval := if LogInterval settings <=? 0 then 5 * Minute else LogInterval settings in
  let timeout := if CollectorTimeout settings <=? 0 then defaultCollectorTimeout else CollectorTimeout settings in
  let endpoint := if String.eqb (ApiServerEndpoint settings) EmptyString then default EmptyString kubeconfigHost
                  else ApiServerEndpoint settings in
  mkLogger (mkSettings interval endpoint timeout) (map (λ n, mkProducer n false 0 0) producer_names)
    (section_budget (length producer_names)).

(** How a collector that was started ends the wait for it: with its data, because its time
    is over, or because the agent stops. *)
Inductive outcome := Finished (data : string) | TimedOut | Shutdown.

Definition seconds (d : Duration) : Duration := d - Z.rem d Second.

(** The producer after the call, and the section's data.  A collector that finishes has
    released the producer; one left behind has not. *)
Definition collect (timeout : Duration) (now : Time) (o : outcome) (p : producer) : producer * string :=
  if running p then
    (p, if startedAt p =? 0 then
          "collector " +:+ Quote (name p) +:+ " has not returned and is skipped until it does"
        else
          "collector " +:+ Quote (name p) +:+ " has not returned after " +:+
          DurationString (seconds (Sub now (startedAt p))) +:+ " and is skipped until it does")
  else
    match o with
    | Finished data => (mkProducer (name p) false now (live p), data)
    | Shutdown =>
        (mkProducer (name p) true now (S (live p)), "collector " +:+ Quote (name p) +:+ " did not finish before shutdown")
    | TimedOut =>
        (mkProducer (name p) true now (S (live p)),
         "collector " +:+ Quote (name p) +:+ " timed out after " +:+ DurationString timeout)
    end.

(** A collector that was left behind returns. *)
Definition release (p : producer) : producer := mkProducer (name p) false (startedAt p) (live p - 1).

Definition header (timestamp : string) (p : producer) : string :=
  Join [sectionMarker; timestamp; name p] "|".

(** The sections of a cycle: for each producer its time, as a timestamp and as a clock, and
    how its collector ends. *)
Fixpoint run_sections (timeout : Duration) (budget : nat) (ps : list producer)
    (answers : list (string * Time * outcome)) : list producer * list string :=
  match ps, answers with
  | p :: ps', (timestamp, now, o) :: answers' =>
      let '(p1, data) := collect timeout now o p in
      let '(ps1, sections) := run_sections timeout budget ps' answers' in
      (p1 :: ps1, (header timestamp p +:+ nl +:+ tailx data budget +:+ nl) :: sections)
  | _, _ => (ps, [])
  end.

(** One cycle; an error of the writer is logged, and the next section is written. *)
Definition RunOnce (l : diagnosticLogger) (answers : list (string * Time * outcome))
    : diagnosticLogger * list string :=
  let '(ps, sections) := run_sections (CollectorTimeout (loggerSettings l)) (sectionBytes l) (producers l) answers in
  (mkLogger (loggerSettings l) ps (sectionBytes l), sections).

(** The loop of the logger: [cycles] are the answers of each cycle, and whether the ticker
    fires after it, or the context is done.  What it wrote, and the error of the context if
    the loop ended. *)
Fixpoint Start (l : diagnosticLogger) (cycles : list (list (string * Time * outcome) * option string))
    : list (list string) * option string :=
  match cycles with
  | [] => ([], None)
  | (answers, wake) :: rest =>
      let '(l', sections) := RunOnce l answers in
      match wake with
      | Some err => ([sections], Some err)
      | None => let '(out, e) := Start l' rest in (sections :: out, e)
      end
  end.

(** The first cycle is written before the ticker is waited for, even when the context is
    done already, and the last one the loop ends after. *)
Lemma Start_cycles l cycles :
  length (Start l cycles).1 = match list_find (λ c, is_Some c.2) cycles with Some (i, _) => S i | None => length cycles end ∧
  (is_Some (Start l cycles).2 ↔ Exists (λ c, is_Some c.2) cycles).
Proof.
  revert l. induction cycles as [|[answers [err|]] rest IH]; intros l; simpl.
  - split; [done|]. by rewrite is_Some_alt, Exists_nil.
  - destruct (RunOnce l answers) as [l' ss]. simpl. split; [done|]. split; [intros _; by left|done].
  - destruct (RunOnce l answers) as [l' ss]. specialize (IH l'). destruct (Start l' rest) as [out e]. simpl in *.
    destruct IH as [H1 H2]. split.
    + destruct (list_find _ rest) as [[i c]|]; simpl; by rewrite H1.
    + rewrite H2, Exists_cons. simpl. split; [by right|intros [[? [=]]|?]; done].
Qed.

(** ** The writer hands on everything *)

Lemma take_bytes_length n s : String.length (take_bytes n s) = Nat.min n (String.length s).
Proof. revert s. induction n as [|n IH]; intros [|c s]; simpl; try lia. by rewrite IH. Qed.

Lemma drop_bytes_length n s : String.length (drop_bytes n s) = (String.length s - n)%nat.
Proof. revert s. induction n as [|n IH]; intros [|c s]; simpl; try lia. by rewrite IH. Qed.

Lemma take_bytes_all n s : (String.length s ≤ n)%nat → take_bytes n s = s.
Proof.
  revert s. induction n as [|n IH]; intros [|x s] Hs; simpl in *; try done; [lia|]. by rewrite IH by lia.
Qed.

(** A chunk and what is left of it. *)
Lemma take_drop_chunk chunk s :
  take_bytes chunk s +:+ drop_bytes (String.length (take_bytes chunk s)) s = s.
Proof.
  rewrite take_bytes_length. destruct (Nat.le_ge_cases chunk (String.length s)) as [Hle|Hge].
  - rewrite Nat.min_l by done. symmetry. apply take_drop_bytes.
  - rewrite Nat.min_r, (take_bytes_all chunk) by done.
    pose proof (take_drop_bytes (String.length s) s) as E. by rewrite take_bytes_all in E.
Qed.

Lemma chunk_count chunk n :
  (0 < chunk)%nat → (0 < n)%nat →
  ((n + chunk - 1) / chunk = S ((n - Nat.min chunk n + chunk - 1) / chunk))%nat.
Proof.
  intros Hc Hn. destruct (Nat.le_ge_cases chunk n) as [Hle|Hge].
  - rewrite Nat.min_l by done.
    replace (n + chunk - 1)%nat with (n - chunk + chunk - 1 + 1 * chunk)%nat by lia.
    rewrite Nat.div_add by lia. lia.
  - rewrite Nat.min_r by done. rewrite (Nat.div_small (n - n + chunk - 1)) by lia.
    replace (n + chunk - 1)%nat with (n - 1 + 1 * chunk)%nat by lia.
    rewrite Nat.div_add, Nat.div_small by lia. lia.
Qed.

(** The paced writer neither loses nor reorders a byte, and ends: on a device that takes
    what it is given, with a positive chunk and as many rounds as there are bytes, the
    chunks it hands on, none longer than the chunk size and none empty, are what it was
    given, their number is the length divided by the chunk size and rounded up, and it
    reports the whole length without an error. *)
Theorem paced_complete WaitN write fuel i chunk p :
  (∀ i, WaitN i = None) → (∀ i c, write i c = (String.length c, None)) → (0 < chunk)%nat →
  (String.length p ≤ fuel)%nat →
  ∃ cs, paced_loop WaitN write fuel i chunk p = Some (cs, String.length p, None) ∧
    Join cs EmptyString = p ∧ Forall (λ c, 0 < String.length c ≤ chunk)%nat cs ∧
    length cs = ((String.length p + chunk - 1) / chunk)%nat.
Proof.
  intros Hw Hd Hc. revert i p. induction fuel as [|fuel IH]; intros i p Hf.
  { destruct p; simpl in Hf; [|lia]. exists []. split_and!; [done..|]. simpl. symmetry. apply Nat.div_small. lia. }
  destruct p as [|b p].
  { exists []. split_and!; [done..|]. simpl. symmetry. apply Nat.div_small. lia. }
  remember (String b p) as q eqn:Hq. assert (0 < String.length q)%nat by (subst q; simpl; lia).
  set (c := take_bytes chunk q). assert (Hcl : String.length c = Nat.min chunk (String.length q)) by apply take_bytes_length.
  destruct (IH (S i) (drop_bytes (String.length c) q)) as (cs & E & Hj & Hl & Hn).
  { rewrite drop_bytes_length. lia. }
  exists (c :: cs). split_and!.
  - subst q. simpl paced_loop. rewrite Hw, Hd. fold c. rewrite E, drop_bytes_length. simpl. do 3 f_equal. cbn [String.length] in *. lia.
  - transitivity (c +:+ Join cs EmptyString); [destruct cs; simpl; [by rewrite sapp_nil_r|done]|].
    rewrite Hj. apply take_drop_chunk.
  - constructor; [lia|done].
  - simpl length. by rewrite Hn, drop_bytes_length, Hcl, <- chunk_count.
Qed.

Lemma paced_complete_witness :
  paced_loop (λ _, None) (λ _ c, (String.length c, None)) 7 0 3 "seven b" = Some (["sev"; "en "; "b"], 7%nat, None) ∧
  ∃ cs, paced_loop (λ _, None) (λ _ c, (String.length c, None)) 7 0 3 "seven b" = Some (cs, 7%nat, None) ∧
    Join cs EmptyString = "seven b".
Proof.
  split; [reflexivity|].
  destruct (paced_complete (λ _, None) (λ _ c, (String.length c, None)) 7 0 3 "seven b") as (cs & E & Hj & _);
    [reflexivity|reflexivity|lia|simpl; lia|]. exists cs. split; [exact E|exact Hj].
Defined.

(** ** tailx *)

Lemma suffix_below p s x t :
  p +:+ s = x +:+ t → (String.length t ≤ String.length s)%nat → ∃ x', s = x' +:+ t.
Proof.
  revert x. induction p as [|c p IH]; intros x E Hl; simpl in E; [by exists x|].
  destruct x as [|c' x]; simpl in E.
  - subst t. simpl in Hl. rewrite slength_app in Hl. lia.
  - injection E as -> E. by apply (IH x).
Qed.

(** The first line feed of [s] that is not its last byte, or none. *)
Lemma after_line_feed_spec window s :
  (after_line_feed window s = window ∧ ∀ x y, s = x +:+ nl +:+ y → y = EmptyString) ∨
  (∃ a, s = a +:+ nl +:+ after_line_feed window s ∧ after_line_feed window s ≠ EmptyString ∧
        ∀ x y, s = x +:+ nl +:+ y → (String.length y ≤ String.length (after_line_feed window s))%nat).
Proof.
  induction s as [|c s IH]; simpl.
  { left. split; [done|]. intros [|? x] y E; discriminate. }
  destruct s as [|d s].
  { left. split; [done|]. intros [|? [|? x]] y E; simplify_eq/=; done. }
  destruct (Ascii.eqb_spec c lf) as [->|Hc].
  - right. exists EmptyString. split; [done|]. split; [done|]. intros x y E.
    apply (f_equal String.length) in E. rewrite slength_app in E. simpl in *. lia.
  - destruct IH as [[E Hy]|(a & Ea & Hne & Hmax)].
    + left. split; [done|]. intros [|c' x] y Exy; simplify_eq/=. by apply (Hy x).
    + right. exists (String c a). split; [by rewrite Ea at 1|]. split; [done|].
      intros [|c' x] y Exy; simplify_eq/=. by apply (Hmax x).
Qed.

(** C40. The tail of a buffer fits and starts at a line: [tailx] returns a suffix of at most
    [n] bytes, the whole buffer when it fits; when it does not, the suffix is the longest
    one that fits, follows a line feed and is not empty, and only without such a suffix the
    last [n] bytes. *)
Theorem tailx_spec buf n :
  let r := tailx buf n in
  (∃ a, buf = a +:+ r) ∧ (String.length r ≤ n)%nat ∧
  ((String.length buf ≤ n)%nat → r = buf) ∧
  ((n < String.length buf)%nat →
     (r ≠ EmptyString ∧ (∃ a, buf = a +:+ nl +:+ r) ∧
      ∀ x y, buf = x +:+ nl +:+ y → (String.length y ≤ n)%nat → (String.length y ≤ String.length r)%nat) ∨
     (String.length r = n ∧ ∀ x y, buf = x +:+ nl +:+ y → (String.length y ≤ n)%nat → y = EmptyString)).
Proof.
  unfold tailx. destruct (Nat.eqb_spec (String.length buf - n) 0) as [Hz|Hz].
  { simpl. split; [by exists EmptyString|]. split; [lia|]. split; [done|lia]. }
  set (k := (String.length buf - n)%nat) in *. set (s := drop_bytes (k - 1) buf).
  assert (Hs : buf = take_bytes (k - 1) buf +:+ s) by apply take_drop_bytes.
  assert (Hls : String.length s = S n) by (unfold s; rewrite drop_bytes_length; lia).
  assert (Hin : ∀ x y, buf = x +:+ nl +:+ y → (String.length y ≤ n)%nat → ∃ x', s = x' +:+ nl +:+ y).
  { intros x y E Hy. rewrite Hs in E. apply (suffix_below _ _ _ _ E). rewrite slength_app. simpl. lia. }
  destruct (after_line_feed_spec (drop_bytes k buf) s) as [[-> Hno]|(a & Ea & Hne & Hmax)].
  - split; [exists (take_bytes k buf); apply take_drop_bytes|]. rewrite drop_bytes_length.
    split; [lia|]. split; [lia|]. intros _. right. split; [lia|].
    intros x y E Hy. destruct (Hin x y E Hy) as [x' Ex]. by eapply Hno.
  - set (r := after_line_feed _ s) in *.
    assert (Hr : (String.length r ≤ n)%nat).
    { apply (f_equal String.length) in Ea. rewrite !slength_app in Ea. simpl in Ea. lia. }
    assert (Hb : buf = (take_bytes (k - 1) buf +:+ a) +:+ nl +:+ r) by (rewrite <- sapp_assoc, <- Ea; exact Hs).
    split; [eexists; rewrite sapp_assoc in Hb; exact Hb|]. split; [done|]. split; [lia|]. intros _. left.
    split; [done|]. split; [by eexists|].
    intros x y E Hy. destruct (Hin x y E Hy) as [x' Ex]. by eapply Hmax.
Qed.

(** Reading only the end of a large log does not change its section, as long as the section
    is not longer than what is read and a line feed is in reach. *)
Lemma tailx_length buf n : (String.length (tailx buf n) ≤ n)%nat.
Proof. apply tailx_spec. Qed.

(** ** A cycle *)

(** A producer has a goroutine outstanding exactly while it is marked as running. *)
Definition producer_ok (p : producer) : Prop := live p = (if running p then 1 else 0)%nat.

Inductive producer_reachable (n : string) : producer → Prop :=
| producer_new : producer_reachable n (mkProducer n false 0 0)
| producer_collect timeout now o p :
    producer_reachable n p → producer_reachable n (collect timeout now o p).1
| producer_release p : producer_reachable n p → running p = true → producer_reachable n (release p).

(** C39. A wedged collector costs one goroutine: however many cycles pass, however their
    collectors end and whenever those left behind return, a producer never has more than
    one goroutine outstanding; while it has one a cycle does not start it, and once that one
    has returned a cycle starts it again. *)
Theorem one_outstanding n p :
  producer_reachable n p →
  name p = n ∧ (live p ≤ 1)%nat ∧ (live p = 1%nat ↔ running p = true) ∧
  (running p = true → (∀ timeout now o, (collect timeout now o p).1 = p) ∧ live (release p) = 0%nat) ∧
  (running p = false → ∀ timeout now, live (collect timeout now TimedOut p).1 = 1%nat ∧
     ∀ data, (collect timeout now (Finished data) p).2 = data).
Proof.
  intros Hr. assert (Hok : producer_ok p ∧ name p = n).
  { induction Hr as [|timeout now o p _ [IH Hn]|p _ [IH Hn] Hrun]; [done| |].
    - unfold collect. destruct (running p) eqn:E; [done|]. unfold producer_ok in *. rewrite E in IH.
      destruct o; simpl; by rewrite IH.
    - unfold producer_ok in *. rewrite Hrun in IH. simpl. split; [lia|done]. }
  destruct Hok as [Hok Hn]. unfold producer_ok in Hok. split; [done|].
  destruct p as [m [|] at_ l]; simpl in *; subst l; split_and!; try done; lia.
Qed.

Lemma one_outstanding_witness :
  let p := (collect Minute 5 TimedOut (mkProducer "disk" false 0 0)).1 in
  producer_reachable "disk" p ∧ (live p ≤ 1)%nat ∧ (collect Minute 9 (Finished "x") p).1 = p.
Proof.
  intros p. assert (Hp : producer_reachable "disk" p) by (constructor; constructor).
  split; [exact Hp|]. destruct (one_outstanding "disk" p Hp) as (_ & Hl & _ & Hr & _).
  split; [exact Hl|]. apply (Hr eq_refl).
Defined.

Lemma run_sections_names timeout budget ps answers :
  length answers = length ps →
  name <$> (run_sections timeout budget ps answers).1 = name <$> ps ∧
  length (run_sections timeout budget ps answers).2 = length ps.
Proof.
  revert answers. induction ps as [|p ps IH]; intros [|[[ts now] o] answers] Hl; simpl in *; try done.
  destruct (collect timeout now o p) as [p1 data] eqn:Ec.
  specialize (IH answers ltac:(lia)). destruct (run_sections timeout budget ps answers) as [ps1 ss].
  destruct IH as [E1 E2]. simpl in *. split; [|by rewrite E2]. f_equal; [|exact E1].
  unfold collect in Ec. destruct (running p); simplify_eq; [done|]. by destruct o; simplify_eq.
Qed.

(** Each section is its header and at most the budget. *)
Lemma run_sections_bodies timeout budget ps answers :
  Forall (λ s, ∃ h body, s = h +:+ nl +:+ body +:+ nl ∧ (String.length body ≤ budget)%nat)
    (run_sections timeout budget ps answers).2.
Proof.
  revert answers. induction ps as [|p ps IH]; intros [|[[ts now] o] answers]; simpl; try constructor.
  specialize (IH answers). destruct (collect timeout now o p) as [p1 data].
  destruct (run_sections timeout budget ps answers) as [ps1 ss]. simpl in *.
  constructor; [|done]. exists (header ts p), (tailx data budget). split; [done|apply tailx_length].
Qed.

Example budget_ex : section_budget (length producer_names) = Z.to_nat 9448.
Proof. vm_compute. reflexivity. Qed.

(** With every collector printing more than its budget a cycle is longer than the console
    buffer the budget is computed from: the sections taken to have a constant length are
    trimmed to the budget too, not to that length. *)
Example cycle_over_buffer :
  let l := NewDiagnosticLogger (mkSettings 0 EmptyString 0) None in
  let long := string_of_codes (replicate 9448 120%nat) in
  let sections := (RunOnce l (replicate 10 ("2025-01-01T00:00:00Z", 0, Finished long))).2 in
  Z.of_nat (String.length (Join sections EmptyString)) = 94866 ∧ 94866 > Z.of_nat bufferLength.
Proof. vm_compute. by split. Qed.
