(* ===== verification/Process.v ===== *)
(** * Process: the process of the agent ([cmd/eks-node-monitoring-agent/main.go]: [main],
    [run], the flags and the logger).

    [run] is a sequence of calls that ends at the first error.  Here it is a computation
    that keeps the flags (global variables in the code) and the trace of its effects, and
    that may return, panic, be ended by a library that exits or be killed by a signal;
    [main] turns that into what is written to the console and the status of the process.
    A signal may arrive at every call of the program: before [NotifyContext], after it,
    while the manager runs, and while the deferred function of [main] writes.  Not modelled:
    the loop of [startConsoleDiagnostics] may write to the device between those lines.
    The runnable that [run] hands to the manager is [Startup.start]. *)

From S2P Require Import Prelude GoStrings Paths Registry Config Startup Console.

(** ** The flags *)

Definition envNodeName : string := "MY_NODE_NAME".
Definition consoleFlushTimeout : Duration := 30 * Second.

Inductive flagValue := FString (s : string) | FBool (b : bool) | FInt (z : Z).

Record flagSpec := mkFlag { flagName : string; flagShort : string; flagDefault : flagValue }.

Record flags := mkFlags {
  enableConsoleDiagnostics : bool;
  controllerHealthProbeAddress : string;
  controllerMetricsAddress : string;
  controllerPprofAddress : string;
  hostname : string;
  verbosity : Z;
  legacyNodeRBAC : bool
}.

Definition no_flags : flags := mkFlags false EmptyString EmptyString EmptyString EmptyString 0 false.

Definition flagSet (Getenv : string → string) : list flagSpec :=
  [mkFlag "hostname-override" EmptyString (FString (Getenv envNodeName));
   mkFlag "console-diagnostics" "d" (FBool false);
   mkFlag "legacy-node-rbac" EmptyString (FBool false);
   mkFlag "probe-address" EmptyString (FString ":8081");
   mkFlag "metrics-address" EmptyString (FString ":8080");
   mkFlag "pprof-address" EmptyString (FString EmptyString);
   mkFlag "verbosity" "v" (FInt 2)].

(** The variable that a flag is bound to. *)
Definition set_flag (f : flags) (nv : string * flagValue) : flags :=
  let '(mkFlags d probe metrics pprof h v l) := f in
  match nv with
  | (n, FString s) =>
      if String.eqb n "hostname-override" then mkFlags d probe metrics pprof s v l
      else if String.eqb n "probe-address" then mkFlags d s metrics pprof h v l
      else if String.eqb n "metrics-address" then mkFlags d probe s pprof h v l
      else if String.eqb n "pprof-address" then mkFlags d probe metrics s h v l else f
  | (n, FBool b) =>
      if String.eqb n "console-diagnostics" then mkFlags b probe metrics pprof h v l
      else if String.eqb n "legacy-node-rbac" then mkFlags d probe metrics pprof h v b else f
  | (n, FInt z) => if String.eqb n "verbosity" then mkFlags d probe metrics pprof h z l else f
  end.

(** Binding a flag gives its variable the default; [Parse] is pflag's: the values it sets, in
    order, and the status it exits with if the arguments end the process. *)
Definition parseFlags (Getenv : string → string)
    (Parse : list flagSpec → list string → list (string * flagValue) * option Z) (args : list string)
    : flags * option Z :=
  let table := flagSet Getenv in
  let '(sets, ended) := Parse table args in
  (foldl set_flag (foldl set_flag no_flags (map (λ s, (flagName s, flagDefault s)) table)) sets, ended).

(** ** The logger *)

(** [zapcore.Level] is an int8. *)
Definition int8 (z : Z) : Z := (z + 128) mod 256 - 128.
Definition DebugLevel : Z := -1.
Definition ErrorLevel : Z := 2.

(** The threshold of the logger: it emits what is at its level or above. *)
Definition logger_level (verbosity : Z) : Z := int8 (- verbosity).
Definition emits (verbosity level : Z) : bool := logger_level verbosity <=? level.

(** [LevelString] is zap's; [V(n)] is level [-n]. *)
Definition clampLevel (LevelString : Z → string) (l : Z) : string :=
  LevelString (if l <? DebugLevel then DebugLevel else l).

(** ** run *)

Inductive signal := SIGINT | SIGTERM | SIGHUP.
#[global] Instance signal_eq_dec : EqDecision signal.
Proof. solve_decision. Defined.

(** [signal.NotifyContext(ctx, os.Interrupt)]. *)
Definition notified : list signal := [SIGINT].

Record Options := mkOptions { HealthProbeBindAddress : string; MetricsBindAddress : string; PprofBindAddress : string }.

Inductive event :=
| SetLogger (level : Z) (host : string)
| NotifyContext
| ConsoleLoop
| Setenv (name value : string)
| NewManager (o : Options)
| NewClient (c : RestConfig)
| RegisterRuntimePlugin (node : string)
| AddStartup (node : string)
| RegisterDiagnostics (node : string)
| AddHealthzCheck (name : string)
| AddReadyzCheck (name : string)
| StartManager.

#[global] Instance RestConfig_eq_dec : EqDecision RestConfig.
Proof. solve_decision. Defined.
#[global] Instance Options_eq_dec : EqDecision Options.
Proof. solve_decision. Defined.
#[global] Instance event_eq_dec : EqDecision event.
Proof. solve_decision. Defined.

(** How [run] ends. *)
Inductive stop := Return (e : option string) | Panic (e : string) | Exit (code : Z) | Killed (s : signal).

(** How the manager that was started ends: by itself, or at a signal to the process. *)
Inductive finish := Stops (e : option string) | Delivered (s : signal).

(** What the libraries and the host answer. *)
Record world := mkWorld {
  args : list string;
  Getenv : string → string;
  LookupEnv : string → option string;
  Parse : list flagSpec → list string → list (string * flagValue) * option Z;
  osHostname : result string string;
  GetRuntimeContext : result string RuntimeContext;
  GetConfigOrDie : RestConfig + Z;
  CreateManager : Options → RestConfig → result string RestConfig;
  ProvidePodConfig : result string RestConfig;
  CreateClient : RestConfig → result string ();
  ValidateAndRegister : result string ();
  AddRunnable : result string ();
  RegisterController : result string ();
  AddHealthz : result string ();
  AddReadyz : result string ();
  finishes : finish;
  on_cancel : option string;
  arrives : nat → option signal   (* the signal that comes at the n-th call of the process *)
}.

(** [clock] counts the calls, and [interrupted] is that the context of [run] was cancelled. *)
Record process := mkProcess { globals : flags; trace : list event; clock : nat; interrupted : bool }.
Definition newProcess : process := mkProcess no_flags [] 0 false.

Definition proc (A : Type) : Type := process → process * (A + stop).
Definition pret {A} (a : A) : proc A := λ s, (s, inl a).
Definition pbind {A B} (m : proc A) (k : A → proc B) : proc B :=
  λ s, match m s with (s', inl a) => k a s' | (s', inr e) => (s', inr e) end.
Definition halt {A} (e : stop) : proc A := λ s, (s, inr e).
Definition record (e : event) : proc () := λ s, (mkProcess (globals s) (trace s ++ [e]) (clock s) (interrupted s), inl tt).
Definition set_globals (f : flags) : proc () := λ s, (mkProcess f (trace s) (clock s) (interrupted s), inl tt).

Declare Scope proc_scope.
Delimit Scope proc_scope with proc.
Notation "x <-- m ;; k" := (pbind m (λ x, k)) (at level 100, m at next level, right associativity) : proc_scope.
Notation "m ;;; k" := (pbind m (λ _, k)) (at level 100, right associativity) : proc_scope.
Local Open Scope proc_scope.

Section Run.
Context (w : world).

(** A call, at which a signal may arrive: one that the context of [run] is notified of
    cancels it, and any other ends the process. *)
Definition point : proc () :=
  λ s, match arrives w (clock s) with
       | None => (mkProcess (globals s) (trace s) (S (clock s)) (interrupted s), inl tt)
       | Some sig =>
           if bool_decide (NotifyContext ∈ trace s ∧ sig ∈ notified)
           then (mkProcess (globals s) (trace s) (S (clock s)) true, inl tt)
           else (s, inr (Killed sig))
       end.

Definition effect (e : event) : proc () := point ;;; record e.

(** [if err != nil { return err }]. *)
Definition orReturn {A} (r : result string A) : proc A :=
  point ;;; match r with Ok a => pret a | Err e => halt (Return (Some e)) end.

Definition parse : proc flags :=
  point ;;;
  let '(f, ended) := parseFlags (Getenv w) (Parse w) (args w) in
  set_globals f ;;; match ended with Some code => halt (Exit code) | None => pret f end.

Definition runtime_context : proc RuntimeContext :=
  point ;;;
  match GetRuntimeContext w with
  | Ok rc => pret rc
  | Err e => halt (Panic ("failed to generate runtime context: " +:+ e))
  end.

Definition kube_config : proc RestConfig :=
  point ;;;
  match GetConfigOrDie w with inl c => pret c | inr code => halt (Exit code) end.

(** [mgr.Start(ctx)], the last call of [run]: with a context that is cancelled already, or
    until the manager stops or a signal arrives. *)
Definition start_manager : proc () :=
  effect StartManager ;;;
  λ s, (s, inr (if interrupted s then Return (on_cancel w)
                else match finishes w with
                     | Stops e => Return e
                     | Delivered sig => if bool_decide (sig ∈ notified) then Return (on_cancel w) else Killed sig
                     end)).

(** The parts of [run] after the flags are parsed: the host and its context, *)
Definition prepare (f : flags) : proc (string * RuntimeContext) :=
  host <-- orReturn (ensureHostname (hostname f) (osHostname w)) ;;
  effect (SetLogger (logger_level (verbosity f)) host) ;;;
  effect NotifyContext ;;;
  (if enableConsoleDiagnostics f then effect ConsoleLoop else pret tt) ;;;
  rc <-- runtime_context ;;
  match dbusAddress (LookupEnv w) with
  | Some address => effect (Setenv "DBUS_SYSTEM_BUS_ADDRESS" address)
  | None => pret tt
  end ;;;
  pret (host, rc).

(** the manager and the client that the agent monitors with, *)
Definition connect (f : flags) (rc : RuntimeContext) : proc () :=
  cfg <-- kube_config ;;
  let options := mkOptions (controllerHealthProbeAddress f) (controllerMetricsAddress f) (controllerPprofAddress f) in
  base <-- orReturn (CreateManager w options cfg) ;;
  effect (NewManager options) ;;;
  let monitorCfg := choose_config (tags rc) (legacyNodeRBAC f) base (ProvidePodConfig w) in
  _ <-- orReturn (CreateClient w monitorCfg) ;;
  effect (NewClient monitorCfg).

(** the runtime monitor and the runnable of the startup, *)
Definition add_startup (host : string) : proc () :=
  _ <-- orReturn (ValidateAndRegister w) ;;
  effect (RegisterRuntimePlugin host) ;;;
  _ <-- orReturn (AddRunnable w) ;;
  effect (AddStartup host).

(** and the diagnostic controller and the checks, before the manager starts. *)
Definition serve (host : string) : proc () :=
  _ <-- orReturn (RegisterController w) ;;
  effect (RegisterDiagnostics host) ;;;
  _ <-- orReturn (AddHealthz w) ;;
  effect (AddHealthzCheck "healthz") ;;;
  _ <-- orReturn (AddReadyz w) ;;
  effect (AddReadyzCheck "readyz") ;;;
  start_manager.

Definition run_with (f : flags) : proc () :=
  hr <-- prepare f ;; connect f hr.2 ;;; add_startup hr.1 ;;; serve hr.1.

Definition run : proc () := f <-- parse ;; run_with f.

(** ** main *)

(** The process as it is after [run], and the status it ends with. *)
Inductive status := Status (code : Z) | BySignal (s : signal).

(** What the deferred function writes: [console] is whether the device opens, and then how
    many bytes it takes of the n-th write ([None]: all), [kubeconfigHost] and [answers] what
    the sections of the cycle are made of; a file that is not open takes nothing.  [Must] is
    apimachinery's: the panic it raises for an error, if any. *)
Context (Must : option string → option string) (console : option (nat → option nat)) (kubeconfigHost : option string)
  (answers : list (string * Time * outcome)).

Definition cycle : list string := (RunOnce (NewDiagnosticLogger (mkSettings 0 EmptyString 0) kubeconfigHost) answers).2.

(** The device after the writes: what it took of each. *)
Definition landed (takes : nat → option nat) (text : list string) : list string :=
  imap (λ n t, match takes n with Some k => take_bytes k t | None => t end) text.

Definition openDevConsole (text : list string) : list (option string) :=
  match console with Some takes => map Some (landed takes text) | None => map (λ _, None) text end.

(** The writes from the n-th call on, and the status in the end: [run] has stopped the
    notification when it returned, so that any signal ends the process. *)
Fixpoint flush (n : nat) (text : list (option string)) (st : status) : list string * status :=
  match arrives w n with
  | Some sig => ([], BySignal sig)
  | None =>
      match text with
      | [] => ([], st)
      | t :: text' => let '(out, st') := flush (S n) text' st in (option_list t ++ out, st')
      end
  end.

(** [panicking] is the value of [recover]. *)
Definition deferred (s : process) (panicking : option string) : list string * status :=
  if enableConsoleDiagnostics (globals s) then
    match panicking with
    | Some r => flush (clock s) (openDevConsole (cycle ++ ["eks-node-monitoring-agent: " +:+ r])) (Status 1)
    | None => flush (clock s) (openDevConsole cycle) (Status 0)
    end
  else match panicking with Some _ => ([], Status 2) | None => ([], Status 0) end.

Definition main : process * (list string * status) :=
  let '(s, r) := run newProcess in
  (s, match r with
      | inl _ => deferred s (Must None)
      | inr (Return e) => deferred s (Must e)
      | inr (Panic e) => deferred s (Some e)
      | inr (Exit code) => ([], Status code)
      | inr (Killed sig) => ([], BySignal sig)
      end).

(** [startConsoleDiagnostics]: the logger of the loop, when the device opens. *)
Definition startConsoleDiagnostics : option diagnosticLogger :=
  if console then Some (NewDiagnosticLogger (mkSettings (5 * Minute) EmptyString 0) kubeconfigHost) else None.

End Run.

(** ** The logger's threshold *)

Lemma logger_level_range v : -127 <= v <= 128 → logger_level v = - v.
Proof. intros H. unfold logger_level, int8. rewrite Z.mod_small; lia. Qed.

(** Up to 128 the line [V(n)] is emitted iff [n] is at most the verbosity; from 129 to 253 the
    threshold wraps around, and not even errors are emitted. *)
Lemma verbosity_bounds v n :
  (-127 <= v <= 128 → emits v (- n) = (n <=? v)) ∧ (129 <= v <= 253 → emits v ErrorLevel = false).
Proof.
  split; intros H; unfold emits.
  - rewrite logger_level_range by lia. apply eq_true_iff_eq. rewrite !Z.leb_le. lia.
  - assert (E : logger_level v = 256 - v).
    { unfold logger_level, int8. replace (- v + 128) with (384 - v + (-1) * 256) by lia.
      rewrite Z.mod_add, Z.mod_small by lia. lia. }
    rewrite E. apply Z.leb_gt. unfold ErrorLevel. lia.
Qed.

(** A level is labelled as itself or, below debug, as debug. *)
Lemma clampLevel_spec f l : clampLevel f l = f (Z.max l DebugLevel).
Proof. unfold clampLevel. destruct (Z.ltb_spec l DebugLevel); f_equal; lia. Qed.

(** ** The order of the startup *)

Definition value {E A} (r : result E A) (d : A) : A := match r with Ok a => a | Err _ => d end.

(** The flags after the command line, and what [run] learns before it goes on. *)
Definition flags_of (w : world) : flags := (parseFlags (Getenv w) (Parse w) (args w)).1.
Definition host_of (w : world) : string := value (ensureHostname (hostname (flags_of w)) (osHostname w)) EmptyString.
Definition rc_of (w : world) : RuntimeContext := value (GetRuntimeContext w) (mkRuntimeContext EmptyString EmptyString []).
Definition options_of (w : world) : Options :=
  mkOptions (controllerHealthProbeAddress (flags_of w)) (controllerMetricsAddress (flags_of w)) (controllerPprofAddress (flags_of w)).
Definition no_rest : RestConfig := mkRest None None.
Definition base_of (w : world) : RestConfig :=
  match GetConfigOrDie w with inl c => value (CreateManager w (options_of w) c) no_rest | inr _ => no_rest end.

(** The effects of the parts, and of a startup that gets as far as the manager. *)
Definition prepare_events (w : world) : list event :=
  [SetLogger (logger_level (verbosity (flags_of w))) (host_of w)] ++ [NotifyContext] ++
  (if enableConsoleDiagnostics (flags_of w) then [ConsoleLoop] else []) ++
  match dbusAddress (LookupEnv w) with Some a => [Setenv "DBUS_SYSTEM_BUS_ADDRESS" a] | None => [] end.
Definition connect_events (w : world) : list event :=
  [NewManager (options_of w)] ++
  [NewClient (choose_config (tags (rc_of w)) (legacyNodeRBAC (flags_of w)) (base_of w) (ProvidePodConfig w))].
Definition add_events (w : world) : list event := [RegisterRuntimePlugin (host_of w)] ++ [AddStartup (host_of w)].
Definition serve_events (w : world) : list event :=
  [RegisterDiagnostics (host_of w)] ++ [AddHealthzCheck "healthz"] ++ [AddReadyzCheck "readyz"].
Definition startup_events (w : world) : list event :=
  prepare_events w ++ connect_events w ++ add_events w ++ serve_events w.

(** [run] gives up with an error, a panic, an exit, or a signal that its context is not
    notified of or that came before the notification. *)
Definition gives_up (s : process) (e : stop) : Prop :=
  match e with Return None => False | Killed sig => sig ∈ notified → NotifyContext ∉ trace s | _ => True end.

(** [m] has the effects [es] and goes on with a value of [P]; or it gives up after some of
    them; or it ends as [Q] allows, after all of them.  The flags stay as they are. *)
Definition performs {A} (m : proc A) (es : list event) (P : A → Prop) (Q : process → stop → Prop) : Prop :=
  ∀ s, match m s with
       | (s', inl a) => globals s' = globals s ∧ trace s' = trace s ++ es ∧ P a
       | (s', inr e) => globals s' = globals s ∧ ∃ es', trace s' = trace s ++ es' ∧ es' `prefix_of` es ∧
                        (gives_up s' e ∨ es' = es ∧ Q s' e)
       end.
Notation nowhere := (λ (_ : process) (_ : stop), False).

Lemma performs_bind {A B} (m : proc A) (k : A → proc B) es es' P P' Q :
  performs m es P nowhere → (∀ a, P a → performs (k a) es' P' Q) → performs (pbind m k) (es ++ es') P' Q.
Proof.
  intros Hm Hk s. unfold pbind. specialize (Hm s). destruct (m s) as [s1 [a|e]].
  - destruct Hm as (Hg & Ht & HP). specialize (Hk a HP s1). destruct (k a s1) as [s2 [b|e]].
    + destruct Hk as (-> & -> & ?). rewrite Ht. by rewrite (assoc_L app).
    + destruct Hk as (Hg2 & es1 & Ht2 & Hp & Hq). split; [congruence|]. exists (es ++ es1). rewrite Ht2, Ht, (assoc_L app).
      split_and!; [done|by apply prefix_app|]. destruct Hq as [|[-> ?]]; [by left|by right].
  - destruct Hm as (? & es1 & ? & ? & [?|[]]); [|done]. split; [done|]. exists es1.
    split_and!; [done|by apply prefix_app_r|by left].
Qed.

(** A call of [run] that has no effect. *)
Lemma performs_ask {A B} (m : proc A) (k : A → proc B) es P P' Q :
  performs m [] P nowhere → (∀ a, P a → performs (k a) es P' Q) → performs (pbind m k) es P' Q.
Proof. apply (performs_bind m k []). Qed.

Lemma performs_point w : performs (point w) [] (λ _, True) nowhere.
Proof.
  intros s. unfold point. destruct (arrives w (clock s)) as [sig|]; [|simpl; by rewrite app_nil_r].
  case_bool_decide as Hn; simpl; [by rewrite app_nil_r|]. split; [done|]. exists []. rewrite app_nil_r.
  split_and!; [done|done|left]. intros ? ?. by apply Hn.
Qed.

Lemma performs_pret {A} (a : A) (P : A → Prop) Q : P a → performs (pret a) [] P Q.
Proof. intros Ha s. simpl. by rewrite app_nil_r. Qed.

Lemma performs_nothing : performs (pret tt) [] (λ _, True) nowhere.
Proof. by apply performs_pret. Qed.

Lemma performs_effect w e : performs (effect w e) [e] (λ _, True) nowhere.
Proof. eapply performs_ask; [apply performs_point|intros _ _ s; done]. Qed.

Lemma performs_halt {A} e P Q : (∀ s, gives_up s e) → performs (@halt A e) [] P Q.
Proof. intros He s. simpl. split; [done|]. exists []. rewrite app_nil_r. split_and!; [done|done|left; apply He]. Qed.

(** A value that is asked for is the one the library answers. *)
Lemma performs_orReturn {A} w (r : result string A) d : performs (orReturn w r) [] (λ a, a = value r d) nowhere.
Proof.
  eapply performs_ask; [apply performs_point|intros _ _]. destruct r; [by apply performs_pret|by apply performs_halt].
Qed.

Lemma performs_context w : performs (runtime_context w) [] (λ rc, rc = rc_of w) nowhere.
Proof.
  eapply performs_ask; [apply performs_point|intros _ _]. unfold rc_of.
  destruct (GetRuntimeContext w); [by apply performs_pret|by apply performs_halt].
Qed.

Lemma performs_config w : performs (kube_config w) [] (λ c, GetConfigOrDie w = inl c) nowhere.
Proof.
  eapply performs_ask; [apply performs_point|intros _ _].
  destruct (GetConfigOrDie w); [by apply performs_pret|by apply performs_halt].
Qed.

(** How the manager leaves [run]. *)
Definition manager_ends (w : world) (s : process) (e : stop) : Prop :=
  match e with
  | Return r => interrupted s = true → r = on_cancel w
  | Killed sig => sig ∉ notified
  | _ => False
  end.

Lemma performs_manager w P : performs (start_manager w) [StartManager] P (manager_ends w).
Proof.
  unfold start_manager. apply (performs_bind (effect w StartManager) _ [StartManager] [] (λ _, True)); [apply performs_effect|].
  intros _ _ s. split; [done|]. exists []. rewrite app_nil_r. split_and!; [done|done|right; split; [done|]].
  destruct (interrupted s) eqn:Ei; [done|]. unfold manager_ends. destruct (finishes w) as [e|sig]; [congruence|].
  case_bool_decide; [congruence|done].
Qed.

Lemma performs_if w (b : bool) e : performs (if b then effect w e else pret tt) (if b then [e] else []) (λ _, True) nowhere.
Proof. destruct b; [apply performs_effect|apply performs_nothing]. Qed.

Lemma performs_case {X} w (o : option X) (e : X → event) :
  performs match o with Some x => effect w (e x) | None => pret tt end match o with Some x => [e x] | None => [] end (λ _, True) nowhere.
Proof. destruct o; [apply performs_effect|apply performs_nothing]. Qed.

Ltac asks d := eapply performs_ask; [apply (performs_orReturn _ _ d)|intros ? ->].
Ltac does := eapply performs_bind; [first [apply performs_effect|apply performs_if|apply performs_case]|intros _ _].

Lemma performs_prepare w : performs (prepare w (flags_of w)) (prepare_events w) (λ hr, hr = (host_of w, rc_of w)) nowhere.
Proof.
  unfold prepare, prepare_events. asks EmptyString. fold (host_of w). do 3 does.
  eapply performs_ask; [apply performs_context|intros ? ->].
  match goal with |- performs _ ?es _ _ => rewrite <-(app_nil_r es) end. does. by apply performs_pret.
Qed.

Lemma performs_connect w : performs (connect w (flags_of w) (rc_of w)) (connect_events w) (λ _, True) nowhere.
Proof.
  unfold connect, connect_events. eapply performs_ask; [apply performs_config|intros c Hc].
  replace (base_of w) with (value (CreateManager w (options_of w) c) no_rest) by (unfold base_of; by rewrite Hc).
  asks no_rest. does. asks tt. apply performs_effect.
Qed.

Lemma performs_add w : performs (add_startup w (host_of w)) (add_events w) (λ _, True) nowhere.
Proof. unfold add_startup, add_events. asks tt. does. asks tt. apply performs_effect. Qed.

Lemma performs_serve w P : performs (serve w (host_of w)) (serve_events w ++ [StartManager]) P (manager_ends w).
Proof.
  unfold serve, serve_events. rewrite <-!(assoc_L app). do 3 (asks tt; does). apply performs_manager.
Qed.

Lemma performs_run w :
  performs (run_with w (flags_of w)) (startup_events w ++ [StartManager]) (λ _, False) (manager_ends w).
Proof.
  unfold run_with, startup_events. rewrite <-!(assoc_L app).
  eapply performs_bind; [apply performs_prepare|intros ? ->]. eapply performs_bind; [apply performs_connect|intros _ _].
  eapply performs_bind; [apply performs_add|intros _ _]. apply performs_serve.
Qed.

(** What [main] leaves of [run]. *)
Lemma run_ends w s r :
  run w newProcess = (s, r) →
  ∃ e, r = inr e ∧ trace s `prefix_of` startup_events w ++ [StartManager] ∧
  (gives_up s e ∨ trace s = startup_events w ++ [StartManager] ∧ manager_ends w s e) ∧
  (∀ sig, e = Killed sig → trace s = [] ∨ globals s = flags_of w) ∧
  (match e with Killed _ => True | _ => globals s = flags_of w end).
Proof.
  unfold run, parse, pbind, set_globals, point. cbn [clock trace globals interrupted newProcess fst snd].
  assert (Hrun : ∀ c i s r, run_with w (flags_of w) (mkProcess (flags_of w) [] c i) = (s, r) →
    ∃ e, r = inr e ∧ trace s `prefix_of` startup_events w ++ [StartManager] ∧
    (gives_up s e ∨ trace s = startup_events w ++ [StartManager] ∧ manager_ends w s e) ∧ globals s = flags_of w).
  { intros c i s' r' E. pose proof (performs_run w (mkProcess (flags_of w) [] c i)) as H. rewrite E in H.
    destruct r' as [a|e]; [by destruct H as (_ & _ & [])|]. destruct H as (Hg & es' & Ht & ? & Hq). simpl in Ht.
    exists e. split; [done|]. rewrite Ht. split_and!; [done| |done]. destruct Hq as [?|[-> ?]]; [by left|by right]. }
  unfold flags_of in *. destruct (arrives w 0) as [sig|].
  - rewrite bool_decide_false by (intros [H _]; by apply elem_of_nil in H). intros [= <- <-].
    eexists. split_and!; [done|apply prefix_nil| | |done].
    + left. intros _ H. by apply elem_of_nil in H.
    + intros ? _. by left.
  - destruct (parseFlags _ _ _) as [f [code|]]; simpl in *.
    + intros [= <- <-]. eexists. split_and!; [done|apply prefix_nil|by left|done|done].
    + intros E. destruct (run_with w f _) as [s' r'] eqn:Er. simplify_eq.
      destruct (Hrun _ _ _ _ Er) as (e & -> & Hp & Hq & Hg). exists e. split_and!; [done|done|done|by right|by destruct e].
Qed.

Lemma not_started w : StartManager ∉ startup_events w.
Proof.
  unfold startup_events, prepare_events, connect_events, add_events, serve_events.
  rewrite !elem_of_app, !list_elem_of_singleton. intros H.
  destruct (enableConsoleDiagnostics (flags_of w)), (dbusAddress (LookupEnv w));
    rewrite ?list_elem_of_singleton, ?elem_of_nil in H; intuition discriminate.
Qed.

(** A first part of a list and one more is a first part of the list, or all of it. *)
Lemma prefix_snoc {A} (l : list A) x k : k `prefix_of` l ++ [x] ↔ k `prefix_of` l ∨ k = l ++ [x].
Proof.
  split; [|by intros [?| ->]; [apply prefix_app_r|]].
  intros [m Hm]. destruct m as [|y m _] using rev_ind; [right; by rewrite app_nil_r in Hm|].
  rewrite (assoc_L app) in Hm. apply app_inj_tail in Hm as [-> ->]. left. by exists m.
Qed.

(** The deferred writes: all of them with the status, or what was written when a signal came. *)
Lemma flush_ends w text n st out st' :
  flush w n text st = (out, st') →
  out `prefix_of` (text ≫= option_list) ∧
  ((st' = st ∧ out = text ≫= option_list) ∨ ∃ k sig, (n ≤ k)%nat ∧ arrives w k = Some sig ∧ st' = BySignal sig).
Proof.
  revert n out st'. induction text as [|t text IH]; intros n out st'; simpl.
  - destruct (arrives w n) as [sig|] eqn:Ea; intros [= <- <-]; (split; [done|]); [right|by left]. eauto.
  - destruct (arrives w n) as [sig|] eqn:Ea; [intros [= <- <-]; split; [apply prefix_nil|right; eauto]|].
    destruct (flush w (S n) text st) as [out1 st1] eqn:Ef. intros [= <- <-]. destruct (IH _ _ _ Ef) as [Hp Hq].
    split; [by apply prefix_app|]. destruct Hq as [[-> ->]|(k & sig & ? & ? & ->)]; [by left|right].
    exists k, sig. split_and!; [lia|done|done].
Qed.

Lemma flush_quiet w text n st : (∀ k, (n ≤ k)%nat → arrives w k = None) → flush w n text st = (text ≫= option_list, st).
Proof.
  revert n. induction text as [|t text IH]; intros n Hq; simpl; rewrite (Hq n) by done; [done|].
  rewrite IH; [done|]. intros k Hk. apply Hq. lia.
Qed.

(** C9. The startup is in order: whatever the flags, the host and the libraries answer, and
    whichever signals arrive at its calls, the effects of the process are a first part of one
    fixed sequence, in which the clients, the runtime monitor, the startup runnable, the
    diagnostic controller and both checks are set up before the manager starts.  The process
    ends well only when the whole sequence was done, or because a library ended it.  Once the
    context of [run] is notified, an interrupt does not end the process in [run]: a signal
    does so only before the notification, or when it is not an interrupt, or while the
    deferred function of [main] writes. *)
Theorem startup_in_order w Must console kubeconfigHost answers s out st :
  (∀ e, Must e = e) →
  main w Must console kubeconfigHost answers = (s, (out, st)) →
  trace s `prefix_of` startup_events w ++ [StartManager] ∧
  (StartManager ∈ trace s → trace s = startup_events w ++ [StartManager] ∧ AddReadyzCheck "readyz" ∈ trace s) ∧
  (st = Status 0 → StartManager ∈ trace s ∨ (run w newProcess).2 = inr (Exit 0)) ∧
  (∀ sig, st = BySignal sig →
     ((run w newProcess).2 = inr (Killed sig) ∧ (sig ∈ notified → NotifyContext ∉ trace s)) ∨
     ∃ n, (clock s ≤ n)%nat ∧ arrives w n = Some sig).
Proof.
  intros HM. unfold main. destruct (run w _) as [s' r] eqn:Er. intros E.
  destruct (run_ends w s' r Er) as (e & -> & Hp & Hq & _ & _).
  assert (s' = s) as -> by (by injection E). split; [done|].
  assert (Hin : trace s = startup_events w ++ [StartManager] → StartManager ∈ trace s).
  { intros ->. apply elem_of_app. right. apply list_elem_of_here. }
  assert (Hall : StartManager ∈ trace s → trace s = startup_events w ++ [StartManager]).
  { intros Hs. destruct (prefix_snoc (startup_events w) StartManager (trace s)) as [H _]. destruct (H Hp) as [Hx|Hx]; [|done].
    exfalso. destruct Hx as [l Hl]. apply (not_started w). rewrite Hl. apply elem_of_app. by left. }
  assert (Hdef : ∀ p, deferred w console kubeconfigHost answers s p = (out, st) →
    st = Status (match p with Some _ => if enableConsoleDiagnostics (globals s) then 1 else 2 | None => 0 end) ∨
    ∃ k sig, (clock s ≤ k)%nat ∧ arrives w k = Some sig ∧ st = BySignal sig).
  { intros p. unfold deferred. destruct (enableConsoleDiagnostics _), p; intros Hd;
      try (apply flush_ends in Hd as [_ [[-> _]|Hk]]; [by left|by right]); simplify_eq; by left. }
  split_and!.
  - intros Hs%Hall. split; [done|]. rewrite Hs. apply elem_of_app. left. unfold startup_events, serve_events. rewrite !elem_of_app. set_solver.
  - intros ->. destruct e as [[e|]|e|code|sig]; rewrite ?HM in E; apply (f_equal snd) in E; simpl in E.
    + destruct (Hdef _ E) as [H|(? & ? & _ & _ & ?)]; [|done]. by destruct (enableConsoleDiagnostics _).
    + left. destruct Hq as [[]|[? _]]. by apply Hin.
    + destruct (Hdef _ E) as [H|(? & ? & _ & _ & ?)]; [|done]. by destruct (enableConsoleDiagnostics _).
    + simplify_eq. by right.
    + done.
  - intros sig ->. destruct e as [[e|]|e|code|sig']; rewrite ?HM in E; apply (f_equal snd) in E; simpl in E.
    1-3: destruct (Hdef _ E) as [H|(k & sg & ? & ? & [= ->])]; [by destruct (enableConsoleDiagnostics _)|right; eauto].
    + done.
    + left. simplify_eq. split; [done|]. destruct Hq as [Hg|[_ Hm]]; [done|]. intros ?. by destruct Hm.
Qed.

(** ** The console on the way out *)

(** The section of a producer: its header, with some timestamp, and a body that fits. *)
Definition section_of (budget : nat) (n sec : string) : Prop :=
  ∃ timestamp body, sec = Join [sectionMarker; timestamp; n] "|" +:+ nl +:+ body +:+ nl ∧ (String.length body ≤ budget)%nat.

Lemma run_sections_each timeout budget ps answers :
  length answers = length ps →
  Forall2 (section_of budget) (name <$> ps) (run_sections timeout budget ps answers).2.
Proof.
  revert answers. induction ps as [|p ps IH]; intros [|[[ts now] o] answers] Hl; simpl in *; try done.
  destruct (collect timeout now o p) as [p1 data]. specialize (IH answers ltac:(lia)).
  destruct (run_sections timeout budget ps answers) as [ps1 ss]. constructor; [|exact IH].
  exists ts, (tailx data budget). split; [done|apply tailx_length].
Qed.

Lemma cycle_sections kubeconfigHost answers :
  length answers = length producer_names →
  Forall2 (section_of (section_budget (length producer_names))) producer_names (cycle kubeconfigHost answers).
Proof.
  intros Hl. unfold cycle, RunOnce. set (l := NewDiagnosticLogger _ _).
  pose proof (run_sections_each (CollectorTimeout (loggerSettings l)) (sectionBytes l) (producers l) answers Hl) as H.
  by destruct (run_sections _ _ _ _) as [ps ss].
Qed.

Lemma landed_all text : landed (λ _, None) text = text.
Proof. unfold landed. rewrite <-(list_fmap_id text) at 2. by rewrite <-imap_const. Qed.

(** What the device holds of the writes, when it is open, and that a file that is not takes
    nothing. *)
Lemma open_writes takes text : openDevConsole (Some takes) text ≫= option_list = landed takes text.
Proof. unfold openDevConsole. induction (landed takes text) as [|t l IH]; [done|]. simpl. by f_equal. Qed.

Lemma flush_nothing w n text st : (flush w n (openDevConsole None text) st).1 = [].
Proof.
  revert n. induction text as [|t text IH]; intros n; simpl; destruct (arrives w n); try done.
  specialize (IH (S n)). unfold openDevConsole in IH. by destruct (flush w (S n) _ st).
Qed.

(** C10. An agent that stops by itself with the console enabled leaves on the console a section
    for each of the ten collectors, whatever becomes of them, each within its budget; after
    an error or a panic the last line names it and the status is 1, and otherwise the status
    is 0 and nothing follows.  Of each write the device keeps what it takes ([landed]; all, by
    [landed_all], when no write fails); a signal during the writes ends them with what was
    written by then, and nothing else does. *)
Theorem crash_on_console w Must takes kubeconfigHost answers s e :
  (∀ e, Must e = e) → length answers = length producer_names →
  enableConsoleDiagnostics (flags_of w) = true →
  run w newProcess = (s, inr e) →
  match e with Return _ | Panic _ => True | _ => False end →
  ∃ sections,
    Forall2 (section_of (section_budget (length producer_names))) producer_names sections ∧
    let '(text, status) := match e with
                           | Return (Some r) | Panic r => (sections ++ ["eks-node-monitoring-agent: " +:+ r], Status 1)
                           | _ => (sections, Status 0)
                           end in
    (main w Must None kubeconfigHost answers).2.1 = [] ∧
    (main w Must (Some takes) kubeconfigHost answers).2.1 `prefix_of` landed takes text ∧
    ((∀ n, (clock s ≤ n)%nat → arrives w n = None) →
     (main w Must (Some takes) kubeconfigHost answers).2 = (landed takes text, status)).
Proof.
  intros HM Hl Hf Er He. exists (cycle kubeconfigHost answers). split; [by apply cycle_sections|].
  destruct (run_ends w s (inr e) Er) as (e' & [= <-] & _ & _ & _ & Hg).
  assert (Hflush : ∀ text st, (flush w (clock s) (openDevConsole (Some takes) text) st).1 `prefix_of` landed takes text ∧
    ((∀ n, (clock s ≤ n)%nat → arrives w n = None) →
     flush w (clock s) (openDevConsole (Some takes) text) st = (landed takes text, st))).
  { intros text st. split; [|intros Hq; by rewrite flush_quiet, open_writes].
    destruct (flush w _ _ st) as [out st'] eqn:E. apply flush_ends in E as [Hp _]. by rewrite open_writes in Hp. }
  unfold main. rewrite Er. unfold deferred.
  destruct e as [[r|]|r|code|sig]; try done; rewrite ?HM, Hg, Hf; (split; [apply flush_nothing|apply Hflush]).
Qed.

(** A library that ends the process leaves nothing on the console: so it is for flags that do
    not parse and for a client configuration that cannot be read. *)
Lemma exit_is_silent w Must console kubeconfigHost answers s code :
  run w newProcess = (s, inr (Exit code)) →
  (main w Must console kubeconfigHost answers).2 = ([], Status code).
Proof. intros E. unfold main. by rewrite E. Qed.

(** ** Instances *)

Definition ex_answers : list (string * Time * outcome) := replicate 10 ("t", 1, Finished "x").

(** The console is enabled; [manager] is what creating the manager answers. *)
Definition ex_world (config : RestConfig + Z) (manager : result string RestConfig) (f : finish) (sigs : nat → option signal) : world :=
  mkWorld ["-d"] (λ _, "node-1") (λ _, None) (λ _ _, ([("console-diagnostics", FBool true)], None)) (Err "no name")
    (Ok (mkRuntimeContext "linux" "none" [])) config (λ _ _, manager) (Err "no host kubeconfig") (λ _, Ok tt) (Ok tt) (Ok tt) (Ok tt)
    (Ok tt) (Ok tt) f None sigs.
Definition quiet : nat → option signal := λ _, None.
Definition open_device : option (nat → option nat) := Some (λ _, None).

Example config_exit_silent :
  (main (ex_world (inr 1) (Ok no_rest) (Stops None) quiet) (λ e, e) open_device None ex_answers).2 = ([], Status 1).
Proof. eapply exit_is_silent. vm_compute. reflexivity. Qed.

(** A termination request is not one of the signals that stop the agent in order: neither
    while the manager runs nor during the startup. *)
Example terminated_silent :
  (main (ex_world (inl no_rest) (Ok no_rest) (Delivered SIGTERM) quiet) (λ e, e) open_device None ex_answers).2 = ([], BySignal SIGTERM) ∧
  (main (ex_world (inl no_rest) (Ok no_rest) (Stops None) (λ n, if decide (n = 4%nat) then Some SIGTERM else None))
     (λ e, e) open_device None ex_answers).2 = ([], BySignal SIGTERM).
Proof. split; vm_compute; reflexivity. Qed.

(** An interrupt during the startup: before the notification it ends the process, and after
    it the startup goes on. *)
Definition interrupt_at (k n : nat) : option signal := if decide (n = k) then Some SIGINT else None.

Example interrupted_startup :
  let result k := main (ex_world (inl no_rest) (Ok no_rest) (Stops (Some "x")) (interrupt_at k)) (λ e, e) open_device None ex_answers in
  (result 1%nat).2 = ([], BySignal SIGINT) ∧
  bool_decide (StartManager ∈ trace (result 9%nat).1) = true ∧ (result 9%nat).2.2 = Status 0.
Proof. vm_compute. by split_and!. Qed.

Lemma startup_in_order_witness :
  let w := ex_world (inl no_rest) (Ok no_rest) (Delivered SIGINT) quiet in
  let r := main w (λ e, e) open_device None ex_answers in
  r.2.2 = Status 0 ∧ trace r.1 = startup_events w ++ [StartManager].
Proof.
  intros w r. destruct r as [s [out st]] eqn:E.
  destruct (startup_in_order w (λ e, e) open_device None ex_answers s out st (λ _, eq_refl) E) as (_ & Hs & H0 & _).
  assert (st = Status 0) as ->.
  { change st with (s, (out, st)).2.2. rewrite <-E. vm_compute. reflexivity. }
  split; [done|]. apply Hs. destruct (H0 eq_refl) as [H|H]; [exact H|]. vm_compute in H. discriminate.
Defined.

Lemma crash_on_console_witness :
  ∃ sections, length sections = 10%nat ∧
    (main (ex_world (inl no_rest) (Err "no server") (Stops None) quiet) (λ e, e) open_device None ex_answers).2 =
    (sections ++ ["eks-node-monitoring-agent: no server"], Status 1).
Proof.
  set (w := ex_world (inl no_rest) (Err "no server") (Stops None) quiet).
  assert (Hr : (run w newProcess).2 = inr (Return (Some "no server"))) by (vm_compute; reflexivity).
  destruct (run w newProcess) as [s r] eqn:Er. simpl in Hr. subst r.
  assert (Hf : enableConsoleDiagnostics (flags_of w) = true) by (vm_compute; reflexivity).
  destruct (crash_on_console w (λ e, e) (λ _, None) None ex_answers s (Return (Some "no server")) (λ _, eq_refl) eq_refl Hf Er I)
    as (sections & Hs & _ & _ & E).
  exists sections. split; [by rewrite <-(Forall2_length _ _ _ Hs)|].
  rewrite landed_all in E. apply E. intros n _. reflexivity.
Defined.
